(** * Rookie move generator: board, make/unmake, SEE and generator

    A shallow embedding of the chess board core of the Rookie engine
    (Source/board.h, intern.h, attack.c, move.c, capture.c, promote.c,
    castle.c, enpassant.c, exchange.c, generate.c, layout.c, rmoves.c and
    the table generator makeData.c), followed by the properties proved
    about it.

    Conventions of the embedding.
    - C integers are [Z].  Where the C type can wrap in a way that the
      code may observe (the [short] knight counters, the [unsigned char]
      halfmove clock, the 64-bit hashes and material key) the wrap-around
      is written out.
    - Fixed-size C arrays are lists read with [zget] and written with
      [zset]; an index outside the array reads the default element and a
      write outside the array is dropped.
    - [assert] is compiled out (NDEBUG build): the functions are total.
    - Loops that the C code bounds only through the board invariants
      (walking along a ray until a piece is met) carry a fuel of one
      board diagonal; when the fuel runs out the walk stops where it is. *)

From Stdlib Require Import ZArith Lia List Bool String Ascii.
From stdpp Require Import base list.
Import ListNotations.
Local Open Scope Z_scope.

(** ** Arrays *)

Definition zget {A : Type} (d : A) (l : list A) (i : Z) : A :=
  if i <? 0 then d else default d (l !! Z.to_nat i).

Definition zset {A : Type} (l : list A) (i : Z) (v : A) : list A :=
  if i <? 0 then l else <[Z.to_nat i := v]> l.

Definition zeros (n : nat) : list Z := replicate n 0.

(** The squares 0..63 in increasing order, as the C loops visit them. *)
Definition all_squares : list Z := seqZ 0 64.

(** ** Bit loops

    [do { dir -= dirs; dir &= dirs; dirs -= dir; BODY } while (dirs != 0)]
    peels the set bits of [dirs] from the lowest upwards. *)

Fixpoint bits_do_while {S : Type} (fuel : nat) (body : Z -> S -> S)
    (dir dirs : Z) (s : S) : S :=
  match fuel with
  | O => s
  | Datatypes.S n =>
      let dir := Z.land (dir - dirs) dirs in
      let dirs := dirs - dir in
      let s := body dir s in
      if dirs =? 0 then s else bits_do_while n body dir dirs s
  end.

(** [dir = 0; while (dirs != 0) { dir -= dirs; ...; BODY }] *)
Definition bits_while {S : Type} (fuel : nat) (body : Z -> S -> S)
    (dirs : Z) (s : S) : S :=
  if dirs =? 0 then s else bits_do_while fuel body 0 dirs s.

(** ** Board geometry (board.h) *)

Definition BOARD_SIZE : Z := 64.

Definition BOARD_SQUARE (file rank : Z) : Z := Z.lor (Z.shiftl file 3) rank.
Definition BOARD_RANK (square : Z) : Z := Z.land square 7.
Definition BOARD_FILE (square : Z) : Z := Z.shiftr square 3.
Definition BOARD_SQUARE_IS_VALID (square : Z) : bool :=
  (0 <=? square) && (square <? 64).
Definition BOARD_SQUARE_IS_LIGHT (sq : Z) : bool :=
  Z.land (Z.lxor (BOARD_RANK sq) (BOARD_FILE sq)) 1 =? 1.

Definition BOARD_RANK_1 := 0.
Definition BOARD_RANK_2 := 1.
Definition BOARD_RANK_3 := 2.
Definition BOARD_RANK_4 := 3.
Definition BOARD_RANK_5 := 4.
Definition BOARD_RANK_6 := 5.
Definition BOARD_RANK_7 := 6.
Definition BOARD_RANK_8 := 7.

Definition BOARD_FILE_A := 0.
Definition BOARD_FILE_B := 1.
Definition BOARD_FILE_C := 2.
Definition BOARD_FILE_D := 3.
Definition BOARD_FILE_E := 4.
Definition BOARD_FILE_F := 5.
Definition BOARD_FILE_G := 6.
Definition BOARD_FILE_H := 7.

Definition A1 := 0.
Definition A4 := 3.
Definition A6 := 5.
Definition A7 := 6.
Definition A8 := 7.
Definition B1 := 8.
Definition C1 := 16.
Definition D1 := 24.
Definition E1 := 32.
Definition F1 := 40.
Definition G1 := 48.
Definition H1 := 56.
Definition B8 := 15.
Definition C8 := 23.
Definition D8 := 31.
Definition E8 := 39.
Definition F8 := 47.
Definition G8 := 55.
Definition H8 := 63.
Definition D3 := 26.
Definition D4 := 27.
Definition D5 := 28.
Definition E2 := 33.
Definition E3 := 34.
Definition E4 := 35.
Definition E5 := 36.
Definition F3 := 42.
Definition F4 := 43.
Definition F5 := 44.
Definition G4 := 51.
Definition H5 := 60.

Definition BOARD_VECTOR_NORTH     := E5 - E4.
Definition BOARD_VECTOR_EAST      := F4 - E4.
Definition BOARD_VECTOR_SOUTH     := E3 - E4.
Definition BOARD_VECTOR_WEST      := D4 - E4.
Definition BOARD_VECTOR_NORTHEAST := F5 - E4.
Definition BOARD_VECTOR_NORTHWEST := D5 - E4.
Definition BOARD_VECTOR_SOUTHEAST := F3 - E4.
Definition BOARD_VECTOR_SOUTHWEST := D3 - E4.

(** ** Pieces (enum board_piece) *)

Inductive board_piece : Type :=
  | board_empty
  | board_white_king | board_black_king
  | board_white_king_castle | board_black_king_castle
  | board_white_knight | board_black_knight
  | board_white_pawn_rank2 | board_black_pawn_rank7
  | board_white_pawn | board_black_pawn
  | board_white_pawn_rank7 | board_black_pawn_rank2
  | board_white_bishop_light | board_black_bishop_light
  | board_white_bishop_dark | board_black_bishop_dark
  | board_white_rook | board_black_rook
  | board_white_rook_castle | board_black_rook_castle
  | board_white_queen | board_black_queen.

Definition piece_code (pc : board_piece) : Z :=
  match pc with
  | board_empty => 0
  | board_white_king => 2 | board_black_king => 3
  | board_white_king_castle => 4 | board_black_king_castle => 5
  | board_white_knight => 6 | board_black_knight => 7
  | board_white_pawn_rank2 => 8 | board_black_pawn_rank7 => 9
  | board_white_pawn => 10 | board_black_pawn => 11
  | board_white_pawn_rank7 => 12 | board_black_pawn_rank2 => 13
  | board_white_bishop_light => 14 | board_black_bishop_light => 15
  | board_white_bishop_dark => 16 | board_black_bishop_dark => 17
  | board_white_rook => 18 | board_black_rook => 19
  | board_white_rook_castle => 20 | board_black_rook_castle => 21
  | board_white_queen => 22 | board_black_queen => 23
  end.

Definition piece_eqb (a b : board_piece) : bool := piece_code a =? piece_code b.

Definition board_neutral : Z := -1.
Definition board_white : Z := 0.
Definition board_black : Z := 1.

Definition BOARD_PIECE_COLOR (pc : board_piece) : Z :=
  match pc with
  | board_empty => -1
  | _ => Z.land (piece_code pc) 1
  end.

(** ** Attack bits (enum board_attack) *)

Definition board_attack_north     : Z := 0x0001.
Definition board_attack_northeast : Z := 0x0002.
Definition board_attack_east      : Z := 0x0004.
Definition board_attack_southeast : Z := 0x0008.
Definition board_attack_south     : Z := 0x0010.
Definition board_attack_southwest : Z := 0x0020.
Definition board_attack_west      : Z := 0x0040.
Definition board_attack_northwest : Z := 0x0080.
Definition board_attack_king      : Z := 0x0100.
Definition board_attack_pawn_west : Z := 0x0200.
Definition board_attack_pawn_east : Z := 0x0400.
Definition board_attack_knight    : Z := 0x0800.

Definition BOARD_ATTACK_PAWN : Z :=
  Z.lor board_attack_pawn_west board_attack_pawn_east.
Definition BOARD_ATTACK_VERTICAL : Z :=
  Z.lor board_attack_north board_attack_south.
Definition BOARD_ATTACK_HORIZONTAL : Z :=
  Z.lor board_attack_west board_attack_east.
Definition BOARD_ATTACK_ROOK : Z :=
  Z.lor (Z.lor board_attack_north board_attack_east)
        (Z.lor board_attack_south board_attack_west).
Definition BOARD_ATTACK_BISHOP : Z :=
  Z.lor (Z.lor board_attack_northeast board_attack_southeast)
        (Z.lor board_attack_southwest board_attack_northwest).
Definition BOARD_ATTACK_QUEEN : Z := Z.lor BOARD_ATTACK_ROOK BOARD_ATTACK_BISHOP.

Definition BOARD_ATTACK_REVERSE (dir : Z) : Z :=
  Z.land (Z.lor (Z.shiftl dir 4) (Z.shiftr dir 4)) BOARD_ATTACK_QUEEN.

(** ** Shared internals (intern.h) *)

Definition jump_north_northwest : Z := 1.
Definition jump_north_northeast : Z := 2.
Definition jump_east_northeast  : Z := 4.
Definition jump_east_southeast  : Z := 8.
Definition jump_south_southwest : Z := 16.
Definition jump_south_southeast : Z := 32.
Definition jump_west_northwest  : Z := 64.
Definition jump_west_southwest  : Z := 128.

Definition DEBRUIJN_INDEX (n : Z) : Z := Z.land (Z.shiftr (n * 23) 5) 7.

Definition XOR_PROM_QUEEN  : Z := BOARD_SQUARE 4 0.
Definition XOR_PROM_ROOK   : Z := BOARD_SQUARE 4 2.
Definition XOR_PROM_BISHOP : Z := BOARD_SQUARE 4 3.
Definition XOR_PROM_KNIGHT : Z := BOARD_SQUARE 4 7.

Definition data_promotion_queen  : Z := 0x1000.
Definition data_promotion_rook   : Z := 0x2000.
Definition data_promotion_bishop : Z := 0x4000.
Definition data_promotion_knight : Z := 0x8000.
Definition DATA_PROMOTION_FLAGS : Z :=
  Z.lor (Z.lor data_promotion_queen data_promotion_rook)
        (Z.lor data_promotion_bishop data_promotion_knight).

Definition NULL_MOVE : Z := 0x0fff.

(** move.h *)
Definition MOVE (from to : Z) : Z := Z.lor (Z.shiftl from 6) to.
Definition MOVE_FROM (move : Z) : Z := Z.shiftr move 6.
Definition MOVE_TO (move : Z) : Z := Z.land move 63.

(** ** Step tables (layout.c)

    [board_vector_step] and [board_vector_jump] are indexed by the
    direction bit itself; the entries the designated initialisers leave
    out are zero. *)

Definition board_vector_step (dir : Z) : Z :=
  if dir =? board_attack_north then BOARD_VECTOR_NORTH
  else if dir =? board_attack_northeast then BOARD_VECTOR_NORTHEAST
  else if dir =? board_attack_east then BOARD_VECTOR_EAST
  else if dir =? board_attack_southeast then BOARD_VECTOR_SOUTHEAST
  else if dir =? board_attack_south then BOARD_VECTOR_SOUTH
  else if dir =? board_attack_southwest then BOARD_VECTOR_SOUTHWEST
  else if dir =? board_attack_west then BOARD_VECTOR_WEST
  else if dir =? board_attack_northwest then BOARD_VECTOR_NORTHWEST
  else 0.

Definition board_vector_step_compact_tab : list Z :=
  let t := zeros 8 in
  let t := zset t (DEBRUIJN_INDEX board_attack_north) BOARD_VECTOR_NORTH in
  let t := zset t (DEBRUIJN_INDEX board_attack_northeast) BOARD_VECTOR_NORTHEAST in
  let t := zset t (DEBRUIJN_INDEX board_attack_east) BOARD_VECTOR_EAST in
  let t := zset t (DEBRUIJN_INDEX board_attack_southeast) BOARD_VECTOR_SOUTHEAST in
  let t := zset t (DEBRUIJN_INDEX board_attack_south) BOARD_VECTOR_SOUTH in
  let t := zset t (DEBRUIJN_INDEX board_attack_southwest) BOARD_VECTOR_SOUTHWEST in
  let t := zset t (DEBRUIJN_INDEX board_attack_west) BOARD_VECTOR_WEST in
  let t := zset t (DEBRUIJN_INDEX board_attack_northwest) BOARD_VECTOR_NORTHWEST in
  t.

Definition board_vector_step_compact (i : Z) : Z :=
  zget 0 board_vector_step_compact_tab i.

Definition board_vector_jump (dir : Z) : Z :=
  if dir =? jump_north_northwest then BOARD_VECTOR_NORTH + BOARD_VECTOR_NORTHWEST
  else if dir =? jump_north_northeast then BOARD_VECTOR_NORTH + BOARD_VECTOR_NORTHEAST
  else if dir =? jump_east_northeast then BOARD_VECTOR_EAST + BOARD_VECTOR_NORTHEAST
  else if dir =? jump_east_southeast then BOARD_VECTOR_EAST + BOARD_VECTOR_SOUTHEAST
  else if dir =? jump_south_southwest then BOARD_VECTOR_SOUTH + BOARD_VECTOR_SOUTHWEST
  else if dir =? jump_south_southeast then BOARD_VECTOR_SOUTH + BOARD_VECTOR_SOUTHEAST
  else if dir =? jump_west_northwest then BOARD_VECTOR_WEST + BOARD_VECTOR_NORTHWEST
  else if dir =? jump_west_southwest then BOARD_VECTOR_WEST + BOARD_VECTOR_SOUTHWEST
  else 0.

(** ** Lookup tables (makeData.c)

    makeData.c prints the constant tables of data.c.  Each table below is
    the value its loop computes. *)

Definition matrix := list (list Z).

Definition m2_get (m : matrix) (a b : Z) : Z := zget 0 (zget [] m a) b.
Definition m2_or (m : matrix) (a b v : Z) : matrix :=
  zset m a (zset (zget [] m a) b (Z.lor (m2_get m a b) v)).

Definition kingtab_calc (sq : Z) : Z :=
  let dirs := 0 in
  let dirs :=
    if negb (BOARD_RANK sq =? BOARD_RANK_8) then
      let dirs := Z.lor dirs board_attack_north in
      let dirs := if negb (BOARD_FILE sq =? BOARD_FILE_H)
                  then Z.lor dirs board_attack_northeast else dirs in
      let dirs := if negb (BOARD_FILE sq =? BOARD_FILE_A)
                  then Z.lor dirs board_attack_northwest else dirs in
      dirs
    else dirs in
  let dirs := if negb (BOARD_FILE sq =? BOARD_FILE_H)
              then Z.lor dirs board_attack_east else dirs in
  let dirs := if negb (BOARD_FILE sq =? BOARD_FILE_A)
              then Z.lor dirs board_attack_west else dirs in
  let dirs :=
    if negb (BOARD_RANK sq =? BOARD_RANK_1) then
      let dirs := Z.lor dirs board_attack_south in
      let dirs := if negb (BOARD_FILE sq =? BOARD_FILE_H)
                  then Z.lor dirs board_attack_southeast else dirs in
      let dirs := if negb (BOARD_FILE sq =? BOARD_FILE_A)
                  then Z.lor dirs board_attack_southwest else dirs in
      dirs
    else dirs in
  dirs.

Definition data_kingtab_tab : list Z :=
  Eval vm_compute in map kingtab_calc all_squares.
Definition data_kingtab (sq : Z) : Z := zget 0 data_kingtab_tab sq.

Definition knighttab_calc (sq : Z) : Z :=
  let dirs := 0 in
  let dirs :=
    if negb (BOARD_RANK sq =? BOARD_RANK_7) && negb (BOARD_RANK sq =? BOARD_RANK_8) then
      let dirs := if negb (BOARD_FILE sq =? BOARD_FILE_A)
                  then Z.lor dirs jump_north_northwest else dirs in
      let dirs := if negb (BOARD_FILE sq =? BOARD_FILE_H)
                  then Z.lor dirs jump_north_northeast else dirs in
      dirs
    else dirs in
  let dirs :=
    if negb (BOARD_FILE sq =? BOARD_FILE_G) && negb (BOARD_FILE sq =? BOARD_FILE_H) then
      let dirs := if negb (BOARD_RANK sq =? BOARD_RANK_8)
                  then Z.lor dirs jump_east_northeast else dirs in
      let dirs := if negb (BOARD_RANK sq =? BOARD_RANK_1)
                  then Z.lor dirs jump_east_southeast else dirs in
      dirs
    else dirs in
  let dirs :=
    if negb (BOARD_RANK sq =? BOARD_RANK_1) && negb (BOARD_RANK sq =? BOARD_RANK_2) then
      let dirs := if negb (BOARD_FILE sq =? BOARD_FILE_A)
                  then Z.lor dirs jump_south_southwest else dirs in
      let dirs := if negb (BOARD_FILE sq =? BOARD_FILE_H)
                  then Z.lor dirs jump_south_southeast else dirs in
      dirs
    else dirs in
  let dirs :=
    if negb (BOARD_FILE sq =? BOARD_FILE_A) && negb (BOARD_FILE sq =? BOARD_FILE_B) then
      let dirs := if negb (BOARD_RANK sq =? BOARD_RANK_8)
                  then Z.lor dirs jump_west_northwest else dirs in
      let dirs := if negb (BOARD_RANK sq =? BOARD_RANK_1)
                  then Z.lor dirs jump_west_southwest else dirs in
      dirs
    else dirs in
  dirs.

Definition data_knighttab_tab : list Z :=
  Eval vm_compute in map knighttab_calc all_squares.
Definition data_knighttab (sq : Z) : Z := zget 0 data_knighttab_tab sq.

(** The ray-length loop; it also enters the ray bits into sq2sq.
    [while ((kingtab[step] & dir) != 0) { step += vector; len++;
      sq2sq[sq][step] |= dir; }] *)
Fixpoint ray_scan (fuel : nat) (sq dir vector step len : Z) (m : matrix)
    : Z * matrix :=
  match fuel with
  | O => (len, m)
  | S n =>
      if negb (Z.land (data_kingtab step) dir =? 0) then
        let step := step + vector in
        let len := len + 1 in
        ray_scan n sq dir vector step len (m2_or m sq step dir)
      else (len, m)
  end.

Definition directions : list Z := [1; 2; 4; 8; 16; 32; 64; 128].

(** One iteration of the outer loop over [sq]: the row of data_raylen and
    the updated sq2sq. *)
Definition raylen_row (sq : Z) (m : matrix) : list Z * matrix :=
  fold_left
    (fun (acc : list Z * matrix) (dir : Z) =>
       let '(row, m) := acc in
       let vector := board_vector_step dir in
       let '(len, m) := ray_scan 8 sq dir vector sq 0 m in
       (zset row (DEBRUIJN_INDEX dir) len, m))
    directions (zeros 8, m).

Definition raylen_and_rays : list (list Z) * matrix :=
  fold_left
    (fun (acc : list (list Z) * matrix) (sq : Z) =>
       let '(rows, m) := acc in
       let '(row, m) := raylen_row sq m in
       (rows ++ [row], m))
    all_squares ([], replicate 64 (zeros 64)).

Definition data_raylen_tab : list (list Z) :=
  Eval vm_compute in fst raylen_and_rays.
Definition data_raylen (sq i : Z) : Z := m2_get data_raylen_tab sq i.

Definition sq2sq_rays : matrix := Eval vm_compute in snd raylen_and_rays.

(** The four flags of one promotion target [b] of the from-square [a]. *)
Definition sq2sq_promotion (a b : Z) (m : matrix) : matrix :=
  let m := m2_or m a (Z.lxor b XOR_PROM_QUEEN) data_promotion_queen in
  let m := m2_or m a (Z.lxor b XOR_PROM_ROOK) data_promotion_rook in
  let m := m2_or m a (Z.lxor b XOR_PROM_BISHOP) data_promotion_bishop in
  let m := m2_or m a (Z.lxor b XOR_PROM_KNIGHT) data_promotion_knight in
  m.

(** One iteration of the data_sq2sq loop over [a]. *)
Definition sq2sq_step (m : matrix) (a : Z) : matrix :=
  (* Within a king step *)
  let m := bits_do_while 32
             (fun dir m => m2_or m a (a + board_vector_step dir) board_attack_king)
             0 (data_kingtab a) m in
  (* Within a knight jump *)
  let m := bits_do_while 32
             (fun dir m => m2_or m a (a + board_vector_jump dir) board_attack_knight)
             0 (data_knighttab a) m in
  (* Within a pawn capture *)
  let m :=
    if negb (BOARD_FILE a =? BOARD_FILE_A) then
      let m := if negb (BOARD_RANK a =? BOARD_RANK_8)
               then m2_or m a (a + BOARD_VECTOR_NORTHWEST) board_attack_pawn_west
               else m in
      let m := if negb (BOARD_RANK a =? BOARD_RANK_1)
               then m2_or m a (a + BOARD_VECTOR_SOUTHWEST) board_attack_pawn_west
               else m in
      m
    else m in
  let m :=
    if negb (BOARD_FILE a =? BOARD_FILE_H) then
      let m := if negb (BOARD_RANK a =? BOARD_RANK_8)
               then m2_or m a (a + BOARD_VECTOR_NORTHEAST) board_attack_pawn_east
               else m in
      let m := if negb (BOARD_RANK a =? BOARD_RANK_1)
               then m2_or m a (a + BOARD_VECTOR_SOUTHEAST) board_attack_pawn_east
               else m in
      m
    else m in
  (* XOR-encoded promotion moves [from][to^XOR_PROM_XXX] *)
  let m :=
    if BOARD_RANK a =? BOARD_RANK_7 then
      let m := sq2sq_promotion a (a + BOARD_VECTOR_NORTH) m in
      let m := if negb (BOARD_FILE a =? BOARD_FILE_A)
               then sq2sq_promotion a (a + BOARD_VECTOR_NORTHWEST) m else m in
      let m := if negb (BOARD_FILE a =? BOARD_FILE_H)
               then sq2sq_promotion a (a + BOARD_VECTOR_NORTHEAST) m else m in
      m
    else m in
  let m :=
    if BOARD_RANK a =? BOARD_RANK_2 then
      let m := sq2sq_promotion a (a + BOARD_VECTOR_SOUTH) m in
      let m := if negb (BOARD_FILE a =? BOARD_FILE_A)
               then sq2sq_promotion a (a + BOARD_VECTOR_SOUTHWEST) m else m in
      let m := if negb (BOARD_FILE a =? BOARD_FILE_H)
               then sq2sq_promotion a (a + BOARD_VECTOR_SOUTHEAST) m else m in
      m
    else m in
  m.

Definition data_sq2sq_tab : matrix :=
  Eval vm_compute in fold_left sq2sq_step all_squares sq2sq_rays.
Definition data_sq2sq (a b : Z) : Z := m2_get data_sq2sq_tab a b.

(** Directions to check with knight *)
Definition knight_checks_calc (xking knight : Z) : Z :=
  bits_do_while 32
    (fun dir acc =>
       let sq := knight + board_vector_jump dir in
       if negb (Z.land (data_sq2sq xking sq) board_attack_knight =? 0)
       then Z.lor acc dir else acc)
    0 (data_knighttab knight) 0.

Definition data_knight_checks_tab : matrix :=
  Eval vm_compute in
    map (fun xking => map (knight_checks_calc xking) all_squares) all_squares.
Definition data_knight_checks (xking knight : Z) : Z :=
  m2_get data_knight_checks_tab xking knight.

(** Zobrist numbers: eight draws of the multiplicative congruential
    generator per key, the low byte of each shifted into a 64-bit word. *)
Definition zobrist_draw (random : Z) : Z :=
  let random := 16807 * (Z.rem random 127773) - 2836 * (Z.quot random 127773) in
  if random <=? 0 then random + 0x7fffffff else random.

Fixpoint zobrist_value (n : nat) (random value : Z) : Z * Z :=
  match n with
  | O => (random, value)
  | S n =>
      let random := zobrist_draw random in
      let value := Z.lxor (Z.land (Z.shiftl value 8) (2 ^ 64 - 1))
                          (Z.land random 0xff) in
      zobrist_value n random value
  end.

Fixpoint zobrist_fill (n : nat) (random : Z) (acc : list Z) : Z * list Z :=
  match n with
  | O => (random, acc)
  | S n =>
      let '(random, value) := zobrist_value 8 random 0 in
      zobrist_fill n random (acc ++ [value])
  end.

Definition ZOBRIST_PIECE_TYPES : Z := 12.

Definition zobrist_white_king   : Z := 0.
Definition zobrist_white_queen  : Z := 1.
Definition zobrist_white_rook   : Z := 2.
Definition zobrist_white_bishop : Z := 3.
Definition zobrist_white_knight : Z := 4.
Definition zobrist_white_pawn   : Z := 5.
Definition zobrist_black_king   : Z := 6.
Definition zobrist_black_queen  : Z := 7.
Definition zobrist_black_rook   : Z := 8.
Definition zobrist_black_bishop : Z := 9.
Definition zobrist_black_knight : Z := 10.
Definition zobrist_black_pawn   : Z := 11.
Definition zobrist_white_rook_castle : Z := zobrist_white_pawn.
Definition zobrist_black_rook_castle : Z := zobrist_black_pawn.

(** The table in row-major order: entry [piece * 64 + sq]. *)
Definition data_zobrist_tab : list Z :=
  Eval vm_compute in snd (zobrist_fill (12 * 64) 1 []).
Definition data_zobrist (piece sq : Z) : Z :=
  if (0 <=? sq) && (sq <? 64) then zget 0 data_zobrist_tab (piece * 64 + sq) else 0.

Definition BOARD_BISHOP_DIAGONALS (sq : Z) : Z :=
  Z.lor (Z.shiftl 1 (14 - BOARD_FILE sq - BOARD_RANK sq))
        (Z.shiftl 1 (22 + BOARD_FILE sq - BOARD_RANK sq)).

Definition data_bishop_diagonals_tab : list Z :=
  Eval vm_compute in map BOARD_BISHOP_DIAGONALS all_squares.
Definition data_bishop_diagonals (sq : Z) : Z := zget 0 data_bishop_diagonals_tab sq.

(** Material keys (board.h, layout.c) *)
Definition BOARD_MATERIAL_KEY_WHITE_PAWN         : Z := 0x514e000000000001.
Definition BOARD_MATERIAL_KEY_WHITE_KNIGHT       : Z := 0x6ab5000000000010.
Definition BOARD_MATERIAL_KEY_WHITE_BISHOP_LIGHT : Z := 0x2081000000000100.
Definition BOARD_MATERIAL_KEY_WHITE_BISHOP_DARK  : Z := 0xb589000000001000.
Definition BOARD_MATERIAL_KEY_WHITE_ROOK         : Z := 0xae45000000010000.
Definition BOARD_MATERIAL_KEY_WHITE_QUEEN        : Z := 0x9ac3000000100000.
Definition BOARD_MATERIAL_KEY_BLACK_PAWN         : Z := 0x696d000001000000.
Definition BOARD_MATERIAL_KEY_BLACK_KNIGHT       : Z := 0xd903000010000000.
Definition BOARD_MATERIAL_KEY_BLACK_BISHOP_LIGHT : Z := 0x3d15000100000000.
Definition BOARD_MATERIAL_KEY_BLACK_BISHOP_DARK  : Z := 0x67f5001000000000.
Definition BOARD_MATERIAL_KEY_BLACK_ROOK         : Z := 0x7de9010000000000.
Definition BOARD_MATERIAL_KEY_BLACK_QUEEN        : Z := 0xa96f100000000000.

Definition data_material_key (pc : board_piece) : Z :=
  match pc with
  | board_white_pawn | board_white_pawn_rank2 | board_white_pawn_rank7 =>
      BOARD_MATERIAL_KEY_WHITE_PAWN
  | board_white_knight => BOARD_MATERIAL_KEY_WHITE_KNIGHT
  | board_white_bishop_light => BOARD_MATERIAL_KEY_WHITE_BISHOP_LIGHT
  | board_white_bishop_dark => BOARD_MATERIAL_KEY_WHITE_BISHOP_DARK
  | board_white_rook | board_white_rook_castle => BOARD_MATERIAL_KEY_WHITE_ROOK
  | board_white_queen => BOARD_MATERIAL_KEY_WHITE_QUEEN
  | board_black_pawn | board_black_pawn_rank7 | board_black_pawn_rank2 =>
      BOARD_MATERIAL_KEY_BLACK_PAWN
  | board_black_knight => BOARD_MATERIAL_KEY_BLACK_KNIGHT
  | board_black_bishop_light => BOARD_MATERIAL_KEY_BLACK_BISHOP_LIGHT
  | board_black_bishop_dark => BOARD_MATERIAL_KEY_BLACK_BISHOP_DARK
  | board_black_rook | board_black_rook_castle => BOARD_MATERIAL_KEY_BLACK_ROOK
  | board_black_queen => BOARD_MATERIAL_KEY_BLACK_QUEEN
  | _ => 0
  end.

(** ** Integer types *)

Definition short_of (x : Z) : Z := (x + 32768) mod 65536 - 32768.
Definition uchar_of (x : Z) : Z := x mod 256.
Definition u64_of (x : Z) : Z := x mod 2 ^ 64.
(** Bitwise complement of an [unsigned long long]. *)
Definition u64_not (x : Z) : Z := Z.lxor x (2 ^ 64 - 1).

(** ** Board data (board.h) *)

Record board_square : Type := mk_square {
  sq_piece : board_piece;
  sq_index : Z
}.

Definition empty_square : board_square := mk_square board_empty 0.

Definition BOARD_SIDE_MAX_PIECES : Z := 16.
Definition BOARD_UNDO_LEN_MAX : Z := 6.
Definition BOARD_MAX_KILLER_MOVES : Z := 6.
Definition BOARD_MAX_DEPTH : Z := 250.
Definition BOARD_MAX_MOVES : Z := 256.

Record board_side : Type := mk_side {
  attacks : list Z;            (* short attacks[BOARD_SIZE] *)
  bishop_diagonals : Z;
  pieces : list Z;             (* signed char pieces[BOARD_SIDE_MAX_PIECES+1] *)
  nr_pieces : Z;
  color : Z;
  last_rank_pawns : Z
}.

Record board_undo : Type := mk_undo {
  undo_square : Z;
  undo_piece : board_square
}.

Record board_stack_frame : Type := mk_frame {
  active : board_side;
  passive : board_side;
  undo_len : Z;
  undo : list board_undo;      (* undo[BOARD_UNDO_LEN_MAX] *)
  node_counter : Z;
  halfmove_clock : Z;
  en_passant_lazy : Z;
  en_passant_node_counter : Z;
  board_hash_lazy : Z;
  pawn_king_hash : Z;
  material_key : Z;
  killer_moves : list Z
}.

Record board : Type := mk_board {
  squares : list board_square; (* squares[BOARD_SIZE] *)
  current : Z;                 (* index of the current frame in [stack] *)
  butterfly : list Z;          (* prescore per move word *)
  stack : list board_stack_frame;
  extra_defenders : list Z;
  game_fullmove_number : Z;
  game_halfmove_clock_offset : Z
}.

(** All-zero objects, as [calloc] and [memset] leave them. *)
Definition zero_side : board_side := mk_side (zeros 64) 0 (zeros 17) 0 0 0.
Definition zero_undo : board_undo := mk_undo 0 empty_square.
Definition zero_frame : board_stack_frame :=
  mk_frame zero_side zero_side 0 (replicate 6 zero_undo) 0 0 0 0 0 0 0 (zeros 6).
Definition STACK_SIZE : nat := 253.   (* 2 + BOARD_MAX_DEPTH + 1 *)

(** Field updates *)
Definition set_attacks (v : list Z) (s : board_side) : board_side :=
  mk_side v (bishop_diagonals s) (pieces s) (nr_pieces s) (color s) (last_rank_pawns s).
Definition set_bishop_diagonals (v : Z) (s : board_side) : board_side :=
  mk_side (attacks s) v (pieces s) (nr_pieces s) (color s) (last_rank_pawns s).
Definition set_pieces (v : list Z) (s : board_side) : board_side :=
  mk_side (attacks s) (bishop_diagonals s) v (nr_pieces s) (color s) (last_rank_pawns s).
Definition set_nr_pieces (v : Z) (s : board_side) : board_side :=
  mk_side (attacks s) (bishop_diagonals s) (pieces s) v (color s) (last_rank_pawns s).
Definition set_color (v : Z) (s : board_side) : board_side :=
  mk_side (attacks s) (bishop_diagonals s) (pieces s) (nr_pieces s) v (last_rank_pawns s).
Definition set_last_rank_pawns (v : Z) (s : board_side) : board_side :=
  mk_side (attacks s) (bishop_diagonals s) (pieces s) (nr_pieces s) (color s) v.

Definition set_active (v : board_side) (f : board_stack_frame) : board_stack_frame :=
  mk_frame v (passive f) (undo_len f) (undo f) (node_counter f) (halfmove_clock f)
    (en_passant_lazy f) (en_passant_node_counter f) (board_hash_lazy f)
    (pawn_king_hash f) (material_key f) (killer_moves f).
Definition set_passive (v : board_side) (f : board_stack_frame) : board_stack_frame :=
  mk_frame (active f) v (undo_len f) (undo f) (node_counter f) (halfmove_clock f)
    (en_passant_lazy f) (en_passant_node_counter f) (board_hash_lazy f)
    (pawn_king_hash f) (material_key f) (killer_moves f).
Definition set_undo_len (v : Z) (f : board_stack_frame) : board_stack_frame :=
  mk_frame (active f) (passive f) v (undo f) (node_counter f) (halfmove_clock f)
    (en_passant_lazy f) (en_passant_node_counter f) (board_hash_lazy f)
    (pawn_king_hash f) (material_key f) (killer_moves f).
Definition set_undo (v : list board_undo) (f : board_stack_frame) : board_stack_frame :=
  mk_frame (active f) (passive f) (undo_len f) v (node_counter f) (halfmove_clock f)
    (en_passant_lazy f) (en_passant_node_counter f) (board_hash_lazy f)
    (pawn_king_hash f) (material_key f) (killer_moves f).
Definition set_node_counter (v : Z) (f : board_stack_frame) : board_stack_frame :=
  mk_frame (active f) (passive f) (undo_len f) (undo f) v (halfmove_clock f)
    (en_passant_lazy f) (en_passant_node_counter f) (board_hash_lazy f)
    (pawn_king_hash f) (material_key f) (killer_moves f).
Definition set_halfmove_clock (v : Z) (f : board_stack_frame) : board_stack_frame :=
  mk_frame (active f) (passive f) (undo_len f) (undo f) (node_counter f) v
    (en_passant_lazy f) (en_passant_node_counter f) (board_hash_lazy f)
    (pawn_king_hash f) (material_key f) (killer_moves f).
Definition set_en_passant_lazy (v : Z) (f : board_stack_frame) : board_stack_frame :=
  mk_frame (active f) (passive f) (undo_len f) (undo f) (node_counter f) (halfmove_clock f)
    v (en_passant_node_counter f) (board_hash_lazy f)
    (pawn_king_hash f) (material_key f) (killer_moves f).
Definition set_en_passant_node_counter (v : Z) (f : board_stack_frame) : board_stack_frame :=
  mk_frame (active f) (passive f) (undo_len f) (undo f) (node_counter f) (halfmove_clock f)
    (en_passant_lazy f) v (board_hash_lazy f)
    (pawn_king_hash f) (material_key f) (killer_moves f).
Definition set_board_hash_lazy (v : Z) (f : board_stack_frame) : board_stack_frame :=
  mk_frame (active f) (passive f) (undo_len f) (undo f) (node_counter f) (halfmove_clock f)
    (en_passant_lazy f) (en_passant_node_counter f) v
    (pawn_king_hash f) (material_key f) (killer_moves f).
Definition set_pawn_king_hash (v : Z) (f : board_stack_frame) : board_stack_frame :=
  mk_frame (active f) (passive f) (undo_len f) (undo f) (node_counter f) (halfmove_clock f)
    (en_passant_lazy f) (en_passant_node_counter f) (board_hash_lazy f)
    v (material_key f) (killer_moves f).
Definition set_material_key (v : Z) (f : board_stack_frame) : board_stack_frame :=
  mk_frame (active f) (passive f) (undo_len f) (undo f) (node_counter f) (halfmove_clock f)
    (en_passant_lazy f) (en_passant_node_counter f) (board_hash_lazy f)
    (pawn_king_hash f) v (killer_moves f).

Definition set_squares (v : list board_square) (bd : board) : board :=
  mk_board v (current bd) (butterfly bd) (stack bd) (extra_defenders bd)
    (game_fullmove_number bd) (game_halfmove_clock_offset bd).
Definition set_current (v : Z) (bd : board) : board :=
  mk_board (squares bd) v (butterfly bd) (stack bd) (extra_defenders bd)
    (game_fullmove_number bd) (game_halfmove_clock_offset bd).
Definition set_stack (v : list board_stack_frame) (bd : board) : board :=
  mk_board (squares bd) (current bd) (butterfly bd) v (extra_defenders bd)
    (game_fullmove_number bd) (game_halfmove_clock_offset bd).
Definition set_extra_defenders (v : list Z) (bd : board) : board :=
  mk_board (squares bd) (current bd) (butterfly bd) (stack bd) v
    (game_fullmove_number bd) (game_halfmove_clock_offset bd).
Definition set_game_fullmove_number (v : Z) (bd : board) : board :=
  mk_board (squares bd) (current bd) (butterfly bd) (stack bd) (extra_defenders bd)
    v (game_halfmove_clock_offset bd).
Definition set_game_halfmove_clock_offset (v : Z) (bd : board) : board :=
  mk_board (squares bd) (current bd) (butterfly bd) (stack bd) (extra_defenders bd)
    (game_fullmove_number bd) v.

(** Access paths *)

(** [bd->squares[sq]] *)
Definition square_at (bd : board) (sq : Z) : board_square :=
  zget empty_square (squares bd) sq.
Definition piece_at (bd : board) (sq : Z) : board_piece := sq_piece (square_at bd sq).
Definition index_at (bd : board) (sq : Z) : Z := sq_index (square_at bd sq).

Definition set_square (sq : Z) (v : board_square) (bd : board) : board :=
  set_squares (zset (squares bd) sq v) bd.
(** [bd->squares[sq].piece = pc] *)
Definition set_piece (sq : Z) (pc : board_piece) (bd : board) : board :=
  set_square sq (mk_square pc (index_at bd sq)) bd.
(** [bd->squares[sq].index = i] *)
Definition set_index (sq : Z) (i : Z) (bd : board) : board :=
  set_square sq (mk_square (piece_at bd sq) i) bd.

(** [bd->current[k]] *)
Definition frame_at (bd : board) (k : Z) : board_stack_frame :=
  zget zero_frame (stack bd) (current bd + k).
Definition cur (bd : board) : board_stack_frame := frame_at bd 0.

Definition upd_frame (k : Z) (f : board_stack_frame -> board_stack_frame)
    (bd : board) : board :=
  set_stack (zset (stack bd) (current bd + k) (f (frame_at bd k))) bd.
Definition upd_cur (f : board_stack_frame -> board_stack_frame) (bd : board) : board :=
  upd_frame 0 f bd.

Definition upd_active (f : board_side -> board_side) (bd : board) : board :=
  upd_cur (fun fr => set_active (f (active fr)) fr) bd.
Definition upd_passive (f : board_side -> board_side) (bd : board) : board :=
  upd_cur (fun fr => set_passive (f (passive fr)) fr) bd.

(** [side->attacks[sq]], [side->pieces[i]] *)
Definition attack_at (s : board_side) (sq : Z) : Z := zget 0 (attacks s) sq.
Definition piece_sq (s : board_side) (i : Z) : Z := zget 0 (pieces s) i.
Definition set_attack (sq v : Z) (s : board_side) : board_side :=
  set_attacks (zset (attacks s) sq v) s.
Definition set_piece_sq (i v : Z) (s : board_side) : board_side :=
  set_pieces (zset (pieces s) i v) s.

(** PUSH_UNDO(frame, xsquare) on the current frame *)
Definition PUSH_UNDO (xsquare : Z) (bd : board) : board :=
  let len := undo_len (cur bd) in
  let entry := mk_undo xsquare (square_at bd xsquare) in
  upd_cur (fun fr => set_undo (zset (undo fr) len entry) (set_undo_len (len + 1) fr)) bd.

Definition UNDO_FROM : Z := 0.
Definition UNDO_TO : Z := 1.

(** ** Attack maintenance (attack.c) *)

(** The inner loop of attack_xor_rays for one direction:
    [do { to += vector; attacks[to] ^= dir;
          if (squares[to].piece != board_empty) break; } while (--len);] *)
Fixpoint xor_ray (fuel : nat) (bd : board) (dir vector to len : Z)
    (side : board_side) : board_side :=
  match fuel with
  | O => side
  | S n =>
      let to := to + vector in
      let side := set_attack to (Z.lxor (attack_at side to) dir) side in
      if negb (piece_eqb (piece_at bd to) board_empty) then side
      else
        let len := len - 1 in
        if len =? 0 then side else xor_ray n bd dir vector to len side
  end.

Definition attack_xor_rays (bd : board) (sq dirs : Z) (side : board_side)
    : board_side :=
  bits_do_while 32
    (fun dir side =>
       let vector := board_vector_step dir in
       let len := data_raylen sq (DEBRUIJN_INDEX dir) in
       xor_ray 8 bd dir vector sq len side)
    0 dirs side.

Definition attack_xor_king (sq : Z) (side : board_side) : board_side :=
  bits_do_while 32
    (fun dir side =>
       let to := sq + board_vector_step dir in
       set_attack to (Z.lxor (attack_at side to) board_attack_king) side)
    0 (data_kingtab sq) side.

Definition attack_add_knight (sq : Z) (side : board_side) : board_side :=
  bits_do_while 32
    (fun dir side =>
       let to := sq + board_vector_jump dir in
       set_attack to (short_of (attack_at side to + board_attack_knight)) side)
    0 (data_knighttab sq) side.

Definition attack_sub_knight (sq : Z) (side : board_side) : board_side :=
  bits_do_while 32
    (fun dir side =>
       let to := sq + board_vector_jump dir in
       set_attack to (short_of (attack_at side to - board_attack_knight)) side)
    0 (data_knighttab sq) side.

Definition attack_xor_white_pawn (sq : Z) (side : board_side) : board_side :=
  let side :=
    if sq >=? B1 then
      set_attack (sq + BOARD_VECTOR_NORTHWEST)
        (Z.lxor (attack_at side (sq + BOARD_VECTOR_NORTHWEST)) board_attack_pawn_west) side
    else side in
  let side :=
    if sq <? H1 then
      set_attack (sq + BOARD_VECTOR_NORTHEAST)
        (Z.lxor (attack_at side (sq + BOARD_VECTOR_NORTHEAST)) board_attack_pawn_east) side
    else side in
  side.

Definition attack_xor_black_pawn (sq : Z) (side : board_side) : board_side :=
  let side :=
    if sq >=? B1 then
      set_attack (sq + BOARD_VECTOR_SOUTHWEST)
        (Z.lxor (attack_at side (sq + BOARD_VECTOR_SOUTHWEST)) board_attack_pawn_west) side
    else side in
  let side :=
    if sq <? H1 then
      set_attack (sq + BOARD_VECTOR_SOUTHEAST)
        (Z.lxor (attack_at side (sq + BOARD_VECTOR_SOUTHEAST)) board_attack_pawn_east) side
    else side in
  side.

(** ** Make and unmake (move.c) *)

(** [rays = ...; if (rays != 0) attack_xor_rays(&bd->current->passive, bd, sq, rays);] *)
Definition passive_xor_rays (sq rays : Z) (bd : board) : board :=
  if negb (rays =? 0) then upd_passive (attack_xor_rays bd sq rays) bd else bd.
Definition active_xor_rays (sq rays : Z) (bd : board) : board :=
  if negb (rays =? 0) then upd_active (attack_xor_rays bd sq rays) bd else bd.

(** Reads of the two attack maps of the current frame *)
Definition passive_attacks (bd : board) (sq : Z) : Z := attack_at (passive (cur bd)) sq.
Definition active_attacks (bd : board) (sq : Z) : Z := attack_at (active (cur bd)) sq.

(** [bd->current->board_hash_lazy = ~bd->current[-1].board_hash_lazy ^ delta] *)
Definition hash_from_parent (delta : Z) (bd : board) : board :=
  upd_cur (set_board_hash_lazy
             (Z.lxor (u64_not (board_hash_lazy (frame_at bd (-1)))) delta)) bd.
(** [bd->current->board_hash_lazy ^= delta] *)
Definition hash_xor (delta : Z) (bd : board) : board :=
  upd_cur (fun fr => set_board_hash_lazy (Z.lxor (board_hash_lazy fr) delta) fr) bd.
(** [bd->current->pawn_king_hash ^= delta] *)
Definition pawn_king_xor (delta : Z) (bd : board) : board :=
  upd_cur (fun fr => set_pawn_king_hash (Z.lxor (pawn_king_hash fr) delta) fr) bd.
(** [bd->current->material_key += delta] (unsigned 64-bit) *)
Definition material_add (delta : Z) (bd : board) : board :=
  upd_cur (fun fr => set_material_key (u64_of (material_key fr + delta)) fr) bd.

(** [bd->current->passive.pieces[bd->squares[from].index] = to;
     bd->squares[to] = bd->squares[from];] *)
Definition place_piece (from to : Z) (bd : board) : board :=
  let bd := upd_passive (set_piece_sq (index_at bd from) to) bd in
  set_square to (square_at bd from) bd.

(** [bd->squares[from].index = 0; bd->squares[from].piece = board_empty;] *)
Definition clear_square (from : Z) (bd : board) : board :=
  let bd := set_index from 0 bd in
  set_piece from board_empty bd.

(** [bd->current->halfmove_clock = bd->current[-1].halfmove_clock + 1] *)
Definition bump_halfmove_clock (bd : board) : board :=
  upd_cur (set_halfmove_clock (uchar_of (halfmove_clock (frame_at bd (-1)) + 1))) bd.

Definition move_king_generic (from to : Z) (bd : board) : board :=
  (* Withdraw piece attacks from original square *)
  let bd := upd_passive (attack_xor_king from) bd in
  (* Withdraw attacks from target square *)
  let bd := passive_xor_rays to (Z.land (passive_attacks bd to) (data_kingtab to)) bd in
  let bd := active_xor_rays to (Z.land (active_attacks bd to) (data_kingtab to)) bd in
  (* Place piece on new square *)
  let bd := place_piece from to bd in
  (* Remove piece from original square *)
  let bd := clear_square from bd in
  (* Extend attacks from original square *)
  let bd := passive_xor_rays from (Z.land (passive_attacks bd from) (data_kingtab from)) bd in
  let bd := active_xor_rays from (Z.land (active_attacks bd from) (data_kingtab from)) bd in
  (* Extend piece attacks on new square *)
  let bd := upd_passive (attack_xor_king to) bd in
  (* Update halfmove clock *)
  bump_halfmove_clock bd.

Definition move_white_king (from to : Z) (bd : board) : board :=
  let bd := hash_from_parent
              (Z.lxor (data_zobrist zobrist_white_king from)
                      (data_zobrist zobrist_white_king to)) bd in
  let bd := pawn_king_xor
              (Z.lxor (data_zobrist zobrist_white_king from)
                      (data_zobrist zobrist_white_king to)) bd in
  move_king_generic from to bd.

Definition move_black_king (from to : Z) (bd : board) : board :=
  let bd := hash_from_parent
              (Z.lxor (data_zobrist zobrist_black_king from)
                      (data_zobrist zobrist_black_king to)) bd in
  let bd := pawn_king_xor
              (Z.lxor (data_zobrist zobrist_black_king from)
                      (data_zobrist zobrist_black_king to)) bd in
  move_king_generic from to bd.

(** The block that strips the castling tag from one rook when the king
    moves: [if (squares[R].piece == rook_castle) { PUSH_UNDO; ... }].
    It returns the board and the updated [delta_hash]. *)
Definition disable_castle_rook (rook_sq : Z) (rook_castle rook : board_piece)
    (z_rook z_rook_castle : Z) (st : board * Z) : board * Z :=
  let '(bd, delta_hash) := st in
  if piece_eqb (piece_at bd rook_sq) rook_castle then
    let bd := PUSH_UNDO rook_sq bd in
    let bd := set_piece rook_sq rook bd in
    let delta_hash :=
      Z.lxor delta_hash
        (Z.lxor (data_zobrist z_rook rook_sq) (data_zobrist z_rook_castle rook_sq)) in
    let bd := pawn_king_xor (data_zobrist z_rook_castle rook_sq) bd in
    (bd, delta_hash)
  else (bd, delta_hash).

Definition move_white_king_castle (from to : Z) (bd : board) : board :=
  let delta_hash := 0 in
  (* Disable all castling rights *)
  let bd := set_piece E1 board_white_king bd in
  let '(bd, delta_hash) :=
    disable_castle_rook A1 board_white_rook_castle board_white_rook
      zobrist_white_rook zobrist_white_rook_castle (bd, delta_hash) in
  let '(bd, delta_hash) :=
    disable_castle_rook H1 board_white_rook_castle board_white_rook
      zobrist_white_rook zobrist_white_rook_castle (bd, delta_hash) in
  (* Rest is as a regular king move *)
  let bd := move_white_king from to bd in
  hash_xor delta_hash bd.

Definition move_black_king_castle (from to : Z) (bd : board) : board :=
  let delta_hash := 0 in
  let bd := set_piece E8 board_black_king bd in
  let '(bd, delta_hash) :=
    disable_castle_rook A8 board_black_rook_castle board_black_rook
      zobrist_black_rook zobrist_black_rook_castle (bd, delta_hash) in
  let '(bd, delta_hash) :=
    disable_castle_rook H8 board_black_rook_castle board_black_rook
      zobrist_black_rook zobrist_black_rook_castle (bd, delta_hash) in
  let bd := move_black_king from to bd in
  hash_xor delta_hash bd.

(** The common body of move_queen_generic, move_rook_generic and
    move_bishop_generic without the bishop-diagonal update; [own] is
    BOARD_ATTACK_QUEEN, _ROOK or _BISHOP. *)
Definition slider_withdraw_target (own to : Z) (bd : board) : board :=
  let rays := Z.land (Z.lxor (passive_attacks bd to) own) (data_kingtab to) in
  let bd := passive_xor_rays to rays bd in
  active_xor_rays to (Z.land (active_attacks bd to) (data_kingtab to)) bd.

Definition slider_extend_origin (own from : Z) (bd : board) : board :=
  let rays := Z.land (Z.lxor (passive_attacks bd from) own) (data_kingtab from) in
  let bd := passive_xor_rays from rays bd in
  active_xor_rays from (Z.land (active_attacks bd from) (data_kingtab from)) bd.

Definition move_queen_generic (from to : Z) (bd : board) : board :=
  let bd := slider_withdraw_target BOARD_ATTACK_QUEEN to bd in
  let bd := place_piece from to bd in
  let bd := clear_square from bd in
  let bd := slider_extend_origin BOARD_ATTACK_QUEEN from bd in
  bump_halfmove_clock bd.

Definition move_white_queen (from to : Z) (bd : board) : board :=
  let bd := hash_from_parent
              (Z.lxor (data_zobrist zobrist_white_queen from)
                      (data_zobrist zobrist_white_queen to)) bd in
  move_queen_generic from to bd.

Definition move_black_queen (from to : Z) (bd : board) : board :=
  let bd := hash_from_parent
              (Z.lxor (data_zobrist zobrist_black_queen from)
                      (data_zobrist zobrist_black_queen to)) bd in
  move_queen_generic from to bd.

Definition move_rook_generic (from to : Z) (bd : board) : board :=
  let bd := slider_withdraw_target BOARD_ATTACK_ROOK to bd in
  let bd := place_piece from to bd in
  let bd := clear_square from bd in
  let bd := slider_extend_origin BOARD_ATTACK_ROOK from bd in
  bump_halfmove_clock bd.

Definition move_white_rook (from to : Z) (bd : board) : board :=
  let bd := hash_from_parent
              (Z.lxor (data_zobrist zobrist_white_rook from)
                      (data_zobrist zobrist_white_rook to)) bd in
  move_rook_generic from to bd.

Definition move_black_rook (from to : Z) (bd : board) : board :=
  let bd := hash_from_parent
              (Z.lxor (data_zobrist zobrist_black_rook from)
                      (data_zobrist zobrist_black_rook to)) bd in
  move_rook_generic from to bd.

Definition move_white_rook_castle (from to : Z) (bd : board) : board :=
  (* Transform castling-enabled rook into standard rook *)
  let bd := set_piece from board_white_rook bd in
  (* If we can't castle to the other side anymore, also transform the king *)
  let other := if from =? A1 then H1 else A1 in
  let bd :=
    if negb (piece_eqb (piece_at bd other) board_white_rook_castle) then
      let bd := PUSH_UNDO E1 bd in
      set_piece E1 board_white_king bd
    else bd in
  let bd := move_white_rook from to bd in
  let bd := hash_xor (Z.lxor (data_zobrist zobrist_white_rook from)
                             (data_zobrist zobrist_white_rook_castle from)) bd in
  pawn_king_xor (data_zobrist zobrist_white_rook_castle from) bd.

Definition move_black_rook_castle (from to : Z) (bd : board) : board :=
  let bd := set_piece from board_black_rook bd in
  let other := if from =? A8 then H8 else A8 in
  let bd :=
    if negb (piece_eqb (piece_at bd other) board_black_rook_castle) then
      let bd := PUSH_UNDO E8 bd in
      set_piece E8 board_black_king bd
    else bd in
  let bd := move_black_rook from to bd in
  let bd := hash_xor (Z.lxor (data_zobrist zobrist_black_rook from)
                             (data_zobrist zobrist_black_rook_castle from)) bd in
  pawn_king_xor (data_zobrist zobrist_black_rook_castle from) bd.

Definition move_bishop_generic (from to : Z) (bd : board) : board :=
  let bd := slider_withdraw_target BOARD_ATTACK_BISHOP to bd in
  (* Update bishop diagonal bits *)
  let bd := upd_passive (fun s =>
              set_bishop_diagonals
                (Z.lxor (bishop_diagonals s)
                   (Z.lxor (data_bishop_diagonals from) (data_bishop_diagonals to))) s) bd in
  let bd := place_piece from to bd in
  let bd := clear_square from bd in
  let bd := slider_extend_origin BOARD_ATTACK_BISHOP from bd in
  bump_halfmove_clock bd.

Definition move_white_bishop (from to : Z) (bd : board) : board :=
  let bd := hash_from_parent
              (Z.lxor (data_zobrist zobrist_white_bishop from)
                      (data_zobrist zobrist_white_bishop to)) bd in
  move_bishop_generic from to bd.

Definition move_black_bishop (from to : Z) (bd : board) : board :=
  let bd := hash_from_parent
              (Z.lxor (data_zobrist zobrist_black_bishop from)
                      (data_zobrist zobrist_black_bishop to)) bd in
  move_bishop_generic from to bd.

Definition move_knight_generic (from to : Z) (bd : board) : board :=
  let bd := upd_passive (attack_sub_knight from) bd in
  let bd := passive_xor_rays to (Z.land (passive_attacks bd to) (data_kingtab to)) bd in
  let bd := active_xor_rays to (Z.land (active_attacks bd to) (data_kingtab to)) bd in
  let bd := place_piece from to bd in
  let bd := clear_square from bd in
  let bd := passive_xor_rays from (Z.land (passive_attacks bd from) (data_kingtab from)) bd in
  let bd := active_xor_rays from (Z.land (active_attacks bd from) (data_kingtab from)) bd in
  let bd := upd_passive (attack_add_knight to) bd in
  bump_halfmove_clock bd.

Definition move_white_knight (from to : Z) (bd : board) : board :=
  let bd := hash_from_parent
              (Z.lxor (data_zobrist zobrist_white_knight from)
                      (data_zobrist zobrist_white_knight to)) bd in
  move_knight_generic from to bd.

Definition move_black_knight (from to : Z) (bd : board) : board :=
  let bd := hash_from_parent
              (Z.lxor (data_zobrist zobrist_black_knight from)
                      (data_zobrist zobrist_black_knight to)) bd in
  move_knight_generic from to bd.

(** [bd->current->passive.last_rank_pawns ^= 1 << BOARD_FILE(sq)] *)
Definition passive_toggle_last_rank (sq : Z) (bd : board) : board :=
  upd_passive (fun s =>
    set_last_rank_pawns
      (uchar_of (Z.lxor (last_rank_pawns s) (Z.shiftl 1 (BOARD_FILE sq)))) s) bd.
Definition active_toggle_last_rank (sq : Z) (bd : board) : board :=
  upd_active (fun s =>
    set_last_rank_pawns
      (uchar_of (Z.lxor (last_rank_pawns s) (Z.shiftl 1 (BOARD_FILE sq)))) s) bd.

Definition move_white_pawn (from to : Z) (bd : board) : board :=
  let bd := hash_from_parent
              (Z.lxor (data_zobrist zobrist_white_pawn from)
                      (data_zobrist zobrist_white_pawn to)) bd in
  let bd := pawn_king_xor
              (Z.lxor (data_zobrist zobrist_white_pawn from)
                      (data_zobrist zobrist_white_pawn to)) bd in
  let bd := upd_passive (attack_xor_white_pawn from) bd in
  let bd := passive_xor_rays to (Z.land (passive_attacks bd to) (data_kingtab to)) bd in
  let bd := active_xor_rays to (Z.land (active_attacks bd to) (data_kingtab to)) bd in
  let bd := place_piece from to bd in
  let bd :=
    if BOARD_RANK to =? BOARD_RANK_7 then
      let bd := set_piece to board_white_pawn_rank7 bd in
      passive_toggle_last_rank to bd
    else bd in
  let bd := clear_square from bd in
  let bd := passive_xor_rays from (Z.land (passive_attacks bd from) (data_kingtab from)) bd in
  let bd := active_xor_rays from (Z.land (active_attacks bd from) (data_kingtab from)) bd in
  upd_passive (attack_xor_white_pawn to) bd.

Definition move_white_pawn_rank2_to_3 (from to : Z) (bd : board) : board :=
  let bd := set_piece from board_white_pawn bd in
  move_white_pawn from to bd.

Definition move_white_pawn_rank2_to_4 (from to : Z) (bd : board) : board :=
  let bd := set_piece from board_white_pawn bd in
  let bd := upd_cur (set_en_passant_lazy (from + BOARD_VECTOR_NORTH)) bd in
  let bd := upd_cur (fun fr => set_en_passant_node_counter (node_counter fr) fr) bd in
  move_white_pawn from to bd.

Definition move_black_pawn (from to : Z) (bd : board) : board :=
  let bd := hash_from_parent
              (Z.lxor (data_zobrist zobrist_black_pawn from)
                      (data_zobrist zobrist_black_pawn to)) bd in
  let bd := pawn_king_xor
              (Z.lxor (data_zobrist zobrist_black_pawn from)
                      (data_zobrist zobrist_black_pawn to)) bd in
  let bd := upd_passive (attack_xor_black_pawn from) bd in
  let bd := passive_xor_rays to (Z.land (passive_attacks bd to) (data_kingtab to)) bd in
  let bd := active_xor_rays to (Z.land (active_attacks bd to) (data_kingtab to)) bd in
  let bd := place_piece from to bd in
  let bd :=
    if BOARD_RANK to =? BOARD_RANK_2 then
      let bd := set_piece to board_black_pawn_rank2 bd in
      passive_toggle_last_rank to bd
    else bd in
  let bd := clear_square from bd in
  let bd := passive_xor_rays from (Z.land (passive_attacks bd from) (data_kingtab from)) bd in
  let bd := active_xor_rays from (Z.land (active_attacks bd from) (data_kingtab from)) bd in
  upd_passive (attack_xor_black_pawn to) bd.

Definition move_black_pawn_rank7_to_6 (from to : Z) (bd : board) : board :=
  let bd := set_piece from board_black_pawn bd in
  move_black_pawn from to bd.

Definition move_black_pawn_rank7_to_5 (from to : Z) (bd : board) : board :=
  let bd := set_piece from board_black_pawn bd in
  let bd := upd_cur (set_en_passant_lazy (from + BOARD_VECTOR_SOUTH)) bd in
  let bd := upd_cur (fun fr => set_en_passant_node_counter (node_counter fr) fr) bd in
  move_black_pawn from to bd.

(** ** Captures (capture.c) *)

Definition active_pieces (bd : board) (i : Z) : Z := piece_sq (active (cur bd)) i.
Definition passive_pieces (bd : board) (i : Z) : Z := piece_sq (passive (cur bd)) i.

(** The piece-list part shared by take_queen_generic, take_rook_generic,
    take_bishop_generic and the pawn takers: the last piece of the list
    moves into the slot of the captured one. *)
Definition take_from_list (sq : Z) (bd : board) : board :=
  let last_piece := nr_pieces (active (cur bd)) - 1 in
  let other := active_pieces bd last_piece in
  let bd := PUSH_UNDO other bd in
  let index := index_at bd sq in
  let bd := set_index other index bd in
  let bd := upd_active (set_piece_sq index other) bd in
  let bd := upd_active (set_piece_sq last_piece (-1)) bd in
  upd_active (set_nr_pieces last_piece) bd.

Definition take_queen_generic (sq : Z) (bd : board) : board :=
  let bd := upd_active
              (attack_xor_rays bd sq (Z.land (data_kingtab sq) BOARD_ATTACK_QUEEN)) bd in
  take_from_list sq bd.

Definition take_white_queen (sq : Z) (bd : board) : board :=
  let bd := hash_xor (data_zobrist zobrist_white_queen sq) bd in
  let bd := material_add (- BOARD_MATERIAL_KEY_WHITE_QUEEN) bd in
  take_queen_generic sq bd.

Definition take_black_queen (sq : Z) (bd : board) : board :=
  let bd := hash_xor (data_zobrist zobrist_black_queen sq) bd in
  let bd := material_add (- BOARD_MATERIAL_KEY_BLACK_QUEEN) bd in
  take_queen_generic sq bd.

Definition take_rook_generic (sq : Z) (bd : board) : board :=
  let bd := upd_active
              (attack_xor_rays bd sq (Z.land (data_kingtab sq) BOARD_ATTACK_ROOK)) bd in
  take_from_list sq bd.

Definition take_white_rook (sq : Z) (bd : board) : board :=
  let bd := hash_xor (data_zobrist zobrist_white_rook sq) bd in
  let bd := material_add (- BOARD_MATERIAL_KEY_WHITE_ROOK) bd in
  take_rook_generic sq bd.

Definition take_white_rook_castle (sq : Z) (bd : board) : board :=
  let other := if sq =? A1 then H1 else A1 in
  let bd :=
    if negb (piece_eqb (piece_at bd other) board_white_rook_castle) then
      let bd := PUSH_UNDO E1 bd in
      set_piece E1 board_white_king bd
    else bd in
  let bd := hash_xor (data_zobrist zobrist_white_rook_castle sq) bd in
  let bd := pawn_king_xor (data_zobrist zobrist_white_rook_castle sq) bd in
  let bd := material_add (- BOARD_MATERIAL_KEY_WHITE_ROOK) bd in
  take_rook_generic sq bd.

Definition take_black_rook (sq : Z) (bd : board) : board :=
  let bd := hash_xor (data_zobrist zobrist_black_rook sq) bd in
  let bd := material_add (- BOARD_MATERIAL_KEY_BLACK_ROOK) bd in
  take_rook_generic sq bd.

Definition take_black_rook_castle (sq : Z) (bd : board) : board :=
  let other := if sq =? A8 then H8 else A8 in
  let bd :=
    if negb (piece_eqb (piece_at bd other) board_black_rook_castle) then
      let bd := PUSH_UNDO E8 bd in
      set_piece E8 board_black_king bd
    else bd in
  let bd := hash_xor (data_zobrist zobrist_black_rook_castle sq) bd in
  let bd := pawn_king_xor (data_zobrist zobrist_black_rook_castle sq) bd in
  let bd := material_add (- BOARD_MATERIAL_KEY_BLACK_ROOK) bd in
  take_rook_generic sq bd.

Definition take_bishop_generic (sq : Z) (bd : board) : board :=
  let bd := upd_active
              (attack_xor_rays bd sq (Z.land (data_kingtab sq) BOARD_ATTACK_BISHOP)) bd in
  let bd := take_from_list sq bd in
  upd_active (fun s =>
    set_bishop_diagonals (Z.lxor (bishop_diagonals s) (data_bishop_diagonals sq)) s) bd.

Definition take_white_bishop_light (sq : Z) (bd : board) : board :=
  let bd := hash_xor (data_zobrist zobrist_white_bishop sq) bd in
  let bd := material_add (- BOARD_MATERIAL_KEY_WHITE_BISHOP_LIGHT) bd in
  take_bishop_generic sq bd.

Definition take_white_bishop_dark (sq : Z) (bd : board) : board :=
  let bd := hash_xor (data_zobrist zobrist_white_bishop sq) bd in
  let bd := material_add (- BOARD_MATERIAL_KEY_WHITE_BISHOP_DARK) bd in
  take_bishop_generic sq bd.

Definition take_black_bishop_light (sq : Z) (bd : board) : board :=
  let bd := hash_xor (data_zobrist zobrist_black_bishop sq) bd in
  let bd := material_add (- BOARD_MATERIAL_KEY_BLACK_BISHOP_LIGHT) bd in
  take_bishop_generic sq bd.

Definition take_black_bishop_dark (sq : Z) (bd : board) : board :=
  let bd := hash_xor (data_zobrist zobrist_black_bishop sq) bd in
  let bd := material_add (- BOARD_MATERIAL_KEY_BLACK_BISHOP_DARK) bd in
  take_bishop_generic sq bd.

Definition is_knight (pc : board_piece) : bool :=
  piece_eqb pc board_white_knight || piece_eqb pc board_black_knight.

(** [for (last_knight=index; last_knight<last_piece; last_knight++)
       { if (piece at pieces[last_knight+1] is no knight) break; }] *)
Fixpoint find_last_knight (fuel : nat) (bd : board) (last_knight last_piece : Z) : Z :=
  match fuel with
  | O => last_knight
  | S n =>
      if last_knight <? last_piece then
        let next_sq := active_pieces bd (last_knight + 1) in
        let next_piece := piece_at bd next_sq in
        if negb (is_knight next_piece) then last_knight
        else find_last_knight n bd (last_knight + 1) last_piece
      else last_knight
  end.

Definition take_knight_generic (sq : Z) (bd : board) : board :=
  let bd := upd_active (attack_sub_knight sq) bd in
  let last_piece := nr_pieces (active (cur bd)) - 1 in
  let other := active_pieces bd last_piece in
  let bd := PUSH_UNDO other bd in
  let index := index_at bd sq in
  let last_knight := find_last_knight 17 bd index last_piece in
  let '(bd, index) :=
    if (index <? last_knight) && (last_knight <? last_piece) then
      let square_a := active_pieces bd index in
      let square_b := active_pieces bd last_knight in
      let bd := PUSH_UNDO square_b bd in
      let bd := set_index square_a last_knight bd in
      let bd := set_index square_b index bd in
      let bd := upd_active (set_piece_sq last_knight square_a) bd in
      let bd := upd_active (set_piece_sq index square_b) bd in
      (bd, last_knight)
    else (bd, index) in
  let bd := set_index other index bd in
  let bd := upd_active (set_piece_sq index other) bd in
  let bd := upd_active (set_piece_sq last_piece (-1)) bd in
  upd_active (set_nr_pieces last_piece) bd.

Definition take_white_knight (sq : Z) (bd : board) : board :=
  let bd := hash_xor (data_zobrist zobrist_white_knight sq) bd in
  let bd := material_add (- BOARD_MATERIAL_KEY_WHITE_KNIGHT) bd in
  take_knight_generic sq bd.

Definition take_black_knight (sq : Z) (bd : board) : board :=
  let bd := hash_xor (data_zobrist zobrist_black_knight sq) bd in
  let bd := material_add (- BOARD_MATERIAL_KEY_BLACK_KNIGHT) bd in
  take_knight_generic sq bd.

Definition take_white_pawn (sq : Z) (bd : board) : board :=
  let bd := hash_xor (data_zobrist zobrist_white_pawn sq) bd in
  let bd := pawn_king_xor (data_zobrist zobrist_white_pawn sq) bd in
  let bd := material_add (- BOARD_MATERIAL_KEY_WHITE_PAWN) bd in
  let bd := upd_active (attack_xor_white_pawn sq) bd in
  take_from_list sq bd.

Definition take_white_pawn_rank7 (sq : Z) (bd : board) : board :=
  let bd := active_toggle_last_rank sq bd in
  take_white_pawn sq bd.

Definition take_black_pawn (sq : Z) (bd : board) : board :=
  let bd := hash_xor (data_zobrist zobrist_black_pawn sq) bd in
  let bd := pawn_king_xor (data_zobrist zobrist_black_pawn sq) bd in
  let bd := material_add (- BOARD_MATERIAL_KEY_BLACK_PAWN) bd in
  let bd := upd_active (attack_xor_black_pawn sq) bd in
  take_from_list sq bd.

Definition take_black_pawn_rank2 (sq : Z) (bd : board) : board :=
  let bd := active_toggle_last_rank sq bd in
  take_black_pawn sq bd.

(** [capture_take_piece_fn_table[piece](bd, sq)].  The table has no entry
    for kings and for the empty square; the callers never index it with
    those (their assert), and the embedding leaves the board alone there. *)
Definition take_piece (pc : board_piece) (sq : Z) (bd : board) : board :=
  match pc with
  | board_white_queen => take_white_queen sq bd
  | board_black_queen => take_black_queen sq bd
  | board_white_rook => take_white_rook sq bd
  | board_black_rook => take_black_rook sq bd
  | board_white_rook_castle => take_white_rook_castle sq bd
  | board_black_rook_castle => take_black_rook_castle sq bd
  | board_white_bishop_light => take_white_bishop_light sq bd
  | board_white_bishop_dark => take_white_bishop_dark sq bd
  | board_black_bishop_light => take_black_bishop_light sq bd
  | board_black_bishop_dark => take_black_bishop_dark sq bd
  | board_white_knight => take_white_knight sq bd
  | board_black_knight => take_black_knight sq bd
  | board_white_pawn | board_white_pawn_rank2 => take_white_pawn sq bd
  | board_white_pawn_rank7 => take_white_pawn_rank7 sq bd
  | board_black_pawn | board_black_pawn_rank7 => take_black_pawn sq bd
  | board_black_pawn_rank2 => take_black_pawn_rank2 sq bd
  | board_empty
  | board_white_king | board_black_king
  | board_white_king_castle | board_black_king_castle => bd
  end.

(** [take_piece = capture_take_piece_fn_table[bd->squares[to].piece];
     take_piece(bd, to);] *)
Definition take_piece_on (to : Z) (bd : board) : board :=
  take_piece (piece_at bd to) to bd.

(** The colour test of the capture functions: the mover is the passive
    side of the new frame, so [active.color == board_black] means that a
    white piece captures. *)
Definition mover_is_white (bd : board) : bool :=
  color (active (cur bd)) =? board_black.

Definition capture_with_king (from to : Z) (bd : board) : board :=
  let z := if mover_is_white bd then zobrist_white_king else zobrist_black_king in
  let bd := hash_from_parent (Z.lxor (data_zobrist z from) (data_zobrist z to)) bd in
  let bd := pawn_king_xor (Z.lxor (data_zobrist z from) (data_zobrist z to)) bd in
  let bd := take_piece_on to bd in
  let bd := upd_passive (attack_xor_king from) bd in
  let bd := place_piece from to bd in
  let bd := clear_square from bd in
  let bd := passive_xor_rays from (Z.land (passive_attacks bd from) (data_kingtab from)) bd in
  let bd := active_xor_rays from (Z.land (active_attacks bd from) (data_kingtab from)) bd in
  upd_passive (attack_xor_king to) bd.

Definition capture_with_white_king_castle (from to : Z) (bd : board) : board :=
  let delta_hash := 0 in
  let bd := set_piece from board_white_king bd in
  let '(bd, delta_hash) :=
    disable_castle_rook A1 board_white_rook_castle board_white_rook
      zobrist_white_rook zobrist_white_rook_castle (bd, delta_hash) in
  let '(bd, delta_hash) :=
    disable_castle_rook H1 board_white_rook_castle board_white_rook
      zobrist_white_rook zobrist_white_rook_castle (bd, delta_hash) in
  let bd := capture_with_king from to bd in
  hash_xor delta_hash bd.

Definition capture_with_black_king_castle (from to : Z) (bd : board) : board :=
  let delta_hash := 0 in
  let bd := set_piece from board_black_king bd in
  let '(bd, delta_hash) :=
    disable_castle_rook A8 board_black_rook_castle board_black_rook
      zobrist_black_rook zobrist_black_rook_castle (bd, delta_hash) in
  let '(bd, delta_hash) :=
    disable_castle_rook H8 board_black_rook_castle board_black_rook
      zobrist_black_rook zobrist_black_rook_castle (bd, delta_hash) in
  let bd := capture_with_king from to bd in
  hash_xor delta_hash bd.

(** The common body of capture_with_queen, capture_with_rook and
    capture_with_bishop after the hash update. *)
Definition capture_with_slider (own : Z) (bishop : bool) (from to : Z) (bd : board)
    : board :=
  let bd := take_piece_on to bd in
  (* Extend piece attacks on new square *)
  let bd := upd_passive (attack_xor_rays bd to (Z.land own (data_kingtab to))) bd in
  let bd :=
    if bishop then
      upd_passive (fun s =>
        set_bishop_diagonals
          (Z.lxor (bishop_diagonals s)
             (Z.lxor (data_bishop_diagonals from) (data_bishop_diagonals to))) s) bd
    else bd in
  let bd := place_piece from to bd in
  let bd := clear_square from bd in
  slider_extend_origin own from bd.

Definition capture_with_queen (from to : Z) (bd : board) : board :=
  let z := if mover_is_white bd then zobrist_white_queen else zobrist_black_queen in
  let bd := hash_from_parent (Z.lxor (data_zobrist z from) (data_zobrist z to)) bd in
  capture_with_slider BOARD_ATTACK_QUEEN false from to bd.

Definition capture_with_rook (from to : Z) (bd : board) : board :=
  let z := if mover_is_white bd then zobrist_white_rook else zobrist_black_rook in
  let bd := hash_from_parent (Z.lxor (data_zobrist z from) (data_zobrist z to)) bd in
  capture_with_slider BOARD_ATTACK_ROOK false from to bd.

Definition capture_with_white_rook_castle (from to : Z) (bd : board) : board :=
  let bd := set_piece from board_white_rook bd in
  let other := if from =? A1 then H1 else A1 in
  let bd :=
    if negb (piece_eqb (piece_at bd other) board_white_rook_castle) then
      let bd := PUSH_UNDO E1 bd in
      set_piece E1 board_white_king bd
    else bd in
  let bd := capture_with_rook from to bd in
  let bd := hash_xor (Z.lxor (data_zobrist zobrist_white_rook from)
                             (data_zobrist zobrist_white_rook_castle from)) bd in
  pawn_king_xor (data_zobrist zobrist_white_rook_castle from) bd.

Definition capture_with_black_rook_castle (from to : Z) (bd : board) : board :=
  let bd := set_piece from board_black_rook bd in
  let other := if from =? A8 then H8 else A8 in
  let bd :=
    if negb (piece_eqb (piece_at bd other) board_black_rook_castle) then
      let bd := PUSH_UNDO E8 bd in
      set_piece E8 board_black_king bd
    else bd in
  let bd := capture_with_rook from to bd in
  let bd := hash_xor (Z.lxor (data_zobrist zobrist_black_rook from)
                             (data_zobrist zobrist_black_rook_castle from)) bd in
  pawn_king_xor (data_zobrist zobrist_black_rook_castle from) bd.

Definition capture_with_bishop (from to : Z) (bd : board) : board :=
  let z := if mover_is_white bd then zobrist_white_bishop else zobrist_black_bishop in
  let bd := hash_from_parent (Z.lxor (data_zobrist z from) (data_zobrist z to)) bd in
  capture_with_slider BOARD_ATTACK_BISHOP true from to bd.

Definition capture_with_knight (from to : Z) (bd : board) : board :=
  let z := if mover_is_white bd then zobrist_white_knight else zobrist_black_knight in
  let bd := hash_from_parent (Z.lxor (data_zobrist z from) (data_zobrist z to)) bd in
  let bd := take_piece_on to bd in
  let bd := upd_passive (attack_sub_knight from) bd in
  let bd := place_piece from to bd in
  let bd := clear_square from bd in
  let bd := passive_xor_rays from (Z.land (passive_attacks bd from) (data_kingtab from)) bd in
  let bd := active_xor_rays from (Z.land (active_attacks bd from) (data_kingtab from)) bd in
  upd_passive (attack_add_knight to) bd.

Definition capture_with_white_pawn (from to : Z) (bd : board) : board :=
  let bd := hash_from_parent
              (Z.lxor (data_zobrist zobrist_white_pawn from)
                      (data_zobrist zobrist_white_pawn to)) bd in
  let bd := pawn_king_xor
              (Z.lxor (data_zobrist zobrist_white_pawn from)
                      (data_zobrist zobrist_white_pawn to)) bd in
  let bd := take_piece_on to bd in
  let bd := upd_passive (attack_xor_white_pawn from) bd in
  let bd := upd_passive (set_piece_sq (index_at bd from) to) bd in
  let bd :=
    if BOARD_RANK to =? BOARD_RANK_7 then
      let bd := set_piece to board_white_pawn_rank7 bd in
      passive_toggle_last_rank to bd
    else set_piece to board_white_pawn bd in
  let bd := set_index to (index_at bd from) bd in
  let bd := clear_square from bd in
  let bd := passive_xor_rays from (Z.land (passive_attacks bd from) (data_kingtab from)) bd in
  let bd := active_xor_rays from (Z.land (active_attacks bd from) (data_kingtab from)) bd in
  upd_passive (attack_xor_white_pawn to) bd.

Definition capture_with_black_pawn (from to : Z) (bd : board) : board :=
  let bd := hash_from_parent
              (Z.lxor (data_zobrist zobrist_black_pawn from)
                      (data_zobrist zobrist_black_pawn to)) bd in
  let bd := pawn_king_xor
              (Z.lxor (data_zobrist zobrist_black_pawn from)
                      (data_zobrist zobrist_black_pawn to)) bd in
  let bd := take_piece_on to bd in
  let bd := upd_passive (attack_xor_black_pawn from) bd in
  let bd := upd_passive (set_piece_sq (index_at bd from) to) bd in
  let bd :=
    if BOARD_RANK to =? BOARD_RANK_2 then
      let bd := set_piece to board_black_pawn_rank2 bd in
      passive_toggle_last_rank to bd
    else set_piece to board_black_pawn bd in
  let bd := set_index to (index_at bd from) bd in
  let bd := clear_square from bd in
  let bd := passive_xor_rays from (Z.land (passive_attacks bd from) (data_kingtab from)) bd in
  let bd := active_xor_rays from (Z.land (active_attacks bd from) (data_kingtab from)) bd in
  upd_passive (attack_xor_black_pawn to) bd.

(** ** Castling (castle.c)

    The four functions share one text; they differ in the five squares
    and in the colour of the pieces and Zobrist rows. *)

Definition castle_generic
    (king_from king_to rook_from rook_to other_rook : Z)
    (king rook rook_castle : board_piece)
    (z_king z_rook z_rook_castle : Z) (bd : board) : board :=
  (* Update Zobrist hashes *)
  let bd := hash_from_parent
              (Z.lxor (Z.lxor (Z.lxor (data_zobrist z_king king_from)
                                      (data_zobrist z_king king_to))
                              (data_zobrist z_rook_castle rook_from))
                      (data_zobrist z_rook rook_to)) bd in
  let bd := pawn_king_xor
              (Z.lxor (Z.lxor (data_zobrist z_king king_from)
                              (data_zobrist z_king king_to))
                      (data_zobrist z_rook_castle rook_from)) bd in
  (* Prepare board_unmake_move *)
  let bd := PUSH_UNDO rook_from bd in
  let bd := PUSH_UNDO rook_to bd in
  (* Remove attacks *)
  let bd := upd_passive (attack_xor_king king_from) bd in
  let bd := upd_passive
              (attack_xor_rays bd rook_from
                 (Z.land BOARD_ATTACK_ROOK (data_kingtab rook_from))) bd in
  (* Move the king *)
  let bd := upd_passive (set_piece_sq (index_at bd king_from) king_to) bd in
  let bd := set_piece king_to king bd in
  let bd := set_index king_to 0 bd in
  let bd := set_piece king_from board_empty bd in
  let bd := set_index king_from 0 bd in
  (* Move the rook *)
  let bd := upd_passive (set_piece_sq (index_at bd rook_from) rook_to) bd in
  let bd := set_piece rook_to rook bd in
  let bd := set_index rook_to (index_at bd rook_from) bd in
  let bd := set_piece rook_from board_empty bd in
  let bd := set_index rook_from 0 bd in
  (* Place new attacks *)
  let bd := passive_xor_rays king_from
              (Z.land (passive_attacks bd king_from) (data_kingtab king_from)) bd in
  let bd := upd_passive (attack_xor_king king_to) bd in
  let bd := upd_passive
              (attack_xor_rays bd rook_to
                 (Z.land BOARD_ATTACK_ROOK (data_kingtab rook_to))) bd in
  (* Downgrade other rook, if needed *)
  let bd :=
    if piece_eqb (piece_at bd other_rook) rook_castle then
      let bd := PUSH_UNDO other_rook bd in
      let bd := set_piece other_rook rook bd in
      let bd := hash_xor (Z.lxor (data_zobrist z_rook_castle other_rook)
                                 (data_zobrist z_rook other_rook)) bd in
      pawn_king_xor (data_zobrist z_rook_castle other_rook) bd
    else bd in
  (* Update halfmove clock *)
  bump_halfmove_clock bd.

Definition castle_white_king_side (from to : Z) (bd : board) : board :=
  castle_generic E1 G1 H1 F1 A1
    board_white_king board_white_rook board_white_rook_castle
    zobrist_white_king zobrist_white_rook zobrist_white_rook_castle bd.

Definition castle_white_queen_side (from to : Z) (bd : board) : board :=
  castle_generic E1 C1 A1 D1 H1
    board_white_king board_white_rook board_white_rook_castle
    zobrist_white_king zobrist_white_rook zobrist_white_rook_castle bd.

Definition castle_black_king_side (from to : Z) (bd : board) : board :=
  castle_generic E8 G8 H8 F8 A8
    board_black_king board_black_rook board_black_rook_castle
    zobrist_black_king zobrist_black_rook zobrist_black_rook_castle bd.

Definition castle_black_queen_side (from to : Z) (bd : board) : board :=
  castle_generic E8 C8 A8 D8 H8
    board_black_king board_black_rook board_black_rook_castle
    zobrist_black_king zobrist_black_rook zobrist_black_rook_castle bd.

(** ** En passant (enpassant.c) *)

Definition enpassant_generic (white : bool) (from to : Z) (bd : board) : board :=
  let victim := to + (if white then BOARD_VECTOR_SOUTH else BOARD_VECTOR_NORTH) in
  let z_own := if white then zobrist_white_pawn else zobrist_black_pawn in
  let z_his := if white then zobrist_black_pawn else zobrist_white_pawn in
  let own_pawn := if white then attack_xor_white_pawn else attack_xor_black_pawn in
  let his_pawn := if white then attack_xor_black_pawn else attack_xor_white_pawn in
  (* Update Zobrist hashes and material key *)
  let bd := hash_from_parent
              (Z.lxor (Z.lxor (data_zobrist z_own from) (data_zobrist z_own to))
                      (data_zobrist z_his victim)) bd in
  let bd := pawn_king_xor
              (Z.lxor (Z.lxor (data_zobrist z_own from) (data_zobrist z_own to))
                      (data_zobrist z_his victim)) bd in
  let bd := material_add
              (- data_material_key (if white then board_black_pawn else board_white_pawn))
              bd in
  (* Occupy to-square: block any attacks passing through this square *)
  let bd := passive_xor_rays to (Z.land (passive_attacks bd to) (data_kingtab to)) bd in
  let bd := active_xor_rays to (Z.land (active_attacks bd to) (data_kingtab to)) bd in
  (* Add piece attacks originating from this square *)
  let bd := upd_passive (own_pawn to) bd in
  (* Update piece list *)
  let index := index_at bd from in
  let bd := upd_passive (set_piece_sq index to) bd in
  (* Update board *)
  let bd := set_square to (square_at bd from) bd in
  (* Clear victim-square: extend any attacks passing through this square *)
  let bd := passive_xor_rays victim
              (Z.land (passive_attacks bd victim) (data_kingtab victim)) bd in
  let bd := active_xor_rays victim
              (Z.land (active_attacks bd victim) (data_kingtab victim)) bd in
  (* Remove piece attacks originating from this square *)
  let bd := upd_active (his_pawn victim) bd in
  (* Update piece list *)
  let index := index_at bd victim in
  let nr := nr_pieces (active (cur bd)) - 1 in
  let other := active_pieces bd nr in
  let bd := PUSH_UNDO other bd in
  let bd := set_index other index bd in
  let bd := upd_active (set_piece_sq index other) bd in
  let bd := upd_active (set_piece_sq nr (-1)) bd in
  let bd := upd_active (set_nr_pieces nr) bd in
  (* Update board *)
  let bd := PUSH_UNDO victim bd in
  let bd := set_piece victim board_empty bd in
  let bd := set_index victim 0 bd in
  (* Clear from-square: extend any attacks *)
  let bd := passive_xor_rays from (Z.land (passive_attacks bd from) (data_kingtab from)) bd in
  let bd := active_xor_rays from (Z.land (active_attacks bd from) (data_kingtab from)) bd in
  (* Remove own attacks *)
  let bd := upd_passive (own_pawn from) bd in
  (* Update board *)
  let bd := set_piece from board_empty bd in
  set_index from 0 bd.

Definition enpassant_with_white_pawn (from to : Z) (bd : board) : board :=
  enpassant_generic true from to bd.
Definition enpassant_with_black_pawn (from to : Z) (bd : board) : board :=
  enpassant_generic false from to bd.

(** ** Promotions (promote.c)

    The eight functions share one text.  They differ in the XOR constant,
    the Zobrist rows, the new piece and its rays; the knight promotion adds
    its attacks with attack_add_knight and re-sorts the piece list, the
    bishop promotion updates the diagonal mask. *)

Inductive prom_kind : Type := prom_queen | prom_rook | prom_bishop | prom_knight.

Definition xor_prom (k : prom_kind) : Z :=
  match k with
  | prom_queen => XOR_PROM_QUEEN
  | prom_rook => XOR_PROM_ROOK
  | prom_bishop => XOR_PROM_BISHOP
  | prom_knight => XOR_PROM_KNIGHT
  end.

(** The piece that appears on the to-square. *)
Definition prom_piece (white : bool) (k : prom_kind) (to : Z) : board_piece :=
  match k, white with
  | prom_queen, true => board_white_queen
  | prom_queen, false => board_black_queen
  | prom_rook, true => board_white_rook
  | prom_rook, false => board_black_rook
  | prom_bishop, true =>
      if BOARD_SQUARE_IS_LIGHT to then board_white_bishop_light else board_white_bishop_dark
  | prom_bishop, false =>
      if BOARD_SQUARE_IS_LIGHT to then board_black_bishop_light else board_black_bishop_dark
  | prom_knight, true => board_white_knight
  | prom_knight, false => board_black_knight
  end.

Definition prom_zobrist (white : bool) (k : prom_kind) : Z :=
  match k, white with
  | prom_queen, true => zobrist_white_queen
  | prom_queen, false => zobrist_black_queen
  | prom_rook, true => zobrist_white_rook
  | prom_rook, false => zobrist_black_rook
  | prom_bishop, true => zobrist_white_bishop
  | prom_bishop, false => zobrist_black_bishop
  | prom_knight, true => zobrist_white_knight
  | prom_knight, false => zobrist_black_knight
  end.

(** The rays of the new piece; none for the knight. *)
Definition prom_rays (k : prom_kind) : Z :=
  match k with
  | prom_queen => BOARD_ATTACK_QUEEN
  | prom_rook => BOARD_ATTACK_ROOK
  | prom_bishop => BOARD_ATTACK_BISHOP
  | prom_knight => 0
  end.

(** [for (int knight=1; knight<index; knight++) { ... swap once ... break; }]
    of promote_white_knight and promote_black_knight. *)
Fixpoint promote_knight_sort (fuel : nat) (own_knight : board_piece)
    (to knight index : Z) (bd : board) : board :=
  match fuel with
  | O => bd
  | S n =>
      if knight <? index then
        let sq := passive_pieces bd knight in
        if piece_eqb (piece_at bd sq) own_knight then
          promote_knight_sort n own_knight to (knight + 1) index bd
        else
          let bd := PUSH_UNDO sq bd in
          let bd := set_index to knight bd in
          let bd := set_index sq index bd in
          let bd := upd_passive (set_piece_sq knight to) bd in
          upd_passive (set_piece_sq index sq) bd
      else bd
  end.

Definition promote_generic (white : bool) (k : prom_kind) (from to : Z) (bd : board)
    : board :=
  let z_pawn := if white then zobrist_white_pawn else zobrist_black_pawn in
  let pawn := if white then board_white_pawn else board_black_pawn in
  let own_pawn := if white then attack_xor_white_pawn else attack_xor_black_pawn in
  (* Fix to-square *)
  let to := Z.lxor to (xor_prom k) in
  (* Repair undo information *)
  let bd := upd_cur (fun fr =>
              set_undo (zset (undo fr) UNDO_TO (mk_undo to (square_at bd to))) fr) bd in
  (* Update Zobrist hashes and material key *)
  let bd := hash_from_parent
              (Z.lxor (data_zobrist z_pawn from)
                      (data_zobrist (prom_zobrist white k) to)) bd in
  let bd := pawn_king_xor (data_zobrist z_pawn from) bd in
  let bd := material_add
              (data_material_key (prom_piece white k to) - data_material_key pawn) bd in
  (* Occupy to-square *)
  let bd :=
    if BOARD_FILE to =? BOARD_FILE from then
      (* no capture: add missing piece attacks, block attacks passing through *)
      let bd := passive_xor_rays to
                  (Z.land (Z.lxor (passive_attacks bd to) (prom_rays k))
                          (data_kingtab to)) bd in
      active_xor_rays to (Z.land (active_attacks bd to) (data_kingtab to)) bd
    else
      let bd := take_piece_on to bd in
      match k with
      | prom_knight => bd
      | _ => upd_passive
               (attack_xor_rays bd to (Z.land (prom_rays k) (data_kingtab to))) bd
      end in
  let bd :=
    match k with
    | prom_knight => upd_passive (attack_add_knight to) bd
    | _ => bd
    end in
  (* Update piece list *)
  let index := index_at bd from in
  let bd := upd_passive (set_piece_sq index to) bd in
  (* Update bishop diagonal mask *)
  let bd :=
    match k with
    | prom_bishop =>
        upd_passive (fun s =>
          set_bishop_diagonals
            (Z.lxor (bishop_diagonals s) (data_bishop_diagonals to)) s) bd
    | _ => bd
    end in
  (* Update board *)
  let bd := set_index to (index_at bd from) bd in
  let bd := set_piece to (prom_piece white k to) bd in
  (* EXTRA: swap to bring all knights up front *)
  let bd :=
    match k with
    | prom_knight =>
        promote_knight_sort 17 (prom_piece white prom_knight to) to 1 index bd
    | _ => bd
    end in
  (* Clear from-square *)
  let bd := passive_xor_rays from (Z.land (passive_attacks bd from) (data_kingtab from)) bd in
  let bd := active_xor_rays from (Z.land (active_attacks bd from) (data_kingtab from)) bd in
  let bd := upd_passive (own_pawn from) bd in
  let bd := passive_toggle_last_rank from bd in
  let bd := set_piece from board_empty bd in
  let bd := set_index from 0 bd in
  (* Leave extra mark in undo[] that indicates the promotion piece *)
  let len := undo_len (cur bd) in
  upd_cur (fun fr =>
    let e := zget zero_undo (undo fr) len in
    set_undo (zset (undo fr) len
                (mk_undo (undo_square e)
                   (mk_square (piece_at bd to) (sq_index (undo_piece e))))) fr) bd.

Definition promote_white_queen  := promote_generic true prom_queen.
Definition promote_white_rook   := promote_generic true prom_rook.
Definition promote_white_bishop := promote_generic true prom_bishop.
Definition promote_white_knight := promote_generic true prom_knight.
Definition promote_black_queen  := promote_generic false prom_queen.
Definition promote_black_rook   := promote_generic false prom_rook.
Definition promote_black_bishop := promote_generic false prom_bishop.
Definition promote_black_knight := promote_generic false prom_knight.

(** ** Generated moves and the move makers *)

(** The functions a generated move can point to ([move_p->make]);
    [fn_null] stands for the entries a dispatch table leaves empty. *)
Inductive make_move_fn : Type :=
  | fn_null
  | fn_move_white_king | fn_move_black_king
  | fn_move_white_king_castle | fn_move_black_king_castle
  | fn_move_white_queen | fn_move_black_queen
  | fn_move_white_rook | fn_move_black_rook
  | fn_move_white_rook_castle | fn_move_black_rook_castle
  | fn_move_white_bishop | fn_move_black_bishop
  | fn_move_white_knight | fn_move_black_knight
  | fn_move_white_pawn_rank2_to_3 | fn_move_white_pawn_rank2_to_4
  | fn_move_white_pawn
  | fn_move_black_pawn_rank7_to_6 | fn_move_black_pawn_rank7_to_5
  | fn_move_black_pawn
  | fn_capture_with_king
  | fn_capture_with_white_king_castle | fn_capture_with_black_king_castle
  | fn_capture_with_queen
  | fn_capture_with_rook
  | fn_capture_with_white_rook_castle | fn_capture_with_black_rook_castle
  | fn_capture_with_bishop
  | fn_capture_with_knight
  | fn_capture_with_white_pawn | fn_capture_with_black_pawn
  | fn_castle_white_king_side | fn_castle_white_queen_side
  | fn_castle_black_king_side | fn_castle_black_queen_side
  | fn_enpassant_with_white_pawn | fn_enpassant_with_black_pawn
  | fn_promote_white_queen | fn_promote_white_rook
  | fn_promote_white_bishop | fn_promote_white_knight
  | fn_promote_black_queen | fn_promote_black_rook
  | fn_promote_black_bishop | fn_promote_black_knight.

(** [make(bd, from, to)] *)
Definition call_make (make : make_move_fn) (from to : Z) (bd : board) : board :=
  match make with
  | fn_null => bd
  | fn_move_white_king => move_white_king from to bd
  | fn_move_black_king => move_black_king from to bd
  | fn_move_white_king_castle => move_white_king_castle from to bd
  | fn_move_black_king_castle => move_black_king_castle from to bd
  | fn_move_white_queen => move_white_queen from to bd
  | fn_move_black_queen => move_black_queen from to bd
  | fn_move_white_rook => move_white_rook from to bd
  | fn_move_black_rook => move_black_rook from to bd
  | fn_move_white_rook_castle => move_white_rook_castle from to bd
  | fn_move_black_rook_castle => move_black_rook_castle from to bd
  | fn_move_white_bishop => move_white_bishop from to bd
  | fn_move_black_bishop => move_black_bishop from to bd
  | fn_move_white_knight => move_white_knight from to bd
  | fn_move_black_knight => move_black_knight from to bd
  | fn_move_white_pawn_rank2_to_3 => move_white_pawn_rank2_to_3 from to bd
  | fn_move_white_pawn_rank2_to_4 => move_white_pawn_rank2_to_4 from to bd
  | fn_move_white_pawn => move_white_pawn from to bd
  | fn_move_black_pawn_rank7_to_6 => move_black_pawn_rank7_to_6 from to bd
  | fn_move_black_pawn_rank7_to_5 => move_black_pawn_rank7_to_5 from to bd
  | fn_move_black_pawn => move_black_pawn from to bd
  | fn_capture_with_king => capture_with_king from to bd
  | fn_capture_with_white_king_castle => capture_with_white_king_castle from to bd
  | fn_capture_with_black_king_castle => capture_with_black_king_castle from to bd
  | fn_capture_with_queen => capture_with_queen from to bd
  | fn_capture_with_rook => capture_with_rook from to bd
  | fn_capture_with_white_rook_castle => capture_with_white_rook_castle from to bd
  | fn_capture_with_black_rook_castle => capture_with_black_rook_castle from to bd
  | fn_capture_with_bishop => capture_with_bishop from to bd
  | fn_capture_with_knight => capture_with_knight from to bd
  | fn_capture_with_white_pawn => capture_with_white_pawn from to bd
  | fn_capture_with_black_pawn => capture_with_black_pawn from to bd
  | fn_castle_white_king_side => castle_white_king_side from to bd
  | fn_castle_white_queen_side => castle_white_queen_side from to bd
  | fn_castle_black_king_side => castle_black_king_side from to bd
  | fn_castle_black_queen_side => castle_black_queen_side from to bd
  | fn_enpassant_with_white_pawn => enpassant_with_white_pawn from to bd
  | fn_enpassant_with_black_pawn => enpassant_with_black_pawn from to bd
  | fn_promote_white_queen => promote_white_queen from to bd
  | fn_promote_white_rook => promote_white_rook from to bd
  | fn_promote_white_bishop => promote_white_bishop from to bd
  | fn_promote_white_knight => promote_white_knight from to bd
  | fn_promote_black_queen => promote_black_queen from to bd
  | fn_promote_black_rook => promote_black_rook from to bd
  | fn_promote_black_bishop => promote_black_bishop from to bd
  | fn_promote_black_knight => promote_black_knight from to bd
  end.

(** union board_move: the move word, its prescore and the move maker *)
Record board_move : Type := mk_move {
  bm_move : Z;
  bm_prescore : Z;
  bm_make : make_move_fn
}.

Definition board_in_check (bd : board) : bool :=
  negb (passive_attacks bd (active_pieces bd 0) =? 0).

Definition board_current_ply (bd : board) : Z := current bd - 2.

(** board_make_move *)
Definition board_make_move (move : board_move) (bd : board) : board :=
  let frame := cur bd in
  (* Create new stack_frame, copy and swap active & passive data *)
  let bd := upd_frame 1 (set_passive (active frame)) bd in
  let bd := upd_frame 1 (set_active (passive frame)) bd in
  (* Prepare hash and material key for new position *)
  let bd := upd_frame 1 (set_pawn_king_hash (pawn_king_hash frame)) bd in
  let bd := upd_frame 1 (set_material_key (material_key frame)) bd in
  let bd := upd_frame 1 (set_halfmove_clock 0) bd in
  let bd := set_current (current bd + 1) bd in
  (* Update 64-bit node counter for this level *)
  let bd := upd_cur (fun fr => set_node_counter (node_counter fr + 1) fr) bd in
  (* Get move details *)
  let from := MOVE_FROM (bm_move move) in
  let to := MOVE_TO (bm_move move) in
  (* Undo information (preliminary) *)
  let bd := upd_cur (fun fr =>
              set_undo (zset (undo fr) UNDO_FROM (mk_undo from (square_at bd from))) fr) bd in
  let bd := upd_cur (fun fr =>
              set_undo (zset (undo fr) UNDO_TO (mk_undo to (square_at bd to))) fr) bd in
  let bd := upd_cur (set_undo_len 2) bd in
  (* Transfer control to the specialized move making function *)
  call_make (bm_make move) from to bd.

(** [bd->squares[frame->undo[i].square] = frame->undo[i].piece] *)
Definition restore_undo (i : Z) (bd : board) : board :=
  let e := zget zero_undo (undo (cur bd)) i in
  set_square (undo_square e) (undo_piece e) bd.

(** [for (int i=...; i<undo_len; i++) restore undo[i]] *)
Fixpoint restore_undo_from (fuel : nat) (i len : Z) (bd : board) : board :=
  match fuel with
  | O => bd
  | S n =>
      if i <? len then restore_undo_from n (i + 1) len (restore_undo i bd) else bd
  end.

(** board_undo_move *)
Definition board_undo_move (bd : board) : board :=
  let len := undo_len (cur bd) in
  let bd := restore_undo 0 bd in
  let bd := restore_undo 1 bd in
  let bd :=
    if len >? 2 then
      let bd := restore_undo 2 bd in
      restore_undo_from (Z.to_nat (len - 3)) 3 len bd
    else bd in
  (* Pop one stack frame *)
  set_current (current bd - 1) bd.

(** board_make_null_move *)
Definition board_make_null_move (bd : board) : board :=
  let frame := cur bd in
  let bd := upd_frame 1 (set_passive (active frame)) bd in
  let bd := upd_frame 1 (set_active (passive frame)) bd in
  let bd := upd_frame 1 (set_board_hash_lazy (u64_not (board_hash_lazy frame))) bd in
  let bd := upd_frame 1 (set_pawn_king_hash (pawn_king_hash frame)) bd in
  let bd := upd_frame 1 (set_material_key (material_key frame)) bd in
  let bd := upd_frame 1 (set_halfmove_clock 1) bd in
  let bd := set_current (current bd + 1) bd in
  let bd := upd_cur (fun fr => set_node_counter (node_counter fr + 1) fr) bd in
  (* No undo information needed *)
  upd_cur (set_undo_len 0) bd.

(** board_undo_null_move *)
Definition board_undo_null_move (bd : board) : board :=
  set_current (current bd - 1) bd.

(** ** Position setup and consistency check (layout.c) *)

Definition lnot (x : Z) : Z := if x =? 0 then 1 else 0.   (* C's [!x] *)

(** calc_attacks *)
Definition calc_attacks (bd : board) (side : board_side) (color : Z)
    : option board_side :=
  let side := set_attacks (zeros 64) side in
  fold_left
    (fun (acc : option board_side) (sq : Z) =>
       match acc with
       | None => None
       | Some side =>
           let piece := piece_at bd sq in
           if negb (BOARD_PIECE_COLOR piece =? color) then Some side
           else
             match piece with
             | board_white_king | board_black_king
             | board_white_king_castle | board_black_king_castle =>
                 Some (attack_xor_king sq side)
             | board_white_queen | board_black_queen =>
                 Some (attack_xor_rays bd sq
                         (Z.land BOARD_ATTACK_QUEEN (data_kingtab sq)) side)
             | board_white_rook | board_black_rook
             | board_white_rook_castle | board_black_rook_castle =>
                 Some (attack_xor_rays bd sq
                         (Z.land BOARD_ATTACK_ROOK (data_kingtab sq)) side)
             | board_white_bishop_light | board_black_bishop_light
             | board_white_bishop_dark | board_black_bishop_dark =>
                 Some (attack_xor_rays bd sq
                         (Z.land BOARD_ATTACK_BISHOP (data_kingtab sq)) side)
             | board_white_knight | board_black_knight =>
                 Some (attack_add_knight sq side)
             | board_white_pawn | board_white_pawn_rank2 | board_white_pawn_rank7 =>
                 Some (attack_xor_white_pawn sq side)
             | board_black_pawn | board_black_pawn_rank7 | board_black_pawn_rank2 =>
                 Some (attack_xor_black_pawn sq side)
             | board_empty => None
             end
       end)
    all_squares (Some side).

(** cmp_piece: by piece code, then by square *)
Definition cmp_piece_le (bd : board) (a b : Z) : bool :=
  let pa := piece_code (piece_at bd a) in
  let pb := piece_code (piece_at bd b) in
  (pa <? pb) || ((pa =? pb) && (a <=? b)).

Fixpoint insert_sorted (bd : board) (x : Z) (l : list Z) : list Z :=
  match l with
  | [] => [x]
  | y :: l' => if cmp_piece_le bd x y then x :: l else y :: insert_sorted bd x l'
  end.

(** [qsort(pieces, nr_pieces, ..., cmp_piece)]; the order is total, so the
    result does not depend on the sorting algorithm. *)
Definition sort_pieces (bd : board) (l : list Z) : list Z :=
  fold_right (insert_sorted bd) [] l.

Definition count_pieces (bd : board) (color : Z) (pred : board_piece -> bool) : Z :=
  Z.of_nat (length (filter (fun sq =>
    (BOARD_PIECE_COLOR (piece_at bd sq) =? color) && pred (piece_at bd sq)) all_squares)).

Definition is_king (pc : board_piece) : bool :=
  match pc with
  | board_white_king | board_white_king_castle
  | board_black_king | board_black_king_castle => true
  | _ => false
  end.
Definition is_queen (pc : board_piece) : bool :=
  match pc with board_white_queen | board_black_queen => true | _ => false end.
Definition is_rook (pc : board_piece) : bool :=
  match pc with
  | board_white_rook | board_white_rook_castle
  | board_black_rook | board_black_rook_castle => true
  | _ => false
  end.
Definition is_bishop_light (pc : board_piece) : bool :=
  match pc with board_white_bishop_light | board_black_bishop_light => true | _ => false end.
Definition is_bishop_dark (pc : board_piece) : bool :=
  match pc with board_white_bishop_dark | board_black_bishop_dark => true | _ => false end.
Definition is_bishop (pc : board_piece) : bool := is_bishop_light pc || is_bishop_dark pc.
Definition is_pawn (pc : board_piece) : bool :=
  match pc with
  | board_white_pawn | board_white_pawn_rank2 | board_white_pawn_rank7
  | board_black_pawn | board_black_pawn_rank2 | board_black_pawn_rank7 => true
  | _ => false
  end.

(** Write the first entries of a C array from a list. *)
Fixpoint write_prefix (l : list Z) (i : Z) (vals : list Z) : list Z :=
  match vals with
  | [] => l
  | v :: vals' => write_prefix (zset l i v) (i + 1) vals'
  end.

(** calc_struct_board_side *)
Definition calc_struct_board_side (bd : board) (side : board_side) (color : Z)
    : option board_side :=
  let own := filter (fun sq => BOARD_PIECE_COLOR (piece_at bd sq) =? color) all_squares in
  let side := set_color color side in
  let side := set_last_rank_pawns 0 side in
  let side := set_bishop_diagonals 0 side in
  (* Too many pieces of the same color *)
  if Z.of_nat (length own) >? BOARD_SIDE_MAX_PIECES + 1 then None else
  (* Pawn on back rank *)
  if existsb (fun sq =>
       (piece_eqb (piece_at bd sq) board_white_pawn ||
        piece_eqb (piece_at bd sq) board_black_pawn) &&
       ((BOARD_RANK sq =? BOARD_RANK_8) || (BOARD_RANK sq =? BOARD_RANK_1))) own
  then None else
  let side :=
    fold_left
      (fun side sq =>
         let piece := piece_at bd sq in
         let side :=
           if piece_eqb piece board_white_pawn_rank7
           then set_last_rank_pawns
                  (Z.lor (last_rank_pawns side) (Z.shiftl 1 (BOARD_FILE sq))) side
           else side in
         let side :=
           if piece_eqb piece board_black_pawn_rank2
           then set_last_rank_pawns
                  (Z.lor (last_rank_pawns side) (Z.shiftl 1 (BOARD_FILE sq))) side
           else side in
         if is_bishop piece
         then set_bishop_diagonals
                (Z.lxor (bishop_diagonals side) (data_bishop_diagonals sq)) side
         else side)
      own side in
  let nr_kings := count_pieces bd color is_king in
  let nr_queens := count_pieces bd color is_queen in
  let nr_rooks := count_pieces bd color is_rook in
  let nr_bishops_light := count_pieces bd color is_bishop_light in
  let nr_bishops_dark := count_pieces bd color is_bishop_dark in
  let nr_knights := count_pieces bd color is_knight in
  let nr_pawns := count_pieces bd color is_pawn in
  if nr_pawns >? 8 then None else
  if nr_kings =? 0 then None else
  if nr_kings >? 1 then None else
  let nr_promoted := 0 in
  let nr_promoted := if nr_queens >? 1 then nr_promoted + (nr_queens - 1) else nr_promoted in
  let nr_promoted := if nr_rooks >? 2 then nr_promoted + (nr_rooks - 2) else nr_promoted in
  let nr_promoted := if nr_bishops_light >? 1
                     then nr_promoted + (nr_bishops_light - 1) else nr_promoted in
  let nr_promoted := if nr_bishops_dark >? 1
                     then nr_promoted + (nr_bishops_dark - 1) else nr_promoted in
  let nr_promoted := if nr_knights >? 2 then nr_promoted + (nr_knights - 2) else nr_promoted in
  if nr_pawns + nr_promoted >? 8 then None else
  match calc_attacks bd side color with
  | None => None
  | Some side =>
      let sorted := sort_pieces bd own in
      let side := set_pieces (write_prefix (pieces side) 0 sorted) side in
      Some (set_nr_pieces (Z.of_nat (length own)) side)
  end.

(** calc_zobrist_hashes: the Zobrist row and the pawn/king membership of a piece *)
Definition zobrist_row (pc : board_piece) : option (Z * bool) :=
  match pc with
  | board_empty => None
  | board_white_king | board_white_king_castle => Some (zobrist_white_king, true)
  | board_black_king | board_black_king_castle => Some (zobrist_black_king, true)
  | board_white_queen => Some (zobrist_white_queen, false)
  | board_black_queen => Some (zobrist_black_queen, false)
  | board_white_rook => Some (zobrist_white_rook, false)
  | board_white_rook_castle => Some (zobrist_white_rook_castle, true)
  | board_black_rook => Some (zobrist_black_rook, false)
  | board_black_rook_castle => Some (zobrist_black_rook_castle, true)
  | board_white_bishop_light | board_white_bishop_dark => Some (zobrist_white_bishop, false)
  | board_black_bishop_light | board_black_bishop_dark => Some (zobrist_black_bishop, false)
  | board_white_knight => Some (zobrist_white_knight, false)
  | board_black_knight => Some (zobrist_black_knight, false)
  | board_white_pawn | board_white_pawn_rank2 | board_white_pawn_rank7 =>
      Some (zobrist_white_pawn, true)
  | board_black_pawn | board_black_pawn_rank7 | board_black_pawn_rank2 =>
      Some (zobrist_black_pawn, true)
  end.

Definition calc_zobrist_hashes (bd : board) : Z * Z :=
  let '(board_hash, pawn_king) :=
    fold_left
      (fun (acc : Z * Z) (sq : Z) =>
         let '(bh, pk) := acc in
         match zobrist_row (piece_at bd sq) with
         | None => (bh, pk)
         | Some (row, in_pk) =>
             (Z.lxor bh (data_zobrist row sq),
              if in_pk then Z.lxor pk (data_zobrist row sq) else pk)
         end)
      all_squares (0, 0) in
  let board_hash :=
    if color (active (cur bd)) =? board_black then u64_not board_hash else board_hash in
  (board_hash, pawn_king).

(** calc_material_key *)
Definition calc_material_key (bd : board) : Z :=
  let add (side : board_side) (key : Z) : Z :=
    fold_left
      (fun key i => u64_of (key + data_material_key (piece_at bd (piece_sq side i))))
      (seqZ 0 (nr_pieces side)) key in
  add (passive (cur bd)) (add (active (cur bd)) 0).

(** [for (i=0; i<side->nr_pieces; i++) bd->squares[side->pieces[i]].index = i;] *)
Definition copy_indexes (side : board_side) (bd : board) : board :=
  fold_left (fun bd i => set_index (piece_sq side i) i bd) (seqZ 0 (nr_pieces side)) bd.

(** The en-passant plausibility test of update_board_after_edit;
    [true] when the position is rejected. *)
Definition en_passant_is_invalid (bd : board) : bool :=
  let fr := cur bd in
  if negb (en_passant_lazy fr =? 0) &&
     (node_counter fr =? en_passant_node_counter fr) then
    let ep_square := en_passant_lazy fr in
    let white := color (active fr) =? board_white in
    if negb (BOARD_RANK ep_square =? (if white then BOARD_RANK_6 else BOARD_RANK_3))
    then true else
    let from_square :=
      ep_square + (if white then BOARD_VECTOR_NORTH else BOARD_VECTOR_SOUTH) in
    let dest_square :=
      ep_square + (if white then BOARD_VECTOR_SOUTH else BOARD_VECTOR_NORTH) in
    let my_pawn := if white then board_white_pawn else board_black_pawn in
    let his_pawn := if white then board_black_pawn else board_white_pawn in
    (* There must be an opponent pawn acting as ep pawn *)
    if negb (piece_eqb (piece_at bd dest_square) his_pawn) then true else
    (* The two squares behind the ep pawn should be empty *)
    if negb (piece_eqb (piece_at bd from_square) board_empty) then true else
    if negb (piece_eqb (piece_at bd ep_square) board_empty) then true else
    (* There must be one of our pawns next to the ep pawn *)
    let has_neighbor :=
      (negb (BOARD_FILE dest_square =? BOARD_FILE_A) &&
       piece_eqb (piece_at bd (dest_square + BOARD_VECTOR_WEST)) my_pawn) ||
      (negb (BOARD_FILE dest_square =? BOARD_FILE_H) &&
       piece_eqb (piece_at bd (dest_square + BOARD_VECTOR_EAST)) my_pawn) in
    if negb has_neighbor then true else
    (* The ep pawn can't uncover a diagonal attack on our king *)
    let my_king := active_pieces bd 0 in
    let dir := Z.land (Z.land (passive_attacks bd dest_square) BOARD_ATTACK_BISHOP)
                      (data_sq2sq dest_square my_king) in
    if negb (dir =? 0) then
      let step := board_vector_step dir in
      let sq :=
        (fix walk (fuel : nat) (sq : Z) : Z :=
           match fuel with
           | O => sq
           | S n =>
               let sq := sq + step in
               if piece_eqb (piece_at bd sq) board_empty then walk n sq else sq
           end) 8%nat dest_square in
      sq =? my_king
    else false
  else false.

(** update_board_after_edit *)
Definition update_board_after_edit (side_to_move : Z) (bd : board) : option board :=
  (* Prepare for repetition detection *)
  let bd := upd_cur (set_halfmove_clock 0) bd in
  let bd := upd_frame (-1) (set_halfmove_clock 0) bd in
  let bd := upd_frame (-2) (set_halfmove_clock 0) bd in
  (* Setup the data structures *)
  match calc_struct_board_side bd (active (cur bd)) side_to_move with
  | None => None
  | Some side =>
      let bd := upd_cur (set_active side) bd in
      let bd := copy_indexes side bd in
      let bd := upd_active (set_piece_sq (nr_pieces side) (-1)) bd in
      match calc_struct_board_side bd (passive (cur bd)) (lnot side_to_move) with
      | None => None
      | Some side =>
          let bd := upd_cur (set_passive side) bd in
          let bd := copy_indexes side bd in
          let bd := upd_passive (set_piece_sq (nr_pieces side) (-1)) bd in
          (* Check for attacks on passive king *)
          if negb (active_attacks bd (passive_pieces bd 0) =? 0) then None else
          (* Check against impossible en passant indicator *)
          if en_passant_is_invalid bd then None else
          (* Calculate hashes *)
          let '(bh, pk) := calc_zobrist_hashes bd in
          let bd := upd_cur (set_board_hash_lazy bh) bd in
          let bd := upd_cur (set_pawn_king_hash pk) bd in
          (* Calculate material key *)
          Some (upd_cur (set_material_key (calc_material_key bd)) bd)
      end
  end.

(** board_clear on a freshly allocated (all-zero) object: board_create *)
Definition zero_board : board :=
  mk_board (replicate 64 empty_square) 0 (zeros 4096)
    (replicate STACK_SIZE zero_frame) (zeros 64) 0 0.

Definition board_clear (bd : board) : board :=
  let bd := set_squares (replicate 64 empty_square) bd in
  let bd := set_stack (replicate STACK_SIZE zero_frame) bd in
  let bd := set_current 2 bd in
  let bd := upd_active (set_nr_pieces 0) bd in
  let bd := upd_active (set_piece_sq 0 (-1)) bd in
  let bd := upd_active (set_attacks (zeros 64)) bd in
  let bd := upd_active (set_color (-1)) bd in
  let bd := upd_passive (set_nr_pieces 0) bd in
  let bd := upd_passive (set_piece_sq 0 (-1)) bd in
  let bd := upd_passive (set_attacks (zeros 64)) bd in
  let bd := upd_passive (set_color (-1)) bd in
  let bd := upd_cur (set_en_passant_lazy 0) bd in
  let bd := upd_cur (set_halfmove_clock 0) bd in
  let bd := set_game_halfmove_clock_offset 0 bd in
  let bd := set_game_fullmove_number 1 bd in
  mk_board (squares bd) (current bd) (zset (butterfly bd) 0 0) (stack bd)
    (extra_defenders bd) (game_fullmove_number bd) (game_halfmove_clock_offset bd).

Definition board_create : board := board_clear zero_board.

(** *** The EPD parser: board_setup_raw *)

(** [epd[ix]]; the terminating NUL is read at the end of the string. *)
Definition char_at (epd : string) (ix : nat) : ascii :=
  match String.get ix epd with
  | Some c => c
  | None => "000"%char
  end.

Definition is_char (c d : ascii) : bool := Ascii.eqb c d.
Definition char_code (c : ascii) : Z := Z.of_nat (nat_of_ascii c).
Definition isdigit (c : ascii) : bool := (48 <=? char_code c) && (char_code c <=? 57).

(** [while (epd[ix] == ' ') ix++;] *)
Fixpoint skip_spaces (fuel : nat) (epd : string) (ix : nat) : nat :=
  match fuel with
  | O => ix
  | S n => if is_char (char_at epd ix) " " then skip_spaces n epd (ix + 1)%nat else ix
  end.

(** [while (count > 0) { if (file > H) raise; squares[...] = piece; file++; count--; }] *)
Fixpoint put_pieces (fuel : nat) (piece : board_piece) (file rank count : Z)
    (bd : board) : option (Z * board) :=
  match fuel with
  | O => Some (file, bd)
  | S n =>
      if count >? 0 then
        if file >? BOARD_FILE_H then None
        else
          let bd := set_index (BOARD_SQUARE file rank) 0 bd in
          let bd := set_piece (BOARD_SQUARE file rank) piece bd in
          put_pieces n piece (file + 1) rank (count - 1) bd
      else Some (file, bd)
  end.

(** [while (file <= BOARD_FILE_H) { squares[...] = empty; file++; }] *)
Fixpoint fill_rank (fuel : nat) (file rank : Z) (bd : board) : Z * board :=
  match fuel with
  | O => (file, bd)
  | S n =>
      if file <=? BOARD_FILE_H then
        let bd := set_index (BOARD_SQUARE file rank) 0 bd in
        let bd := set_piece (BOARD_SQUARE file rank) board_empty bd in
        fill_rank n (file + 1) rank bd
      else (file, bd)
  end.

(** The piece a placement character stands for on (file, rank). *)
Definition placement_piece (c : ascii) (file rank : Z) : option (Z * board_piece) :=
  if (49 <=? char_code c) && (char_code c <=? 56)
  then Some (char_code c - 48, board_empty)
  else if is_char c "K" then Some (1, board_white_king)
  else if is_char c "k" then Some (1, board_black_king)
  else if is_char c "Q" then Some (1, board_white_queen)
  else if is_char c "q" then Some (1, board_black_queen)
  else if is_char c "R" then Some (1, board_white_rook)
  else if is_char c "r" then Some (1, board_black_rook)
  else if is_char c "B" then
    Some (1, if Z.land (Z.lxor file rank) 1 =? 0
             then board_white_bishop_dark else board_white_bishop_light)
  else if is_char c "b" then
    Some (1, if Z.land (Z.lxor file rank) 1 =? 0
             then board_black_bishop_dark else board_black_bishop_light)
  else if is_char c "N" then Some (1, board_white_knight)
  else if is_char c "n" then Some (1, board_black_knight)
  else if is_char c "P" then
    Some (1, if rank =? BOARD_RANK_2 then board_white_pawn_rank2
             else if rank =? BOARD_RANK_7 then board_white_pawn_rank7
             else board_white_pawn)
  else if is_char c "p" then
    Some (1, if rank =? BOARD_RANK_7 then board_black_pawn_rank7
             else if rank =? BOARD_RANK_2 then board_black_pawn_rank2
             else board_black_pawn)
  else None.

(** [for (; epd[ix] != ' '; ix++) { ... }]: the rows with pieces *)
Fixpoint parse_placement (fuel : nat) (epd : string) (ix : nat) (file rank : Z)
    (bd : board) : option (nat * Z * Z * board) :=
  match fuel with
  | O => None
  | S n =>
      let c := char_at epd ix in
      if is_char c " " then Some (ix, file, rank, bd)
      else if is_char c "/" then
        let '(file, bd) := fill_rank 9 file rank bd in
        if rank =? 0 then None
        else parse_placement n epd (ix + 1)%nat BOARD_FILE_A (rank - 1) bd
      else
        match placement_piece c file rank with
        | None => None
        | Some (count, piece) =>
            match put_pieces 9 piece file rank count bd with
            | None => None
            | Some (file, bd) => parse_placement n epd (ix + 1)%nat file rank bd
            end
        end
  end.

Definition castling_config (bd : board) (king_sq rook_sq : Z)
    (king king_castle rook rook_castle : board_piece) : bool :=
  (piece_eqb (piece_at bd king_sq) king || piece_eqb (piece_at bd king_sq) king_castle) &&
  (piece_eqb (piece_at bd rook_sq) rook || piece_eqb (piece_at bd rook_sq) rook_castle).

Definition WHITE_HAS_KING_SIDE_CASTLING_CONFIG (bd : board) : bool :=
  castling_config bd E1 H1 board_white_king board_white_king_castle
    board_white_rook board_white_rook_castle.
Definition WHITE_HAS_QUEEN_SIDE_CASTLING_CONFIG (bd : board) : bool :=
  castling_config bd E1 A1 board_white_king board_white_king_castle
    board_white_rook board_white_rook_castle.
Definition BLACK_HAS_KING_SIDE_CASTLING_CONFIG (bd : board) : bool :=
  castling_config bd E8 H8 board_black_king board_black_king_castle
    board_black_rook board_black_rook_castle.
Definition BLACK_HAS_QUEEN_SIDE_CASTLING_CONFIG (bd : board) : bool :=
  castling_config bd E8 A8 board_black_king board_black_king_castle
    board_black_rook board_black_rook_castle.

(** [for (; epd[ix] != ' '; ix++) switch (epd[ix]) { case 'K': ... }] *)
Fixpoint parse_castling (fuel : nat) (epd : string) (ix : nat) (bd : board)
    : option (nat * board) :=
  match fuel with
  | O => None
  | S n =>
      let c := char_at epd ix in
      if is_char c " " then Some (ix, bd)
      else if is_char c "K" then
        if negb (WHITE_HAS_KING_SIDE_CASTLING_CONFIG bd) then None
        else parse_castling n epd (ix + 1)%nat
               (set_piece H1 board_white_rook_castle
                  (set_piece E1 board_white_king_castle bd))
      else if is_char c "Q" then
        if negb (WHITE_HAS_QUEEN_SIDE_CASTLING_CONFIG bd) then None
        else parse_castling n epd (ix + 1)%nat
               (set_piece A1 board_white_rook_castle
                  (set_piece E1 board_white_king_castle bd))
      else if is_char c "k" then
        if negb (BLACK_HAS_KING_SIDE_CASTLING_CONFIG bd) then None
        else parse_castling n epd (ix + 1)%nat
               (set_piece H8 board_black_rook_castle
                  (set_piece E8 board_black_king_castle bd))
      else if is_char c "q" then
        if negb (BLACK_HAS_QUEEN_SIDE_CASTLING_CONFIG bd) then None
        else parse_castling n epd (ix + 1)%nat
               (set_piece A8 board_black_rook_castle
                  (set_piece E8 board_black_king_castle bd))
      else None
  end.

(** [sscanf(&epd[ix], "%d%n", &d, &n)] at a blank followed by a digit:
    the value of the digit run and the number of characters read. *)
Fixpoint scan_digits (fuel : nat) (epd : string) (ix : nat) (d : Z) (n : nat) : Z * nat :=
  match fuel with
  | O => (d, n)
  | S k =>
      let c := char_at epd ix in
      if isdigit c then scan_digits k epd (ix + 1)%nat (10 * d + (char_code c - 48)) (n + 1)%nat
      else (d, n)
  end.

Definition board_setup_raw (epd : string) (bd : board) : option board :=
  let fuel := S (String.length epd) in
  let bd := set_stack (replicate STACK_SIZE zero_frame) bd in
  let bd := set_current 2 bd in
  let ix := skip_spaces fuel epd 0 in
  (* Rows with pieces *)
  match parse_placement fuel epd ix BOARD_FILE_A BOARD_RANK_8 bd with
  | None => None
  | Some (ix, file, rank, bd) =>
  let '(file, bd) := fill_rank 9 file rank bd in
  if negb (file =? BOARD_FILE_H + 1) || negb (rank =? BOARD_RANK_1) then None else
  if negb (is_char (char_at epd ix) " ") then None else
  let ix := skip_spaces fuel epd (ix + 1) in
  (* Side to move *)
  let c := char_at epd ix in
  if negb (is_char c "w") && negb (is_char c "b") then None else
  let side_to_move := if is_char c "w" then board_white else board_black in
  let ix := (ix + 1)%nat in
  if negb (is_char (char_at epd ix) " ") then None else
  let ix := skip_spaces fuel epd (ix + 1) in
  (* Castling rights *)
  match (if is_char (char_at epd ix) "-" then Some ((ix + 1)%nat, bd)
         else parse_castling fuel epd ix bd) with
  | None => None
  | Some (ix, bd) =>
  if negb (is_char (char_at epd ix) " ") then None else
  let ix := skip_spaces fuel epd (ix + 1) in
  (* En-passant status *)
  let c := char_at epd ix in
  match
    (if is_char c "-" then Some ((ix + 1)%nat, upd_cur (set_en_passant_lazy 0) bd)
     else if (97 <=? char_code c) && (char_code c <=? 104) then
       let file := char_code c - 97 in
       let ix := (ix + 1)%nat in
       let want := if side_to_move =? board_white then "6"%char else "3"%char in
       let rank := if side_to_move =? board_white then BOARD_RANK_6 else BOARD_RANK_3 in
       if negb (is_char (char_at epd ix) want) then None
       else
         let bd := upd_cur (set_en_passant_lazy (BOARD_SQUARE file rank)) bd in
         let bd := upd_cur (fun fr => set_en_passant_node_counter (node_counter fr) fr) bd in
         Some ((ix + 1)%nat, bd)
     else None)
  with
  | None => None
  | Some (ix, bd) =>
  (* Halfmove clock *)
  let '(ix, bd) :=
    if is_char (char_at epd ix) " " && isdigit (char_at epd (ix + 1)) then
      let '(d, n) := scan_digits fuel epd (ix + 1) 0 1 in
      ((ix + n)%nat, set_game_halfmove_clock_offset d bd)
    else (ix, set_game_halfmove_clock_offset 0 bd) in
  let bd := upd_cur (set_halfmove_clock 0) bd in
  (* Move number *)
  match
    (if is_char (char_at epd ix) " " && isdigit (char_at epd (ix + 1)) then
       let '(d, n) := scan_digits fuel epd (ix + 1) 0 1 in
       if d <? 1 then None else Some ((ix + n)%nat, set_game_fullmove_number d bd)
     else Some (ix, set_game_fullmove_number 1 bd))
  with
  | None => None
  | Some (ix, bd) =>
  let ix := skip_spaces fuel epd ix in
  if negb (is_char (char_at epd ix) "000") then None else
  update_board_after_edit side_to_move bd
  end end end end.

(** *** board_check: the consistency check, with every assert as a test *)

Definition check_square (bd : board) (sq : Z) : bool :=
  let piece := piece_at bd sq in
  let index := index_at bd sq in
  (match piece with
   | board_empty => index =? 0
   | board_white_king_castle =>
       (sq =? E1) &&
       (piece_eqb (piece_at bd A1) board_white_rook_castle ||
        piece_eqb (piece_at bd H1) board_white_rook_castle)
   | board_black_king_castle =>
       (sq =? E8) &&
       (piece_eqb (piece_at bd A8) board_black_rook_castle ||
        piece_eqb (piece_at bd H8) board_black_rook_castle)
   | board_white_rook_castle =>
       ((sq =? A1) || (sq =? H1)) &&
       piece_eqb (piece_at bd E1) board_white_king_castle
   | board_black_rook_castle =>
       ((sq =? A8) || (sq =? H8)) &&
       piece_eqb (piece_at bd E8) board_black_king_castle
   | board_white_pawn_rank2 | board_black_pawn_rank2 => BOARD_RANK sq =? BOARD_RANK_2
   | board_white_pawn_rank7 | board_black_pawn_rank7 => BOARD_RANK sq =? BOARD_RANK_7
   | board_white_pawn | board_black_pawn =>
       (BOARD_RANK sq =? BOARD_RANK_3) || (BOARD_RANK sq =? BOARD_RANK_4) ||
       (BOARD_RANK sq =? BOARD_RANK_5) || (BOARD_RANK sq =? BOARD_RANK_6)
   | board_white_bishop_light | board_black_bishop_light =>
       Z.land (Z.lxor (BOARD_RANK sq) (BOARD_FILE sq)) 1 =? 1
   | board_white_bishop_dark | board_black_bishop_dark =>
       Z.land (Z.lxor (BOARD_RANK sq) (BOARD_FILE sq)) 1 =? 0
   | _ => true
   end) &&
  (index >=? 0) &&
  (if color (active (cur bd)) =? BOARD_PIECE_COLOR piece
   then index <? nr_pieces (active (cur bd))
   else index <? nr_pieces (passive (cur bd))).

(** The loop of board_check_side over the piece list: indexes, colours,
    king first, knights directly after the king. *)
Fixpoint check_piece_list (bd : board) (side : board_side) (color : Z)
    (idx : list Z) (next_knight : Z) : bool :=
  match idx with
  | [] => true
  | i :: rest =>
      let sq := piece_sq side i in
      let piece := piece_at bd sq in
      (0 <=? sq) && (sq <? BOARD_SIZE) &&
      (index_at bd sq =? i) &&
      (BOARD_PIECE_COLOR piece =? color) &&
      (if i =? 0 then is_king piece else true) &&
      (if is_knight piece
       then (i =? next_knight) && check_piece_list bd side color rest (next_knight + 1)
       else check_piece_list bd side color rest next_knight)
  end.

Definition same_side_tables (ref side : board_side) : bool :=
  forallb (fun sq => attack_at ref sq =? attack_at side sq) all_squares &&
  (last_rank_pawns side =? last_rank_pawns ref) &&
  (bishop_diagonals side =? bishop_diagonals ref).

Definition board_check_side (bd : board) (side : board_side) (side_color : Z) : bool :=
  (nr_pieces side >? 0) &&
  (nr_pieces side <=? BOARD_SIDE_MAX_PIECES) &&
  check_piece_list bd side side_color (seqZ 0 (nr_pieces side)) 1 &&
  (piece_sq side (nr_pieces side) =? -1) &&
  match calc_struct_board_side bd zero_side (color (active (cur bd))) with
  | None => false
  | Some ref => same_side_tables ref (active (cur bd))
  end &&
  match calc_struct_board_side bd zero_side (lnot (color (active (cur bd)))) with
  | None => false
  | Some ref => same_side_tables ref (passive (cur bd))
  end.

Definition board_check (bd : board) : bool :=
  let fr := cur bd in
  ((color (active fr) =? board_white) || (color (active fr) =? board_black)) &&
  forallb (check_square bd) all_squares &&
  board_check_side bd (active fr) (color (active fr)) &&
  board_check_side bd (passive fr) (lnot (color (active fr))) &&
  (let '(bh, pk) := calc_zobrist_hashes bd in
   (bh =? board_hash_lazy fr) && (pk =? pawn_king_hash fr)) &&
  (calc_material_key bd =? material_key fr) &&
  ((halfmove_clock fr =? 0) ||
   (halfmove_clock fr =? halfmove_clock (frame_at bd (-1)) + 1)).

(** Every piece on the board is the one its index names in the piece list
    of its colour (the cross-reference the piece lists rely on). *)
Definition cross_reference (bd : board) : bool :=
  forallb
    (fun sq =>
       let piece := piece_at bd sq in
       if piece_eqb piece board_empty then true
       else if BOARD_PIECE_COLOR piece =? color (active (cur bd))
       then active_pieces bd (index_at bd sq) =? sq
       else passive_pieces bd (index_at bd sq) =? sq)
    all_squares.

(** The board invariants: what board_check tests, the cross-reference of
    squares and piece lists, the array shapes, a stack position that
    leaves room for two parent frames and one child, and the side that is
    not to move not being in check. *)
Definition side_shape (s : board_side) : bool :=
  (Z.of_nat (length (attacks s)) =? 64) && (Z.of_nat (length (pieces s)) =? 17).

Definition board_shape (bd : board) : bool :=
  (Z.of_nat (length (squares bd)) =? 64) &&
  (Z.of_nat (length (stack bd)) =? Z.of_nat STACK_SIZE) &&
  (2 <=? current bd) && (current bd <? 2 + BOARD_MAX_DEPTH) &&
  side_shape (active (cur bd)) && side_shape (passive (cur bd)) &&
  (Z.of_nat (length (undo (frame_at bd 1))) =? 6).

Definition board_invariants (bd : board) : bool :=
  board_shape bd && board_check bd && cross_reference bd &&
  (active_attacks bd (passive_pieces bd 0) =? 0).

(** ** The generator's effects

    Move generation reads the position and, besides filling the caller's
    move array, writes three things: the scratch array
    [bd->extra_defenders], the lazy en-passant flag of the current frame
    (cleared when it is found expired), and the static exchange table of
    exchange.c with its miss counter.  A generator routine is a tree of
    these operations; [run] executes it on a [world]. *)

Record world : Type := mk_world {
  w_bd : board;
  w_exchange_table : Z -> Z;   (* static unsigned short exchange_table[1 << 15] *)
  w_miss_counter : Z           (* board_exchange_table_miss_counter *)
}.

Inductive gen (A : Type) : Type :=
  | Ret (a : A)
  | Read (k : world -> gen A)
  | WriteExtraDefenders (sq v : Z) (k : gen A)
  | ClearEnPassant (k : gen A)
  | TableStore (hash v : Z) (k : gen A)
  | TableMiss (k : gen A).

Arguments Ret {A} a.
Arguments Read {A} k.
Arguments WriteExtraDefenders {A} sq v k.
Arguments ClearEnPassant {A} k.
Arguments TableStore {A} hash v k.
Arguments TableMiss {A} k.

Fixpoint bind {A B : Type} (p : gen A) (f : A -> gen B) : gen B :=
  match p with
  | Ret a => f a
  | Read k => Read (fun w => bind (k w) f)
  | WriteExtraDefenders sq v k => WriteExtraDefenders sq v (bind k f)
  | ClearEnPassant k => ClearEnPassant (bind k f)
  | TableStore h v k => TableStore h v (bind k f)
  | TableMiss k => TableMiss (bind k f)
  end.

Notation "x <- c1 ;; c2" := (bind c1 (fun x => c2))
  (at level 100, c1 at next level, right associativity).
Notation "c1 ;;; c2" := (bind c1 (fun _ => c2))
  (at level 100, right associativity).

Definition table_store (t : Z -> Z) (hash v : Z) : Z -> Z :=
  fun h => if h =? hash then v else t h.

Fixpoint run {A : Type} (p : gen A) (w : world) : A * world :=
  match p with
  | Ret a => (a, w)
  | Read k => run (k w) w
  | WriteExtraDefenders sq v k =>
      run k (mk_world
               (set_extra_defenders (zset (extra_defenders (w_bd w)) sq v) (w_bd w))
               (w_exchange_table w) (w_miss_counter w))
  | ClearEnPassant k =>
      run k (mk_world (upd_cur (set_en_passant_lazy 0) (w_bd w))
               (w_exchange_table w) (w_miss_counter w))
  | TableStore h v k =>
      run k (mk_world (w_bd w) (table_store (w_exchange_table w) h v) (w_miss_counter w))
  | TableMiss k =>
      run k (mk_world (w_bd w) (w_exchange_table w) (w_miss_counter w + 1))
  end.

Definition get_bd : gen board := Read (fun w => Ret (w_bd w)).
Definition get_table (hash : Z) : gen Z := Read (fun w => Ret (w_exchange_table w hash)).
Definition get_extra_defenders (sq : Z) : gen Z :=
  Read (fun w => Ret (zget 0 (extra_defenders (w_bd w)) sq)).
Definition set_extra (sq v : Z) : gen unit := WriteExtraDefenders sq v (Ret tt).
Definition clear_en_passant : gen unit := ClearEnPassant (Ret tt).
Definition put_table (hash v : Z) : gen unit := TableStore hash v (Ret tt).
Definition count_miss : gen unit := TableMiss (Ret tt).

(** The exchange table after exchange_reset_caches (and at program start). *)
Definition empty_exchange_table : Z -> Z := fun _ => 0.
Definition initial_world (bd : board) : world := mk_world bd empty_exchange_table 0.

(** Monadic bit loops *)
Fixpoint bits_do_while_m {S : Type} (fuel : nat) (body : Z -> S -> gen S)
    (dir dirs : Z) (s : S) : gen S :=
  match fuel with
  | O => Ret s
  | Datatypes.S n =>
      let dir := Z.land (dir - dirs) dirs in
      let dirs := dirs - dir in
      s <- body dir s ;;
      if dirs =? 0 then Ret s else bits_do_while_m n body dir dirs s
  end.

(** Walks on the board.
    [do { sq += step; } while (bd->squares[sq].piece == board_empty);] *)
Fixpoint walk_to_piece (fuel : nat) (bd : board) (sq step : Z) : Z :=
  match fuel with
  | O => sq
  | S n =>
      let sq := sq + step in
      if piece_eqb (piece_at bd sq) board_empty then walk_to_piece n bd sq step else sq
  end.

(** ** Static exchange evaluation (exchange.c, exchange.h) *)

Definition EXCHANGE_UNIT : Z := 0x0100.
Definition EXCHANGE_NEUTRAL : Z := 0x0f00.
Definition EXCHANGE_GOOD_MOVE_OFFSET : Z := 0xf000 - EXCHANGE_NEUTRAL.
Definition EXCHANGE_LIST_PAWN : Z := 1.
Definition EXCHANGE_LIST_MINOR : Z := 1 * 3.
Definition EXCHANGE_LIST_ROOK : Z := 1 * 3 * 12.
Definition EXCHANGE_LIST_ROYAL : Z := 1 * 3 * 12 * 11.
Definition EXCHANGE_LAST_RANK : Z := Z.shiftl 1 12.

Definition RANGE_PAWN : Z := 1 + 2.
Definition RANGE_MINOR : Z := 1 + 11.
Definition RANGE_ROOK : Z := 1 + 10.

Definition exchange_piece_to_list (pc : board_piece) : Z :=
  if is_pawn pc then EXCHANGE_LIST_PAWN
  else if is_knight pc || is_bishop pc then EXCHANGE_LIST_MINOR
  else if is_rook pc then EXCHANGE_LIST_ROOK
  else if is_queen pc || is_king pc then EXCHANGE_LIST_ROYAL
  else 0.

Definition piece_units (pc : board_piece) : Z :=
  if is_pawn pc then 1
  else if is_knight pc || is_bishop pc then 3
  else if is_rook pc then 5
  else if is_queen pc || is_king pc then 9
  else 0.

Definition exchange_piece_value (pc : board_piece) : Z :=
  EXCHANGE_NEUTRAL + piece_units pc * EXCHANGE_UNIT.
Definition exchange_negative_piece_value (pc : board_piece) : Z :=
  EXCHANGE_NEUTRAL - piece_units pc * EXCHANGE_UNIT.

Definition exchange_put_upfront (pc : board_piece) : Z :=
  if is_pawn pc then Z.shiftl 0 13 - EXCHANGE_LIST_PAWN
  else if is_knight pc || is_bishop pc then Z.shiftl 1 13 - EXCHANGE_LIST_MINOR
  else if is_rook pc then Z.shiftl 2 13 - EXCHANGE_LIST_ROOK
  else if is_queen pc || is_king pc then Z.shiftl 3 13 - EXCHANGE_LIST_ROYAL
  else 0.

(** next_upfront; [Z.rem] and [Z.quot] are C's [%] and [/]. *)
Definition next_upfront (defenders : Z) : Z :=
  let d := defenders in
  if negb (Z.rem d RANGE_PAWN =? 0) then defenders + Z.shiftl 0 13 - EXCHANGE_LIST_PAWN
  else
    let d := Z.quot d RANGE_PAWN in
    if negb (Z.rem d RANGE_MINOR =? 0) then defenders + Z.shiftl 1 13 - EXCHANGE_LIST_MINOR
    else
      let d := Z.quot d RANGE_MINOR in
      if negb (Z.rem d RANGE_ROOK =? 0) then defenders + Z.shiftl 2 13 - EXCHANGE_LIST_ROOK
      else defenders + Z.shiftl 3 13 - EXCHANGE_LIST_ROYAL.

Definition victim_value (i : Z) : Z :=
  zget 0 [1 * EXCHANGE_UNIT; 3 * EXCHANGE_UNIT; 5 * EXCHANGE_UNIT; 9 * EXCHANGE_UNIT] i.

(** The result reported when the recursion budget of the embedding runs
    out; [exchange_fuel] below is always enough to avoid it. *)
Definition EXCHANGE_NO_FUEL : Z := -1.

(** Select next capturer: the value won so far and the defenders with the
    capturer put upfront. *)
Definition next_capturer (result defenders : Z) : Z * Z :=
  if negb (Z.land defenders EXCHANGE_LAST_RANK =? 0) then
    (* Capture with pawn and promotion *)
    let r := Z.rem (Z.land defenders 0x0fff) RANGE_PAWN in
    if r =? 0 then
      (* No pawn present... Clear the LAST_RANK flag and proceed as normal *)
      (result, next_upfront (Z.land defenders (Z.lnot EXCHANGE_LAST_RANK)))
    else if r =? 1 then
      (result + 8 * EXCHANGE_UNIT,
       defenders + (Z.shiftl 3 13 - EXCHANGE_LIST_PAWN - EXCHANGE_LAST_RANK))
    else
      (result + 8 * EXCHANGE_UNIT,
       defenders + (Z.shiftl 3 13 - EXCHANGE_LIST_PAWN))
  else
    (* Regular capture *)
    (result, next_upfront defenders).

(** The body of exchange_evaluate_fn; [recurse] is the function itself. *)
Definition exchange_evaluate_body (recurse : Z -> Z -> gen Z)
    (defenders attackers : Z) : gen Z :=
  let store := Z.land defenders 0x0fff in
  let hash := Z.lxor (Z.lxor (Z.shiftl store 3) defenders) attackers in
  (* Consult the lookup table first *)
  lookup <- get_table hash ;;
  if Z.land (Z.lxor lookup defenders) 0x0fff =? 0 then
    Ret (Z.shiftr (Z.land lookup 0xf000) 4)
  else
    (* Table missed, calculate exchange sequence result *)
    count_miss ;;;
    (* Value of captured piece *)
    let result := victim_value (Z.shiftr attackers 13) in
    (* Fix up a false LAST_RANK flag in some promotions captures *)
    if defenders =? EXCHANGE_LAST_RANK then Ret 0
    else
      let capturer := next_capturer result defenders in
      let result := fst capturer in
      let defenders := snd capturer in
      (* Recursive evaluation *)
      let attackers := Z.land attackers 0x1fff in (* remove the upfront piece *)
      result <-
        (if negb (attackers =? 0) then
           reply <- recurse attackers defenders ;;
           let result := result - reply in
           (* If result is negative, don't capture but stand pat *)
           Ret (if result <? 0 then 0 else result)
         else Ret result) ;;
      (* Clip at +14 so that the SEE result always fits *)
      let result := if result >? 14 * EXCHANGE_UNIT then 14 * EXCHANGE_UNIT else result in
      (* Update the lookup table and return *)
      put_table hash (Z.land (Z.lor (Z.shiftl result 4) store) 0xffff) ;;;
      Ret result.

(** exchange_evaluate_fn, with a budget for the depth of the recursion *)
Fixpoint exchange_evaluate_rec (fuel : nat) (defenders attackers : Z) : gen Z :=
  match fuel with
  | O => Ret EXCHANGE_NO_FUEL
  | S n => exchange_evaluate_body (exchange_evaluate_rec n) defenders attackers
  end.

(** Each level of the recursion removes one piece from the two 12-bit
    sets, so their sum bounds its depth. *)
Definition exchange_fuel (defenders attackers : Z) : nat :=
  S (Z.to_nat (Z.land defenders 0x0fff + Z.land attackers 0x0fff)).

Definition exchange_evaluate_fn (defenders attackers : Z) : gen Z :=
  exchange_evaluate_rec (exchange_fuel defenders attackers) defenders attackers.

(** exchange_evaluate (exchange.h) *)
Definition exchange_evaluate (defenders attackers : Z) : gen Z :=
  let attackers := Z.land (attackers + defenders) 0xffff in
  let defenders := Z.shiftr defenders 16 in
  if defenders =? 0 then Ret 0 else exchange_evaluate_fn defenders attackers.

(** [unsigned char ray = 0; do { ray -= bits; ray &= bits; bits -= ray; BODY }
    while (bits != 0);] with [short bits]. *)
Fixpoint rays_do_while_m {S : Type} (fuel : nat) (body : Z -> S -> gen S)
    (ray bits : Z) (s : S) : gen S :=
  match fuel with
  | O => Ret s
  | Datatypes.S n =>
      let ray := uchar_of (ray - bits) in
      let ray := uchar_of (Z.land ray bits) in
      let bits := short_of (bits - ray) in
      s <- body ray s ;;
      if bits =? 0 then Ret s else rays_do_while_m n body ray bits s
  end.

(** The pawn part shared by the two collectors: the pawn bits are traded
    for the diagonal they stand on, and a capture on the last rank is
    flagged. *)
Definition collect_pawn_bits (side_color sq bits flag : Z) : Z * Z :=
  let '(bits, acc) :=
    if negb (Z.land bits board_attack_pawn_west =? 0) then
      if side_color =? board_white then
        (Z.lxor bits (Z.lor board_attack_pawn_west board_attack_northwest),
         if BOARD_RANK sq =? BOARD_RANK_8 then flag else 0)
      else
        (Z.lxor bits (Z.lor board_attack_pawn_west board_attack_southwest),
         if BOARD_RANK sq =? BOARD_RANK_1 then flag else 0)
    else (bits, 0) in
  if negb (Z.land bits board_attack_pawn_east =? 0) then
    if side_color =? board_white then
      (Z.lxor bits (Z.lor board_attack_pawn_east board_attack_northeast),
       if BOARD_RANK sq =? BOARD_RANK_8 then Z.lor acc flag else acc)
    else
      (Z.lxor bits (Z.lor board_attack_pawn_east board_attack_southeast),
       if BOARD_RANK sq =? BOARD_RANK_1 then Z.lor acc flag else acc)
  else (bits, acc).

(** [do { attackers += MINOR; bits -= knight; } while (bits >= knight);] *)
Fixpoint count_knight_bits (fuel : nat) (bits acc unit_value : Z) : Z * Z :=
  match fuel with
  | O => (bits, acc)
  | S n =>
      let acc := acc + unit_value in
      let bits := bits - board_attack_knight in
      if bits >=? board_attack_knight then count_knight_bits n bits acc unit_value
      else (bits, acc)
  end.

(** [while ((side->attacks[fr] & ray) != 0) { walk; acc += list[piece]; }] *)
Fixpoint collect_behind (fuel : nat) (bd : board) (side : board_side)
    (ray step fr acc : Z) : Z * Z :=
  match fuel with
  | O => (fr, acc)
  | S n =>
      if negb (Z.land (zget 0 (attacks side) fr) ray =? 0) then
        let fr := walk_to_piece 8 bd fr (- step) in
        collect_behind n bd side ray step fr
          (acc + exchange_piece_to_list (piece_at bd fr))
      else (fr, acc)
  end.

(** exchange_collect_attackers *)
Definition exchange_collect_attackers (bd : board) (sq bits : Z) : Z :=
  let bits := short_of bits in
  let active_side := active (cur bd) in
  let '(bits, attackers) :=
    collect_pawn_bits (color active_side) sq bits EXCHANGE_LAST_RANK in
  let '(bits, attackers, done) :=
    if negb (Z.land bits board_attack_king =? 0) then
      let bits := Z.lxor bits board_attack_king in
      (bits, attackers + EXCHANGE_LIST_ROYAL, bits =? 0)
    else (bits, attackers, false) in
  if done then short_of attackers
  else
    let '(bits, attackers, done) :=
      if bits >=? board_attack_knight then
        let '(bits, attackers) :=
          count_knight_bits 16 bits attackers EXCHANGE_LIST_MINOR in
        (bits, attackers, bits =? 0)
      else (bits, attackers, false) in
    if done then short_of attackers
    else
      let body (ray : Z) (attackers : Z) : Z :=
        let step := board_vector_step_compact (DEBRUIJN_INDEX ray) in
        (* the first piece on the ray is always counted *)
        let fr := walk_to_piece 8 bd sq (- step) in
        let attackers := attackers + exchange_piece_to_list (piece_at bd fr) in
        snd (collect_behind 8 bd active_side ray step fr attackers) in
      let fix loop (fuel : nat) (ray bits attackers : Z) : Z :=
        match fuel with
        | O => attackers
        | S n =>
            let ray := uchar_of (ray - bits) in
            let ray := uchar_of (Z.land ray bits) in
            let bits := short_of (bits - ray) in
            let attackers := body ray attackers in
            if bits =? 0 then attackers else loop n ray bits attackers
        end in
      short_of (loop 16%nat 0 bits attackers).

(** if_defender_not_pinned *)
Definition if_defender_not_pinned (defender_sq value : Z) : gen Z :=
  bd <- get_bd ;;
  let king := passive_pieces bd 0 in
  let pin_dir :=
    Z.land (Z.land (data_sq2sq defender_sq king) BOARD_ATTACK_QUEEN)
           (active_attacks bd defender_sq) in
  if pin_dir =? 0 then Ret value
  else
    let step := board_vector_step_compact (DEBRUIJN_INDEX pin_dir) in
    let sq := walk_to_piece 8 bd defender_sq step in
    if negb (sq =? king) then Ret value
    else
      (* defender is confirmed pinned. find the attacker location and mark it *)
      let sq := walk_to_piece 8 bd defender_sq (- step) in
      if Z.land (active_attacks bd sq) pin_dir =? 0 then
        old <- get_extra_defenders sq ;;
        set_extra sq (old + value) ;;;
        Ret 0
      else Ret value.

(** [do { from = *knights++; } while (data_sq2sq[sq][from] != board_attack_knight);]
    returns the knight found and the advanced index. *)
Fixpoint next_knight_to (fuel : nat) (bd : board) (sq k : Z) : Z * Z :=
  match fuel with
  | O => (passive_pieces bd k, k)
  | S n =>
      let from := passive_pieces bd k in
      if negb (data_sq2sq sq from =? board_attack_knight)
      then next_knight_to n bd sq (k + 1)
      else (from, k + 1)
  end.

Fixpoint collect_knight_defenders (fuel : nat) (sq bits k defenders : Z)
    : gen (Z * Z) :=
  match fuel with
  | O => Ret (bits, defenders)
  | S n =>
      let bits := bits - board_attack_knight in
      bd <- get_bd ;;
      let '(from, k) := next_knight_to 17 bd sq k in
      (* Check if this knight is not pinned *)
      v <- if_defender_not_pinned from (Z.shiftl EXCHANGE_LIST_MINOR 16) ;;
      let defenders := defenders + v in
      if bits >=? board_attack_knight
      then collect_knight_defenders n sq bits k defenders
      else Ret (bits, defenders)
  end.

(** The defenders on one ray; [None] for the square reached stands for
    the jump to the label [xxx]. *)
Fixpoint collect_ray_defenders (fuel : nat) (ray step fr last defenders : Z)
    : gen (option Z * Z) :=
  match fuel with
  | O => Ret (Some fr, defenders)
  | S n =>
      bd <- get_bd ;;
      let fr := walk_to_piece 8 bd fr (- step) in
      (* The piece might be pinned *)
      next <- if_defender_not_pinned fr
                (Z.shiftl (exchange_piece_to_list (piece_at bd fr)) 16) ;;
      if next =? 0 then Ret (None, defenders)
      else
        let last := if next >? last then next else last in
        let defenders := defenders + last in
        bd <- get_bd ;;
        if negb (Z.land (passive_attacks bd fr) ray =? 0)
        then collect_ray_defenders n ray step fr last defenders
        else Ret (Some fr, defenders)
  end.

(** exchange_collect_defenders *)
Definition exchange_collect_defenders (sq bits : Z) : gen Z :=
  let bits := short_of bits in
  bd <- get_bd ;;
  let '(bits, defenders) :=
    collect_pawn_bits (color (passive (cur bd))) sq bits
      (Z.shiftl EXCHANGE_LAST_RANK 16) in
  let '(bits, defenders, done) :=
    if negb (Z.land bits board_attack_king =? 0) then
      let bits := Z.lxor bits board_attack_king in
      (bits, defenders + Z.shiftl EXCHANGE_LIST_ROYAL 16, bits =? 0)
    else (bits, defenders, false) in
  if (done : bool) then Ret defenders
  else
    r <- (if bits >=? board_attack_knight then
            r <- collect_knight_defenders 16 sq bits 1 defenders ;;
            Ret (fst r, snd r, fst r =? 0)
          else Ret (bits, defenders, false)) ;;
    let '(bits, defenders, done) := r in
    if (done : bool) then Ret defenders
    else
      (* Scan each of the rays to see what is there *)
      rays_do_while_m 16
        (fun ray defenders =>
           let step := board_vector_step ray in
           r <- collect_ray_defenders 8 ray step sq 0 defenders ;;
           match r with
           | (None, defenders) => Ret defenders
           | (Some fr, defenders) =>
               (* attackers behind the last defender join the attacker list *)
               bd <- get_bd ;;
               Ret (snd (collect_behind 8 bd (active (cur bd)) ray step fr defenders))
           end)
        0 bits defenders.

(** The pin test inside exchange_collect_extra_defenders: is the piece on
    [sq] pinned against the enemy king along another line than [step]? *)
Definition extra_defender_is_pinned (bd : board) (sq step : Z) : bool :=
  let pin_dir := Z.land (active_attacks bd sq) BOARD_ATTACK_QUEEN in
  if negb (pin_dir =? 0) then
    let xking := passive_pieces bd 0 in
    let pin_dir := Z.land pin_dir (data_sq2sq sq xking) in
    if negb (pin_dir =? 0) then
      let pin_step := board_vector_step_compact (DEBRUIJN_INDEX pin_dir) in
      if negb (pin_step + step =? 0) then
        (* Step towards that king *)
        walk_to_piece 8 bd sq pin_step =? xking
      else false
    else false
  else false.

Fixpoint collect_extra_ray (fuel : nat) (bd : board) (ray step sq last defenders : Z)
    : Z * Z * bool :=
  match fuel with
  | O => (sq, defenders, true)
  | S n =>
      let sq := walk_to_piece 8 bd sq (- step) in
      if extra_defender_is_pinned bd sq step then (sq, defenders, true)
      else
        (* Not pinned: defender is valid *)
        let next := Z.shiftl (exchange_piece_to_list (piece_at bd sq)) 16 in
        let last := if next >? last then next else last in
        let defenders := defenders + last in
        if negb (Z.land (passive_attacks bd sq) ray =? 0)
        then collect_extra_ray n bd ray step sq last defenders
        else (sq, defenders, false)
  end.

(** exchange_collect_extra_defenders *)
Definition exchange_collect_extra_defenders (bd : board) (from ray : Z) : Z :=
  let ray := short_of ray in
  let step := board_vector_step_compact (DEBRUIJN_INDEX ray) in
  let '(sq, defenders, _) := collect_extra_ray 8 bd ray step from 0 0 in
  (* Any extra attackers? Include them *)
  snd (collect_behind 8 bd (active (cur bd)) ray step sq defenders).

(** ** Move generation (generate.c) *)

Definition ushort_of (x : Z) : Z := x mod 65536.

(** The three stores that end every GENERATE_ macro:
    [bm.prescore = bd->butterfly[_move].prescore | _prescore;
     bm.move = (short) _move; bm.make = move_maker;] *)
Definition store_move (bd : board) (move prescore : Z) (make : make_move_fn)
    : board_move :=
  mk_move (short_of move)
          (ushort_of (Z.lor (zget 0 (butterfly bd) move) prescore))
          make.

(** _is_legal *)
Definition _is_legal (bd : board) (from to : Z) : bool :=
  let king := active_pieces bd 0 in
  let pin_dirs := Z.land (data_sq2sq from king) BOARD_ATTACK_QUEEN in
  let move_dir := Z.land (data_sq2sq from to) BOARD_ATTACK_QUEEN in
  (* Moving along the pin, in either direction, is without risk *)
  if negb (Z.land pin_dirs (Z.lor move_dir (BOARD_ATTACK_REVERSE move_dir)) =? 0)
  then true
  else
    (* Not pinned if another piece obstructs the path towards the king *)
    let step := board_vector_step_compact (DEBRUIJN_INDEX pin_dirs) in
    negb (walk_to_piece 8 bd from step =? king).

(** IS_LEGAL *)
Definition IS_LEGAL (bd : board) (from to : Z) : bool :=
  if Z.land (Z.land (passive_attacks bd from) BOARD_ATTACK_QUEEN)
            (data_sq2sq from (active_pieces bd 0)) =? 0
  then true
  else _is_legal bd from to.

(** uncovers_check *)
Definition uncovers_check (bd : board) (from xking : Z) : bool :=
  let dir := Z.land (Z.land (active_attacks bd from) (data_sq2sq from xking))
                    BOARD_ATTACK_QUEEN in
  if dir =? 0 then false
  else
    let step := board_vector_step_compact (DEBRUIJN_INDEX dir) in
    walk_to_piece 8 bd from step =? xking.

Fixpoint path_is_clear_from (fuel : nat) (bd : board) (sq step b : Z) : bool :=
  match fuel with
  | O => false
  | S n =>
      if sq =? b then true
      else if negb (piece_eqb (piece_at bd sq) board_empty) then false
      else path_is_clear_from n bd (sq + step) step b
  end.

(** the_path_is_clear *)
Definition the_path_is_clear (bd : board) (a b : Z) : bool :=
  let step := board_vector_step_compact
                (DEBRUIJN_INDEX (Z.land (data_sq2sq a b) BOARD_ATTACK_QUEEN)) in
  path_is_clear_from 8 bd (a + step) step b.

(** GENERATE_MOVE_FAST, which is also GENERATE_MOVE and, without its
    last argument, GENERATE_PAWN_MOVE *)
Definition GENERATE_MOVE_FAST (bd : board) (from to : Z) (move_maker : make_move_fn)
    : board_move :=
  let prescore :=
    if negb (passive_attacks bd to =? 0)
    then exchange_negative_piece_value (piece_at bd from)
    else EXCHANGE_NEUTRAL in
  store_move bd (MOVE from to) prescore move_maker.

Definition GENERATE_MOVE := GENERATE_MOVE_FAST.

Definition GENERATE_PAWN_MOVE (bd : board) (from to : Z) (move_maker : make_move_fn)
    (dir : Z) : board_move :=
  GENERATE_MOVE_FAST bd from to move_maker.

(** GENERATE_KING_MOVE *)
Definition GENERATE_KING_MOVE (bd : board) (from to : Z) (move_maker : make_move_fn)
    : board_move :=
  store_move bd (MOVE from to) EXCHANGE_NEUTRAL move_maker.

(** GENERATE_DISCOVERED_CHECK *)
Definition GENERATE_DISCOVERED_CHECK (bd : board) (from to : Z)
    (move_maker : make_move_fn) : board_move :=
  store_move bd (MOVE from to) EXCHANGE_NEUTRAL move_maker.

(** GENERATE_KING_CAPTURE *)
Definition GENERATE_KING_CAPTURE (bd : board) (from to : Z) (move_maker : make_move_fn)
    : board_move :=
  store_move bd (MOVE from to)
    (exchange_piece_value (piece_at bd to) + EXCHANGE_GOOD_MOVE_OFFSET) move_maker.

(** GENERATE_EP *)
Definition GENERATE_EP (bd : board) (from to : Z) (move_maker : make_move_fn)
    : board_move :=
  store_move bd (MOVE from to)
    (EXCHANGE_NEUTRAL + EXCHANGE_UNIT + EXCHANGE_GOOD_MOVE_OFFSET) move_maker.

(** GENERATE_MOVE_SLOW *)
Definition GENERATE_MOVE_SLOW (from to : Z) (move_maker : make_move_fn)
    : gen board_move :=
  (* Collect defenders *)
  bd <- get_bd ;;
  let bits := passive_attacks bd to in
  defenders <- (if negb (bits =? 0) then exchange_collect_defenders to bits
                else Ret 0) ;;
  (* Collect attackers *)
  bd <- get_bd ;;
  let bits := active_attacks bd to in
  let attackers :=
    if negb (bits =? 0) then exchange_collect_attackers bd to bits else 0 in
  let attackers := attackers + exchange_put_upfront (piece_at bd from) in
  (* Calculate static exchange evaluation *)
  see <- exchange_evaluate defenders attackers ;;
  bd <- get_bd ;;
  Ret (store_move bd (MOVE from to) (EXCHANGE_NEUTRAL - see) move_maker).

(** capture_fn_table *)
Definition capture_fn_table (pc : board_piece) : make_move_fn :=
  match pc with
  | board_white_king | board_black_king => fn_capture_with_king
  | board_white_king_castle => fn_capture_with_white_king_castle
  | board_black_king_castle => fn_capture_with_black_king_castle
  | board_white_queen | board_black_queen => fn_capture_with_queen
  | board_white_rook | board_black_rook => fn_capture_with_rook
  | board_white_rook_castle => fn_capture_with_white_rook_castle
  | board_black_rook_castle => fn_capture_with_black_rook_castle
  | board_white_bishop_light | board_black_bishop_light
  | board_white_bishop_dark | board_black_bishop_dark => fn_capture_with_bishop
  | _ => fn_null   (* no pawns in this table *)
  end.

(** move_fn_table *)
Definition move_fn_table (pc : board_piece) : make_move_fn :=
  match pc with
  | board_white_king => fn_move_white_king
  | board_black_king => fn_move_black_king
  | board_white_king_castle => fn_move_white_king_castle
  | board_black_king_castle => fn_move_black_king_castle
  | board_white_queen => fn_move_white_queen
  | board_black_queen => fn_move_black_queen
  | board_white_rook => fn_move_white_rook
  | board_black_rook => fn_move_black_rook
  | board_white_rook_castle => fn_move_white_rook_castle
  | board_black_rook_castle => fn_move_black_rook_castle
  | board_white_bishop_light | board_white_bishop_dark => fn_move_white_bishop
  | board_black_bishop_light | board_black_bishop_dark => fn_move_black_bishop
  | board_white_knight => fn_move_white_knight
  | board_black_knight => fn_move_black_knight
  | _ => fn_null   (* no pawns in this table *)
  end.

(** The promotion macros.  [north_or_south] is board_attack_north in
    GENERATE_WHITE_PROMOTION and board_attack_south in
    GENERATE_BLACK_PROMOTION; the four makers are the side's promote
    functions. *)
Definition promotion_prescore (bd : board) (to gain see : Z) (clip : bool) : Z :=
  let prescore := gain * EXCHANGE_UNIT + exchange_piece_value (piece_at bd to) - see in
  (* PxQ=Q risks overflow of the result *)
  let prescore :=
    if clip && (prescore >? EXCHANGE_NEUTRAL + 14 * EXCHANGE_UNIT)
    then EXCHANGE_NEUTRAL + 14 * EXCHANGE_UNIT else prescore in
  (* Add bias towards non-losing captures *)
  if prescore >=? EXCHANGE_NEUTRAL then prescore + EXCHANGE_GOOD_MOVE_OFFSET
  else prescore.

Definition GENERATE_PROMOTION (north_or_south : Z)
    (make_queen make_rook make_bishop make_knight : make_move_fn)
    (from to : Z) : gen (list board_move) :=
  bd <- get_bd ;;
  (* Collect _defenders *)
  let bits := passive_attacks bd to in
  let uncover_check := Z.land (active_attacks bd from) BOARD_ATTACK_QUEEN in
  let bits :=
    if negb (uncover_check =? 0) then
      let xking := passive_pieces bd 0 in
      let uncover_check := Z.land uncover_check (data_sq2sq from xking) in
      if negb (uncover_check =? 0) then
        let step := board_vector_step_compact (DEBRUIJN_INDEX uncover_check) in
        if walk_to_piece 8 bd from step =? xking
        then Z.land bits board_attack_king else bits
      else bits
    else bits in
  defenders <- (if negb (bits =? 0) then exchange_collect_defenders to bits
                else Ret 0) ;;
  bd <- get_bd ;;
  let dir := Z.land (data_sq2sq from to) BOARD_ATTACK_QUEEN in
  let defenders :=
    if negb (Z.land (passive_attacks bd from) dir =? 0)
    then defenders + exchange_collect_extra_defenders bd from dir
    else defenders in
  (* Collect _attackers *)
  let bits := active_attacks bd to in
  let bits :=
    if piece_eqb (piece_at bd to) board_empty then Z.lor bits north_or_south
    else bits in
  let attackers :=
    Z.shiftl 3 13 - EXCHANGE_LIST_PAWN + exchange_collect_attackers bd to bits in
  let attackers :=
    if Z.rem (Z.land attackers 0x0fff) 3 =? 0
    then Z.land attackers (Z.lnot EXCHANGE_LAST_RANK) else attackers in
  (* Calculate static exchange evaluation *)
  see <- exchange_evaluate defenders attackers ;;
  bd <- get_bd ;;
  let m_queen :=
    store_move bd (Z.lxor (MOVE from to) XOR_PROM_QUEEN)
      (promotion_prescore bd to 8 see true) make_queen in
  let attackers := attackers - Z.shiftl 1 13 in
  see <- exchange_evaluate defenders attackers ;;
  bd <- get_bd ;;
  let m_rook :=
    store_move bd (Z.lxor (MOVE from to) XOR_PROM_ROOK)
      (promotion_prescore bd to 4 see false) make_rook in
  let attackers := attackers - Z.shiftl 1 13 in
  see <- exchange_evaluate defenders attackers ;;
  bd <- get_bd ;;
  let prescore := promotion_prescore bd to 2 see false in
  let m_bishop :=
    store_move bd (Z.lxor (MOVE from to) XOR_PROM_BISHOP) prescore make_bishop in
  let m_knight :=
    store_move bd (Z.lxor (MOVE from to) XOR_PROM_KNIGHT) prescore make_knight in
  Ret [m_queen; m_rook; m_bishop; m_knight].

Definition GENERATE_WHITE_PROMOTION (from to : Z) : gen (list board_move) :=
  GENERATE_PROMOTION board_attack_north
    fn_promote_white_queen fn_promote_white_rook
    fn_promote_white_bishop fn_promote_white_knight from to.

Definition GENERATE_BLACK_PROMOTION (from to : Z) : gen (list board_move) :=
  GENERATE_PROMOTION board_attack_south
    fn_promote_black_queen fn_promote_black_rook
    fn_promote_black_bishop fn_promote_black_knight from to.

(** [to = from; do { to += vector; if (piece != empty) break; EMIT; }
    while (--len);] *)
Fixpoint ray_moves (fuel : nat) (bd : board) (to vector len : Z)
    (emit : Z -> board_move) : list board_move :=
  match fuel with
  | O => []
  | S n =>
      let to := to + vector in
      if negb (piece_eqb (piece_at bd to) board_empty) then []
      else
        emit to ::
        (let len := len - 1 in
         if len =? 0 then [] else ray_moves n bd to vector len emit)
  end.

(** One pass of the direction loop over sliding rays *)
Definition slide_dir (bd : board) (from : Z) (emit : Z -> board_move)
    (dir : Z) (acc : list board_move) : list board_move :=
  let vector := board_vector_step_compact (DEBRUIJN_INDEX dir) in
  let len := data_raylen from (DEBRUIJN_INDEX dir) in
  acc ++ ray_moves 8 bd from vector len emit.

(** [dir = 0; do { dir -= dirs; dir &= dirs; dirs -= dir; RAY } while (dirs != 0);] *)
Definition slide_moves (bd : board) (from dirs : Z) (emit : Z -> board_move)
    : list board_move :=
  bits_do_while 32 (slide_dir bd from emit) 0 dirs [].

(** The same with [while (dirs != 0) { ... }] *)
Definition slide_moves_while (bd : board) (from dirs : Z) (emit : Z -> board_move)
    : list board_move :=
  bits_while 32 (slide_dir bd from emit) dirs [].

(** Pre-check for any pins to the king *)
Definition pin_precheck (bd : board) (from king : Z) : Z :=
  let pin_dirs :=
    Z.land (Z.land (passive_attacks bd from) (data_sq2sq from king))
           BOARD_ATTACK_QUEEN in
  if negb (pin_dirs =? 0) then
    if the_path_is_clear bd from king then
      (* only pin_dirs and reversed are safe, all others are unsafe *)
      Z.lnot (Z.lor pin_dirs (BOARD_ATTACK_REVERSE pin_dirs))
    else 0 (* all directions are safe *)
  else pin_dirs.

(** [while ((from = pieces[k]) >= 0) { BODY; k++ }] over a piece list *)
Fixpoint piece_loop (fuel : nat) (l : list Z) (k : Z)
    (body : Z -> list board_move) : list board_move :=
  match fuel with
  | O => []
  | S n =>
      let from := zget 0 l k in
      if from >=? 0 then body from ++ piece_loop n l (k + 1) body else []
  end.

Fixpoint piece_loop_m (fuel : nat) (k : Z) (get : board -> Z -> Z)
    (body : Z -> gen (list board_move)) : gen (list board_move) :=
  match fuel with
  | O => Ret []
  | S n =>
      bd <- get_bd ;;
      let sq := get bd k in
      if sq >=? 0 then
        ms <- body sq ;;
        rest <- piece_loop_m n (k + 1) get body ;;
        Ret (ms ++ rest)
      else Ret []
  end.

Definition empty_at (bd : board) (sq : Z) : bool :=
  piece_eqb (piece_at bd sq) board_empty.
Definition unattacked (bd : board) (sq : Z) : bool := passive_attacks bd sq =? 0.

(** The king part of board_generate_regular_moves *)
Definition regular_king_moves (bd : board) : list board_move :=
  let from := active_pieces bd 0 in
  bits_do_while 32
    (fun dir acc =>
       let to := from + board_vector_step_compact (DEBRUIJN_INDEX dir) in
       if empty_at bd to && unattacked bd to
       then acc ++ [GENERATE_KING_MOVE bd from to (move_fn_table (piece_at bd from))]
       else acc)
    0 (data_kingtab from) [].

(** Castling, generated with the castle-rook *)
Definition white_castling_moves (bd : board) (from : Z) : list board_move :=
  if from =? A1 then
    if empty_at bd B1 && empty_at bd C1 && empty_at bd D1 &&
       unattacked bd C1 && unattacked bd D1
    then [GENERATE_KING_MOVE bd E1 C1 fn_castle_white_queen_side] else []
  else
    if empty_at bd F1 && empty_at bd G1 && unattacked bd F1 && unattacked bd G1
    then [GENERATE_KING_MOVE bd E1 G1 fn_castle_white_king_side] else [].

Definition black_castling_moves (bd : board) (from : Z) : list board_move :=
  if from =? A8 then
    if empty_at bd B8 && empty_at bd C8 && empty_at bd D8 &&
       unattacked bd C8 && unattacked bd D8
    then [GENERATE_KING_MOVE bd E8 C8 fn_castle_black_queen_side] else []
  else
    if empty_at bd F8 && empty_at bd G8 && unattacked bd F8 && unattacked bd G8
    then [GENERATE_KING_MOVE bd E8 G8 fn_castle_black_king_side] else [].

(** One knight jump, emitted when it lands on an empty square *)
Definition knight_jumps (bd : board) (from : Z) (emit : Z -> board_move)
    (acc : list board_move) (dir : Z) : list board_move :=
  let to := from + board_vector_jump dir in
  if empty_at bd to then acc ++ [emit to] else acc.

(** Single and double pawn pushes of the regular move generator *)
Definition pawn_pushes (bd : board) (from vector north_or_south pin_dirs : Z)
    (single : make_move_fn) (double : option make_move_fn) : list board_move :=
  let to := from + vector in
  if empty_at bd to && (Z.land pin_dirs north_or_south =? 0) then
    GENERATE_PAWN_MOVE bd from to single north_or_south ::
    match double with
    | Some double =>
        let to := to + vector in
        if empty_at bd to
        then [GENERATE_PAWN_MOVE bd from to double north_or_south] else []
    | None => []
    end
  else [].

(** The switch on the piece in the loop of board_generate_regular_moves *)
Definition regular_piece_moves (bd : board) (king from : Z) : list board_move :=
  let pin_dirs := pin_precheck bd from king in
  let slide own make :=
    slide_moves bd from (Z.land (Z.land (data_kingtab from) own) (Z.lnot pin_dirs))
      (fun to => GENERATE_MOVE bd from to make) in
  let slide_unless_none own make :=
    if Z.land (Z.land (data_kingtab from) own) (Z.lnot pin_dirs) =? 0 then []
    else slide own make in
  let castle_rook make :=
    (* Moving a castle-rook can't uncover check.. Ignore pin_dir *)
    slide_moves bd from (Z.land (data_kingtab from) BOARD_ATTACK_ROOK)
      (fun to => GENERATE_MOVE bd from to make) in
  let knight make :=
    if negb (pin_dirs =? 0) then []
    else bits_do_while 32
           (fun dir acc =>
              knight_jumps bd from (fun to => GENERATE_MOVE bd from to make) acc dir)
           0 (data_knighttab from) [] in
  match piece_at bd from with
  | board_white_queen => slide (Z.lnot 0) fn_move_white_queen
  | board_black_queen => slide (Z.lnot 0) fn_move_black_queen
  | board_white_rook => slide_unless_none BOARD_ATTACK_ROOK fn_move_white_rook
  | board_black_rook => slide_unless_none BOARD_ATTACK_ROOK fn_move_black_rook
  | board_white_rook_castle =>
      castle_rook fn_move_white_rook_castle ++ white_castling_moves bd from
  | board_black_rook_castle =>
      castle_rook fn_move_black_rook_castle ++ black_castling_moves bd from
  | board_white_bishop_light | board_white_bishop_dark =>
      slide_unless_none BOARD_ATTACK_BISHOP fn_move_white_bishop
  | board_black_bishop_light | board_black_bishop_dark =>
      slide_unless_none BOARD_ATTACK_BISHOP fn_move_black_bishop
  | board_white_knight => knight fn_move_white_knight
  | board_black_knight => knight fn_move_black_knight
  | board_white_pawn =>
      pawn_pushes bd from BOARD_VECTOR_NORTH board_attack_north pin_dirs
        fn_move_white_pawn None
  | board_black_pawn =>
      pawn_pushes bd from BOARD_VECTOR_SOUTH board_attack_south pin_dirs
        fn_move_black_pawn None
  | board_white_pawn_rank2 =>
      pawn_pushes bd from BOARD_VECTOR_NORTH board_attack_north pin_dirs
        fn_move_white_pawn_rank2_to_3 (Some fn_move_white_pawn_rank2_to_4)
  | board_black_pawn_rank7 =>
      pawn_pushes bd from BOARD_VECTOR_SOUTH board_attack_south pin_dirs
        fn_move_black_pawn_rank7_to_6 (Some fn_move_black_pawn_rank7_to_5)
  | _ => []   (* promotions are not generated here *)
  end.

Definition regular_moves (bd : board) : list board_move :=
  regular_king_moves bd ++
  piece_loop 16 (pieces (active (cur bd))) 1
    (regular_piece_moves bd (active_pieces bd 0)).

(** board_generate_regular_moves *)
Definition board_generate_regular_moves : gen (list board_move) :=
  bd <- get_bd ;;
  Ret (regular_moves bd).

(** [do { from = *knights++; } while (data_sq2sq[to][from] != board_attack_knight);]
    on the piece list of the side to move *)
Fixpoint next_active_knight_to (fuel : nat) (bd : board) (to k : Z) : Z * Z :=
  match fuel with
  | O => (active_pieces bd k, k)
  | S n =>
      let from := active_pieces bd k in
      if negb (data_sq2sq to from =? board_attack_knight)
      then next_active_knight_to n bd to (k + 1)
      else (from, k + 1)
  end.

(** generate_moves_to_square *)
Fixpoint knight_moves_to (fuel : nat) (bd : board) (to attack k : Z)
    (acc : list board_move) : Z * list board_move :=
  match fuel with
  | O => (attack, acc)
  | S n =>
      let attack := attack - board_attack_knight in
      let '(from, k) := next_active_knight_to 17 bd to k in
      let acc :=
        if IS_LEGAL bd from to
        then acc ++ [GENERATE_MOVE bd from to (move_fn_table (piece_at bd from))]
        else acc in
      if attack >=? board_attack_knight then knight_moves_to n bd to attack k acc
      else (attack, acc)
  end.

Definition generate_moves_to_square (bd : board) (to : Z) : list board_move :=
  let attack := active_attacks bd to in
  (* With knight *)
  let '(attack, moves) :=
    if attack >=? board_attack_knight then knight_moves_to 16 bd to attack 1 []
    else (attack, []) in
  (* With sliding piece (Q, R, B) *)
  let dirs := Z.land attack BOARD_ATTACK_QUEEN in
  if negb (dirs =? 0) then
    bits_do_while 32
      (fun dir acc =>
         let step := board_vector_step_compact (DEBRUIJN_INDEX dir) in
         let from := walk_to_piece 8 bd to (- step) in
         let piece := piece_at bd from in
         if IS_LEGAL bd from to
         then acc ++ [GENERATE_MOVE bd from to (move_fn_table piece)]
         else acc)
      0 dirs moves
  else moves.

(** The first pass of generate_captures_to_square keeps the captures in a
    local list, the promotions go directly into the move list; the count
    of attackers for the exchange evaluation grows on the way. *)
Record capture_pass : Type := mk_pass {
  captures : list (Z * make_move_fn);
  pass_moves : list board_move;
  pass_attackers : Z
}.

(** [bd->extra_defenders[from] = 0; extra_bit = passive.attacks[from] & dir;
     if (extra_bit != 0) bd->extra_defenders[from] =
         exchange_collect_extra_defenders(bd, from, extra_bit);] *)
Definition find_extra_defenders (from dir : Z) : gen unit :=
  set_extra from 0 ;;;
  bd <- get_bd ;;
  let extra_bit := Z.land (passive_attacks bd from) dir in
  if negb (extra_bit =? 0) then
    set_extra from (exchange_collect_extra_defenders bd from extra_bit)
  else Ret tt.

(** Pawn capture west or east: [pawn_bit] is the pawn attack bit, the
    vectors and ray bits are those of a white and of a black capturer. *)
Definition pawn_capture_pass (to bits pawn_bit : Z)
    (white_vector white_dir black_vector black_dir : Z)
    (st : capture_pass) : gen capture_pass :=
  if Z.land bits pawn_bit =? 0 then Ret st
  else
    bd <- get_bd ;;
    let attackers := pass_attackers st + EXCHANGE_LIST_PAWN in
    let white := color (active (cur bd)) =? board_white in
    let vector := if white then white_vector else black_vector in
    let dir := if white then white_dir else black_dir in
    let last_rank := if white then BOARD_RANK_8 else BOARD_RANK_1 in
    let from := to - vector in
    st <-
      (if IS_LEGAL bd from to then
         if negb (BOARD_RANK to =? last_rank) then
           (* Find extra defenders behind the pawn *)
           find_extra_defenders from dir ;;;
           Ret (mk_pass
                  (captures st ++
                   [(from, if white then fn_capture_with_white_pawn
                           else fn_capture_with_black_pawn)])
                  (pass_moves st) attackers)
         else
           ms <- (if white then GENERATE_WHITE_PROMOTION from to
                  else GENERATE_BLACK_PROMOTION from to) ;;
           Ret (mk_pass (captures st) (pass_moves st ++ ms) attackers)
       else Ret (mk_pass (captures st) (pass_moves st) attackers)) ;;
    (* Find attackers behind the pawn *)
    bd <- get_bd ;;
    Ret (mk_pass (captures st) (pass_moves st)
           (snd (collect_behind 8 bd (active (cur bd)) dir vector from
                   (pass_attackers st)))).

Fixpoint knight_capture_pass (fuel : nat) (to bits k : Z) (st : capture_pass)
    : gen (Z * capture_pass) :=
  match fuel with
  | O => Ret (bits, st)
  | S n =>
      let attackers := pass_attackers st + EXCHANGE_LIST_MINOR in
      let bits := bits - board_attack_knight in
      bd <- get_bd ;;
      let '(from, k) := next_active_knight_to 17 bd to k in
      st <-
        (if IS_LEGAL bd from to then
           set_extra from 0 ;;;
           Ret (mk_pass (captures st ++ [(from, fn_capture_with_knight)])
                  (pass_moves st) attackers)
         else Ret (mk_pass (captures st) (pass_moves st) attackers)) ;;
      if bits >=? board_attack_knight then knight_capture_pass n to bits k st
      else Ret (bits, st)
  end.

Definition slider_capture_pass (to dir : Z) (st : capture_pass) : gen capture_pass :=
  bd <- get_bd ;;
  let step := board_vector_step dir in
  let from := walk_to_piece 8 bd to (- step) in
  let piece := piece_at bd from in
  let attackers := pass_attackers st + exchange_piece_to_list piece in
  st <-
    (if IS_LEGAL bd from to then
       (* Find extra defenders behind the piece *)
       find_extra_defenders from dir ;;;
       Ret (mk_pass (captures st ++ [(from, capture_fn_table piece)])
              (pass_moves st) attackers)
     else Ret (mk_pass (captures st) (pass_moves st) attackers)) ;;
  (* Find more attackers to complete the SEE attack list,
     also if the move is illegal. *)
  bd <- get_bd ;;
  Ret (mk_pass (captures st) (pass_moves st)
         (snd (collect_behind 8 bd (active (cur bd)) dir step from
                 (pass_attackers st)))).

(** The second pass: the prescore of one capture *)
Definition capture_prescore (to defenders attackers captured from : Z) : gen Z :=
  bd <- get_bd ;;
  let piece := piece_at bd from in
  let uncover_check := Z.land (active_attacks bd from) BOARD_ATTACK_QUEEN in
  let uncover_check :=
    if negb (uncover_check =? 0) then
      let xking := passive_pieces bd 0 in
      let uncover_check := Z.land uncover_check (data_sq2sq from xking) in
      if negb (uncover_check =? 0) then
        let step := board_vector_step_compact (DEBRUIJN_INDEX uncover_check) in
        if negb (walk_to_piece 8 bd from step =? xking) then 0 else uncover_check
      else uncover_check
    else uncover_check in
  let bias prescore :=
    (* Non-losing captures get an extra offset *)
    if prescore >=? EXCHANGE_NEUTRAL then prescore + EXCHANGE_GOOD_MOVE_OFFSET
    else prescore in
  if uncover_check =? 0 then
    extra <- get_extra_defenders from ;;
    see <- exchange_evaluate (defenders + extra)
             (attackers + exchange_put_upfront piece) ;;
    Ret (bias (captured - see))
  else if negb (Z.land (passive_attacks bd to) board_attack_king =? 0) then
    see <- exchange_evaluate (Z.shiftl EXCHANGE_LIST_ROYAL 16)
             (attackers + exchange_put_upfront piece) ;;
    Ret (bias (captured - see))
  else Ret (bias captured).

Fixpoint capture_moves (to defenders attackers captured : Z)
    (stack : list (Z * make_move_fn)) : gen (list board_move) :=
  match stack with
  | [] => Ret []
  | (from, make) :: stack =>
      prescore <- capture_prescore to defenders attackers captured from ;;
      bd <- get_bd ;;
      rest <- capture_moves to defenders attackers captured stack ;;
      Ret (store_move bd (MOVE from to) prescore make :: rest)
  end.

(** generate_captures_to_square *)
Definition generate_captures_to_square (to : Z) : gen (list board_move) :=
  bd <- get_bd ;;
  let bits := active_attacks bd to in
  let st := mk_pass [] [] 0 in
  (* Pawn capture west *)
  st <- pawn_capture_pass to bits board_attack_pawn_west
          BOARD_VECTOR_NORTHWEST board_attack_northwest
          BOARD_VECTOR_SOUTHWEST board_attack_southwest st ;;
  (* Pawn capture east *)
  st <- pawn_capture_pass to bits board_attack_pawn_east
          BOARD_VECTOR_NORTHEAST board_attack_northeast
          BOARD_VECTOR_SOUTHEAST board_attack_southeast st ;;
  (* With king: don't generate king moves here *)
  let st :=
    if negb (Z.land bits board_attack_king =? 0)
    then mk_pass (captures st) (pass_moves st) (pass_attackers st + EXCHANGE_LIST_ROYAL)
    else st in
  (* With knight *)
  r <- (if bits >=? board_attack_knight then knight_capture_pass 16 to bits 1 st
        else Ret (bits, st)) ;;
  let bits := fst r in
  let st := snd r in
  (* With sliding piece (Q, R, B, also pawn directions included) *)
  let dirs := Z.land bits BOARD_ATTACK_QUEEN in
  st <- (if negb (dirs =? 0)
         then bits_do_while_m 32 (slider_capture_pass to) 0 dirs st
         else Ret st) ;;
  (* Get defenders *)
  bd <- get_bd ;;
  let defender_bits := passive_attacks bd to in
  defenders <- (if negb (defender_bits =? 0)
                then exchange_collect_defenders to defender_bits else Ret 0) ;;
  (* Calculate prescores *)
  bd <- get_bd ;;
  let captured := exchange_piece_value (piece_at bd to) in
  ms <- capture_moves to defenders (pass_attackers st) captured (rev (captures st)) ;;
  Ret (pass_moves st ++ ms).

(** generate_pawn_push_to *)
Definition generate_pawn_push_to (to : Z) : gen (list board_move) :=
  bd <- get_bd ;;
  let rank := BOARD_RANK to in
  let push from pawn make north_or_south : list board_move :=
    if piece_eqb (piece_at bd from) pawn && IS_LEGAL bd from to
    then [GENERATE_PAWN_MOVE bd from to make north_or_south] else [] in
  if color (active (cur bd)) =? board_white then
    (* Search white pawn to push *)
    let from := to - BOARD_VECTOR_NORTH in
    if (rank =? BOARD_RANK_1) || (rank =? BOARD_RANK_2) then Ret []
    else if rank =? BOARD_RANK_3 then
      Ret (push from board_white_pawn_rank2 fn_move_white_pawn_rank2_to_3
             board_attack_north)
    else if rank =? BOARD_RANK_4 then
      if piece_eqb (piece_at bd from) board_white_pawn then
        Ret (push from board_white_pawn fn_move_white_pawn board_attack_north)
      else if piece_eqb (piece_at bd from) board_empty then
        Ret (push (to - 2 * BOARD_VECTOR_NORTH) board_white_pawn_rank2
               fn_move_white_pawn_rank2_to_4 board_attack_north)
      else Ret []
    else if (rank =? BOARD_RANK_5) || (rank =? BOARD_RANK_6) || (rank =? BOARD_RANK_7) then
      Ret (push from board_white_pawn fn_move_white_pawn board_attack_north)
    else if rank =? BOARD_RANK_8 then
      if piece_eqb (piece_at bd from) board_white_pawn_rank7 && IS_LEGAL bd from to
      then GENERATE_WHITE_PROMOTION from to else Ret []
    else Ret []
  else
    (* Search black pawn to push *)
    let from := to - BOARD_VECTOR_SOUTH in
    if (rank =? BOARD_RANK_8) || (rank =? BOARD_RANK_7) then Ret []
    else if rank =? BOARD_RANK_6 then
      Ret (push from board_black_pawn_rank7 fn_move_black_pawn_rank7_to_6
             board_attack_south)
    else if rank =? BOARD_RANK_5 then
      if piece_eqb (piece_at bd from) board_black_pawn then
        Ret (push from board_black_pawn fn_move_black_pawn board_attack_south)
      else if piece_eqb (piece_at bd from) board_empty then
        Ret (push (to - 2 * BOARD_VECTOR_SOUTH) board_black_pawn_rank7
               fn_move_black_pawn_rank7_to_5 board_attack_south)
      else Ret []
    else if (rank =? BOARD_RANK_4) || (rank =? BOARD_RANK_3) || (rank =? BOARD_RANK_2) then
      Ret (push from board_black_pawn fn_move_black_pawn board_attack_south)
    else if rank =? BOARD_RANK_1 then
      if piece_eqb (piece_at bd from) board_black_pawn_rank2 && IS_LEGAL bd from to
      then GENERATE_BLACK_PROMOTION from to else Ret []
    else Ret [].

(** One side of generate_en_passant: the capture from the east or from
    the west.  [vector] and [capture_dir] are the capturing pawn's step
    and ray bit, [behind] the step from the target square to the captured
    pawn's square taken backwards ([to - behind] is the captured pawn),
    [side_dir] is board_attack_east or board_attack_west. *)
Definition en_passant_from (bd : board) (to vector capture_dir behind side_dir : Z)
    (move_maker : make_move_fn) : list board_move :=
  let from := to - vector in
  (* Find uncovered attacks on king after ep capture *)
  let king := active_pieces bd 0 in
  let pin_dirs :=
    Z.land (Z.land (Z.land (passive_attacks bd from) BOARD_ATTACK_QUEEN)
                   (* exclude the directions along the capture: *)
                   (Z.lnot capture_dir))
           (Z.lnot (BOARD_ATTACK_REVERSE capture_dir)) in
  (* include horizontal attack on captured pawn: *)
  let pin_dirs :=
    Z.lor pin_dirs
      (Z.land (passive_attacks bd (to - behind)) (BOARD_ATTACK_REVERSE side_dir)) in
  let pin_dirs := Z.land pin_dirs (data_sq2sq from king) in
  let pin_dirs :=
    if negb (pin_dirs =? 0) then
      (* prepare walking to king to see if it is exposed *)
      let step := board_vector_step_compact (DEBRUIJN_INDEX pin_dirs) in
      (* but hop over the captured pawn *)
      let sq := if pin_dirs =? side_dir then from + step else from in
      (* do the walk, stop at the first piece *)
      if negb (walk_to_piece 8 bd sq step =? king) then 0 else pin_dirs
    else pin_dirs in
  if pin_dirs =? 0 then [GENERATE_EP bd from to move_maker] else [].

(** generate_en_passant *)
Definition generate_en_passant : gen (list board_move) :=
  bd <- get_bd ;;
  (* First catch false hits due to lazy setting of the en_passant flag *)
  if negb (node_counter (cur bd) =? en_passant_node_counter (cur bd)) then
    (* The en_passant flag has expired and should have been reset.
       Clear it now and leave. *)
    clear_en_passant ;;;
    Ret []
  else
    let to := en_passant_lazy (cur bd) in
    let white := color (active (cur bd)) =? board_white in
    (* East *)
    let east :=
      if negb (Z.land (active_attacks bd to) board_attack_pawn_east =? 0) then
        if white then
          en_passant_from bd to BOARD_VECTOR_NORTHEAST board_attack_northeast
            BOARD_VECTOR_NORTH board_attack_east fn_enpassant_with_white_pawn
        else
          en_passant_from bd to BOARD_VECTOR_SOUTHEAST board_attack_southeast
            BOARD_VECTOR_SOUTH board_attack_east fn_enpassant_with_black_pawn
      else [] in
    (* West *)
    let west :=
      if negb (Z.land (active_attacks bd to) board_attack_pawn_west =? 0) then
        if white then
          en_passant_from bd to BOARD_VECTOR_NORTHWEST board_attack_northwest
            BOARD_VECTOR_NORTH board_attack_west fn_enpassant_with_white_pawn
        else
          en_passant_from bd to BOARD_VECTOR_SOUTHWEST board_attack_southwest
            BOARD_VECTOR_SOUTH board_attack_west fn_enpassant_with_black_pawn
      else [] in
    Ret (east ++ west).

(** The promotion part of board_generate_captures_and_promotions.
    [file[DEBRUIJN_INDEX(1 << f)] = f]: the table maps the bit of a file
    back to the file. *)
Definition file_of_bit (i : Z) : Z :=
  zget 0 (fold_left (fun l f => zset l (DEBRUIJN_INDEX (Z.shiftl 1 f)) f)
            [BOARD_FILE_A; BOARD_FILE_B; BOARD_FILE_C; BOARD_FILE_D;
             BOARD_FILE_E; BOARD_FILE_F; BOARD_FILE_G; BOARD_FILE_H]
            (zeros 8)) i.

Definition forward_promotions : gen (list board_move) :=
  bd <- get_bd ;;
  let last_rank_pawns := last_rank_pawns (active (cur bd)) in
  if negb (last_rank_pawns =? 0) then
    let white := color (active (cur bd)) =? board_white in
    bits_do_while_m 32
      (fun bit acc =>
         bd <- get_bd ;;
         let from := BOARD_SQUARE (file_of_bit (DEBRUIJN_INDEX bit))
                       (if white then BOARD_RANK_7 else BOARD_RANK_2) in
         (* Forward *)
         let to := from + (if white then BOARD_VECTOR_NORTH else BOARD_VECTOR_SOUTH) in
         if empty_at bd to && IS_LEGAL bd from to then
           ms <- (if white then GENERATE_WHITE_PROMOTION from to
                  else GENERATE_BLACK_PROMOTION from to) ;;
           Ret (acc ++ ms)
         else Ret acc)
      0 last_rank_pawns []
  else Ret [].

(** board_generate_captures_and_promotions *)
Definition board_generate_captures_and_promotions : gen (list board_move) :=
  (* Generate regular captures *)
  captures <-
    piece_loop_m 16 1 passive_pieces
      (fun to =>
         bd <- get_bd ;;
         let attack := active_attacks bd to in
         if attack =? 0 then Ret []
         else
           (* With king *)
           let king_capture :=
             if negb (Z.land attack board_attack_king =? 0) && unattacked bd to then
               let from := active_pieces bd 0 in
               let piece := piece_at bd from in
               [GENERATE_KING_CAPTURE bd from to (capture_fn_table piece)]
             else [] in
           (* With any piece (except king) *)
           ms <- generate_captures_to_square to ;;
           Ret (king_capture ++ ms)) ;;
  (* Generate promotions *)
  promotions <- forward_promotions ;;
  (* Generate en-passant capture *)
  bd <- get_bd ;;
  en_passant <- (if negb (en_passant_lazy (cur bd) =? 0) then generate_en_passant
                 else Ret []) ;;
  Ret (captures ++ promotions ++ en_passant).

(** The blocking moves of board_generate_escapes:
    [while (squares[to].piece == board_empty) { moves to [to]; pawn pushes
    to [to]; to -= step; }]; the square of the attacker is returned. *)
Fixpoint block_moves (fuel : nat) (to step : Z) (acc : list board_move)
    : gen (Z * list board_move) :=
  match fuel with
  | O => Ret (to, acc)
  | S n =>
      bd <- get_bd ;;
      if empty_at bd to then
        (* Generate moves to this empty square to block the attack on the king *)
        let ms := generate_moves_to_square bd to in
        ps <- generate_pawn_push_to to ;;
        block_moves n (to - step) step (acc ++ ms ++ ps)
      else Ret (to, acc)
  end.

(** King moves or captures out of check *)
Definition escape_king_moves (bd : board) (from : Z) : list board_move :=
  bits_do_while 32
    (fun dir acc =>
       let to := from + board_vector_step_compact (DEBRUIJN_INDEX dir) in
       if negb (BOARD_PIECE_COLOR (piece_at bd to) =? color (active (cur bd)))
          && unattacked bd to
       then
         (* by construction it should be a legal move *)
         if empty_at bd to
         then acc ++ [GENERATE_KING_MOVE bd from to (move_fn_table (piece_at bd from))]
         else acc ++ [GENERATE_KING_CAPTURE bd from to
                        (capture_fn_table (piece_at bd from))]
       else acc)
    0 (Z.land (data_kingtab from) (Z.lnot (passive_attacks bd from))) [].

(** board_generate_escapes *)
Definition board_generate_escapes : gen (list board_move) :=
  bd <- get_bd ;;
  let king := active_pieces bd 0 in
  let attack := passive_attacks bd king in
  let white := color (active (cur bd)) =? board_white in
  moves <-
    (if Z.land attack (attack - 1) =? 0 then
       (* Single check: find the attacker *)
       r <-
         (if negb (Z.land attack BOARD_ATTACK_QUEEN =? 0) then
            let step := board_vector_step_compact
                          (DEBRUIJN_INDEX (Z.land attack BOARD_ATTACK_QUEEN)) in
            block_moves 8 (king - step) step []
          else if negb (Z.land attack board_attack_pawn_west =? 0) then
            let to := if white then king - BOARD_VECTOR_SOUTHWEST
                      else king - BOARD_VECTOR_NORTHWEST in
            (* Special case: en-passant capture of checking pawn *)
            ms <- (if negb (en_passant_lazy (cur bd) =? 0) then generate_en_passant
                   else Ret []) ;;
            Ret (to, ms)
          else if negb (Z.land attack board_attack_pawn_east =? 0) then
            let to := if white then king - BOARD_VECTOR_SOUTHEAST
                      else king - BOARD_VECTOR_NORTHEAST in
            (* Special case: en-passant capture of checking pawn *)
            ms <- (if negb (en_passant_lazy (cur bd) =? 0) then generate_en_passant
                   else Ret []) ;;
            Ret (to, ms)
          else
            (* Must be a knight *)
            Ret (fst (next_knight_to 17 bd king 1), [])) ;;
       let '(to, moves) := r in
       (* Attacker identified. Generate captures. *)
       bd <- get_bd ;;
       if negb (active_attacks bd to =? 0) then
         ms <- generate_captures_to_square to ;;
         Ret (moves ++ ms)
       else Ret moves
     else Ret []) ;;
  (* Generate king moves or captures out of check *)
  bd <- get_bd ;;
  Ret (moves ++ escape_king_moves bd king).

(** ** board_generate_regular_checks *)

(** King moves that uncover a check *)
Definition king_discovered_checks (bd : board) (from xking : Z) (piece : board_piece)
    : list board_move :=
  if uncovers_check bd from xking then
    let dirs := data_kingtab from in
    let dirs := Z.land dirs (Z.lnot (data_sq2sq from xking)) in
    let dirs := Z.land dirs (Z.lnot (data_sq2sq xking from)) in
    bits_do_while 32
      (fun dir acc =>
         let to := from + board_vector_step_compact (DEBRUIJN_INDEX dir) in
         if unattacked bd to (* don't walk into check *) && empty_at bd to
         then acc ++ [GENERATE_KING_MOVE bd from to (move_fn_table piece)]
         else acc)
      0 dirs []
  else [].

(** The pin test of the direct pawn checks: the pawn may advance when no
    attack other than a vertical one lines it up with the own king, or
    when the line to the king is obstructed. *)
Definition pawn_is_free (bd : board) (from king : Z) : bool :=
  (Z.land (Z.land (Z.land (passive_attacks bd from) (data_sq2sq from king))
                  BOARD_ATTACK_QUEEN)
          (Z.lnot BOARD_ATTACK_VERTICAL) =? 0)
  || negb (the_path_is_clear bd from king).

(** Direct checks by pawn pushes, found from the opponent king.
    [forward], [west] and [east] are the mover's vectors NORTH, NORTHWEST,
    NORTHEAST (white) or SOUTH, SOUTHWEST, SOUTHEAST (black). *)
Definition pawn_push_checks (bd : board) (king xking : Z)
    (forward west east north_or_south first_rank double_rank : Z)
    (pawn : board_piece) (make_pawn make_single make_double : make_move_fn)
    : list board_move :=
  let single_push (vector : Z) : list board_move :=
    let to := xking - vector in
    let from := to - forward in
    if empty_at bd to && pawn_is_free bd from king then
      if piece_eqb (piece_at bd from) pawn
      then [GENERATE_PAWN_MOVE bd from to make_pawn north_or_south]
      else [GENERATE_PAWN_MOVE bd from to make_single north_or_south]
    else [] in
  let double_push (vector : Z) : list board_move :=
    let to := xking - vector in
    let mid := to - forward in
    let from := to - 2 * forward in
    if empty_at bd to && empty_at bd mid && pawn_is_free bd from king
    then [GENERATE_PAWN_MOVE bd from to make_double north_or_south]
    else [] in
  (* Single pawn pushes *)
  (if negb (BOARD_RANK xking =? first_rank) then
     let attacks := active_attacks bd (xking - forward) in
     (if negb (Z.land attacks board_attack_pawn_west =? 0) then single_push west else [])
     ++
     (if negb (Z.land attacks board_attack_pawn_east =? 0) then single_push east else [])
   else [])
  ++
  (* Double pawn pushes *)
  (if BOARD_RANK xking =? double_rank then
     let attacks := active_attacks bd (xking - 2 * forward) in
     (if negb (Z.land attacks board_attack_pawn_west =? 0) then double_push west else [])
     ++
     (if negb (Z.land attacks board_attack_pawn_east =? 0) then double_push east else [])
   else []).

(** Knight checks *)
Definition knight_checks (bd : board) (from xking pin_dirs : Z) (piece : board_piece)
    : list board_move :=
  if negb (pin_dirs =? 0) then []
  else if uncovers_check bd from xking then
    bits_while 32
      (fun dir acc =>
         knight_jumps bd from
           (fun to => GENERATE_DISCOVERED_CHECK bd from to (move_fn_table piece)) acc dir)
      (data_knighttab from) []
  else
    bits_while 32
      (fun dir acc =>
         knight_jumps bd from
           (fun to => GENERATE_MOVE bd from to (move_fn_table piece)) acc dir)
      (data_knight_checks xking from) [].

(** Pawn checks (only discovered checks) *)
Definition pawn_discovered_checks (bd : board) (from xking pin_dirs : Z)
    (forward north_or_south : Z) (single : make_move_fn) (double : option make_move_fn)
    : list board_move :=
  let to := from + forward in
  if negb (Z.land (Z.land (Z.land (active_attacks bd from) (data_sq2sq from xking))
                          BOARD_ATTACK_QUEEN)
                  (Z.lnot BOARD_ATTACK_VERTICAL) =? 0)
     && the_path_is_clear bd from xking
     && empty_at bd to
     && (Z.land pin_dirs north_or_south =? 0)
  then
    GENERATE_PAWN_MOVE bd from to single north_or_south ::
    match double with
    | Some double =>
        let to := to + forward in
        if empty_at bd to
        then [GENERATE_PAWN_MOVE bd from to double north_or_south] else []
    | None => []
    end
  else [].

(** A slider that uncovers a check moves anywhere off the line *)
Definition slider_discovered_checks (bd : board) (from xking pin_dirs own : Z)
    (piece : board_piece) : list board_move :=
  let dirs := Z.land (data_kingtab from) own in
  let dirs := Z.land dirs (Z.lnot (data_sq2sq from xking)) in
  let dirs := Z.land dirs (Z.lnot (data_sq2sq xking from)) in
  let dirs := Z.land dirs (Z.lnot pin_dirs) in
  slide_moves_while bd from dirs
    (fun to => GENERATE_DISCOVERED_CHECK bd from to (move_fn_table piece)).

(** A direct check on the target square [to] *)
Definition direct_check_to (bd : board) (from xking to : Z) (piece : board_piece)
    : list board_move :=
  let dir := Z.land (data_sq2sq from to) BOARD_ATTACK_QUEEN in
  if negb (Z.land (active_attacks bd to) dir =? 0)
     && empty_at bd to
     && the_path_is_clear bd xking to
     && the_path_is_clear bd from to
  then [GENERATE_MOVE bd from to (move_fn_table piece)] else [].

(** Bishop checks *)
Definition bishop_checks (bd : board) (from xking pin_dirs : Z) (piece : board_piece)
    : list board_move :=
  if uncovers_check bd from xking then
    slider_discovered_checks bd from xking pin_dirs BOARD_ATTACK_BISHOP piece
  else
    let xking_dia1 := BOARD_FILE xking + BOARD_RANK xking in
    let xking_dia2 := BOARD_FILE xking - BOARD_RANK xking in
    let from_dia1 := BOARD_FILE from + BOARD_RANK from in
    let from_dia2 := BOARD_FILE from - BOARD_RANK from in
    if negb (xking_dia1 =? from_dia1)
       && negb (xking_dia2 =? from_dia2)              (* Not on the same line already *)
       && (Z.land (xking_dia1 - from_dia1) 1 =? 0)    (* On the same color squares *)
    then
      let on_board f r := (Z.land f 7 =? f) && (Z.land r 7 =? r) in
      let to_file := BOARD_FILE from + Z.quot (xking_dia1 - from_dia1) 2 in
      let to_rank := BOARD_RANK from + Z.quot (xking_dia1 - from_dia1) 2 in
      (if on_board to_file to_rank
          && (Z.land pin_dirs (Z.lor board_attack_northeast board_attack_southwest) =? 0)
       then direct_check_to bd from xking (BOARD_SQUARE to_file to_rank) piece
       else [])
      ++
      let to_file := BOARD_FILE from + Z.quot (xking_dia2 - from_dia2) 2 in
      let to_rank := BOARD_RANK from - Z.quot (xking_dia2 - from_dia2) 2 in
      (if on_board to_file to_rank
          && (Z.land pin_dirs (Z.lor board_attack_northwest board_attack_southeast) =? 0)
       then direct_check_to bd from xking (BOARD_SQUARE to_file to_rank) piece
       else [])
    else [].

(** Castling that gives check: [switch (from)] of the castle-rook case *)
Definition castling_checks (bd : board) (from xking : Z) : list board_move :=
  let lines rank king_sq file rook_sq :=
    ((BOARD_RANK xking =? rank) && the_path_is_clear bd king_sq xking)
    || ((BOARD_FILE xking =? file) && the_path_is_clear bd rook_sq xking) in
  if from =? A1 then
    if lines BOARD_RANK_1 E1 BOARD_FILE_D D1
       && (empty_at bd B1 && empty_at bd C1 && empty_at bd D1 &&
           unattacked bd C1 && unattacked bd D1)
    then [GENERATE_KING_MOVE bd E1 C1 fn_castle_white_queen_side] else []
  else if from =? H1 then
    if lines BOARD_RANK_1 E1 BOARD_FILE_F F1
       && (empty_at bd F1 && empty_at bd G1 && unattacked bd F1 && unattacked bd G1)
    then [GENERATE_KING_MOVE bd E1 G1 fn_castle_white_king_side] else []
  else if from =? A8 then
    if lines BOARD_RANK_8 E8 BOARD_FILE_D D8
       && (empty_at bd B8 && empty_at bd C8 && empty_at bd D8 &&
           unattacked bd C8 && unattacked bd D8)
    then [GENERATE_KING_MOVE bd E8 C8 fn_castle_black_queen_side] else []
  else if from =? H8 then
    if lines BOARD_RANK_8 E8 BOARD_FILE_F F8
       && (empty_at bd F8 && empty_at bd G8 && unattacked bd F8 && unattacked bd G8)
    then [GENERATE_KING_MOVE bd E8 G8 fn_castle_black_king_side] else []
  else [].

(** Rook checks *)
Definition rook_checks (bd : board) (from xking pin_dirs : Z) (piece : board_piece)
    : list board_move :=
  if uncovers_check bd from xking then
    slider_discovered_checks bd from xking pin_dirs BOARD_ATTACK_ROOK piece
  else if Z.land (data_sq2sq xking from) BOARD_ATTACK_ROOK =? 0 then
    (* Not on the same line already *)
    (if Z.land pin_dirs BOARD_ATTACK_HORIZONTAL =? 0 then
       (* Move along rank *)
       direct_check_to bd from xking
         (BOARD_SQUARE (BOARD_FILE xking) (BOARD_RANK from)) piece
     else [])
    ++
    (if Z.land pin_dirs BOARD_ATTACK_VERTICAL =? 0 then
       (* Move along file *)
       direct_check_to bd from xking
         (BOARD_SQUARE (BOARD_FILE from) (BOARD_RANK xking)) piece
     else [])
  else [].

(** Queen checks: one ray away from the opponent king *)
Fixpoint queen_check_ray (fuel : nat) (from pin_dirs to vector len : Z)
    (piece : board_piece) (acc : list board_move) : gen (list board_move) :=
  match fuel with
  | O => Ret acc
  | S n =>
      bd <- get_bd ;;
      (* Step away from the opponent king *)
      let to := to + vector in
      if negb (empty_at bd to) then Ret acc
      else
        (* A sliding attack might be a queen *)
        let attacks := Z.land (Z.land (Z.lnot pin_dirs) (active_attacks bd to))
                              BOARD_ATTACK_QUEEN in
        (* Especially if the move direction matches *)
        let move_dir := Z.land (data_sq2sq from to) attacks in
        acc <-
          (if (attacks =? 0) || (move_dir =? 0) then Ret acc
           else
             (* Walk towards the attacker to see where it is *)
             let step := board_vector_step_compact (DEBRUIJN_INDEX move_dir) in
             let sq := walk_to_piece 8 bd to (- step) in
             (* If it is the queen generate the move *)
             if sq =? from then
               m <- GENERATE_MOVE_SLOW from to (move_fn_table piece) ;;
               Ret (acc ++ [m])
             else Ret acc) ;;
        let len := len - 1 in
        if len =? 0 then Ret acc
        else queen_check_ray n from pin_dirs to vector len piece acc
  end.

Definition queen_checks (from xking pin_dirs : Z) (piece : board_piece)
    : gen (list board_move) :=
  bits_do_while_m 32
    (fun dir acc =>
       let vector := board_vector_step_compact (DEBRUIJN_INDEX dir) in
       let len := data_raylen xking (DEBRUIJN_INDEX dir) in
       queen_check_ray 8 from pin_dirs xking vector len piece acc)
    0 (data_kingtab xking) [].

(** The switch on the piece in the loop of board_generate_regular_checks *)
Definition regular_piece_checks (king xking from : Z) : gen (list board_move) :=
  bd <- get_bd ;;
  let piece := piece_at bd from in
  let pin_dirs := pin_precheck bd from king in
  match piece with
  | board_white_king_castle | board_white_king =>
      Ret (king_discovered_checks bd from xking piece ++
           pawn_push_checks bd king xking
             BOARD_VECTOR_NORTH BOARD_VECTOR_NORTHWEST BOARD_VECTOR_NORTHEAST
             board_attack_north BOARD_RANK_1 BOARD_RANK_5
             board_white_pawn fn_move_white_pawn
             fn_move_white_pawn_rank2_to_3 fn_move_white_pawn_rank2_to_4)
  | board_black_king_castle | board_black_king =>
      Ret (king_discovered_checks bd from xking piece ++
           pawn_push_checks bd king xking
             BOARD_VECTOR_SOUTH BOARD_VECTOR_SOUTHWEST BOARD_VECTOR_SOUTHEAST
             board_attack_south BOARD_RANK_8 BOARD_RANK_4
             board_black_pawn fn_move_black_pawn
             fn_move_black_pawn_rank7_to_6 fn_move_black_pawn_rank7_to_5)
  | board_white_knight | board_black_knight =>
      Ret (knight_checks bd from xking pin_dirs piece)
  | board_white_pawn =>
      Ret (pawn_discovered_checks bd from xking pin_dirs
             BOARD_VECTOR_NORTH board_attack_north fn_move_white_pawn None)
  | board_white_pawn_rank2 =>
      Ret (pawn_discovered_checks bd from xking pin_dirs
             BOARD_VECTOR_NORTH board_attack_north
             fn_move_white_pawn_rank2_to_3 (Some fn_move_white_pawn_rank2_to_4))
  | board_black_pawn =>
      Ret (pawn_discovered_checks bd from xking pin_dirs
             BOARD_VECTOR_SOUTH board_attack_south fn_move_black_pawn None)
  | board_black_pawn_rank7 =>
      Ret (pawn_discovered_checks bd from xking pin_dirs
             BOARD_VECTOR_SOUTH board_attack_south
             fn_move_black_pawn_rank7_to_6 (Some fn_move_black_pawn_rank7_to_5))
  | board_white_pawn_rank7 | board_black_pawn_rank2 =>
      (* All of these are generated in board_generate_captures_and_promotions *)
      Ret []
  | board_white_bishop_light | board_black_bishop_light
  | board_white_bishop_dark | board_black_bishop_dark =>
      Ret (bishop_checks bd from xking pin_dirs piece)
  | board_white_rook_castle | board_black_rook_castle =>
      (* falls through to the rook case *)
      Ret (castling_checks bd from xking ++ rook_checks bd from xking pin_dirs piece)
  | board_white_rook | board_black_rook =>
      Ret (rook_checks bd from xking pin_dirs piece)
  | board_white_queen | board_black_queen =>
      queen_checks from xking pin_dirs piece
  | board_empty => Ret []
  end.

(** Bump up SEE for safe checks *)
Definition bump_safe_check (m : board_move) : board_move :=
  if bm_prescore m >=? EXCHANGE_NEUTRAL
  then mk_move (bm_move m) (ushort_of (bm_prescore m + EXCHANGE_GOOD_MOVE_OFFSET))
               (bm_make m)
  else m.

(** board_generate_regular_checks *)
Definition board_generate_regular_checks : gen (list board_move) :=
  bd <- get_bd ;;
  let king := active_pieces bd 0 in
  let xking := passive_pieces bd 0 in
  moves <- piece_loop_m 17 0 active_pieces (regular_piece_checks king xking) ;;
  Ret (map bump_safe_check moves).

(** board_generate_all_moves *)
Definition board_generate_all_moves : gen (list board_move) :=
  bd <- get_bd ;;
  if board_in_check bd then
    (* In check, get out *)
    board_generate_escapes
  else
    (* No check, generate captures *)
    captures <- board_generate_captures_and_promotions ;;
    (* And regular moves *)
    regular <- board_generate_regular_moves ;;
    Ret (captures ++ regular).

(** ** Perft (rmoves.c) *)

Definition on_board (f : board -> board) (w : world) : world :=
  mk_world (f (w_bd w)) (w_exchange_table w) (w_miss_counter w).

(** [bd->current[+1].node_counter += n] *)
Definition add_node_counter (k n : Z) (bd : board) : board :=
  upd_frame k (fun fr => set_node_counter (node_counter fr + n) fr) bd.

(** perft: the recursion descends one ply per level, [fuel] counts the
    levels left. *)
Fixpoint perft (fuel : nat) (depth_minus_1 : Z) (moves : list board_move)
    (w : world) : world :=
  match fuel with
  | O => w
  | S n =>
      fold_left
        (fun w move =>
           let w := on_board (board_make_move move) w in
           let r := run board_generate_all_moves w in
           let new_moves := fst r in
           let w := snd r in
           let nr_new_moves := Z.of_nat (length new_moves) in
           let w :=
             if depth_minus_1 =? 0
             then on_board (add_node_counter 1 nr_new_moves) w
             else perft n (depth_minus_1 - 1) new_moves w in
           on_board board_undo_move w)
        moves w
  end.

(** board_perft: the count stored through [count_p] and the state left
    behind *)
Definition board_perft (depth : Z) (w : world) : Z * world :=
  if depth =? 0 then (1, w)
  else
    let r := run board_generate_all_moves w in
    let moves := fst r in
    let w := snd r in
    let nr_moves := Z.of_nat (length moves) in
    if depth =? 1 then (nr_moves, w)
    else
      let w := perft (S (Z.to_nat (depth - 2))) (depth - 2) moves w in
      (node_counter (frame_at (w_bd w) depth), w).

(** * Specification vocabulary *)

(* ---------- C8 ---------- *)
Definition table_bounded (t : Z -> Z) : Prop :=
  forall h, Z.shiftr (Z.land (t h) 0xf000) 4 <= 14 * EXCHANGE_UNIT.

Definition valid_piece_sets (defenders attackers : Z) : Prop :=
  defenders <> 0 /\
  Z.land defenders 0x1fff = defenders /\
  Z.land attackers 0x7fff = attackers /\
  Z.land (Z.land defenders attackers) EXCHANGE_LAST_RANK = 0.

(** The recursion terminates: with valid words each level removes a piece
    from the defenders it is called with. *)
Definition capturer_check (d : Z) : bool :=
  let d' := snd (next_capturer 0 d) in
  (0 <=? d') && (d' <=? 0x7fff) && (d' mod 4096 <? d mod 4096).

Definition frame_in_range (bd : board) (k : Z) : Prop :=
  0 <= current bd + k < Z.of_nat (length (stack bd)).

(** *** The halfmove clock *)

(** The state of the clock while a move maker runs on the frame at stack
    index [c] of a stack of [n] frames, above the frame [parent]: still at
    the 0 that board_make_move wrote, or bumped to the parent's clock plus
    one. *)
Definition clock_state (c : Z) (n : nat) (parent : board_stack_frame)
    (bumped : bool) (bd : board) : Prop :=
  current bd = c /\ length (stack bd) = n /\ frame_at bd (-1) = parent /\
  halfmove_clock (cur bd) =
    (if bumped then uchar_of (halfmove_clock parent + 1) else 0).

(** The move makers that leave the clock at 0: pawn moves, captures,
    en-passant captures and promotions (and the empty table entry, which
    does nothing). *)
Definition resets_clock (make : make_move_fn) : bool :=
  match make with
  | fn_move_white_king | fn_move_black_king
  | fn_move_white_king_castle | fn_move_black_king_castle
  | fn_move_white_queen | fn_move_black_queen
  | fn_move_white_rook | fn_move_black_rook
  | fn_move_white_rook_castle | fn_move_black_rook_castle
  | fn_move_white_bishop | fn_move_black_bishop
  | fn_move_white_knight | fn_move_black_knight
  | fn_castle_white_king_side | fn_castle_white_queen_side
  | fn_castle_black_king_side | fn_castle_black_queen_side => false
  | _ => true
  end.

(** The part of board_make_move that precedes the call of the move maker. *)
Definition make_prelude (move : board_move) (bd : board) : board :=
  let frame := cur bd in
  let bd := upd_frame 1 (set_passive (active frame)) bd in
  let bd := upd_frame 1 (set_active (passive frame)) bd in
  let bd := upd_frame 1 (set_pawn_king_hash (pawn_king_hash frame)) bd in
  let bd := upd_frame 1 (set_material_key (material_key frame)) bd in
  let bd := upd_frame 1 (set_halfmove_clock 0) bd in
  let bd := set_current (current bd + 1) bd in
  let bd := upd_cur (fun fr => set_node_counter (node_counter fr + 1) fr) bd in
  let from := MOVE_FROM (bm_move move) in
  let to := MOVE_TO (bm_move move) in
  let bd := upd_cur (fun fr =>
              set_undo (zset (undo fr) UNDO_FROM (mk_undo from (square_at bd from))) fr) bd in
  let bd := upd_cur (fun fr =>
              set_undo (zset (undo fr) UNDO_TO (mk_undo to (square_at bd to))) fr) bd in
  upd_cur (set_undo_len 2) bd.

(** The new frame is a copy of the old one with the sides swapped and the
    clock at 0; nothing else of the board changes. *)
Definition new_frame_of (bd : board) (fr : board_stack_frame) : board :=
  mk_board (squares bd) (current bd + 1) (butterfly bd)
    (zset (stack bd) (current bd + 1) fr) (extra_defenders bd)
    (game_fullmove_number bd) (game_halfmove_clock_offset bd).

Definition is_new_frame (bd : board) (b : board) : Prop :=
  exists fr,
    halfmove_clock fr = 0 /\ undo_len fr = 2 /\
    active fr = passive (cur bd) /\ passive fr = active (cur bd) /\
    b = new_frame_of bd fr.

(** *** The length of the undo log *)

Definition undo_le (k : Z) (bd : board) : Prop := 0 <= undo_len (cur bd) <= k.

Definition promote_fn (white : bool) (k : prom_kind) : make_move_fn :=
  match k, white with
  | prom_queen, true => fn_promote_white_queen
  | prom_queen, false => fn_promote_black_queen
  | prom_rook, true => fn_promote_white_rook
  | prom_rook, false => fn_promote_black_rook
  | prom_bishop, true => fn_promote_white_bishop
  | prom_bishop, false => fn_promote_black_bishop
  | prom_knight, true => fn_promote_white_knight
  | prom_knight, false => fn_promote_black_knight
  end.

(** *** The promotion encoding *)

(** The promotions of the board geometry: a pawn on the seventh rank steps
    or captures onto the eighth (white), a pawn on the second rank onto the
    first (black). *)
Definition promotion_step (from to : Z) : bool :=
  (0 <=? from) && (from <? 64) && (0 <=? to) && (to <? 64) &&
  (((BOARD_RANK from =? BOARD_RANK_7) &&
    ((to =? from + BOARD_VECTOR_NORTH)
     || (negb (BOARD_FILE from =? BOARD_FILE_A) && (to =? from + BOARD_VECTOR_NORTHWEST))
     || (negb (BOARD_FILE from =? BOARD_FILE_H) && (to =? from + BOARD_VECTOR_NORTHEAST))))
   || ((BOARD_RANK from =? BOARD_RANK_2) &&
       ((to =? from + BOARD_VECTOR_SOUTH)
        || (negb (BOARD_FILE from =? BOARD_FILE_A) && (to =? from + BOARD_VECTOR_SOUTHWEST))
        || (negb (BOARD_FILE from =? BOARD_FILE_H) && (to =? from + BOARD_VECTOR_SOUTHEAST))))).

Definition data_promotion_flag (k : prom_kind) : Z :=
  match k with
  | prom_queen => data_promotion_queen
  | prom_rook => data_promotion_rook
  | prom_bishop => data_promotion_bishop
  | prom_knight => data_promotion_knight
  end.

Definition prom_kinds : list prom_kind := [prom_queen; prom_rook; prom_bishop; prom_knight].

Definition prom_kind_eqb (a b : prom_kind) : bool :=
  match a, b with
  | prom_queen, prom_queen | prom_rook, prom_rook
  | prom_bishop, prom_bishop | prom_knight, prom_knight => true
  | _, _ => false
  end.

(** What the encoding promises for one promotion: the move word decodes,
    the encoded square stands in no other relation to the from-square than
    the promotion of that kind, and no other promotion from the same
    square has the same word. *)
Definition promotion_word_ok (from to : Z) (k : prom_kind) : bool :=
  let word := Z.lxor (MOVE from to) (xor_prom k) in
  let t := MOVE_TO word in
  (MOVE_FROM word =? from) && (t =? Z.lxor to (xor_prom k)) &&
  (Z.lxor t (xor_prom k) =? to) &&
  (data_sq2sq from t =? data_promotion_flag k) &&
  forallb (fun to' =>
    if promotion_step from to' then
      forallb (fun k' =>
        if Z.lxor to' (xor_prom k') =? t then (to' =? to) && prom_kind_eqb k' k
        else true) prom_kinds
    else true) all_squares.

(** ** What the generators do to the board *)

(** The en-passant flag of the frame is stale. *)
Definition expired (bd : board) : Prop :=
  node_counter (cur bd) <> en_passant_node_counter (cur bd).

(** [bd->current->en_passant_lazy = 0] *)
Definition en_passant_cleared (bd : board) : board :=
  upd_cur (set_en_passant_lazy 0) bd.

(** The board [bd'] is the board [bd] up to the scratch array
    extra_defenders and, when the en-passant flag of [bd] is stale, up to
    that flag having been reset. *)
Definition frame_kept (bd bd' : board) : Prop :=
  squares bd' = squares bd /\
  current bd' = current bd /\
  butterfly bd' = butterfly bd /\
  game_fullmove_number bd' = game_fullmove_number bd /\
  game_halfmove_clock_offset bd' = game_halfmove_clock_offset bd /\
  (stack bd' = stack bd \/
   (expired bd /\ stack bd' = stack (en_passant_cleared bd))).

(** A generator run from any state that [frame_kept] relates to [bd0]
    ends in such a state, with a result that satisfies [post]. *)
Definition produces (bd0 : board) {A : Type} (post : A -> Prop) (p : gen A) : Prop :=
  forall w, frame_kept bd0 (w_bd w) ->
    frame_kept bd0 (w_bd (snd (run p w))) /\ post (fst (run p w)).

Definition is_en_passant_fn (make : make_move_fn) : bool :=
  match make with
  | fn_enpassant_with_white_pawn | fn_enpassant_with_black_pawn => true
  | _ => false
  end.

Definition no_ep (m : board_move) : Prop := is_en_passant_fn (bm_make m) = false.

(** An en-passant capture is acceptable in the list only when the flag of
    [bd0] is fresh. *)
Definition ep_ok (bd0 : board) (m : board_move) : Prop :=
  is_en_passant_fn (bm_make m) = true ->
  node_counter (cur bd0) = en_passant_node_counter (cur bd0).

(** The five entry points of generate.c *)
Inductive generator : Type :=
  | all_moves | captures_and_promotions | regular_moves_only | escapes | regular_checks.

Definition generator_code (g : generator) : gen (list board_move) :=
  match g with
  | all_moves => board_generate_all_moves
  | captures_and_promotions => board_generate_captures_and_promotions
  | regular_moves_only => board_generate_regular_moves
  | escapes => board_generate_escapes
  | regular_checks => board_generate_regular_checks
  end.

(** *** The generators *)

(** What is expected of a result, by its type: lists of moves hold no
    stale en-passant capture, the capture stack holds no en-passant maker
    at all. *)
Class Expect (A : Type) : Type := expect : board -> A -> Prop.

#[export] Instance expect_Z : Expect Z := fun _ _ => True.

#[export] Instance expect_unit : Expect unit := fun _ _ => True.

#[export] Instance expect_bool : Expect bool := fun _ _ => True.

#[export] Instance expect_option {A} : Expect (option A) := fun _ _ => True.

#[export] Instance expect_make : Expect make_move_fn :=
  fun _ make => is_en_passant_fn make = false.

#[export] Instance expect_move : Expect board_move := ep_ok.

#[export] Instance expect_list {A} `{Expect A} : Expect (list A) :=
  fun bd l => Forall (expect bd) l.

#[export] Instance expect_prod {A B} `{Expect A} `{Expect B} : Expect (A * B) :=
  fun bd p => expect bd (fst p) /\ expect bd (snd p).

#[export] Instance expect_pass : Expect capture_pass :=
  fun bd st => expect bd (captures st) /\ expect bd (pass_moves st).

(** ** Sample positions *)

(** The position that board_setup_raw makes of an EPD string, starting
    from a fresh board; the empty board when the string is refused. *)
Definition position_of (epd : string) : board :=
  match board_setup_raw epd board_create with
  | Some bd => bd
  | None => board_create
  end.

Definition start_epd : string :=
  "rnbqkbnr/pppppppp/8/8/8/8/PPPPPPPP/RNBQKBNR w KQkq -".

Definition start_position : board := position_of start_epd.

(** Black king on h5 checked by the pawn g4, with the en-passant square
    e3 behind another white pawn. *)
Definition pawn_check_epd : string := "8/8/8/7k/3pP1P1/8/8/K7 b - e3".

Definition pawn_check_position : board := position_of pawn_check_epd.

(** d4xe3 en passant *)
Definition en_passant_d4e3 : board_move :=
  mk_move (MOVE D4 E3) 61696 fn_enpassant_with_black_pawn.

Definition castling_epd : string := "r3k2r/8/8/8/8/8/8/R3K2R w KQkq -".

Definition castling_position : board := position_of castling_epd.

Definition castle_king_side : board_move :=
  mk_move (MOVE E1 G1) 3840 fn_castle_white_king_side.

Definition promotion_epd : string := "7k/P7/8/8/8/8/8/K7 w - -".

Definition promotion_position : board := position_of promotion_epd.

(** 1. e2-e4 taken back and 1. Ng1-f3 played instead: the frame of the
    new position still has the en-passant square of the pawn move. *)
Definition pawn_e2e4 : board_move :=
  mk_move (MOVE E2 E4) 3840 fn_move_white_pawn_rank2_to_4.

Definition knight_g1f3 : board_move :=
  mk_move (MOVE G1 F3) 3840 fn_move_white_knight.

Definition stale_en_passant_position : board :=
  board_make_move knight_g1f3 (board_undo_move (board_make_move pawn_e2e4 start_position)).

Definition knight_b8a6 : board_move :=
  mk_move (MOVE B8 A6) 3840 fn_move_black_knight.

(** ** The geometry behind the lookup tables *)

(** The file and rank steps of a ray direction *)
Definition direction_delta (dir : Z) : Z * Z :=
  if dir =? board_attack_north then (0, 1)
  else if dir =? board_attack_northeast then (1, 1)
  else if dir =? board_attack_east then (1, 0)
  else if dir =? board_attack_southeast then (1, -1)
  else if dir =? board_attack_south then (0, -1)
  else if dir =? board_attack_southwest then (-1, -1)
  else if dir =? board_attack_west then (-1, 0)
  else if dir =? board_attack_northwest then (-1, 1)
  else (0, 0).

(** The file and rank steps of a knight jump *)
Definition jump_delta (dir : Z) : Z * Z :=
  if dir =? jump_north_northwest then (-1, 2)
  else if dir =? jump_north_northeast then (1, 2)
  else if dir =? jump_east_northeast then (2, 1)
  else if dir =? jump_east_southeast then (2, -1)
  else if dir =? jump_south_southwest then (-1, -2)
  else if dir =? jump_south_southeast then (1, -2)
  else if dir =? jump_west_northwest then (-2, 1)
  else if dir =? jump_west_southwest then (-2, -1)
  else (0, 0).

Definition file_rank_on_board (file rank : Z) : bool :=
  (0 <=? file) && (file <? 8) && (0 <=? rank) && (rank <? 8).

(** The square [k] steps from [sq] along the direction with steps
    [delta], when it is on the board. *)
Definition square_along (sq : Z) (delta : Z * Z) (k : Z) : option Z :=
  let file := BOARD_FILE sq + k * fst delta in
  let rank := BOARD_RANK sq + k * snd delta in
  if file_rank_on_board file rank then Some (BOARD_SQUARE file rank) else None.

Definition option_Z_eqb (a : option Z) (b : Z) : bool :=
  match a with Some x => x =? b | None => false end.

(** [b] lies on the ray from [a] in direction [dir] *)
Definition on_ray (a dir b : Z) : bool :=
  existsb (fun k => option_Z_eqb (square_along a (direction_delta dir) k) b) (seqZ 1 7).

(** The number of squares on the ray from [a] in direction [dir] *)
Definition ray_length (a dir : Z) : Z :=
  Z.of_nat (length (List.filter (fun k =>
    match square_along a (direction_delta dir) k with Some _ => true | None => false end)
    (seqZ 1 7))).

Definition jump_directions : list Z :=
  [jump_north_northwest; jump_north_northeast; jump_east_northeast; jump_east_southeast;
   jump_south_southwest; jump_south_southeast; jump_west_northwest; jump_west_southwest].

(** The tests that the theorems below generalise *)
Definition step_ok (tab : Z -> Z) (vector : Z -> Z) (delta : Z -> Z * Z) (sq dir : Z)
    : bool :=
  match square_along sq (delta dir) 1 with
  | Some t => negb (Z.land (tab sq) dir =? 0) && (sq + vector dir =? t) &&
              (0 <=? t) && (t <? 64)
  | None => Z.land (tab sq) dir =? 0
  end.

Definition sq2sq_ray_ok (a b dir : Z) : bool :=
  Bool.eqb (negb (Z.land (data_sq2sq a b) dir =? 0)) (on_ray a dir b).

Definition raylen_ok (a dir : Z) : bool :=
  (data_raylen a (DEBRUIJN_INDEX dir) =? ray_length a dir) &&
  (board_vector_step_compact (DEBRUIJN_INDEX dir) =? board_vector_step dir).

Definition sq2sq_reverse_ok (a b : Z) : bool :=
  Z.land (data_sq2sq b a) BOARD_ATTACK_QUEEN =?
  BOARD_ATTACK_REVERSE (Z.land (data_sq2sq a b) BOARD_ATTACK_QUEEN).

Definition move_word_ok (from to : Z) : bool :=
  (MOVE_FROM (short_of (MOVE from to)) =? from) &&
  (MOVE_TO (short_of (MOVE from to)) =? to).

(** ** The attack updates as sequences of single writes *)

(** The directions a bit loop visits, in order *)
Fixpoint bits_list (fuel : nat) (dir dirs : Z) : list Z :=
  match fuel with
  | O => []
  | S n =>
      let dir := Z.land (dir - dirs) dirs in
      let dirs := dirs - dir in
      dir :: (if dirs =? 0 then [] else bits_list n dir dirs)
  end.

(** The squares one ray of attack_xor_rays writes, in order *)
Fixpoint ray_squares (fuel : nat) (bd : board) (vector to len : Z) : list Z :=
  match fuel with
  | O => []
  | S n =>
      let to := to + vector in
      to :: (if negb (piece_eqb (piece_at bd to) board_empty) then []
             else
               let len := len - 1 in
               if len =? 0 then [] else ray_squares n bd vector to len)
  end.

(** [side->attacks[to] = f(side->attacks[to])] *)
Definition write_attack (f : Z -> Z) (to : Z) (side : board_side) : board_side :=
  set_attack to (f (attack_at side to)) side.

(** [side->attacks[to] ^= bits] for a pair (to, bits) *)
Definition toggle (p : Z * Z) (side : board_side) : board_side :=
  write_attack (fun v => Z.lxor v (snd p)) (fst p) side.

Definition toggles (l : list (Z * Z)) (side : board_side) : board_side :=
  fold_left (fun s p => toggle p s) l side.

(** Every entry of the attack board fits the C type [short]. *)
Definition attacks_are_shorts (side : board_side) : Prop :=
  Forall (fun v => -32768 <= v < 32768) (attacks side).

(** The knight counters *)
Definition add_knight (to : Z) (side : board_side) : board_side :=
  write_attack (fun v => short_of (v + board_attack_knight)) to side.

Definition sub_knight (to : Z) (side : board_side) : board_side :=
  write_attack (fun v => short_of (v - board_attack_knight)) to side.

(** ** The exchange table as a cache *)

(** The slot of the pair (defenders, attackers) in the table holds the
    value [r]: a lookup hits and returns [r]. *)
Definition table_hit (t : Z -> Z) (defenders attackers r : Z) : Prop :=
  let store := Z.land defenders 0x0fff in
  let hash := Z.lxor (Z.lxor (Z.shiftl store 3) defenders) attackers in
  Z.land (Z.lxor (t hash) defenders) 0x0fff = 0 /\
  Z.shiftr (Z.land (t hash) 0xf000) 4 = r.

(** ** What a move maker can touch *)

(** The boards a move maker reaches from [b0]: every one of them is a
    sequence of writes to [bd->squares] and of updates of the current
    frame. *)
(** A frame update that leaves the colours of the two sides and the node
    counter alone. *)
Definition frame_tidy (f : board_stack_frame -> board_stack_frame) : Prop :=
  forall fr,
    color (active (f fr)) = color (active fr) /\
    color (passive (f fr)) = color (passive fr) /\
    node_counter (f fr) = node_counter fr.

Inductive made_from (b0 : board) : board -> Prop :=
  | made_here : made_from b0 b0
  | made_set_square sq v b : made_from b0 b -> made_from b0 (set_square sq v b)
  | made_upd_cur f b : frame_tidy f -> made_from b0 b -> made_from b0 (upd_cur f b).

(** [b] is [bd] except for the squares, the stack pointer and the frame at
    stack index [c]. *)
Definition same_but_frame (c : Z) (bd b : board) : Prop :=
  butterfly b = butterfly bd /\
  extra_defenders b = extra_defenders bd /\
  game_fullmove_number b = game_fullmove_number bd /\
  game_halfmove_clock_offset b = game_halfmove_clock_offset bd /\
  length (stack b) = length (stack bd) /\
  forall k, k <> c -> zget zero_frame (stack b) k = zget zero_frame (stack bd) k.

(** The state of the board while board_make_move prepares the new frame:
    [j] is 0 before the stack pointer moves and 1 after. *)
Definition prelude_state (bd : board) (j : Z) (b : board) : Prop :=
  current b = current bd + j /\ squares b = squares bd /\
  same_but_frame (current bd + 1) bd b.

(** [b] is the board [r]. *)
Definition board_is (r : board) (b : board) : Prop := b = r.

(** ** The undo log

    board_make_move saves the from- and to-square in the first two slots
    of the undo log of the new frame; a move maker pushes every other
    square it is going to write.  [logged bd L M b] describes a board [b]
    on the way from [bd]: [L] lists the squares in the log, in order, [M]
    the squares written so far.  Every slot holds the contents its square
    had in [bd], and every square outside [M] still has them. *)

(** The stack has room for one more frame, with a full-size undo array. *)
Definition room_for_move (bd : board) : Prop :=
  frame_in_range bd 1 /\ length (undo (frame_at bd 1)) = 6%nat.

Definition logged (bd : board) (L M : list Z) (b : board) : Prop :=
  current b = current bd + 1 /\
  length (stack b) = length (stack bd) /\
  length (squares b) = length (squares bd) /\
  frame_in_range bd 1 /\
  length (undo (cur b)) = 6%nat /\
  undo_len (cur b) = Z.of_nat (length L) /\
  (2 <= length L <= 6)%nat /\
  (forall (i : nat) sq, L !! i = Some sq ->
     undo (cur b) !! i = Some (mk_undo sq (square_at bd sq))) /\
  (forall sq, ~ In sq M -> square_at b sq = square_at bd sq) /\
  (forall sq, In sq M -> In sq L).

(** Some log that starts with [L] accounts for the board [b]. *)
Definition undoable_from (bd : board) (L : list Z) (b : board) : Prop :=
  exists L' M, logged bd (L ++ L') M b.

(** The makers of the moves that neither capture nor promote nor castle
    nor give up a castling right. *)
Definition quiet_maker (make : make_move_fn) : bool :=
  match make with
  | fn_move_white_king | fn_move_black_king
  | fn_move_white_queen | fn_move_black_queen
  | fn_move_white_rook | fn_move_black_rook
  | fn_move_white_bishop | fn_move_black_bishop
  | fn_move_white_knight | fn_move_black_knight
  | fn_move_white_pawn_rank2_to_3 | fn_move_white_pawn_rank2_to_4
  | fn_move_white_pawn
  | fn_move_black_pawn_rank7_to_6 | fn_move_black_pawn_rank7_to_5
  | fn_move_black_pawn => true
  | _ => false
  end.

(** The squares the castling makers are written for: the four castling
    moves go from the king's home square to its castling square, a king
    that still has castling rights moves from its home square, a rook
    that still has them from its corner. *)
Definition castling_squares_ok (make : make_move_fn) (from to : Z) : bool :=
  match make with
  | fn_castle_white_king_side => (from =? E1) && (to =? G1)
  | fn_castle_white_queen_side => (from =? E1) && (to =? C1)
  | fn_castle_black_king_side => (from =? E8) && (to =? G8)
  | fn_castle_black_queen_side => (from =? E8) && (to =? C8)
  | fn_move_white_king_castle => from =? E1
  | fn_move_black_king_castle => from =? E8
  | fn_move_white_rook_castle => (from =? A1) || (from =? H1)
  | fn_move_black_rook_castle => (from =? A8) || (from =? H8)
  | _ => false
  end.

(** The capturing makers whose mover keeps no castling right *)
Definition capture_maker (make : make_move_fn) : bool :=
  match make with
  | fn_capture_with_king | fn_capture_with_queen | fn_capture_with_rook
  | fn_capture_with_bishop | fn_capture_with_knight
  | fn_capture_with_white_pawn | fn_capture_with_black_pawn => true
  | _ => false
  end.

(** The pieces whose capture only moves the last piece of the list into
    the free slot: all but the knights, which are kept sorted, and the
    rooks with a castling right, whose capture also changes the king. *)
Definition plain_victim (pc : board_piece) : bool :=
  match pc with
  | board_white_knight | board_black_knight
  | board_white_rook_castle | board_black_rook_castle => false
  | _ => true
  end.

(** Markers that make the walk through a move maker pause *)
Definition pause_at_push : Prop := True.

Definition pause_at_index_write : Prop := True.

(** [restore_undo] for the slots below [n], in order. *)
Fixpoint restore_first (n : nat) (bd : board) : board :=
  match n with
  | O => bd
  | S k => restore_undo (Z.of_nat k) (restore_first k bd)
  end.

(** ** Making and unmaking a move *)

(** White pawn e4 takes the pawn d5. *)
Definition capture_epd : string := "4k3/8/8/3p4/4P3/8/8/4K3 w - -".

Definition capture_position : board := position_of capture_epd.

Definition pawn_e4xd5 : board_move :=
  mk_move (MOVE E4 D5) 61696 fn_capture_with_white_pawn.

(** a7-a8 and promotion to a queen, as the generator encodes it *)
Definition promote_a7a8_queen : Z := MOVE A7 (Z.lxor A8 XOR_PROM_QUEEN).

(** ** The en-passant capture *)

(** The piece list of the side to move in [b] is still the list the
    passive side had in [bd]: nothing has been captured yet. *)
Definition victims_kept (bd b : board) : Prop :=
  frame_in_range b 0 /\
  pieces (active (cur b)) = pieces (passive (cur bd)) /\
  nr_pieces (active (cur b)) = nr_pieces (passive (cur bd)).

(** * Properties *)

Lemma run_bind {A B} (p : gen A) (f : A -> gen B) (w : world) :
  run (bind p f) w = run (f (fst (run p w))) (snd (run p w)).
Proof.
  revert w. induction p as [a|k IH|sq v k IH|k IH|h v k IH|k IH]; intros w; simpl; auto.
Qed.

Lemma zget_zset_ne {A} (d : A) l i j v : i <> j -> zget d (zset l i v) j = zget d l j.
Proof.
  intros Hij. unfold zget, zset.
  destruct (j <? 0) eqn:Hj; auto.
  destruct (i <? 0) eqn:Hi; auto.
  rewrite list_lookup_insert_ne; auto.
  apply Z.ltb_ge in Hj, Hi. intros H. apply Hij. lia.
Qed.

Lemma zget_zset_eq {A} (d : A) l i v :
  0 <= i < Z.of_nat (length l) -> zget d (zset l i v) i = v.
Proof.
  intros Hi. unfold zget, zset.
  destruct (i <? 0) eqn:Hn; [apply Z.ltb_lt in Hn; lia|].
  rewrite list_lookup_insert_eq; auto. lia.
Qed.

Lemma length_zset {A} (l : list A) i v : length (zset l i v) = length l.
Proof. unfold zset. destruct (i <? 0); auto. apply length_insert. Qed.

Lemma zset_oob {A} (l : list A) i v :
  ~ (0 <= i < Z.of_nat (length l)) -> zset l i v = l.
Proof.
  intros Hi. unfold zset. destruct (i <? 0) eqn:Hn; auto.
  apply Z.ltb_ge in Hn. apply list_insert_ge. lia.
Qed.

Lemma zset_zset {A} (l : list A) i v v' : zset (zset l i v) i v' = zset l i v'.
Proof.
  unfold zset. destruct (i <? 0); auto. apply list_insert_insert_eq.
Qed.

Lemma land_ones_12 x : Z.land x 0x0fff = x mod 4096.
Proof. change 0x0fff with (Z.ones 12). rewrite Z.land_ones by lia. reflexivity. Qed.

Lemma land_ones_13 x : Z.land x 0x1fff = x mod 8192.
Proof. change 0x1fff with (Z.ones 13). rewrite Z.land_ones by lia. reflexivity. Qed.

Lemma land_ones_15 x : Z.land x 0x7fff = x mod 32768.
Proof. change 0x7fff with (Z.ones 15). rewrite Z.land_ones by lia. reflexivity. Qed.

Lemma table_bounded_empty : table_bounded empty_exchange_table.
Proof. intros h. unfold empty_exchange_table. vm_compute. discriminate. Qed.

Lemma land_le a b : 0 <= a -> Z.land a b <= a.
Proof.
  intros Ha.
  assert (H0 : Z.land (Z.ldiff a b) (Z.land a b) = 0).
  { rewrite (Z.land_comm a b), Z.land_assoc, Z.land_ldiff. apply Z.land_0_l. }
  pose proof (Z.add_nocarry_lxor _ _ H0) as H.
  rewrite (Z.lxor_lor _ _ H0), Z.lor_ldiff_and in H.
  assert (0 <= Z.ldiff a b) by (apply Z.ldiff_nonneg; auto).
  lia.
Qed.

Lemma stored_entry_bounded result store :
  0 <= result <= 14 * EXCHANGE_UNIT -> 0 <= store < 4096 ->
  Z.shiftr (Z.land (Z.land (Z.lor (Z.shiftl result 4) store) 0xffff) 0xf000) 4
  <= 14 * EXCHANGE_UNIT.
Proof.
  intros Hr Hs.
  rewrite <- Z.land_assoc. change (Z.land 0xffff 0xf000) with 0xf000.
  rewrite Z.land_lor_distr_l.
  assert (Hs0 : Z.land store 0xf000 = 0).
  { rewrite <- (Z.mod_small store 4096) by lia.
    rewrite <- land_ones_12, <- Z.land_assoc. apply Z.land_0_r. }
  rewrite Hs0, Z.lor_0_r.
  change 0xf000 with (Z.shiftl 0xf00 4).
  rewrite <- Z.shiftl_land, Z.shiftr_shiftl_l by lia.
  rewrite Z.sub_diag, Z.shiftl_0_r.
  pose proof (land_le result 0xf00). lia.
Qed.

Lemma table_bounded_store t hash result store :
  table_bounded t ->
  0 <= result <= 14 * EXCHANGE_UNIT -> 0 <= store < 4096 ->
  table_bounded
    (table_store t hash (Z.land (Z.lor (Z.shiftl result 4) store) 0xffff)).
Proof.
  intros Ht Hr Hs h. unfold table_store.
  destruct (h =? hash); [apply stored_entry_bounded; auto | apply Ht].
Qed.

Lemma cached_value_nonneg x : 0 <= Z.shiftr (Z.land x 0xf000) 4.
Proof. apply Z.shiftr_nonneg, Z.land_nonneg. right. lia. Qed.

Lemma victim_value_bounds i : 0 <= victim_value i <= 9 * EXCHANGE_UNIT.
Proof.
  unfold victim_value, zget.
  destruct (i <? 0); [vm_compute; split; discriminate|].
  destruct (Z.to_nat i) as [|[|[|[|n]]]]; vm_compute; split; discriminate.
Qed.

(** One level of the evaluation, with the recursive call abstracted. *)
Lemma next_capturer_value result defenders :
  0 <= result -> 0 <= fst (next_capturer result defenders).
Proof.
  intros Hr. unfold next_capturer.
  destruct (negb _); [destruct (_ =? 0); [|destruct (_ =? 1)]|]; cbn [fst]; auto.
  all: unfold EXCHANGE_UNIT; lia.
Qed.

Lemma clip_bounds result :
  0 <= result ->
  0 <= (if result >? 14 * EXCHANGE_UNIT then 14 * EXCHANGE_UNIT else result)
    <= 14 * EXCHANGE_UNIT.
Proof.
  intros Hr. destruct (Z.gtb_spec result (14 * EXCHANGE_UNIT)); unfold EXCHANGE_UNIT in *; lia.
Qed.

Lemma store_range defenders : 0 <= Z.land defenders 0x0fff < 4096.
Proof. rewrite land_ones_12. apply Z.mod_pos_bound. lia. Qed.

Lemma exchange_evaluate_body_range recurse :
  (forall d a w, table_bounded (w_exchange_table w) ->
     EXCHANGE_NO_FUEL <= fst (run (recurse d a) w) <= 14 * EXCHANGE_UNIT /\
     table_bounded (w_exchange_table (snd (run (recurse d a) w)))) ->
  forall defenders attackers w,
    table_bounded (w_exchange_table w) ->
    0 <= fst (run (exchange_evaluate_body recurse defenders attackers) w)
      <= 14 * EXCHANGE_UNIT /\
    table_bounded
      (w_exchange_table (snd (run (exchange_evaluate_body recurse defenders attackers) w))).
Proof.
  intros IH defenders attackers w Ht.
  unfold exchange_evaluate_body.
  cbv zeta. unfold get_table, count_miss, put_table. simpl run.
  destruct (Z.land (Z.lxor _ defenders) 0x0fff =? 0); simpl run;
    [split; [split; [apply cached_value_nonneg | apply Ht] | exact Ht] |].
  destruct (defenders =? EXCHANGE_LAST_RANK); simpl run;
    [split; [cbn [fst]; unfold EXCHANGE_UNIT; lia | exact Ht] |].
  pose proof (next_capturer_value (victim_value (Z.shiftr attackers 13)) defenders
                (proj1 (victim_value_bounds _))) as Hv.
  destruct (next_capturer _ defenders) as [result defenders'] eqn:Hnc.
  cbn [fst snd] in *.
  destruct (negb (Z.land attackers 0x1fff =? 0)) eqn:Ha.
  - rewrite 2 run_bind.
    match goal with
    | |- context [run (recurse ?d ?a) ?w0] =>
        destruct (IH d a w0) as [Hreply Htable]; [exact Ht|];
        destruct (run (recurse d a) w0) as [reply w1]
    end.
    cbn [fst snd] in *. simpl run. cbn [fst snd w_exchange_table].
    assert (Hc : 0 <= (if result - reply <? 0 then 0 else result - reply))
      by (destruct (Z.ltb_spec (result - reply) 0); lia).
    split; [apply clip_bounds; auto|].
    apply table_bounded_store; auto using store_range, clip_bounds.
  - rewrite run_bind. simpl run. cbn [fst snd w_exchange_table].
    split; [apply clip_bounds; auto|].
    apply table_bounded_store; auto using store_range, clip_bounds.
Qed.

Lemma exchange_evaluate_rec_range n :
  forall defenders attackers w,
    table_bounded (w_exchange_table w) ->
    (if Nat.eqb n 0 then EXCHANGE_NO_FUEL else 0)
      <= fst (run (exchange_evaluate_rec n defenders attackers) w)
      <= 14 * EXCHANGE_UNIT /\
    table_bounded
      (w_exchange_table (snd (run (exchange_evaluate_rec n defenders attackers) w))).
Proof.
  induction n as [|n IH]; intros defenders attackers w Ht.
  { simpl. split; [unfold EXCHANGE_NO_FUEL, EXCHANGE_UNIT; lia | exact Ht]. }
  cbn [exchange_evaluate_rec Nat.eqb].
  apply exchange_evaluate_body_range; auto.
  intros d a w0 H0. destruct (IH d a w0 H0) as [[Hlo Hhi] Hb].
  split; [split; auto|auto].
  destruct (Nat.eqb n 0); unfold EXCHANGE_NO_FUEL in *; lia.
Qed.

Lemma forallb_seqZ (f : Z -> bool) lo n :
  forallb f (seqZ lo n) = true -> forall x, lo <= x < lo + n -> f x = true.
Proof.
  intros H x Hx. rewrite forallb_forall in H. apply H.
  apply list_elem_of_In, elem_of_seqZ. lia.
Qed.

Lemma capturer_check_all :
  forallb (fun d => (d =? EXCHANGE_LAST_RANK) || capturer_check d) (seqZ 1 8191) = true.
Proof. vm_compute. reflexivity. Qed.

Lemma next_capturer_snd result d : snd (next_capturer result d) = snd (next_capturer 0 d).
Proof.
  unfold next_capturer.
  destruct (negb _); [destruct (_ =? 0); [|destruct (_ =? 1)]|]; reflexivity.
Qed.

Lemma next_capturer_decreases result d :
  0 < d <= 0x1fff -> d <> EXCHANGE_LAST_RANK ->
  let d' := snd (next_capturer result d) in
  0 <= d' <= 0x7fff /\ d' mod 4096 < d mod 4096.
Proof.
  intros Hd Hne. cbv zeta. rewrite next_capturer_snd.
  pose proof (forallb_seqZ _ _ _ capturer_check_all d ltac:(lia)) as H.
  cbv beta in H. apply orb_true_iff in H. destruct H as [H|H].
  - apply Z.eqb_eq in H. contradiction.
  - unfold capturer_check in H. cbv zeta in H.
    apply andb_true_iff in H. destruct H as [H H3].
    apply andb_true_iff in H. destruct H as [H1 H2].
    apply Z.leb_le in H1, H2. apply Z.ltb_lt in H3. lia.
Qed.

Lemma exchange_evaluate_body_ext rc1 rc2 defenders attackers w :
  (defenders <> EXCHANGE_LAST_RANK -> Z.land attackers 0x1fff <> 0 ->
   forall w', run (rc1 (Z.land attackers 0x1fff)
                     (snd (next_capturer (victim_value (Z.shiftr attackers 13)) defenders))) w'
            = run (rc2 (Z.land attackers 0x1fff)
                     (snd (next_capturer (victim_value (Z.shiftr attackers 13)) defenders))) w') ->
  run (exchange_evaluate_body rc1 defenders attackers) w =
  run (exchange_evaluate_body rc2 defenders attackers) w.
Proof.
  intros H. unfold exchange_evaluate_body. cbv zeta.
  unfold get_table, count_miss, put_table. simpl run.
  destruct (Z.land (Z.lxor _ defenders) 0x0fff =? 0); [reflexivity|]. simpl run.
  destruct (Z.eqb_spec defenders EXCHANGE_LAST_RANK) as [|Hne]; [reflexivity|].
  destruct (Z.eqb_spec (Z.land attackers 0x1fff) 0) as [|Hnz]; [reflexivity|].
  cbn [negb]. rewrite !run_bind, H by assumption. reflexivity.
Qed.

Lemma exchange_fuel_enough n :
  forall m defenders attackers w,
    0 < defenders <= 0x1fff -> 0 <= attackers <= 0x7fff ->
    defenders mod 4096 + attackers mod 4096 < Z.of_nat n ->
    (n <= m)%nat ->
    run (exchange_evaluate_rec m defenders attackers) w =
    run (exchange_evaluate_rec n defenders attackers) w.
Proof.
  induction n as [|n IH]; intros m defenders attackers w Hd Ha Hmu Hnm.
  { pose proof (Z.mod_pos_bound defenders 4096). pose proof (Z.mod_pos_bound attackers 4096).
    lia. }
  destruct m as [|m]; [lia|]. cbn [exchange_evaluate_rec].
  apply exchange_evaluate_body_ext. intros Hne Hnz w'.
  destruct (next_capturer_decreases (victim_value (Z.shiftr attackers 13)) defenders Hd Hne)
    as [Hrange Hdec].
  apply IH; auto; try lia.
  - rewrite land_ones_13 in *. pose proof (Z.mod_pos_bound attackers 8192). lia.
  - rewrite land_ones_13.
    replace ((attackers mod 8192) mod 4096) with (attackers mod 4096); [lia|].
    clear. Z.div_mod_to_equations. lia.
Qed.

Lemma valid_piece_sets_ranges defenders attackers :
  valid_piece_sets defenders attackers ->
  0 < defenders <= 0x1fff /\ 0 <= attackers <= 0x7fff.
Proof.
  intros (Hnz & Hd & Ha & _).
  rewrite land_ones_13 in Hd. rewrite land_ones_15 in Ha.
  pose proof (Z.mod_pos_bound defenders 8192). pose proof (Z.mod_pos_bound attackers 32768).
  lia.
Qed.

(** C8.  For every valid pair of packed piece-set words (a non-zero 13-bit
    defenders word, a 15-bit attackers word, not both with the LAST_RANK
    bit) and every state of the exchange table whose cached values are at
    most 14 units, exchange_evaluate_fn returns a value between 0 and
    14 * EXCHANGE_UNIT, leaves the table in such a state, and the budget of
    the embedding was enough: any larger one gives the same run.  The
    empty table is such a state. *)
Theorem exchange_evaluate_fn_range :
  forall defenders attackers w,
    valid_piece_sets defenders attackers ->
    table_bounded (w_exchange_table w) ->
    0 <= fst (run (exchange_evaluate_fn defenders attackers) w) <= 14 * EXCHANGE_UNIT
    /\ table_bounded
         (w_exchange_table (snd (run (exchange_evaluate_fn defenders attackers) w)))
    /\ (forall fuel, (exchange_fuel defenders attackers <= fuel)%nat ->
          run (exchange_evaluate_rec fuel defenders attackers) w =
          run (exchange_evaluate_fn defenders attackers) w)
    /\ table_bounded empty_exchange_table.
Proof.
  intros defenders attackers w Hv Ht.
  destruct (valid_piece_sets_ranges _ _ Hv) as [Hd Ha].
  unfold exchange_evaluate_fn.
  pose proof (exchange_evaluate_rec_range (exchange_fuel defenders attackers)
                defenders attackers w Ht) as [Hr Hb].
  unfold exchange_fuel in Hr at 1. cbn [Nat.eqb] in Hr.
  repeat split; try tauto; try apply table_bounded_empty.
  intros fuel Hfuel. apply exchange_fuel_enough; auto.
  unfold exchange_fuel. rewrite !land_ones_12.
  pose proof (Z.mod_pos_bound defenders 4096). pose proof (Z.mod_pos_bound attackers 4096).
  lia.
Qed.

Lemma exchange_evaluate_fn_range_witness :
  valid_piece_sets 1 0x2001 /\
  0 <= fst (run (exchange_evaluate_fn 1 0x2001) (initial_world board_create))
    <= 14 * EXCHANGE_UNIT.
Proof.
  assert (Hv : valid_piece_sets 1 0x2001) by (repeat split; discriminate).
  split; [exact Hv|].
  exact (proj1 (exchange_evaluate_fn_range 1 0x2001 (initial_world board_create)
                  Hv table_bounded_empty)).
Defined.

(** ** Reasoning about the move makers

    Every move maker is a composition of writes to [bd->squares] and of
    updates of the current frame.  The tactics below walk through such a
    composition, one [let] at a time, and reduce a property of the result
    to properties of these two primitives. *)

Lemma let_step {A B} (P : B -> Prop) (e : A) (body : A -> B) :
  (forall x, x = e -> P (body x)) -> P (let x := e in body x).
Proof. intros H. apply (H e eq_refl). Qed.

Ltac head_of t := lazymatch t with ?f _ => head_of f | _ => t end.

Lemma current_set_square sq v bd : current (set_square sq v bd) = current bd.
Proof. reflexivity. Qed.

Lemma stack_set_square sq v bd : stack (set_square sq v bd) = stack bd.
Proof. reflexivity. Qed.

Lemma current_upd_frame k f bd : current (upd_frame k f bd) = current bd.
Proof. reflexivity. Qed.

Lemma squares_upd_frame k f bd : squares (upd_frame k f bd) = squares bd.
Proof. reflexivity. Qed.

Lemma length_stack_upd_frame k f bd :
  length (stack (upd_frame k f bd)) = length (stack bd).
Proof. unfold upd_frame. simpl. apply length_zset. Qed.

Lemma frame_at_upd_frame_eq k f bd :
  frame_in_range bd k -> frame_at (upd_frame k f bd) k = f (frame_at bd k).
Proof. intros H. unfold frame_at, upd_frame. simpl. apply zget_zset_eq. exact H. Qed.

Lemma frame_at_upd_frame_ne k j f bd :
  j <> k -> frame_at (upd_frame k f bd) j = frame_at bd j.
Proof. intros H. unfold frame_at, upd_frame. simpl. apply zget_zset_ne. lia. Qed.

Lemma frame_at_upd_frame_oob k f bd :
  ~ frame_in_range bd k -> upd_frame k f bd = bd.
Proof.
  intros H. unfold upd_frame. rewrite zset_oob by exact H.
  destruct bd; reflexivity.
Qed.

Lemma frame_in_range_dec bd k : frame_in_range bd k \/ ~ frame_in_range bd k.
Proof. unfold frame_in_range. lia. Qed.

Lemma clock_set_square c n parent b sq v bd :
  clock_state c n parent b bd -> clock_state c n parent b (set_square sq v bd).
Proof. intros H. exact H. Qed.

Lemma clock_upd_cur c n parent b f bd :
  (forall fr, halfmove_clock (f fr) = halfmove_clock fr) ->
  clock_state c n parent b bd -> clock_state c n parent b (upd_cur f bd).
Proof.
  intros Hf (Hc & Hn & Hp & Hh). unfold upd_cur.
  destruct (frame_in_range_dec bd 0) as [Hr|Hr].
  - repeat split.
    + exact Hc.
    + rewrite length_stack_upd_frame. exact Hn.
    + rewrite frame_at_upd_frame_ne by lia. exact Hp.
    + unfold cur. rewrite frame_at_upd_frame_eq by exact Hr. rewrite Hf. exact Hh.
  - rewrite frame_at_upd_frame_oob by exact Hr. repeat split; assumption.
Qed.

Lemma clock_bump c n parent (c_range : 0 <= c < Z.of_nat n) b bd :
  clock_state c n parent b bd -> clock_state c n parent true (bump_halfmove_clock bd).
Proof.
  intros (Hc & Hn & Hp & Hh). unfold bump_halfmove_clock, upd_cur.
  assert (Hr : frame_in_range bd 0) by (unfold frame_in_range; lia).
  repeat split.
  - exact Hc.
  - rewrite length_stack_upd_frame. exact Hn.
  - rewrite frame_at_upd_frame_ne by lia. exact Hp.
  - unfold cur. rewrite frame_at_upd_frame_eq by exact Hr. rewrite Hp. reflexivity.
Qed.

Lemma clock_promote_knight_sort c n parent fuel own to knight index b bd :
  clock_state c n parent b bd ->
  clock_state c n parent b (promote_knight_sort fuel own to knight index bd).
Proof.
  revert knight bd. induction fuel as [|fuel IH]; intros knight bd H; simpl; auto.
  destruct (knight <? index); auto.
  destruct (piece_eqb _ own); auto.
  repeat first [apply clock_set_square
               | apply clock_upd_cur; [intros; reflexivity|]]; exact H.
Qed.

Lemma clock_disable_castle_rook c n parent b rook_sq rook_castle rook z1 z2 bd delta :
  clock_state c n parent b bd ->
  clock_state c n parent b
    (fst (disable_castle_rook rook_sq rook_castle rook z1 z2 (bd, delta))).
Proof.
  intros H. unfold disable_castle_rook.
  destruct (piece_eqb _ rook_castle); simpl; auto.
  repeat first [apply clock_set_square
               | apply clock_upd_cur; [intros; reflexivity|]]; exact H.
Qed.

Ltac clock_steps :=
  lazymatch goal with
  | H : clock_state ?c ?n ?p ?b ?bd |- clock_state ?c ?n ?p ?b ?bd => exact H
  | |- clock_state ?c ?n ?p ?b (let x := ?e in @?body x) =>
      apply (let_step (clock_state c n p b) e body);
      let x' := fresh "x" in
      let Hx := fresh "Hx" in
      intros x' Hx; cbv beta;
      first [ assert (clock_state c n p false x') by (rewrite Hx; clock_steps)
            | assert (clock_state c n p true x') by (rewrite Hx; clock_steps)
            | idtac ];
      clear Hx; clock_steps
  | |- clock_state ?c ?n ?p ?b (match ?e with pair _ _ => _ end) =>
      lazymatch e with
      | disable_castle_rook ?a1 ?a2 ?a3 ?a4 ?a5 (?bd, ?d) =>
          let Hd := fresh "Hd" in
          first [ assert (Hd : clock_state c n p false (fst e))
                    by (apply clock_disable_castle_rook; clock_steps)
                | assert (Hd : clock_state c n p true (fst e))
                    by (apply clock_disable_castle_rook; clock_steps) ];
          destruct e; cbn [fst] in Hd; clock_steps
      | (if ?cond then _ else _) => destruct cond; clock_steps
      | pair _ _ => cbv beta iota; clock_steps
      | _ =>
          lazymatch goal with
          | |- clock_state _ _ _ _
                 (match (let x := ?e1 in @?inner x) with pair u v => @?K u v end) =>
              apply (let_step
                       (fun r => clock_state c n p b (match r with pair u v => K u v end))
                       e1 inner);
              let x' := fresh "x" in
              let Hx := fresh "Hx" in
              intros x' Hx; cbv beta;
              first [ assert (clock_state c n p false x') by (rewrite Hx; clock_steps)
                    | assert (clock_state c n p true x') by (rewrite Hx; clock_steps)
                    | idtac ];
              clear Hx; clock_steps
          end
      end
  | |- clock_state ?c ?n ?p ?b (match ?e with _ => _ end) => destruct e; clock_steps
  | |- clock_state _ _ _ _ (set_square _ _ _) => apply clock_set_square; clock_steps
  | |- clock_state _ _ _ _ (upd_cur _ _) =>
      apply clock_upd_cur; [intros; reflexivity | clock_steps]
  | |- clock_state _ _ _ true (bump_halfmove_clock _) =>
      first [ eapply clock_bump with (b := false); [eassumption | clock_steps]
            | eapply clock_bump with (b := true); [eassumption | clock_steps] ]
  | |- clock_state _ _ _ _ (promote_knight_sort _ _ _ _ _ _) =>
      apply clock_promote_knight_sort; clock_steps
  | |- clock_state _ _ _ _ ?e =>
      let h := head_of e in cbv beta delta [h]; clock_steps
  end.

Lemma clock_call_make c n parent (Hc : 0 <= c < Z.of_nat n) make from to bd :
  clock_state c n parent false bd ->
  clock_state c n parent (negb (resets_clock make)) (call_make make from to bd).
Proof.
  intros H. destruct make; cbn [resets_clock negb call_make].
  all: clock_steps.
Qed.

Lemma board_make_move_prelude move bd :
  board_make_move move bd =
  call_make (bm_make move) (MOVE_FROM (bm_move move)) (MOVE_TO (bm_move move))
    (make_prelude move bd).
Proof. reflexivity. Qed.

Lemma frame_at_set_current v k bd :
  frame_at (set_current v bd) k = zget zero_frame (stack bd) (v + k).
Proof. reflexivity. Qed.

Tactic Notation "let_intro" ident(x) ident(Hx) :=
  lazymatch goal with
  | |- ?P (let y := ?e in @?body y) => apply (let_step P e body); intros x Hx; cbv beta
  end.

Lemma upd_frame_on_copy sq c' bf st c fr ed g1 g2 k f :
  c' + k = c -> 0 <= c < Z.of_nat (length st) ->
  upd_frame k f (mk_board sq c' bf (zset st c fr) ed g1 g2) =
  mk_board sq c' bf (zset st c (f fr)) ed g1 g2.
Proof.
  intros Hk Hc. unfold upd_frame, frame_at, set_stack. cbn.
  rewrite Hk, zget_zset_eq, zset_zset by exact Hc. reflexivity.
Qed.

Lemma make_prelude_frames move bd :
  frame_in_range bd 1 -> is_new_frame bd (make_prelude move bd).
Proof.
  intros Hr. unfold frame_in_range in Hr.
  cbv beta delta [make_prelude].
  let_intro frame Hframe.
  let_intro b1 H1.
  assert (E1 : b1 = mk_board (squares bd) (current bd) (butterfly bd)
                      (zset (stack bd) (current bd + 1)
                         (set_passive (active frame) (frame_at bd 1)))
                      (extra_defenders bd) (game_fullmove_number bd)
                      (game_halfmove_clock_offset bd))
    by (rewrite H1; reflexivity).
  clear H1.
  let_intro b2 H2. rewrite E1, upd_frame_on_copy in H2 by (auto; lia). clear E1 b1.
  let_intro b3 H3. rewrite H2, upd_frame_on_copy in H3 by (auto; lia). clear H2 b2.
  let_intro b4 H4. rewrite H3, upd_frame_on_copy in H4 by (auto; lia). clear H3 b3.
  let_intro b5 H5. rewrite H4, upd_frame_on_copy in H5 by (auto; lia). clear H4 b4.
  let_intro b6 H6. rewrite H5 in H6. unfold set_current in H6. cbn in H6. clear H5 b5.
  let_intro b7 H7. unfold upd_cur in H7.
  rewrite H6, upd_frame_on_copy in H7 by (auto; lia). clear H6 b6.
  let_intro from Hfrom. let_intro to Hto.
  let_intro b8 H8. unfold upd_cur in H8.
  assert (Hsq7 : forall s, square_at b7 s = square_at bd s)
    by (intros; rewrite H7; reflexivity).
  rewrite Hsq7 in H8. rewrite H7, upd_frame_on_copy in H8 by (auto; lia).
  clear Hsq7 H7 b7.
  let_intro b9 H9. unfold upd_cur in H9.
  assert (Hsq8 : forall s, square_at b8 s = square_at bd s)
    by (intros; rewrite H8; reflexivity).
  rewrite Hsq8 in H9. rewrite H8, upd_frame_on_copy in H9 by (auto; lia).
  clear Hsq8 H8 b8.
  unfold upd_cur. rewrite H9, upd_frame_on_copy by (auto; lia).
  eexists. split; [|split; [|split; [|split; [|reflexivity]]]].
  - reflexivity.
  - reflexivity.
  - cbn. rewrite Hframe. reflexivity.
  - cbn. rewrite Hframe. reflexivity.
Qed.

Lemma clock_make_prelude move bd :
  frame_in_range bd 1 ->
  clock_state (current bd + 1) (length (stack bd)) (cur bd) false (make_prelude move bd).
Proof.
  intros Hr. destruct (make_prelude_frames move bd Hr) as (fr & Hh & _ & _ & _ & ->).
  unfold frame_in_range in Hr. unfold new_frame_of.
  repeat split; cbn.
  - apply length_zset.
  - unfold frame_at, cur, frame_at. cbn. rewrite zget_zset_ne by lia.
    f_equal. lia.
  - unfold cur, frame_at. cbn. rewrite Z.add_0_r, zget_zset_eq by lia. exact Hh.
Qed.

(** C7 (as the code has it).  After board_make_move the halfmove clock of
    the new frame is 0 when the move maker is a pawn move, a capture, an
    en-passant capture or a promotion, and the parent's clock plus one
    (in an unsigned char) for every other move, castling and the king and
    rook moves that give up castling rights included. *)
Theorem halfmove_clock_after_make :
  forall move bd,
    frame_in_range bd 1 ->
    halfmove_clock (cur (board_make_move move bd)) =
      (if resets_clock (bm_make move) then 0
       else uchar_of (halfmove_clock (cur bd) + 1)).
Proof.
  intros move bd Hr. rewrite board_make_move_prelude.
  pose proof (clock_call_make _ _ _ Hr (bm_make move)
                (MOVE_FROM (bm_move move)) (MOVE_TO (bm_move move)) _
                (clock_make_prelude move bd Hr)) as (_ & _ & _ & H).
  rewrite H. destruct (resets_clock (bm_make move)); reflexivity.
Qed.

Lemma cur_upd_cur f bd :
  cur (upd_cur f bd) = if decide (frame_in_range bd 0) then f (cur bd) else cur bd.
Proof.
  unfold upd_cur, cur. destruct (decide (frame_in_range bd 0)) as [Hr|Hr].
  - apply frame_at_upd_frame_eq. exact Hr.
  - rewrite frame_at_upd_frame_oob by exact Hr. reflexivity.
Qed.

Lemma undo_le_weaken k k' bd : undo_le k bd -> k <= k' -> undo_le k' bd.
Proof. unfold undo_le. lia. Qed.

Lemma undo_le_set_square k sq v bd : undo_le k bd -> undo_le k (set_square sq v bd).
Proof. intros H. exact H. Qed.

Lemma undo_le_upd_cur k f bd :
  (forall fr, undo_len (f fr) = undo_len fr) ->
  undo_le k bd -> undo_le k (upd_cur f bd).
Proof.
  intros Hf H. unfold undo_le. rewrite cur_upd_cur.
  destruct (decide _); [rewrite Hf|]; exact H.
Qed.

Lemma undo_le_push k sq bd : undo_le k bd -> undo_le (k + 1) (PUSH_UNDO sq bd).
Proof.
  intros H. unfold undo_le, PUSH_UNDO in *. rewrite cur_upd_cur.
  destruct (decide _); cbn; lia.
Qed.

Lemma undo_le_case (F : bool -> board) (c : bool) k1 k2 :
  undo_le k1 (F true) -> undo_le k2 (F false) -> undo_le (Z.max k1 k2) (F c).
Proof. intros H1 H2. destruct c; eapply undo_le_weaken; eauto; lia. Qed.

Lemma undo_le_promote_knight_sort fuel own to knight index k bd :
  undo_le k bd ->
  undo_le (k + 1) (promote_knight_sort fuel own to knight index bd).
Proof.
  revert knight bd. induction fuel as [|fuel IH]; intros knight bd H; simpl.
  { eapply undo_le_weaken; eauto; lia. }
  destruct (knight <? index); [|eapply undo_le_weaken; eauto; lia].
  destruct (piece_eqb _ own); auto.
  repeat first [apply undo_le_set_square
               | apply undo_le_upd_cur; [intros; reflexivity|]].
  apply undo_le_push. exact H.
Qed.

Ltac undo_steps :=
  lazymatch goal with
  | H : undo_le ?k0 ?bd |- undo_le _ ?bd => exact H
  | |- undo_le ?k (let x := ?e in @?body x) =>
      apply (let_step (undo_le k) e body);
      let x' := fresh "x" in
      let Hx := fresh "Hx" in
      intros x' Hx; cbv beta;
      first [ eassert (undo_le _ x') by (rewrite Hx; undo_steps) | idtac ];
      clear Hx; undo_steps
  | |- undo_le ?k (if ?c then _ else _) =>
      lazymatch goal with
      | |- undo_le _ ?e =>
          let e' := eval pattern c in e in
          lazymatch e' with
          | ?F _ => eapply (undo_le_case F c); cbv beta iota; undo_steps
          end
      end
  | |- undo_le ?k (match (if ?c then _ else _) with pair _ _ => _ end) =>
      lazymatch goal with
      | |- undo_le _ ?e =>
          let e' := eval pattern c in e in
          lazymatch e' with
          | ?F _ => eapply (undo_le_case F c); cbv beta iota; undo_steps
          end
      end
  | |- undo_le ?k (match (let x := ?e1 in @?inner x) with pair u v => @?K u v end) =>
      apply (let_step (fun r => undo_le k (match r with pair u v => K u v end)) e1 inner);
      let x' := fresh "x" in
      let Hx := fresh "Hx" in
      intros x' Hx; cbv beta;
      first [ eassert (undo_le _ x') by (rewrite Hx; undo_steps) | idtac ];
      clear Hx; undo_steps
  | |- undo_le ?k (match pair _ _ with pair _ _ => _ end) => cbv beta iota; undo_steps
  | |- undo_le _ (set_square _ _ _) => apply undo_le_set_square; undo_steps
  | |- undo_le _ (PUSH_UNDO _ _) => eapply undo_le_push; undo_steps
  | |- undo_le _ (upd_cur _ _) =>
      eapply undo_le_upd_cur; [intros; reflexivity | undo_steps]
  | |- undo_le _ (promote_knight_sort _ _ _ _ _ _) =>
      eapply undo_le_promote_knight_sort; undo_steps
  | |- undo_le _ ?e =>
      let h := head_of e in cbv beta delta [h]; undo_steps
  end.

Lemma undo_le_take_piece pc sq k bd :
  undo_le k bd -> undo_le (k + 2) (take_piece pc sq bd).
Proof.
  intros H. destruct pc; cbn [take_piece].
  all: eapply undo_le_weaken; [undo_steps | lia].
Qed.

Ltac undo_steps ::=
  lazymatch goal with
  | H : undo_le ?k0 ?bd |- undo_le _ ?bd => exact H
  | |- undo_le ?k (let x := ?e in @?body x) =>
      apply (let_step (undo_le k) e body);
      let x' := fresh "x" in
      let Hx := fresh "Hx" in
      intros x' Hx; cbv beta;
      first [ eassert (undo_le _ x') by (rewrite Hx; undo_steps) | idtac ];
      clear Hx; undo_steps
  | |- undo_le ?k (if ?c then _ else _) =>
      lazymatch goal with
      | |- undo_le _ ?e =>
          let e' := eval pattern c in e in
          lazymatch e' with
          | ?F _ => eapply (undo_le_case F c); cbv beta iota; undo_steps
          end
      end
  | |- undo_le ?k (match (if ?c then _ else _) with pair _ _ => _ end) =>
      lazymatch goal with
      | |- undo_le _ ?e =>
          let e' := eval pattern c in e in
          lazymatch e' with
          | ?F _ => eapply (undo_le_case F c); cbv beta iota; undo_steps
          end
      end
  | |- undo_le ?k (match (let x := ?e1 in @?inner x) with pair u v => @?K u v end) =>
      apply (let_step (fun r => undo_le k (match r with pair u v => K u v end)) e1 inner);
      let x' := fresh "x" in
      let Hx := fresh "Hx" in
      intros x' Hx; cbv beta;
      first [ eassert (undo_le _ x') by (rewrite Hx; undo_steps) | idtac ];
      clear Hx; undo_steps
  | |- undo_le ?k (match pair _ _ with pair _ _ => _ end) => cbv beta iota; undo_steps
  | |- undo_le _ (set_square _ _ _) => apply undo_le_set_square; undo_steps
  | |- undo_le _ (PUSH_UNDO _ _) => eapply undo_le_push; undo_steps
  | |- undo_le _ (upd_cur _ _) =>
      eapply undo_le_upd_cur; [intros; reflexivity | undo_steps]
  | |- undo_le _ (promote_knight_sort _ _ _ _ _ _) =>
      eapply undo_le_promote_knight_sort; undo_steps
  | |- undo_le _ (take_piece _ _ _) => eapply undo_le_take_piece; undo_steps
  | |- undo_le _ ?e =>
      let h := head_of e in cbv beta delta [h]; undo_steps
  end.

Lemma call_make_promote white k from to bd :
  call_make (promote_fn white k) from to bd = promote_generic white k from to bd.
Proof. destruct white, k; reflexivity. Qed.

Lemma undo_le_promote white kind from to k bd :
  undo_le k bd -> undo_le (k + 3) (promote_generic white kind from to bd).
Proof.
  intros H. destruct white, kind; cbv beta delta [promote_generic]; cbv beta iota.
  all: eapply undo_le_weaken; [undo_steps | lia].
Qed.

Lemma zget_oob {A} (d : A) l i : ~ (0 <= i < Z.of_nat (length l)) -> zget d l i = d.
Proof.
  intros H. unfold zget. destruct (i <? 0) eqn:Hi; auto.
  apply Z.ltb_ge in Hi. rewrite lookup_ge_None_2; [reflexivity | lia].
Qed.

Lemma cur_oob bd : ~ frame_in_range bd 0 -> cur bd = zero_frame.
Proof. intros H. apply zget_oob. exact H. Qed.

Lemma undo_le_make_prelude move bd : undo_le 2 (make_prelude move bd).
Proof.
  cbv beta delta [make_prelude].
  repeat lazymatch goal with
  | |- undo_le ?k (let x := ?e in @?body x) =>
      apply (let_step (undo_le k) e body); intros ? _; cbv beta
  end.
  unfold undo_le. rewrite cur_upd_cur.
  destruct (decide _) as [Hr|Hr]; [cbn; lia|].
  rewrite cur_oob by exact Hr. cbn. lia.
Qed.

(** C10.  After board_make_move with any of the eight promote functions,
    on any board and for any move word, the undo log of the new frame has
    at least 0 and fewer than BOARD_UNDO_LEN_MAX = 6 entries, so the spare
    slot undo[undo_len], where the promoted piece is noted, lies inside
    the array. *)
Theorem promotion_undo_len_in_bounds :
  forall (white : bool) (kind : prom_kind) (move prescore : Z) (bd : board),
    0 <= undo_len (cur (board_make_move
                          (mk_move move prescore (promote_fn white kind)) bd))
      < BOARD_UNDO_LEN_MAX.
Proof.
  intros white kind move prescore bd.
  rewrite board_make_move_prelude. cbn [bm_make bm_move].
  rewrite call_make_promote.
  pose proof (undo_le_promote white kind (MOVE_FROM move) (MOVE_TO move) 2 _
                (undo_le_make_prelude (mk_move move prescore (promote_fn white kind)) bd))
    as H.
  unfold undo_le, BOARD_UNDO_LEN_MAX in *. lia.
Qed.

Lemma promotion_words_checked :
  forallb (fun from =>
    forallb (fun to =>
      if promotion_step from to then forallb (promotion_word_ok from to) prom_kinds
      else true) all_squares) all_squares = true.
Proof. vm_compute. reflexivity. Qed.

Lemma in_all_squares sq : 0 <= sq < 64 -> In sq all_squares.
Proof. intros H. apply list_elem_of_In, elem_of_seqZ. lia. Qed.

Lemma promotion_step_range from to :
  promotion_step from to = true -> 0 <= from < 64 /\ 0 <= to < 64.
Proof.
  unfold promotion_step. intros H.
  repeat (apply andb_true_iff in H; destruct H as [H ?]).
  repeat match goal with
         | H : (_ <=? _) = true |- _ => apply Z.leb_le in H
         | H : (_ <? _) = true |- _ => apply Z.ltb_lt in H
         end.
  lia.
Qed.

Lemma in_prom_kinds k : In k prom_kinds.
Proof. destruct k; simpl; auto. Qed.

Lemma prom_kind_eqb_eq a b : prom_kind_eqb a b = true -> a = b.
Proof. destruct a, b; simpl; congruence. Qed.

(** C4 (with the constants of the code).  The promotion constants are
    BOARD_SQUARE(4,0), (4,2), (4,3) and (4,7), that is 32, 34, 35 and 39.
    For every promotion step [from -> to] and every promotion kind, the
    word [MOVE from to xor c] decodes to [from] and [to xor c], from which
    [to] is recovered; in data_sq2sq the encoded square has exactly the
    promotion flag of the kind, so it lies on no ray, king step, knight
    jump or pawn capture from [from]; and no other promotion from [from]
    has the same encoded square. *)
Theorem promotion_encoding_unique :
  forall from to k,
    promotion_step from to = true ->
    let word := Z.lxor (MOVE from to) (xor_prom k) in
    MOVE_FROM word = from /\
    MOVE_TO word = Z.lxor to (xor_prom k) /\
    Z.lxor (MOVE_TO word) (xor_prom k) = to /\
    data_sq2sq from (MOVE_TO word) = data_promotion_flag k /\
    (forall to' k',
       promotion_step from to' = true ->
       Z.lxor to' (xor_prom k') = MOVE_TO word -> to' = to /\ k' = k) /\
    (xor_prom prom_queen, xor_prom prom_rook, xor_prom prom_bishop, xor_prom prom_knight)
      = (32, 34, 35, 39).
Proof.
  intros from to k Hstep word.
  destruct (promotion_step_range _ _ Hstep) as [Hfrom Hto].
  pose proof promotion_words_checked as H.
  rewrite forallb_forall in H. specialize (H from (in_all_squares _ Hfrom)).
  rewrite forallb_forall in H. specialize (H to (in_all_squares _ Hto)).
  rewrite Hstep in H.
  rewrite forallb_forall in H. specialize (H k (in_prom_kinds k)).
  unfold promotion_word_ok in H. cbv zeta in H. fold word in H.
  repeat (apply andb_true_iff in H; destruct H as [H ?]).
  repeat match goal with
         | H : (_ =? _) = true |- _ => apply Z.eqb_eq in H
         end.
  match goal with H : forallb _ all_squares = true |- _ =>
    rewrite forallb_forall in H; rename H into Hall end.
  assert (Hothers : forall to' k',
            promotion_step from to' = true ->
            Z.lxor to' (xor_prom k') = MOVE_TO word -> to' = to /\ k' = k).
  { intros to' k' Hs Hx.
    destruct (promotion_step_range _ _ Hs) as [_ Hto'].
    specialize (Hall to' (in_all_squares _ Hto')). rewrite Hs in Hall.
    rewrite forallb_forall in Hall. specialize (Hall k' (in_prom_kinds k')).
    apply Z.eqb_eq in Hx. rewrite Hx in Hall.
    apply andb_true_iff in Hall. destruct Hall as [Hto_eq Hk_eq].
    apply Z.eqb_eq in Hto_eq. apply prom_kind_eqb_eq in Hk_eq. auto. }
  do 4 (split; [assumption|]).
  split; [exact Hothers | reflexivity].
Qed.


Lemma stack_en_passant_cleared bd :
  stack (en_passant_cleared bd) =
  zset (stack bd) (current bd + 0)
    (set_en_passant_lazy 0 (zget zero_frame (stack bd) (current bd + 0))).
Proof. reflexivity. Qed.

Lemma frame_kept_refl bd : frame_kept bd bd.
Proof. unfold frame_kept. tauto. Qed.

Lemma frame_kept_cur bd bd' :
  frame_kept bd bd' ->
  cur bd' = cur bd \/ (expired bd /\ cur bd' = set_en_passant_lazy 0 (cur bd)).
Proof.
  intros (_ & Hc & _ & _ & _ & [Hs | [He Hs]]); unfold cur, frame_at; rewrite Hc, Hs.
  - left; reflexivity.
  - rewrite stack_en_passant_cleared.
    destruct (decide (0 <= current bd + 0 < Z.of_nat (length (stack bd)))) as [Hr|Hr].
    + right. split; [exact He|]. apply zget_zset_eq. exact Hr.
    + left. rewrite zset_oob by exact Hr. reflexivity.
Qed.

Lemma frame_kept_counters bd bd' :
  frame_kept bd bd' ->
  node_counter (cur bd') = node_counter (cur bd) /\
  en_passant_node_counter (cur bd') = en_passant_node_counter (cur bd).
Proof.
  intros H. destruct (frame_kept_cur _ _ H) as [-> | [_ ->]]; split; reflexivity.
Qed.

Lemma frame_kept_expired bd bd' : frame_kept bd bd' -> expired bd' -> expired bd.
Proof.
  intros H. unfold expired. destruct (frame_kept_counters _ _ H) as [-> ->]. auto.
Qed.

Lemma frame_kept_trans a b c : frame_kept a b -> frame_kept b c -> frame_kept a c.
Proof.
  intros Hab Hbc. pose proof (frame_kept_expired _ _ Hab) as Hexp.
  destruct Hab as (S1 & C1 & B1 & F1 & G1 & K1), Hbc as (S2 & C2 & B2 & F2 & G2 & K2).
  unfold frame_kept. rewrite S2, C2, B2, F2, G2.
  repeat (split; [assumption|]).
  destruct K2 as [K2 | [E2 K2]]; rewrite K2.
  - exact K1.
  - rewrite !stack_en_passant_cleared, C1.
    destruct K1 as [K1 | [E1 K1]]; rewrite K1.
    + right. auto.
    + right. split; [exact E1|].
      rewrite stack_en_passant_cleared.
      destruct (decide (0 <= current a + 0 < Z.of_nat (length (stack a)))) as [Hr|Hr].
      * rewrite zget_zset_eq by exact Hr. rewrite zset_zset. reflexivity.
      * rewrite !(zset_oob (stack a)) by exact Hr. reflexivity.
Qed.

Lemma frame_kept_extra bd bd' v :
  frame_kept bd bd' -> frame_kept bd (set_extra_defenders v bd').
Proof. intros H. exact H. Qed.

Lemma frame_kept_clear bd bd' :
  expired bd -> frame_kept bd bd' -> frame_kept bd (en_passant_cleared bd').
Proof.
  intros He H. eapply frame_kept_trans; [exact H|].
  unfold frame_kept. repeat (split; [reflexivity|]).
  right. split; [|reflexivity].
  unfold expired. destruct (frame_kept_counters _ _ H) as [-> ->]. exact He.
Qed.

(** *** The rules of [produces] *)

Lemma produces_ret bd0 {A} (post : A -> Prop) a : post a -> produces bd0 post (Ret a).
Proof. intros H w Hw. simpl. auto. Qed.

Lemma produces_bind bd0 {A B} (postA : A -> Prop) (post : B -> Prop) p f :
  produces bd0 postA p ->
  (forall a, postA a -> produces bd0 post (f a)) ->
  produces bd0 post (bind p f).
Proof.
  intros Hp Hf w Hw. rewrite run_bind.
  destruct (Hp w Hw) as [Hk Ha]. exact (Hf _ Ha _ Hk).
Qed.

Lemma produces_weaken bd0 {A} (post post' : A -> Prop) p :
  produces bd0 post p -> (forall a, post a -> post' a) -> produces bd0 post' p.
Proof. intros Hp Hi w Hw. destruct (Hp w Hw). auto. Qed.

Lemma produces_get_bd bd0 {B} (post : B -> Prop) f :
  (forall bd, frame_kept bd0 bd -> produces bd0 post (f bd)) ->
  produces bd0 post (bind get_bd f).
Proof. intros Hf w Hw. simpl. exact (Hf _ Hw w Hw). Qed.

Lemma produces_get_table bd0 hash : produces bd0 (fun _ => True) (get_table hash).
Proof. intros w Hw. simpl. auto. Qed.

Lemma produces_get_extra bd0 sq : produces bd0 (fun _ => True) (get_extra_defenders sq).
Proof. intros w Hw. simpl. auto. Qed.

Lemma produces_set_extra bd0 sq v : produces bd0 (fun _ => True) (set_extra sq v).
Proof. intros w Hw. simpl. auto. Qed.

Lemma produces_put_table bd0 hash v : produces bd0 (fun _ => True) (put_table hash v).
Proof. intros w Hw. simpl. auto. Qed.

Lemma produces_count_miss bd0 : produces bd0 (fun _ => True) count_miss.
Proof. intros w Hw. simpl. auto. Qed.

Lemma produces_clear_en_passant bd0 :
  expired bd0 -> produces bd0 (fun _ => True) clear_en_passant.
Proof.
  intros He w Hw. simpl. split; [|exact I]. apply frame_kept_clear; assumption.
Qed.

(** *** Moves of the pure parts of the generators *)

Lemma no_ep_ep_ok bd0 m : no_ep m -> ep_ok bd0 m.
Proof. unfold no_ep, ep_ok. intros -> H. discriminate H. Qed.

Lemma Forall_no_ep_ep_ok bd0 l : Forall no_ep l -> Forall (ep_ok bd0) l.
Proof. intros H. eapply Forall_impl; [exact H|]. intros m. apply no_ep_ep_ok. Qed.

Lemma no_ep_move_fn_table pc : is_en_passant_fn (move_fn_table pc) = false.
Proof. destruct pc; reflexivity. Qed.

Lemma no_ep_capture_fn_table pc : is_en_passant_fn (capture_fn_table pc) = false.
Proof. destruct pc; reflexivity. Qed.

Lemma no_ep_store_move bd move prescore make :
  is_en_passant_fn make = false -> no_ep (store_move bd move prescore make).
Proof. intros H. exact H. Qed.

Lemma bits_do_while_Forall (P : board_move -> Prop) fuel body dir dirs acc :
  Forall P acc ->
  (forall d a, Forall P a -> Forall P (body d a)) ->
  Forall P (bits_do_while fuel body dir dirs acc).
Proof.
  intros Hacc Hbody. revert dir dirs acc Hacc.
  induction fuel as [|n IH]; intros dir dirs acc Hacc; simpl; auto.
  destruct (_ =? 0); auto.
Qed.

Lemma bits_while_Forall (P : board_move -> Prop) fuel body dirs acc :
  Forall P acc ->
  (forall d a, Forall P a -> Forall P (body d a)) ->
  Forall P (bits_while fuel body dirs acc).
Proof.
  intros Hacc Hbody. unfold bits_while. destruct (dirs =? 0); auto.
  apply bits_do_while_Forall; auto.
Qed.

Lemma ray_moves_Forall (P : board_move -> Prop) fuel bd to vector len emit :
  (forall t, P (emit t)) -> Forall P (ray_moves fuel bd to vector len emit).
Proof.
  intros Hemit. revert to len.
  induction fuel as [|n IH]; intros to len; simpl; [constructor|].
  destruct (negb _); [constructor|].
  constructor; [apply Hemit|].
  destruct (_ =? 0); [constructor | apply IH].
Qed.

Lemma piece_loop_Forall (P : board_move -> Prop) fuel l k body :
  (forall from, Forall P (body from)) -> Forall P (piece_loop fuel l k body).
Proof.
  intros Hbody. revert k.
  induction fuel as [|n IH]; intros k; simpl; [constructor|].
  destruct (_ >=? 0); [|constructor].
  apply Forall_app; split; [apply Hbody | apply IH].
Qed.

Create HintDb moves_db.

(** One step through the code of a pure part *)
Ltac moves_step :=
  lazymatch goal with
  | |- Forall _ [] => apply Forall_nil
  | |- Forall _ (_ :: _) => constructor
  | |- Forall _ (_ ++ _) => apply Forall_app; split
  | |- Forall _ (if ?c then _ else _) => destruct c
  | |- Forall _ (match ?x with _ => _ end) => destruct x
  | |- Forall _ (bits_do_while _ _ _ _ _) =>
      apply bits_do_while_Forall; [ | intros ? ? ?]
  | |- Forall _ (bits_while _ _ _ _) =>
      apply bits_while_Forall; [ | intros ? ? ?]
  | |- Forall _ (ray_moves _ _ _ _ _ _) => apply ray_moves_Forall; intros ?
  | |- Forall _ (piece_loop _ _ _ _) => apply piece_loop_Forall; intros ?
  | |- no_ep (store_move _ _ _ _) => apply no_ep_store_move
  | |- is_en_passant_fn (move_fn_table _) = false => apply no_ep_move_fn_table
  | |- is_en_passant_fn (capture_fn_table _) = false => apply no_ep_capture_fn_table
  | |- is_en_passant_fn _ = false => first [reflexivity | assumption]
  | |- no_ep (GENERATE_MOVE_FAST _ _ _ _) => unfold GENERATE_MOVE_FAST
  | |- no_ep (GENERATE_MOVE _ _ _ _) => unfold GENERATE_MOVE, GENERATE_MOVE_FAST
  | |- no_ep (GENERATE_PAWN_MOVE _ _ _ _ _) =>
      unfold GENERATE_PAWN_MOVE, GENERATE_MOVE_FAST
  | |- no_ep (GENERATE_KING_MOVE _ _ _ _) => unfold GENERATE_KING_MOVE
  | |- no_ep (GENERATE_KING_CAPTURE _ _ _ _) => unfold GENERATE_KING_CAPTURE
  | |- no_ep (GENERATE_DISCOVERED_CHECK _ _ _ _) => unfold GENERATE_DISCOVERED_CHECK
  end.

Ltac moves_steps :=
  repeat (cbv beta zeta; first [assumption | moves_step | solve [auto with moves_db]]).

Lemma slide_dir_no_ep bd from emit dir acc :
  (forall t, no_ep (emit t)) -> Forall no_ep acc -> Forall no_ep (slide_dir bd from emit dir acc).
Proof. intros He Ha. unfold slide_dir. moves_steps. Qed.

Lemma slide_moves_no_ep bd from dirs emit :
  (forall t, no_ep (emit t)) -> Forall no_ep (slide_moves bd from dirs emit).
Proof.
  intros He. unfold slide_moves. moves_steps. apply slide_dir_no_ep; assumption.
Qed.

Lemma slide_moves_while_no_ep bd from dirs emit :
  (forall t, no_ep (emit t)) -> Forall no_ep (slide_moves_while bd from dirs emit).
Proof.
  intros He. unfold slide_moves_while. moves_steps. apply slide_dir_no_ep; assumption.
Qed.

Lemma knight_jumps_no_ep bd from emit acc dir :
  (forall t, no_ep (emit t)) -> Forall no_ep acc ->
  Forall no_ep (knight_jumps bd from emit acc dir).
Proof. intros He Ha. unfold knight_jumps. moves_steps. Qed.

Lemma regular_king_moves_no_ep bd : Forall no_ep (regular_king_moves bd).
Proof. unfold regular_king_moves. moves_steps. Qed.

Lemma white_castling_moves_no_ep bd from : Forall no_ep (white_castling_moves bd from).
Proof. unfold white_castling_moves. moves_steps. Qed.

Lemma black_castling_moves_no_ep bd from : Forall no_ep (black_castling_moves bd from).
Proof. unfold black_castling_moves. moves_steps. Qed.

Lemma pawn_pushes_no_ep bd from vector ns pin_dirs single double :
  is_en_passant_fn single = false ->
  (forall d, double = Some d -> is_en_passant_fn d = false) ->
  Forall no_ep (pawn_pushes bd from vector ns pin_dirs single double).
Proof.
  intros Hs Hd. unfold pawn_pushes. destruct double as [d|].
  - specialize (Hd d eq_refl). moves_steps.
  - moves_steps.
Qed.

#[export] Hint Resolve slide_moves_no_ep slide_moves_while_no_ep knight_jumps_no_ep
  regular_king_moves_no_ep white_castling_moves_no_ep black_castling_moves_no_ep
  : moves_db.

Lemma regular_piece_moves_no_ep bd king from :
  Forall no_ep (regular_piece_moves bd king from).
Proof.
  unfold regular_piece_moves. cbv zeta.
  destruct (piece_at bd from);
    try (apply pawn_pushes_no_ep; [reflexivity | intros d Hd; inversion Hd; reflexivity]);
    moves_steps;
    try (apply slide_moves_no_ep; intros t; moves_steps);
    try (apply knight_jumps_no_ep; [intros t; moves_steps | assumption]).
Qed.

Lemma regular_moves_no_ep bd : Forall no_ep (regular_moves bd).
Proof.
  unfold regular_moves. moves_steps. apply regular_piece_moves_no_ep.
Qed.

Lemma knight_moves_to_no_ep fuel bd to attack k acc :
  Forall no_ep acc -> Forall no_ep (snd (knight_moves_to fuel bd to attack k acc)).
Proof.
  revert attack k acc.
  induction fuel as [|n IH]; intros attack k acc Ha; cbn [knight_moves_to]; auto.
  cbv zeta. destruct (next_active_knight_to 17 bd to k) as [from k'].
  destruct (_ >=? _); [apply IH | cbn [snd]]; moves_steps.
Qed.

Lemma generate_moves_to_square_no_ep bd to : Forall no_ep (generate_moves_to_square bd to).
Proof.
  unfold generate_moves_to_square. cbv zeta.
  assert (H : Forall no_ep
    (snd (if active_attacks bd to >=? board_attack_knight
          then knight_moves_to 16 bd to (active_attacks bd to) 1 []
          else (active_attacks bd to, [])))).
  { destruct (_ >=? _); [apply knight_moves_to_no_ep; constructor | constructor]. }
  destruct (if active_attacks bd to >=? board_attack_knight then _ else _) as [attack moves].
  simpl in H. moves_steps.
Qed.

Lemma escape_king_moves_no_ep bd from : Forall no_ep (escape_king_moves bd from).
Proof. unfold escape_king_moves. moves_steps. Qed.

Lemma king_discovered_checks_no_ep bd from xking piece :
  Forall no_ep (king_discovered_checks bd from xking piece).
Proof. unfold king_discovered_checks. moves_steps. Qed.

Lemma pawn_push_checks_no_ep bd king xking forward west east ns first_rank double_rank
    pawn make_pawn make_single make_double :
  is_en_passant_fn make_pawn = false ->
  is_en_passant_fn make_single = false ->
  is_en_passant_fn make_double = false ->
  Forall no_ep (pawn_push_checks bd king xking forward west east ns first_rank
                  double_rank pawn make_pawn make_single make_double).
Proof. intros H1 H2 H3. unfold pawn_push_checks. moves_steps. Qed.

Lemma knight_checks_no_ep bd from xking pin_dirs piece :
  Forall no_ep (knight_checks bd from xking pin_dirs piece).
Proof.
  unfold knight_checks. moves_steps;
    (apply knight_jumps_no_ep; [intros t; moves_steps | assumption]).
Qed.

Lemma pawn_discovered_checks_no_ep bd from xking pin_dirs forward ns single double :
  is_en_passant_fn single = false ->
  (forall d, double = Some d -> is_en_passant_fn d = false) ->
  Forall no_ep (pawn_discovered_checks bd from xking pin_dirs forward ns single double).
Proof.
  intros Hs Hd. unfold pawn_discovered_checks. destruct double as [d|].
  - specialize (Hd d eq_refl). moves_steps.
  - moves_steps.
Qed.

Lemma slider_discovered_checks_no_ep bd from xking pin_dirs own piece :
  Forall no_ep (slider_discovered_checks bd from xking pin_dirs own piece).
Proof.
  unfold slider_discovered_checks. cbv zeta.
  apply slide_moves_while_no_ep. intros t. moves_steps.
Qed.

Lemma direct_check_to_no_ep bd from xking to piece :
  Forall no_ep (direct_check_to bd from xking to piece).
Proof. unfold direct_check_to. moves_steps. Qed.

#[export] Hint Resolve slider_discovered_checks_no_ep direct_check_to_no_ep : moves_db.

Lemma bishop_checks_no_ep bd from xking pin_dirs piece :
  Forall no_ep (bishop_checks bd from xking pin_dirs piece).
Proof. unfold bishop_checks. moves_steps. Qed.

Lemma castling_checks_no_ep bd from xking : Forall no_ep (castling_checks bd from xking).
Proof. unfold castling_checks. moves_steps. Qed.

Lemma rook_checks_no_ep bd from xking pin_dirs piece :
  Forall no_ep (rook_checks bd from xking pin_dirs piece).
Proof. unfold rook_checks. moves_steps. Qed.

#[export] Hint Resolve regular_moves_no_ep generate_moves_to_square_no_ep
  escape_king_moves_no_ep king_discovered_checks_no_ep knight_checks_no_ep
  bishop_checks_no_ep castling_checks_no_ep rook_checks_no_ep : moves_db.

Ltac expect_unfold :=
  repeat (progress unfold expect, expect_pass, expect_prod, expect_list, expect_move,
            expect_make, expect_option, expect_unit, expect_bool, expect_Z in * );
  cbn [fst snd captures pass_moves pass_attackers] in *.

Lemma produces_True bd0 {A} (p : gen A) (post : A -> Prop) :
  produces bd0 post p -> produces bd0 (fun _ => True) p.
Proof. intros H. eapply produces_weaken; [exact H | auto]. Qed.

Lemma get_table_produces bd0 hash : produces bd0 (expect bd0) (get_table hash).
Proof. apply produces_get_table. Qed.

Lemma get_extra_defenders_produces bd0 sq :
  produces bd0 (expect bd0) (get_extra_defenders sq).
Proof. apply produces_get_extra. Qed.

Lemma set_extra_produces bd0 sq v : produces bd0 (expect bd0) (set_extra sq v).
Proof. apply produces_set_extra. Qed.

Lemma put_table_produces bd0 hash v : produces bd0 (expect bd0) (put_table hash v).
Proof. apply produces_put_table. Qed.

Lemma count_miss_produces bd0 : produces bd0 (expect bd0) count_miss.
Proof. apply produces_count_miss. Qed.

Create HintDb gen_db discriminated.

#[export] Hint Constants Opaque : gen_db.

#[export] Hint Variables Opaque : gen_db.

#[export] Hint Resolve get_table_produces get_extra_defenders_produces set_extra_produces
  put_table_produces count_miss_produces : gen_db.

(** One step through the code of a generator *)
Ltac gen_step :=
  lazymatch goal with
  | |- produces _ _ (bind get_bd _) => apply produces_get_bd; intros ? ?
  | |- produces ?bd0 _ (bind _ _) =>
      eapply (produces_bind bd0 (expect bd0)); [ | intros ? ?]
  | |- produces _ _ (Ret _) => apply produces_ret
  | |- produces _ _ (if ?c then _ else _) => destruct c eqn:?
  | |- produces _ _ (match ?x with _ => _ end) => destruct x eqn:?
  | |- produces _ _ (let x := _ in _) => cbv zeta
  end.

Ltac expect_step :=
  match goal with
  | |- True => exact I
  | |- _ /\ _ => split
  | H : _ /\ _ |- _ => destruct H
  | |- Forall _ (rev _) => apply Forall_rev
  | |- Forall (ep_ok _) _ => apply Forall_no_ep_ep_ok; solve [auto with moves_db]
  | |- Forall _ (_ ++ _) => apply Forall_app; split
  | |- Forall _ [] => constructor
  | |- Forall _ (_ :: _) => constructor
  | |- ep_ok _ (store_move _ _ _ _) => apply no_ep_ep_ok, no_ep_store_move
  | |- ep_ok _ _ => apply no_ep_ep_ok; solve [moves_steps]
  | |- is_en_passant_fn (move_fn_table _) = false => apply no_ep_move_fn_table
  | |- is_en_passant_fn (capture_fn_table _) = false => apply no_ep_capture_fn_table
  | |- is_en_passant_fn (if ?c then _ else _) = false => destruct c
  | |- is_en_passant_fn _ = false => first [reflexivity | assumption]
  | |- Forall _ (if ?c then _ else _) => destruct c
  | |- _ => assumption
  | |- context [if ?c then _ else _] => destruct c
  end.

Ltac expect_solve :=
  expect_unfold;
  repeat (cbv beta; cbn [fst snd captures pass_moves pass_attackers]; expect_step).

#[export] Hint Extern 1 (expect _ _) => solve [expect_solve] : gen_db.

Ltac gen_finish :=
  lazymatch goal with
  | |- produces _ _ _ => solve [eauto with gen_db]
  | |- _ => solve [expect_solve]
  end.

Ltac gen_steps := repeat (cbv beta; gen_step); try gen_finish.

Lemma bits_do_while_m_produces bd0 {S} `{Expect S} fuel (body : Z -> S -> gen S)
    dir dirs s :
  (forall d a, expect bd0 a -> produces bd0 (expect bd0) (body d a)) ->
  expect bd0 s ->
  produces bd0 (expect bd0) (bits_do_while_m fuel body dir dirs s).
Proof.
  intros Hbody. revert dir dirs s.
  induction fuel as [|n IH]; intros dir dirs s Hs; simpl.
  - apply produces_ret. exact Hs.
  - eapply produces_bind; [apply Hbody; exact Hs|].
    intros a Ha. destruct (_ =? 0); [apply produces_ret; exact Ha | apply IH; exact Ha].
Qed.

Lemma rays_do_while_m_produces bd0 {S} `{Expect S} fuel (body : Z -> S -> gen S)
    ray bits s :
  (forall d a, expect bd0 a -> produces bd0 (expect bd0) (body d a)) ->
  expect bd0 s ->
  produces bd0 (expect bd0) (rays_do_while_m fuel body ray bits s).
Proof.
  intros Hbody. revert ray bits s.
  induction fuel as [|n IH]; intros ray bits s Hs; simpl.
  - apply produces_ret. exact Hs.
  - eapply produces_bind; [apply Hbody; exact Hs|].
    intros a Ha. destruct (_ =? 0); [apply produces_ret; exact Ha | apply IH; exact Ha].
Qed.

Lemma piece_loop_m_produces bd0 fuel k get body :
  (forall sq, produces bd0 (expect bd0) (body sq)) ->
  produces bd0 (expect bd0) (piece_loop_m fuel k get body).
Proof.
  intros Hbody. revert k.
  induction fuel as [|n IH]; intros k; cbn [piece_loop_m]; gen_steps.
Qed.

(** exchange.c *)

Lemma exchange_evaluate_rec_produces bd0 fuel d a :
  produces bd0 (expect bd0) (exchange_evaluate_rec fuel d a).
Proof.
  revert d a. induction fuel as [|n IH]; intros d a; cbn [exchange_evaluate_rec].
  - gen_steps.
  - unfold exchange_evaluate_body. gen_steps.
Qed.

Lemma exchange_evaluate_produces bd0 d a :
  produces bd0 (expect bd0) (exchange_evaluate d a).
Proof.
  unfold exchange_evaluate, exchange_evaluate_fn. gen_steps.
  apply exchange_evaluate_rec_produces.
Qed.

Lemma if_defender_not_pinned_produces bd0 sq v :
  produces bd0 (expect bd0) (if_defender_not_pinned sq v).
Proof. unfold if_defender_not_pinned. gen_steps. Qed.

#[export] Hint Resolve exchange_evaluate_produces if_defender_not_pinned_produces : gen_db.

Lemma collect_knight_defenders_produces bd0 fuel sq bits k defenders :
  produces bd0 (expect bd0) (collect_knight_defenders fuel sq bits k defenders).
Proof.
  revert bits k defenders.
  induction fuel as [|n IH]; intros bits k defenders; cbn [collect_knight_defenders];
    gen_steps.
Qed.

Lemma collect_ray_defenders_produces bd0 fuel ray step fr last defenders :
  produces bd0 (expect bd0) (collect_ray_defenders fuel ray step fr last defenders).
Proof.
  revert fr last defenders.
  induction fuel as [|n IH]; intros fr last defenders; cbn [collect_ray_defenders];
    gen_steps.
Qed.

#[export] Hint Resolve collect_knight_defenders_produces collect_ray_defenders_produces
  : gen_db.

Lemma exchange_collect_defenders_produces bd0 sq bits :
  produces bd0 (expect bd0) (exchange_collect_defenders sq bits).
Proof.
  unfold exchange_collect_defenders. gen_steps.
  all: apply rays_do_while_m_produces; [intros ? ? ? | exact I]; gen_steps.
Qed.

#[export] Hint Resolve exchange_collect_defenders_produces : gen_db.

(** generate.c *)

Lemma GENERATE_MOVE_SLOW_produces bd0 from to make :
  is_en_passant_fn make = false ->
  produces bd0 (expect bd0) (GENERATE_MOVE_SLOW from to make).
Proof. intros Hm. unfold GENERATE_MOVE_SLOW. gen_steps. Qed.

Lemma GENERATE_PROMOTION_produces bd0 ns mq mr mb mk from to :
  is_en_passant_fn mq = false -> is_en_passant_fn mr = false ->
  is_en_passant_fn mb = false -> is_en_passant_fn mk = false ->
  produces bd0 (expect bd0) (GENERATE_PROMOTION ns mq mr mb mk from to).
Proof. intros Hq Hr Hb Hk. unfold GENERATE_PROMOTION. gen_steps. Qed.

Lemma GENERATE_WHITE_PROMOTION_produces bd0 from to :
  produces bd0 (expect bd0) (GENERATE_WHITE_PROMOTION from to).
Proof. apply GENERATE_PROMOTION_produces; reflexivity. Qed.

Lemma GENERATE_BLACK_PROMOTION_produces bd0 from to :
  produces bd0 (expect bd0) (GENERATE_BLACK_PROMOTION from to).
Proof. apply GENERATE_PROMOTION_produces; reflexivity. Qed.

Lemma find_extra_defenders_produces bd0 from dir :
  produces bd0 (expect bd0) (find_extra_defenders from dir).
Proof. unfold find_extra_defenders. gen_steps. Qed.

#[export] Hint Resolve GENERATE_WHITE_PROMOTION_produces GENERATE_BLACK_PROMOTION_produces
  find_extra_defenders_produces : gen_db.

Lemma pawn_capture_pass_produces bd0 to bits pawn_bit wv wd bv bdir st :
  expect bd0 st ->
  produces bd0 (expect bd0) (pawn_capture_pass to bits pawn_bit wv wd bv bdir st).
Proof. intros Hst. unfold pawn_capture_pass. gen_steps. Qed.

Lemma knight_capture_pass_produces bd0 fuel to bits k st :
  expect bd0 st ->
  produces bd0 (expect bd0) (knight_capture_pass fuel to bits k st).
Proof.
  revert bits k st.
  induction fuel as [|n IH]; intros bits k st Hst; cbn [knight_capture_pass];
    gen_steps.
Qed.

Lemma slider_capture_pass_produces bd0 to dir st :
  expect bd0 st ->
  produces bd0 (expect bd0) (slider_capture_pass to dir st).
Proof. intros Hst. unfold slider_capture_pass. gen_steps. Qed.

Lemma capture_prescore_produces bd0 to defenders attackers captured from :
  produces bd0 (expect bd0) (capture_prescore to defenders attackers captured from).
Proof. unfold capture_prescore. gen_steps. Qed.

#[export] Hint Resolve pawn_capture_pass_produces knight_capture_pass_produces
  slider_capture_pass_produces capture_prescore_produces : gen_db.

Lemma capture_moves_produces bd0 to defenders attackers captured stack :
  expect bd0 stack ->
  produces bd0 (expect bd0) (capture_moves to defenders attackers captured stack).
Proof.
  induction stack as [|[from make] stack IH]; intros Hst; cbn [capture_moves].
  - gen_steps.
  - expect_unfold. inversion Hst as [|? ? [_ Hmake] Hrest]; subst.
    specialize (IH Hrest). gen_steps.
Qed.

#[export] Hint Resolve capture_moves_produces : gen_db.

Lemma generate_captures_to_square_produces bd0 to :
  produces bd0 (expect bd0) (generate_captures_to_square to).
Proof.
  unfold generate_captures_to_square. gen_steps.
  all: try (apply bits_do_while_m_produces; [intros ? ? ?|]; gen_steps).
Qed.

Lemma generate_pawn_push_to_produces bd0 to :
  produces bd0 (expect bd0) (generate_pawn_push_to to).
Proof. unfold generate_pawn_push_to. gen_steps. Qed.

Lemma en_passant_from_fresh bd0 bd to vector capture_dir behind side_dir make :
  node_counter (cur bd0) = en_passant_node_counter (cur bd0) ->
  Forall (ep_ok bd0) (en_passant_from bd to vector capture_dir behind side_dir make).
Proof.
  intros Hfresh. unfold en_passant_from. cbv zeta.
  destruct (_ =? 0); constructor; [|constructor]. intros _. exact Hfresh.
Qed.

Lemma generate_en_passant_produces bd0 :
  produces bd0 (expect bd0) generate_en_passant.
Proof.
  unfold generate_en_passant. apply produces_get_bd. intros bd Hbd.
  destruct (frame_kept_counters _ _ Hbd) as [-> ->].
  destruct (node_counter (cur bd0) =? en_passant_node_counter (cur bd0)) eqn:Hc;
    cbn [negb].
  - apply Z.eqb_eq in Hc. cbv zeta. apply produces_ret. expect_unfold.
    apply Forall_app; split;
      repeat match goal with
             | |- Forall _ (if ?c then _ else _) => destruct c
             | |- Forall _ [] => constructor
             | |- _ => apply en_passant_from_fresh; exact Hc
             end.
  - apply Z.eqb_neq in Hc.
    eapply (produces_bind bd0 (expect bd0)).
    + apply produces_clear_en_passant. exact Hc.
    + intros _ _. apply produces_ret. constructor.
Qed.

#[export] Hint Resolve generate_captures_to_square_produces generate_pawn_push_to_produces
  generate_en_passant_produces : gen_db.

Lemma forward_promotions_produces bd0 : produces bd0 (expect bd0) forward_promotions.
Proof.
  unfold forward_promotions. gen_steps.
  apply bits_do_while_m_produces; [intros ? ? ?|]; gen_steps.
Qed.

#[export] Hint Resolve forward_promotions_produces : gen_db.

Lemma board_generate_captures_and_promotions_produces bd0 :
  produces bd0 (expect bd0) board_generate_captures_and_promotions.
Proof.
  unfold board_generate_captures_and_promotions. gen_steps.
  apply piece_loop_m_produces. intros sq. gen_steps.
Qed.

Lemma block_moves_produces bd0 fuel to step acc :
  expect bd0 acc -> produces bd0 (expect bd0) (block_moves fuel to step acc).
Proof.
  revert to acc. induction fuel as [|n IH]; intros to acc Hacc; cbn [block_moves].
  - gen_steps.
  - gen_steps.
Qed.

Lemma board_generate_escapes_produces bd0 :
  produces bd0 (expect bd0) board_generate_escapes.
Proof.
  unfold board_generate_escapes. gen_steps.
  apply block_moves_produces. constructor.
Qed.

Lemma queen_check_ray_produces bd0 fuel from pin_dirs to vector len piece acc :
  expect bd0 acc ->
  produces bd0 (expect bd0) (queen_check_ray fuel from pin_dirs to vector len piece acc).
Proof.
  revert to len acc.
  induction fuel as [|n IH]; intros to len acc Hacc; cbn [queen_check_ray]; gen_steps.
  apply GENERATE_MOVE_SLOW_produces, no_ep_move_fn_table.
Qed.

Lemma queen_checks_produces bd0 from xking pin_dirs piece :
  produces bd0 (expect bd0) (queen_checks from xking pin_dirs piece).
Proof.
  unfold queen_checks.
  apply bits_do_while_m_produces; [intros ? ? ?|constructor].
  cbv zeta. apply queen_check_ray_produces. assumption.
Qed.

#[export] Hint Resolve queen_checks_produces : gen_db.

Lemma regular_piece_checks_produces bd0 king xking from :
  produces bd0 (expect bd0) (regular_piece_checks king xking from).
Proof.
  unfold regular_piece_checks. apply produces_get_bd. intros bd Hbd. cbv zeta.
  destruct (piece_at bd from); try (solve [eauto with gen_db]);
    apply produces_ret; expect_unfold; apply Forall_no_ep_ep_ok;
    repeat match goal with
           | |- Forall _ (_ ++ _) => apply Forall_app; split
           | |- Forall _ [] => constructor
           | |- Forall _ (pawn_push_checks _ _ _ _ _ _ _ _ _ _ _ _ _) =>
               apply pawn_push_checks_no_ep; reflexivity
           | |- Forall _ (pawn_discovered_checks _ _ _ _ _ _ _ _) =>
               apply pawn_discovered_checks_no_ep;
               [reflexivity | intros d Hd; inversion Hd; reflexivity]
           | |- _ => solve [auto with moves_db]
           end.
Qed.

Lemma bump_safe_check_ep_ok bd0 m : ep_ok bd0 m -> ep_ok bd0 (bump_safe_check m).
Proof. unfold bump_safe_check. destruct (_ >=? _); auto. Qed.

Lemma board_generate_regular_checks_produces bd0 :
  produces bd0 (expect bd0) board_generate_regular_checks.
Proof.
  unfold board_generate_regular_checks. gen_steps.
  - apply piece_loop_m_produces. intros sq. apply regular_piece_checks_produces.
  - expect_unfold. apply Forall_map.
    eapply Forall_impl; [eassumption|]. intros m. apply bump_safe_check_ep_ok.
Qed.

Lemma board_generate_regular_moves_produces bd0 :
  produces bd0 (expect bd0) board_generate_regular_moves.
Proof. unfold board_generate_regular_moves. gen_steps. Qed.

Lemma board_generate_all_moves_produces bd0 :
  produces bd0 (expect bd0) board_generate_all_moves.
Proof.
  unfold board_generate_all_moves. gen_steps.
  - apply board_generate_escapes_produces.
  - apply board_generate_captures_and_promotions_produces.
  - apply board_generate_regular_moves_produces.
Qed.

Lemma generator_code_produces bd0 g : produces bd0 (expect bd0) (generator_code g).
Proof.
  destruct g; simpl.
  - apply board_generate_all_moves_produces.
  - apply board_generate_captures_and_promotions_produces.
  - apply board_generate_regular_moves_produces.
  - apply board_generate_escapes_produces.
  - apply board_generate_regular_checks_produces.
Qed.


(** C1 (failing input).  In the position 8/8/8/7k/3pP1P1/8/8/K7 b - e3,
    which board_setup_raw accepts and which satisfies the board
    invariants, the black king is in check by the pawn on g4.
    board_generate_escapes, and so board_generate_all_moves, emits the
    en-passant capture d4xe3; after board_make_move of it the pawn on g4
    still attacks the king of the side that moved:
    active.attacks[passive.pieces[0]] is board_attack_pawn_east, not 0. *)
Theorem escapes_emit_illegal_en_passant :
  board_setup_raw pawn_check_epd board_create = Some pawn_check_position /\
  board_invariants pawn_check_position = true /\
  board_in_check pawn_check_position = true /\
  In en_passant_d4e3
     (fst (run board_generate_all_moves (initial_world pawn_check_position))) /\
  In en_passant_d4e3
     (fst (run board_generate_escapes (initial_world pawn_check_position))) /\
  (let bd := board_make_move en_passant_d4e3 pawn_check_position in
   passive_pieces bd 0 = H5 /\
   active_attacks bd (passive_pieces bd 0) = board_attack_pawn_east /\
   active_attacks bd (passive_pieces bd 0) <> 0).
Proof.
  split; [vm_compute; reflexivity|].
  split; [vm_compute; reflexivity|].
  split; [vm_compute; reflexivity|].
  split; [vm_compute; left; reflexivity|].
  split; [vm_compute; left; reflexivity|].
  cbv zeta. split; [vm_compute; reflexivity|].
  split; [vm_compute; reflexivity|].
  vm_compute. discriminate.
Qed.

(** C4 (as stated, refuted).  The constants of the code are 32, 34, 35
    and 39, not 4, 20, 28 and 60: the queen promotion a7-a8 is generated
    with the word [MOVE a7 a8 xor 32].  With the constant 4 the encoded
    square would be a4, which lies on the ray south of a7. *)
Lemma promotion_constants_are_not_4_20_28_60 :
  (XOR_PROM_QUEEN, XOR_PROM_ROOK, XOR_PROM_BISHOP, XOR_PROM_KNIGHT) = (32, 34, 35, 39) /\
  (XOR_PROM_QUEEN, XOR_PROM_ROOK, XOR_PROM_BISHOP, XOR_PROM_KNIGHT) <> (4, 20, 28, 60) /\
  In (mk_move (Z.lxor (MOVE A7 A8) 32) 63488 fn_promote_white_queen)
     (fst (run board_generate_all_moves (initial_world promotion_position))) /\
  Z.lxor (MOVE A7 A8) 32 <> Z.lxor (MOVE A7 A8) 4 /\
  Z.lxor A8 4 = A4 /\
  Z.land (data_sq2sq A7 (Z.lxor A8 4)) board_attack_south <> 0.
Proof.
  split; [vm_compute; reflexivity|].
  split; [vm_compute; discriminate|].
  split; [vm_compute; left; reflexivity|].
  split; [vm_compute; discriminate|].
  split; [vm_compute; reflexivity|].
  vm_compute. discriminate.
Qed.

(** C4, the theorem at the promotion a7-a8=Q *)
Lemma promotion_encoding_unique_witness :
  promotion_step A7 A8 = true /\
  (let word := Z.lxor (MOVE A7 A8) (xor_prom prom_queen) in
   MOVE_FROM word = A7 /\
   MOVE_TO word = Z.lxor A8 (xor_prom prom_queen) /\
   Z.lxor (MOVE_TO word) (xor_prom prom_queen) = A8 /\
   data_sq2sq A7 (MOVE_TO word) = data_promotion_flag prom_queen /\
   (forall to' k',
      promotion_step A7 to' = true ->
      Z.lxor to' (xor_prom k') = MOVE_TO word -> to' = A8 /\ k' = prom_queen) /\
   (xor_prom prom_queen, xor_prom prom_rook, xor_prom prom_bishop, xor_prom prom_knight)
     = (32, 34, 35, 39)).
Proof.
  split; [reflexivity|].
  apply (promotion_encoding_unique A7 A8 prom_queen). reflexivity.
Defined.

(** C5 (as stated, refuted).  After 1. e2-e4 is taken back and
    1. Ng1-f3 is made, the frame has [en_passant_lazy = e3] with a stale
    node counter; board_generate_all_moves resets the field to 0. *)
Lemma generator_resets_stale_en_passant :
  In pawn_e2e4 (fst (run board_generate_all_moves (initial_world start_position))) /\
  In knight_g1f3 (fst (run board_generate_all_moves (initial_world start_position))) /\
  en_passant_lazy (cur stale_en_passant_position) = E3 /\
  en_passant_lazy
    (cur (w_bd (snd (run board_generate_all_moves
                       (initial_world stale_en_passant_position))))) = 0 /\
  cur (w_bd (snd (run board_generate_all_moves
                    (initial_world stale_en_passant_position))))
    <> cur stale_en_passant_position.
Proof.
  split; [vm_compute; tauto|].
  split; [vm_compute; tauto|].
  split; [vm_compute; reflexivity|].
  split; [vm_compute; reflexivity|].
  intros H. apply (f_equal en_passant_lazy) in H. vm_compute in H. discriminate H.
Qed.

(** C5 (amended).  Each of the five generators leaves the squares, the
    stack pointer, the butterfly table and every stack frame but the
    current one as they are.  The current frame is left as it is too,
    except that, when its en-passant flag is stale (node_counter differs
    from en_passant_node_counter), the generator may reset
    en_passant_lazy to 0; no other field of the frame changes. *)
Theorem generators_keep_frame :
  forall (g : generator) (w : world),
    let bd := w_bd w in
    let bd' := w_bd (snd (run (generator_code g) w)) in
    squares bd' = squares bd /\
    current bd' = current bd /\
    butterfly bd' = butterfly bd /\
    (forall k, k <> 0 -> frame_at bd' k = frame_at bd k) /\
    (cur bd' = cur bd \/
     (node_counter (cur bd) <> en_passant_node_counter (cur bd) /\
      cur bd' = set_en_passant_lazy 0 (cur bd))).
Proof.
  intros g w bd bd'.
  destruct (generator_code_produces bd g w (frame_kept_refl _)) as [Hk _].
  fold bd' in Hk. pose proof (frame_kept_cur _ _ Hk) as Hcur.
  destruct Hk as (Hs & Hc & Hb & _ & _ & Hst).
  repeat (split; [assumption|]).
  split; [|exact Hcur].
  intros k Hk. unfold frame_at. rewrite Hc.
  destruct Hst as [-> | [_ ->]]; [reflexivity|].
  rewrite stack_en_passant_cleared. apply zget_zset_ne. lia.
Qed.

(** C6 (failing input).  From the start position board_perft with depth
    2 returns 400; called again on the board it leaves behind, whose
    squares and stack pointer are those of the start position, it returns
    800: the node counter of the frame two plies down is added to and
    never reset. *)
Theorem board_perft_twice_differs :
  let first := board_perft 2 (initial_world start_position) in
  let second := board_perft 2 (snd first) in
  fst first = 400 /\
  fst second = 800 /\
  squares (w_bd (snd first)) = squares start_position /\
  current (w_bd (snd first)) = current start_position /\
  active (cur (w_bd (snd first))) = active (cur start_position) /\
  passive (cur (w_bd (snd first))) = passive (cur start_position) /\
  node_counter (frame_at start_position 2) = 0 /\
  node_counter (frame_at (w_bd (snd first)) 2) = 400.
Proof.
  cbv zeta.
  split; [vm_compute; reflexivity|].
  split; [vm_compute; reflexivity|].
  split; [vm_compute; reflexivity|].
  split; [vm_compute; reflexivity|].
  split; [vm_compute; reflexivity|].
  split; [vm_compute; reflexivity|].
  split; vm_compute; reflexivity.
Qed.

(** C7 (as stated, refuted).  Castling is irreversible, and generated in
    the position r3k2r/8/8/8/8/8/8/R3K2R w KQkq -, yet after making it the
    halfmove clock is that of the parent plus one, not 0. *)
Lemma castling_keeps_the_clock_running :
  board_setup_raw castling_epd board_create = Some castling_position /\
  In castle_king_side
     (fst (run board_generate_all_moves (initial_world castling_position))) /\
  halfmove_clock (cur castling_position) = 0 /\
  halfmove_clock (cur (board_make_move castle_king_side castling_position)) = 1.
Proof.
  split; [vm_compute; reflexivity|].
  split; [vm_compute; tauto|].
  split; vm_compute; reflexivity.
Qed.

(** C7, the theorem at the castling move *)
Lemma halfmove_clock_after_make_witness :
  frame_in_range castling_position 1 /\
  halfmove_clock (cur (board_make_move castle_king_side castling_position)) =
    (if resets_clock (bm_make castle_king_side) then 0
     else uchar_of (halfmove_clock (cur castling_position) + 1)).
Proof.
  assert (H : frame_in_range castling_position 1).
  { unfold frame_in_range. vm_compute. split; [discriminate | reflexivity]. }
  split; [exact H|].
  apply (halfmove_clock_after_make castle_king_side castling_position). exact H.
Defined.

(** C9.  When the en-passant flag of the current frame is stale, that
    is, when the frame's en_passant_node_counter differs from its
    node_counter (whatever en_passant_lazy holds), none of the five
    generators emits a move made by enpassant_with_white_pawn or
    enpassant_with_black_pawn, the only makers of en-passant captures. *)
Theorem stale_en_passant_emits_no_capture :
  forall (g : generator) (w : world) (m : board_move),
    node_counter (cur (w_bd w)) <> en_passant_node_counter (cur (w_bd w)) ->
    In m (fst (run (generator_code g) w)) ->
    bm_make m <> fn_enpassant_with_white_pawn /\
    bm_make m <> fn_enpassant_with_black_pawn.
Proof.
  intros g w m Hstale Hin.
  destruct (generator_code_produces (w_bd w) g w (frame_kept_refl _)) as [_ Hms].
  unfold expect, expect_list, expect_move in Hms.
  rewrite Forall_forall in Hms. apply list_elem_of_In in Hin.
  specialize (Hms m Hin). change (ep_ok (w_bd w) m) in Hms. unfold ep_ok in Hms.
  split; intros Hm; rewrite Hm in Hms; apply Hstale, Hms; reflexivity.
Qed.

(** C9, the theorem at the position after 1. e2-e4 taken back and
    1. Ng1-f3, whose flag e3 is stale, and the move Nb8-a6 *)
Lemma stale_en_passant_emits_no_capture_witness :
  en_passant_lazy (cur stale_en_passant_position) <> 0 /\
  node_counter (cur (w_bd (initial_world stale_en_passant_position)))
    <> en_passant_node_counter (cur (w_bd (initial_world stale_en_passant_position))) /\
  In knight_b8a6
     (fst (run (generator_code all_moves) (initial_world stale_en_passant_position))) /\
  bm_make knight_b8a6 <> fn_enpassant_with_white_pawn /\
  bm_make knight_b8a6 <> fn_enpassant_with_black_pawn.
Proof.
  assert (H1 : node_counter (cur (w_bd (initial_world stale_en_passant_position)))
    <> en_passant_node_counter (cur (w_bd (initial_world stale_en_passant_position)))).
  { vm_compute. discriminate. }
  assert (H2 : In knight_b8a6
     (fst (run (generator_code all_moves) (initial_world stale_en_passant_position)))).
  { vm_compute. left. reflexivity. }
  split; [vm_compute; discriminate|].
  split; [exact H1|]. split; [exact H2|].
  exact (stale_en_passant_emits_no_capture all_moves
           (initial_world stale_en_passant_position) knight_b8a6 H1 H2).
Defined.


Lemma in_all_squares_iff sq : In sq all_squares <-> 0 <= sq < 64.
Proof.
  rewrite <- list_elem_of_In. unfold all_squares. rewrite elem_of_seqZ. lia.
Qed.

Lemma forallb_squares (f : Z -> bool) sq :
  forallb f all_squares = true -> 0 <= sq < 64 -> f sq = true.
Proof.
  intros H Hsq. rewrite forallb_forall in H. apply H, in_all_squares_iff, Hsq.
Qed.

Lemma kingtab_checked :
  forallb (fun sq =>
    forallb (step_ok data_kingtab board_vector_step direction_delta sq) directions)
    all_squares = true.
Proof. vm_compute. reflexivity. Qed.

Lemma knighttab_checked :
  forallb (fun sq =>
    forallb (step_ok data_knighttab board_vector_jump jump_delta sq) jump_directions)
    all_squares = true.
Proof. vm_compute. reflexivity. Qed.

Lemma step_ok_spec tab vector delta sq dir :
  step_ok tab vector delta sq dir = true ->
  match square_along sq (delta dir) 1 with
  | Some t => Z.land (tab sq) dir <> 0 /\ sq + vector dir = t /\ 0 <= t < 64
  | None => Z.land (tab sq) dir = 0
  end.
Proof.
  unfold step_ok. destruct (square_along sq (delta dir) 1) as [t|]; intros H.
  - repeat (apply andb_true_iff in H; destruct H as [H ?]).
    apply negb_true_iff, Z.eqb_neq in H.
    repeat match goal with
           | H : (_ =? _) = true |- _ => apply Z.eqb_eq in H
           | H : (_ <=? _) = true |- _ => apply Z.leb_le in H
           | H : (_ <? _) = true |- _ => apply Z.ltb_lt in H
           end.
    auto.
  - apply Z.eqb_eq in H. exact H.
Qed.

(** The king table and the knight table hold exactly the steps that stay
    on the board: the bit of a direction is set in [data_kingtab sq] if
    and only if the neighbour of [sq] in that direction exists, and then
    [sq + board_vector_step dir] is that neighbour; the same for the
    eight knight jumps, [data_knighttab] and [board_vector_jump]. *)
Theorem step_tables_stay_on_board :
  forall sq dir,
    0 <= sq < 64 ->
    (In dir directions ->
     match square_along sq (direction_delta dir) 1 with
     | Some t => Z.land (data_kingtab sq) dir <> 0 /\ sq + board_vector_step dir = t /\
                 0 <= t < 64
     | None => Z.land (data_kingtab sq) dir = 0
     end) /\
    (In dir jump_directions ->
     match square_along sq (jump_delta dir) 1 with
     | Some t => Z.land (data_knighttab sq) dir <> 0 /\ sq + board_vector_jump dir = t /\
                 0 <= t < 64
     | None => Z.land (data_knighttab sq) dir = 0
     end).
Proof.
  intros sq dir Hsq. split; intros Hdir; apply step_ok_spec.
  - pose proof (forallb_squares _ sq kingtab_checked Hsq) as H.
    rewrite forallb_forall in H. exact (H dir Hdir).
  - pose proof (forallb_squares _ sq knighttab_checked Hsq) as H.
    rewrite forallb_forall in H. exact (H dir Hdir).
Qed.

Lemma step_tables_stay_on_board_witness :
  0 <= E4 < 64 /\
  (In board_attack_north directions ->
   match square_along E4 (direction_delta board_attack_north) 1 with
   | Some t => Z.land (data_kingtab E4) board_attack_north <> 0 /\
               E4 + board_vector_step board_attack_north = t /\ 0 <= t < 64
   | None => Z.land (data_kingtab E4) board_attack_north = 0
   end) /\
  (In board_attack_north jump_directions ->
   match square_along E4 (jump_delta board_attack_north) 1 with
   | Some t => Z.land (data_knighttab E4) board_attack_north <> 0 /\
               E4 + board_vector_jump board_attack_north = t /\ 0 <= t < 64
   | None => Z.land (data_knighttab E4) board_attack_north = 0
   end).
Proof.
  assert (H : 0 <= E4 < 64) by (unfold E4; lia).
  split; [exact H|]. exact (step_tables_stay_on_board E4 board_attack_north H).
Defined.

Lemma sq2sq_rays_checked :
  forallb (fun a => forallb (fun b => forallb (sq2sq_ray_ok a b) directions) all_squares)
    all_squares = true.
Proof. vm_compute. reflexivity. Qed.

Lemma raylen_checked :
  forallb (fun a => forallb (raylen_ok a) directions) all_squares = true.
Proof. vm_compute. reflexivity. Qed.

Lemma sq2sq_reverse_checked :
  forallb (fun a => forallb (sq2sq_reverse_ok a) all_squares) all_squares = true.
Proof. vm_compute. reflexivity. Qed.

(** The ray bits of data_sq2sq are the queen lines of the board, and
    data_raylen counts their squares: for squares [a] and [b] and a ray
    direction [dir], the bit [dir] is set in [data_sq2sq a b] exactly when
    [b] is one to seven steps from [a] in that direction; the entry of
    data_raylen for [a] and [dir] is the number of squares in that
    direction; the compact step table agrees with board_vector_step; and
    the ray bits of [data_sq2sq b a] are those of [data_sq2sq a b]
    reversed. *)
Theorem sq2sq_rays_are_queen_lines :
  forall a b dir,
    0 <= a < 64 -> 0 <= b < 64 -> In dir directions ->
    (Z.land (data_sq2sq a b) dir <> 0 <-> on_ray a dir b = true) /\
    data_raylen a (DEBRUIJN_INDEX dir) = ray_length a dir /\
    board_vector_step_compact (DEBRUIJN_INDEX dir) = board_vector_step dir /\
    Z.land (data_sq2sq b a) BOARD_ATTACK_QUEEN =
      BOARD_ATTACK_REVERSE (Z.land (data_sq2sq a b) BOARD_ATTACK_QUEEN).
Proof.
  intros a b dir Ha Hb Hdir.
  pose proof (forallb_squares _ a sq2sq_rays_checked Ha) as H1.
  pose proof (forallb_squares _ b H1 Hb) as H2.
  rewrite forallb_forall in H2. specialize (H2 dir Hdir).
  pose proof (forallb_squares _ a raylen_checked Ha) as H3.
  rewrite forallb_forall in H3. specialize (H3 dir Hdir).
  pose proof (forallb_squares _ a sq2sq_reverse_checked Ha) as H4.
  pose proof (forallb_squares _ b H4 Hb) as H5.
  unfold sq2sq_ray_ok in H2. unfold raylen_ok in H3. unfold sq2sq_reverse_ok in H5.
  apply andb_true_iff in H3. destruct H3 as [H3 H3'].
  apply Z.eqb_eq in H3, H3', H5. apply Bool.eqb_prop in H2.
  split; [|auto].
  rewrite <- H2. rewrite negb_true_iff, Z.eqb_neq. tauto.
Qed.

Lemma sq2sq_rays_are_queen_lines_witness :
  0 <= A1 < 64 /\ 0 <= H8 < 64 /\ In board_attack_northeast directions /\
  (Z.land (data_sq2sq A1 H8) board_attack_northeast <> 0 <->
   on_ray A1 board_attack_northeast H8 = true) /\
  data_raylen A1 (DEBRUIJN_INDEX board_attack_northeast) =
    ray_length A1 board_attack_northeast /\
  board_vector_step_compact (DEBRUIJN_INDEX board_attack_northeast) =
    board_vector_step board_attack_northeast /\
  Z.land (data_sq2sq H8 A1) BOARD_ATTACK_QUEEN =
    BOARD_ATTACK_REVERSE (Z.land (data_sq2sq A1 H8) BOARD_ATTACK_QUEEN).
Proof.
  assert (Ha : 0 <= A1 < 64) by (unfold A1; lia).
  assert (Hb : 0 <= H8 < 64) by (unfold H8; lia).
  assert (Hd : In board_attack_northeast directions) by (simpl; auto).
  split; [exact Ha|]. split; [exact Hb|]. split; [exact Hd|].
  exact (sq2sq_rays_are_queen_lines A1 H8 board_attack_northeast Ha Hb Hd).
Defined.

Lemma move_words_checked :
  forallb (fun from => forallb (move_word_ok from) all_squares) all_squares = true.
Proof. vm_compute. reflexivity. Qed.

(** A move word survives the trip through the move record: for squares
    [from] and [to] of the board, the word that the GENERATE_ macros store
    in the [short] field of the record decodes to [from] and [to] again,
    and the record keeps the move maker it was given. *)
Theorem stored_move_decodes :
  forall bd from to prescore make,
    0 <= from < 64 -> 0 <= to < 64 ->
    let m := store_move bd (MOVE from to) prescore make in
    MOVE_FROM (bm_move m) = from /\ MOVE_TO (bm_move m) = to /\ bm_make m = make.
Proof.
  intros bd from to prescore make Hf Ht m.
  pose proof (forallb_squares _ from move_words_checked Hf) as H1.
  pose proof (forallb_squares _ to H1 Ht) as H2.
  unfold move_word_ok in H2. apply andb_true_iff in H2. destruct H2 as [Ha Hb].
  apply Z.eqb_eq in Ha, Hb. auto.
Qed.

Lemma stored_move_decodes_witness :
  0 <= E2 < 64 /\ 0 <= E4 < 64 /\
  (let m := store_move start_position (MOVE E2 E4) EXCHANGE_NEUTRAL
              fn_move_white_pawn_rank2_to_4 in
   MOVE_FROM (bm_move m) = E2 /\ MOVE_TO (bm_move m) = E4 /\
   bm_make m = fn_move_white_pawn_rank2_to_4).
Proof.
  assert (Ha : 0 <= E2 < 64) by (unfold E2; lia).
  assert (Hb : 0 <= E4 < 64) by (unfold E4; lia).
  split; [exact Ha|]. split; [exact Hb|].
  exact (stored_move_decodes start_position E2 E4 EXCHANGE_NEUTRAL
           fn_move_white_pawn_rank2_to_4 Ha Hb).
Defined.


Lemma bits_do_while_fold {S : Type} (body : Z -> S -> S) fuel dir dirs s :
  bits_do_while fuel body dir dirs s
  = fold_left (fun s d => body d s) (bits_list fuel dir dirs) s.
Proof.
  revert dir dirs s. induction fuel as [|n IH]; intros dir dirs s; [reflexivity|].
  cbn [bits_do_while bits_list]. cbv zeta.
  cbn [fold_left].
  destruct (dirs - Z.land (dir - dirs) dirs =? 0); [reflexivity|].
  apply IH.
Qed.

Lemma xor_ray_fold fuel bd dir vector to len side :
  xor_ray fuel bd dir vector to len side
  = toggles (map (fun t => (t, dir)) (ray_squares fuel bd vector to len)) side.
Proof.
  revert to len side. induction fuel as [|n IH]; intros to len side; [reflexivity|].
  cbn [xor_ray ray_squares]. cbv zeta. unfold toggles. cbn [map fold_left].
  destruct (negb (piece_eqb (piece_at bd (to + vector)) board_empty)); [reflexivity|].
  destruct (len - 1 =? 0); [reflexivity|].
  apply IH.
Qed.

Lemma set_attacks_same side : set_attacks (attacks side) side = side.
Proof. destruct side; reflexivity. Qed.

Lemma zset_zget_same (l : list Z) i : zset l i (zget 0 l i) = l.
Proof.
  destruct (Z_lt_dec i 0) as [Hn|Hn];
    [apply zset_oob; lia|].
  destruct (Z_lt_dec i (Z.of_nat (length l))) as [Hl|Hl];
    [|apply zset_oob; lia].
  unfold zset, zget.
  destruct (i <? 0) eqn:Hi; [apply Z.ltb_lt in Hi; lia|].
  destruct (l !! Z.to_nat i) eqn:Hlk.
  - simpl. apply list_insert_id. exact Hlk.
  - apply lookup_ge_None_1 in Hlk. lia.
Qed.

Lemma zset_comm {A} (l : list A) i j v w :
  i <> j -> zset (zset l i v) j w = zset (zset l j w) i v.
Proof.
  intros Hij. unfold zset.
  destruct (i <? 0) eqn:Hi, (j <? 0) eqn:Hj; try reflexivity.
  apply Z.ltb_ge in Hi, Hj.
  apply list_insert_insert_ne. lia.
Qed.

Lemma write_attack_attacks f to side :
  attacks (write_attack f to side) = zset (attacks side) to (f (zget 0 (attacks side) to)).
Proof. reflexivity. Qed.

Lemma side_eq_attacks s t :
  attacks s = attacks t -> bishop_diagonals s = bishop_diagonals t ->
  pieces s = pieces t -> nr_pieces s = nr_pieces t -> color s = color t ->
  last_rank_pawns s = last_rank_pawns t -> s = t.
Proof. destruct s, t; simpl; intros; subst; reflexivity. Qed.

(** Two writes whose value functions commute can be swapped. *)
Lemma write_attack_comm f g a b side :
  (forall v, f (g v) = g (f v)) ->
  write_attack f a (write_attack g b side) = write_attack g b (write_attack f a side).
Proof.
  intros Hfg. apply side_eq_attacks; try reflexivity.
  rewrite !write_attack_attacks.
  destruct (Z.eq_dec a b) as [->|Hab].
  - destruct (Z_lt_dec b 0) as [Hn|Hn];
      [rewrite !(zset_oob _ b) by lia; reflexivity|].
    destruct (Z_lt_dec b (Z.of_nat (length (attacks side)))) as [Hl|Hl];
      [|rewrite !(zset_oob (attacks side) b) by lia; reflexivity].
    rewrite !zget_zset_eq by lia. rewrite !zset_zset. f_equal. apply Hfg.
  - rewrite (zget_zset_ne 0 _ b a) by auto.
    rewrite (zget_zset_ne 0 _ a b) by auto.
    apply zset_comm. auto.
Qed.

(** A write followed by the inverse write restores the side, provided the
    inverse undoes the value stored in the array. *)
Lemma write_attack_inverse f g a side :
  g (f (attack_at side a)) = attack_at side a ->
  write_attack g a (write_attack f a side) = side.
Proof.
  intros Hgf. apply side_eq_attacks; try reflexivity.
  rewrite !write_attack_attacks.
  destruct (Z_lt_dec a 0) as [Hn|Hn];
    [rewrite !(zset_oob _ a) by lia; reflexivity|].
  destruct (Z_lt_dec a (Z.of_nat (length (attacks side)))) as [Hl|Hl];
    [|rewrite !(zset_oob (attacks side) a) by lia; reflexivity].
  rewrite zget_zset_eq by lia. rewrite zset_zset.
  unfold attack_at in Hgf. rewrite Hgf. apply zset_zget_same.
Qed.

Lemma toggle_comm p q side : toggle p (toggle q side) = toggle q (toggle p side).
Proof.
  unfold toggle. apply write_attack_comm. intros v.
  rewrite !Z.lxor_assoc. f_equal. apply Z.lxor_comm.
Qed.

Lemma toggle_toggle p side : toggle p (toggle p side) = side.
Proof.
  unfold toggle. apply write_attack_inverse.
  rewrite Z.lxor_assoc, Z.lxor_nilpotent. apply Z.lxor_0_r.
Qed.

Lemma toggles_toggle_comm l p side :
  toggles l (toggle p side) = toggle p (toggles l side).
Proof.
  revert side. induction l as [|q l IH]; intros side; [reflexivity|].
  unfold toggles in *. cbn [fold_left].
  rewrite (toggle_comm q p). apply IH.
Qed.

Lemma toggles_app l1 l2 side : toggles (l1 ++ l2) side = toggles l2 (toggles l1 side).
Proof. unfold toggles. apply fold_left_app. Qed.

Lemma toggles_twice l side : toggles l (toggles l side) = side.
Proof.
  revert side. induction l as [|p l IH]; intros side; [reflexivity|].
  change (toggles (p :: l) side) with (toggles l (toggle p side)).
  change (toggles (p :: l) (toggles l (toggle p side)))
    with (toggles l (toggle p (toggles l (toggle p side)))).
  rewrite <- (toggles_toggle_comm l p (toggle p side)).
  rewrite toggle_toggle. apply IH.
Qed.

(** The three kinds of xor update are folds of toggles whose squares and
    bits do not depend on the attack board they modify. *)
Lemma attack_xor_rays_toggles bd sq dirs side :
  attack_xor_rays bd sq dirs side
  = toggles
      (concat (map (fun dir =>
                 map (fun t => (t, dir))
                   (ray_squares 8 bd (board_vector_step dir) sq
                      (data_raylen sq (DEBRUIJN_INDEX dir))))
              (bits_list 32 0 dirs))) side.
Proof.
  unfold attack_xor_rays. rewrite bits_do_while_fold. cbv zeta.
  generalize (bits_list 32 0 dirs). intros l. revert side.
  induction l as [|d l IH]; intros side; [reflexivity|].
  cbn [fold_left map concat]. rewrite toggles_app, IH, xor_ray_fold. reflexivity.
Qed.

Lemma attack_xor_king_toggles sq side :
  attack_xor_king sq side
  = toggles (map (fun dir => (sq + board_vector_step dir, board_attack_king))
               (bits_list 32 0 (data_kingtab sq))) side.
Proof.
  unfold attack_xor_king. rewrite bits_do_while_fold.
  generalize (bits_list 32 0 (data_kingtab sq)). intros l. revert side.
  induction l as [|d l IH]; intros side; [reflexivity|].
  cbn [fold_left map]. cbv zeta. rewrite IH. reflexivity.
Qed.

Lemma attack_xor_white_pawn_toggles sq side :
  attack_xor_white_pawn sq side
  = toggles ((if sq >=? B1 then [(sq + BOARD_VECTOR_NORTHWEST, board_attack_pawn_west)] else [])
             ++ (if sq <? H1 then [(sq + BOARD_VECTOR_NORTHEAST, board_attack_pawn_east)] else []))
      side.
Proof.
  unfold attack_xor_white_pawn. cbv zeta. rewrite toggles_app.
  destruct (sq >=? B1), (sq <? H1); reflexivity.
Qed.

Lemma attack_xor_black_pawn_toggles sq side :
  attack_xor_black_pawn sq side
  = toggles ((if sq >=? B1 then [(sq + BOARD_VECTOR_SOUTHWEST, board_attack_pawn_west)] else [])
             ++ (if sq <? H1 then [(sq + BOARD_VECTOR_SOUTHEAST, board_attack_pawn_east)] else []))
      side.
Proof.
  unfold attack_xor_black_pawn. cbv zeta. rewrite toggles_app.
  destruct (sq >=? B1), (sq <? H1); reflexivity.
Qed.

(** X: the xor updates of attack.c are their own inverses.  Applying
    attack_xor_rays twice with the same board, square and directions, or
    attack_xor_king, attack_xor_white_pawn or attack_xor_black_pawn twice
    with the same square, gives back the side one started from. *)
Theorem attack_xor_updates_are_involutions (bd : board) (sq dirs : Z)
    (side : board_side) :
  attack_xor_rays bd sq dirs (attack_xor_rays bd sq dirs side) = side /\
  attack_xor_king sq (attack_xor_king sq side) = side /\
  attack_xor_white_pawn sq (attack_xor_white_pawn sq side) = side /\
  attack_xor_black_pawn sq (attack_xor_black_pawn sq side) = side.
Proof.
  rewrite !attack_xor_rays_toggles, !attack_xor_king_toggles,
    !attack_xor_white_pawn_toggles, !attack_xor_black_pawn_toggles.
  rewrite !toggles_twice. auto.
Qed.

Lemma short_of_idem x : -32768 <= x < 32768 -> short_of x = x.
Proof. intros H. unfold short_of. rewrite Z.mod_small; lia. Qed.

Lemma short_of_add_sub v k : short_of (short_of (v + k) - k) = short_of v.
Proof.
  unfold short_of. f_equal.
  replace ((v + k + 32768) mod 65536 - 32768 - k + 32768)
    with ((v + k + 32768) mod 65536 - k) by lia.
  rewrite Zminus_mod_idemp_l. f_equal. lia.
Qed.

Lemma short_of_sub_add v k : short_of (short_of (v - k) + k) = short_of v.
Proof.
  unfold short_of. f_equal.
  replace ((v - k + 32768) mod 65536 - 32768 + k + 32768)
    with ((v - k + 32768) mod 65536 + k) by lia.
  rewrite Zplus_mod_idemp_l. f_equal. lia.
Qed.

Lemma sub_add_knight_comm a b side :
  sub_knight a (add_knight b side) = add_knight b (sub_knight a side).
Proof.
  unfold sub_knight, add_knight. apply write_attack_comm. intros v.
  rewrite short_of_add_sub, short_of_sub_add. reflexivity.
Qed.

Lemma sub_knight_fold_add l a side :
  sub_knight a (fold_left (fun s t => add_knight t s) l side)
  = fold_left (fun s t => add_knight t s) l (sub_knight a side).
Proof.
  revert side. induction l as [|b l IH]; intros side; [reflexivity|].
  cbn [fold_left]. rewrite IH, sub_add_knight_comm. reflexivity.
Qed.

Lemma sub_add_knight_same a side :
  attacks_are_shorts side -> sub_knight a (add_knight a side) = side.
Proof.
  intros Hs. unfold sub_knight, add_knight. apply write_attack_inverse.
  rewrite short_of_add_sub. unfold attack_at.
  destruct (Z_lt_dec a 0) as [Hn|Hn];
    [rewrite zget_oob by lia; reflexivity|].
  destruct (Z_lt_dec a (Z.of_nat (length (attacks side)))) as [Hl|Hl];
    [|rewrite zget_oob by lia; reflexivity].
  apply short_of_idem.
  unfold attacks_are_shorts in Hs. rewrite Forall_lookup in Hs.
  unfold zget. destruct (a <? 0) eqn:Ha; [apply Z.ltb_lt in Ha; lia|].
  destruct (attacks side !! Z.to_nat a) eqn:Hlk; [|apply lookup_ge_None_1 in Hlk; lia].
  simpl. exact (Hs _ _ Hlk).
Qed.

Lemma fold_sub_add_knight l side :
  attacks_are_shorts side ->
  fold_left (fun s t => sub_knight t s) l
    (fold_left (fun s t => add_knight t s) l side) = side.
Proof.
  intros Hs. induction l as [|a l IH]; [reflexivity|].
  cbn [fold_left]. rewrite sub_knight_fold_add.
  rewrite sub_add_knight_same by exact Hs. exact IH.
Qed.

Lemma attack_add_knight_fold sq side :
  attack_add_knight sq side
  = fold_left (fun s t => add_knight t s)
      (map (fun dir => sq + board_vector_jump dir) (bits_list 32 0 (data_knighttab sq))) side.
Proof.
  unfold attack_add_knight. rewrite bits_do_while_fold.
  generalize (bits_list 32 0 (data_knighttab sq)). intros l. revert side.
  induction l as [|d l IH]; intros side; [reflexivity|].
  cbn [fold_left map]. cbv zeta. rewrite IH. reflexivity.
Qed.

Lemma attack_sub_knight_fold sq side :
  attack_sub_knight sq side
  = fold_left (fun s t => sub_knight t s)
      (map (fun dir => sq + board_vector_jump dir) (bits_list 32 0 (data_knighttab sq))) side.
Proof.
  unfold attack_sub_knight. rewrite bits_do_while_fold.
  generalize (bits_list 32 0 (data_knighttab sq)). intros l. revert side.
  induction l as [|d l IH]; intros side; [reflexivity|].
  cbn [fold_left map]. cbv zeta. rewrite IH. reflexivity.
Qed.

(** X: attack_sub_knight undoes attack_add_knight.  On a side whose attack
    entries are C shorts, adding the knight counters around a square and
    then subtracting them around the same square restores the side. *)
Theorem attack_sub_knight_undoes_add (sq : Z) (side : board_side)
    (Hshorts : attacks_are_shorts side) :
  attack_sub_knight sq (attack_add_knight sq side) = side.
Proof.
  rewrite attack_sub_knight_fold.
  etransitivity; [|apply fold_sub_add_knight; exact Hshorts].
  apply (f_equal (fold_left _ _)). apply attack_add_knight_fold.
Qed.

Lemma attack_sub_knight_undoes_add_witness :
  attacks_are_shorts zero_side /\
  attack_sub_knight E4 (attack_add_knight E4 zero_side) = zero_side.
Proof.
  assert (H : attacks_are_shorts zero_side).
  { unfold attacks_are_shorts. apply Forall_forall. intros v Hv.
    unfold zero_side, attacks, zeros in Hv.
    apply elem_of_replicate in Hv. lia. }
  split; [exact H | apply (attack_sub_knight_undoes_add E4 zero_side H)].
Defined.


Lemma cached_value_divides x : (256 | Z.shiftr (Z.land x 0xf000) 4).
Proof.
  assert (H : Z.land (Z.land x 0xf000) 0x0fff = 0).
  { rewrite <- Z.land_assoc. change (Z.land 0xf000 0x0fff) with 0. apply Z.land_0_r. }
  rewrite land_ones_12 in H.
  rewrite Z.shiftr_div_pow2 by lia. change (2 ^ 4) with 16.
  exists (Z.land x 0xf000 / 4096).
  apply Z.mod_divide in H; [|lia]. destruct H as [q Hq]. rewrite Hq.
  rewrite Z.div_mul by lia.
  replace (q * 4096) with (q * 256 * 16) by lia. rewrite Z.div_mul by lia. reflexivity.
Qed.

Lemma victim_value_divides i : (256 | victim_value i).
Proof.
  unfold victim_value, zget.
  destruct (i <? 0); [exists 0; reflexivity|].
  destruct (Z.to_nat i) as [|[|[|[|n]]]]; cbn.
  - exists 1; reflexivity.
  - exists 3; reflexivity.
  - exists 5; reflexivity.
  - exists 9; reflexivity.
  - exists 0; reflexivity.
Qed.

Lemma next_capturer_divides result defenders :
  (256 | result) -> (256 | fst (next_capturer result defenders)).
Proof.
  intros Hr. unfold next_capturer.
  destruct (negb _); [destruct (_ =? 0); [|destruct (_ =? 1)]|]; cbn [fst]; auto.
  all: apply Z.divide_add_r; [exact Hr | exists 8; reflexivity].
Qed.

Lemma clip_divides result :
  (256 | result) ->
  (256 | if result >? 14 * EXCHANGE_UNIT then 14 * EXCHANGE_UNIT else result).
Proof.
  intros Hr. destruct (result >? 14 * EXCHANGE_UNIT); [exists 14; reflexivity | exact Hr].
Qed.

Lemma stand_pat_divides result :
  (256 | result) -> (256 | if result <? 0 then 0 else result).
Proof. intros Hr. destruct (result <? 0); [exists 0; reflexivity | exact Hr]. Qed.

Lemma units_keep_their_bits :
  forallb (fun k => Z.land (256 * k) 0xf00 =? 256 * k) (seqZ 0 15) = true.
Proof. vm_compute. reflexivity. Qed.

Lemma land_lxor_distr a b c : Z.land (Z.lxor a b) c = Z.lxor (Z.land a c) (Z.land b c).
Proof.
  apply Z.bits_inj'. intros n _.
  rewrite Z.land_spec, !Z.lxor_spec, !Z.land_spec.
  destruct (Z.testbit a n), (Z.testbit b n), (Z.testbit c n); reflexivity.
Qed.

(** The word the function stores is found again by the lookup. *)
Lemma stored_entry_hit result defenders :
  0 <= result <= 14 * EXCHANGE_UNIT -> (256 | result) ->
  let v := Z.land (Z.lor (Z.shiftl result 4) (Z.land defenders 0x0fff)) 0xffff in
  Z.land (Z.lxor v defenders) 0x0fff = 0 /\ Z.shiftr (Z.land v 0xf000) 4 = result.
Proof.
  intros Hr [k Hk]. cbv zeta. unfold EXCHANGE_UNIT in Hr.
  assert (Hlow : Z.land (Z.shiftl result 4) 0x0fff = 0).
  { rewrite land_ones_12, Z.shiftl_mul_pow2 by lia. subst result.
    replace (k * 256 * 2 ^ 4) with (k * 4096) by lia. apply Z.mod_mul. lia. }
  assert (Hs0 : Z.land (Z.land defenders 0x0fff) 0xf000 = 0).
  { rewrite <- Z.land_assoc. apply Z.land_0_r. }
  split.
  - rewrite land_lxor_distr.
    rewrite <- Z.land_assoc. change (Z.land 0xffff 0x0fff) with 0x0fff.
    rewrite Z.land_lor_distr_l, Hlow, Z.lor_0_l.
    rewrite <- Z.land_assoc. change (Z.land 0x0fff 0x0fff) with 0x0fff.
    apply Z.lxor_nilpotent.
  - rewrite <- Z.land_assoc. change (Z.land 0xffff 0xf000) with 0xf000.
    rewrite Z.land_lor_distr_l, Hs0, Z.lor_0_r.
    change 0xf000 with (Z.shiftl 0xf00 4).
    rewrite <- Z.shiftl_land, Z.shiftr_shiftl_l by lia.
    rewrite Z.sub_diag, Z.shiftl_0_r.
    pose proof (forallb_seqZ _ _ _ units_keep_their_bits k ltac:(lia)) as H.
    cbv beta in H. apply Z.eqb_eq in H. subst result.
    rewrite (Z.mul_comm k 256). exact H.
Qed.

Lemma table_hit_store t defenders attackers result :
  0 <= result <= 14 * EXCHANGE_UNIT -> (256 | result) ->
  table_hit
    (table_store t
       (Z.lxor (Z.lxor (Z.shiftl (Z.land defenders 0x0fff) 3) defenders) attackers)
       (Z.land (Z.lor (Z.shiftl result 4) (Z.land defenders 0x0fff)) 0xffff))
    defenders attackers result.
Proof.
  intros Hr Hd. unfold table_hit, table_store. cbv zeta.
  rewrite Z.eqb_refl. apply stored_entry_hit; assumption.
Qed.

(** One level of the evaluation: the value is a whole number of units
    and, unless the defenders are the bare LAST_RANK flag, the table holds
    it afterwards. *)
Lemma exchange_evaluate_body_memo recurse defenders attackers w :
  (defenders <> EXCHANGE_LAST_RANK -> Z.land attackers 0x1fff <> 0 ->
   forall w', (256 | fst (run (recurse (Z.land attackers 0x1fff)
                     (snd (next_capturer (victim_value (Z.shiftr attackers 13)) defenders)))
                     w'))) ->
  (256 | fst (run (exchange_evaluate_body recurse defenders attackers) w)) /\
  (defenders <> EXCHANGE_LAST_RANK ->
   table_hit (w_exchange_table (snd (run (exchange_evaluate_body recurse defenders attackers) w)))
     defenders attackers
     (fst (run (exchange_evaluate_body recurse defenders attackers) w))).
Proof.
  intros IH. unfold exchange_evaluate_body.
  cbv zeta. unfold get_table, count_miss, put_table. simpl run.
  destruct (Z.land (Z.lxor _ defenders) 0x0fff =? 0) eqn:Hhit; simpl run.
  { cbn [fst snd]. split; [apply cached_value_divides|].
    intros _. split; [apply Z.eqb_eq; exact Hhit | reflexivity]. }
  destruct (Z.eqb_spec defenders EXCHANGE_LAST_RANK) as [Heq|Hne]; simpl run.
  { cbn [fst snd]. split; [exists 0; reflexivity | intros H; contradiction]. }
  pose proof (next_capturer_value (victim_value (Z.shiftr attackers 13)) defenders
                (proj1 (victim_value_bounds _))) as Hv.
  pose proof (next_capturer_divides (victim_value (Z.shiftr attackers 13)) defenders
                (victim_value_divides _)) as Hdv.
  specialize (IH Hne).
  destruct (next_capturer _ defenders) as [result defenders'] eqn:Hnc.
  cbn [fst snd] in *.
  destruct (Z.eqb_spec (Z.land attackers 0x1fff) 0) as [Ha|Ha]; cbn [negb].
  - rewrite run_bind. simpl run. cbn [fst snd w_exchange_table].
    split; [apply clip_divides; exact Hdv|].
    intros _. apply table_hit_store; [apply clip_bounds; exact Hv | apply clip_divides; exact Hdv].
  - rewrite 2 run_bind.
    specialize (IH Ha).
    match goal with
    | |- context [run (recurse ?d ?a) ?w0] =>
        pose proof (IH w0) as Hreply;
        destruct (run (recurse d a) w0) as [reply w1]
    end.
    cbn [fst snd] in *. simpl run. cbn [fst snd w_exchange_table].
    assert (Hc : 0 <= (if result - reply <? 0 then 0 else result - reply))
      by (destruct (Z.ltb_spec (result - reply) 0); lia).
    assert (Hd : (256 | if result - reply <? 0 then 0 else result - reply))
      by (apply stand_pat_divides, Z.divide_sub_r; assumption).
    split; [apply clip_divides; exact Hd|].
    intros _. apply table_hit_store; [apply clip_bounds; exact Hc | apply clip_divides; exact Hd].
Qed.

Lemma exchange_evaluate_rec_divides n :
  forall defenders attackers w,
    0 < defenders <= 0x1fff -> 0 <= attackers <= 0x7fff ->
    defenders mod 4096 + attackers mod 4096 < Z.of_nat n ->
    (256 | fst (run (exchange_evaluate_rec n defenders attackers) w)).
Proof.
  induction n as [|n IH]; intros defenders attackers w Hd Ha Hmu.
  { pose proof (Z.mod_pos_bound defenders 4096). pose proof (Z.mod_pos_bound attackers 4096).
    lia. }
  cbn [exchange_evaluate_rec].
  apply exchange_evaluate_body_memo. intros Hne Hnz w'.
  destruct (next_capturer_decreases (victim_value (Z.shiftr attackers 13)) defenders Hd Hne)
    as [Hrange Hdec].
  apply IH; auto; try lia.
  - rewrite land_ones_13 in *. pose proof (Z.mod_pos_bound attackers 8192). lia.
  - rewrite land_ones_13.
    replace ((attackers mod 8192) mod 4096) with (attackers mod 4096); [lia|].
    clear. Z.div_mod_to_equations. lia.
Qed.

(** X: exchange_evaluate_fn memoises its result.  For valid piece-set
    words whose defenders are not the bare LAST_RANK flag, calling the
    function a second time on the state the first call left returns the
    same value and changes nothing: the lookup hits, so the miss counter
    and the table stay as they are. *)
Theorem exchange_evaluate_fn_is_memoised :
  forall defenders attackers w,
    valid_piece_sets defenders attackers ->
    defenders <> EXCHANGE_LAST_RANK ->
    run (exchange_evaluate_fn defenders attackers)
      (snd (run (exchange_evaluate_fn defenders attackers) w))
    = run (exchange_evaluate_fn defenders attackers) w.
Proof.
  intros defenders attackers w Hv Hne.
  destruct (valid_piece_sets_ranges _ _ Hv) as [Hd Ha].
  unfold exchange_evaluate_fn, exchange_fuel. cbn [exchange_evaluate_rec].
  set (n := Z.to_nat _).
  assert (Hn : Z.land attackers 0x1fff <> 0 ->
               forall w', (256 | fst (run (exchange_evaluate_rec n (Z.land attackers 0x1fff)
                     (snd (next_capturer (victim_value (Z.shiftr attackers 13)) defenders)))
                     w'))).
  { intros Hnz w'.
    destruct (next_capturer_decreases (victim_value (Z.shiftr attackers 13)) defenders Hd Hne)
      as [Hrange Hdec].
    apply exchange_evaluate_rec_divides; auto.
    - rewrite land_ones_13 in *. pose proof (Z.mod_pos_bound attackers 8192). lia.
    - subst n. rewrite !land_ones_12, land_ones_13.
      replace ((attackers mod 8192) mod 4096) with (attackers mod 4096)
        by (clear; Z.div_mod_to_equations; lia).
      pose proof (Z.mod_pos_bound defenders 4096). pose proof (Z.mod_pos_bound attackers 4096).
      lia. }
  destruct (exchange_evaluate_body_memo (exchange_evaluate_rec n) defenders attackers w
              (fun _ => Hn)) as [_ Hhit].
  specialize (Hhit Hne).
  destruct (run (exchange_evaluate_body (exchange_evaluate_rec n) defenders attackers) w)
    as [r w1].
  cbn [fst snd] in *. destruct Hhit as [Hlow Hval].
  unfold table_hit in Hlow, Hval. cbv zeta in Hlow, Hval.
  unfold exchange_evaluate_body. cbv zeta. unfold get_table. simpl run.
  rewrite Hlow. rewrite Z.eqb_refl. simpl run. rewrite Hval. reflexivity.
Qed.

Lemma exchange_evaluate_fn_is_memoised_witness :
  valid_piece_sets 1 0x2001 /\ 1 <> EXCHANGE_LAST_RANK /\
  run (exchange_evaluate_fn 1 0x2001)
    (snd (run (exchange_evaluate_fn 1 0x2001) (initial_world board_create)))
  = run (exchange_evaluate_fn 1 0x2001) (initial_world board_create).
Proof.
  assert (Hv : valid_piece_sets 1 0x2001) by (repeat split; discriminate).
  assert (Hne : 1 <> EXCHANGE_LAST_RANK) by discriminate.
  split; [exact Hv|]. split; [exact Hne|].
  exact (exchange_evaluate_fn_is_memoised 1 0x2001 (initial_world board_create) Hv Hne).
Defined.


Lemma board_is_eq r b : board_is r b -> b = r.
Proof. intros H. exact H. Qed.

Lemma made_from_trans b0 b1 b2 : made_from b0 b1 -> made_from b1 b2 -> made_from b0 b2.
Proof.
  intros H01 H12. induction H12; [exact H01 | |]; constructor; assumption.
Qed.

(** The attack updates change the attack board of a side and nothing else
    of it. *)
Lemma color_toggles l s : color (toggles l s) = color s.
Proof.
  revert s. induction l as [|p l IH]; intros s; [reflexivity|].
  change (toggles (p :: l) s) with (toggles l (toggle p s)). rewrite IH. reflexivity.
Qed.

Lemma color_attack_xor_rays bd sq dirs s : color (attack_xor_rays bd sq dirs s) = color s.
Proof. rewrite attack_xor_rays_toggles. apply color_toggles. Qed.

Lemma color_attack_xor_king sq s : color (attack_xor_king sq s) = color s.
Proof. rewrite attack_xor_king_toggles. apply color_toggles. Qed.

Lemma color_attack_xor_white_pawn sq s : color (attack_xor_white_pawn sq s) = color s.
Proof. rewrite attack_xor_white_pawn_toggles. apply color_toggles. Qed.

Lemma color_attack_xor_black_pawn sq s : color (attack_xor_black_pawn sq s) = color s.
Proof. rewrite attack_xor_black_pawn_toggles. apply color_toggles. Qed.

Lemma color_fold_write (f : Z -> Z) l s :
  color (fold_left (fun s t => write_attack f t s) l s) = color s.
Proof.
  revert s. induction l as [|t l IH]; intros s; [reflexivity|].
  cbn [fold_left]. rewrite IH. reflexivity.
Qed.

Lemma color_attack_add_knight sq s : color (attack_add_knight sq s) = color s.
Proof. rewrite attack_add_knight_fold. apply color_fold_write. Qed.

Lemma color_attack_sub_knight sq s : color (attack_sub_knight sq s) = color s.
Proof. rewrite attack_sub_knight_fold. apply color_fold_write. Qed.

Ltac tidy_tac :=
  intros ?;
  repeat match goal with
         | Hv : ?g = _ |- context [?g] => is_var g; rewrite Hv
         end;
  cbv beta iota;
  cbn [active passive node_counter color
       set_active set_passive set_undo_len set_undo set_node_counter set_halfmove_clock
       set_en_passant_lazy set_en_passant_node_counter set_board_hash_lazy
       set_pawn_king_hash set_material_key
       set_attacks set_bishop_diagonals set_pieces set_nr_pieces set_last_rank_pawns
       set_piece_sq set_attack];
  repeat match goal with
         | |- context [color (attack_xor_rays ?a ?b ?c ?s)] =>
             rewrite (color_attack_xor_rays a b c s)
         | |- context [color (attack_xor_king ?a ?s)] =>
             rewrite (color_attack_xor_king a s)
         | |- context [color (attack_xor_white_pawn ?a ?s)] =>
             rewrite (color_attack_xor_white_pawn a s)
         | |- context [color (attack_xor_black_pawn ?a ?s)] =>
             rewrite (color_attack_xor_black_pawn a s)
         | |- context [color (attack_add_knight ?a ?s)] =>
             rewrite (color_attack_add_knight a s)
         | |- context [color (attack_sub_knight ?a ?s)] =>
             rewrite (color_attack_sub_knight a s)
         end;
  repeat split; reflexivity.

Lemma made_promote_knight_sort b0 fuel own to knight index bd :
  made_from b0 bd -> made_from b0 (promote_knight_sort fuel own to knight index bd).
Proof.
  revert knight bd. induction fuel as [|fuel IH]; intros knight bd H; simpl; auto.
  destruct (knight <? index); auto.
  destruct (piece_eqb _ own); auto.
  unfold upd_passive, set_index, PUSH_UNDO. cbv zeta.
  repeat first [ apply made_set_square | apply made_upd_cur; [tidy_tac|] ]. exact H.
Qed.

Lemma made_disable_castle_rook b0 rook_sq rook_castle rook z1 z2 bd delta :
  made_from b0 bd ->
  made_from b0 (fst (disable_castle_rook rook_sq rook_castle rook z1 z2 (bd, delta))).
Proof.
  intros H. unfold disable_castle_rook.
  destruct (piece_eqb _ rook_castle); simpl; auto.
  unfold pawn_king_xor, set_piece, PUSH_UNDO. cbv zeta.
  repeat first [ apply made_set_square | apply made_upd_cur; [tidy_tac|] ]. exact H.
Qed.

Ltac made_steps :=
  lazymatch goal with
  | H : made_from ?b0 ?bd |- made_from ?b0 ?bd => exact H
  | |- made_from ?b0 ?b0 => constructor
  | |- made_from ?b0 (let x := ?e in @?body x) =>
      apply (let_step (made_from b0) e body);
      let x' := fresh "x" in
      let Hx := fresh "Hx" in
      intros x' Hx; cbv beta;
      first [ assert (made_from b0 x') by (rewrite Hx; made_steps); clear Hx | idtac ];
      made_steps
  | |- made_from ?b0 (match ?e with pair _ _ => _ end) =>
      lazymatch e with
      | disable_castle_rook ?a1 ?a2 ?a3 ?a4 ?a5 (?bd, ?d) =>
          let Hd := fresh "Hd" in
          assert (Hd : made_from b0 (fst e))
            by (apply made_disable_castle_rook; made_steps);
          destruct e; cbn [fst] in Hd; made_steps
      | (if ?cond then _ else _) => destruct cond; made_steps
      | pair _ _ => cbv beta iota; made_steps
      | _ =>
          lazymatch goal with
          | |- made_from _
                 (match (let x := ?e1 in @?inner x) with pair u v => @?K u v end) =>
              apply (let_step
                       (fun r => made_from b0 (match r with pair u v => K u v end))
                       e1 inner);
              let x' := fresh "x" in
              let Hx := fresh "Hx" in
              intros x' Hx; cbv beta;
              first [ assert (made_from b0 x') by (rewrite Hx; made_steps); clear Hx
                    | idtac ];
              made_steps
          end
      end
  | |- made_from _ (match ?e with _ => _ end) => destruct e; made_steps
  | |- made_from _ (set_square _ _ _) => apply made_set_square; made_steps
  | |- made_from _ (upd_cur _ _) => apply made_upd_cur; [tidy_tac | made_steps]
  | |- made_from _ (promote_knight_sort _ _ _ _ _ _) =>
      apply made_promote_knight_sort; made_steps
  | |- made_from _ ?e =>
      let h := head_of e in cbv beta delta [h]; made_steps
  end.

Lemma made_take_piece b0 pc sq bd :
  made_from b0 bd -> made_from b0 (take_piece pc sq bd).
Proof. intros H. destruct pc; cbn [take_piece]; made_steps. Qed.

Ltac made_steps ::=
  lazymatch goal with
  | H : made_from ?b0 ?bd |- made_from ?b0 ?bd => exact H
  | |- made_from ?b0 ?b0 => constructor
  | |- made_from ?b0 (let x := ?e in @?body x) =>
      apply (let_step (made_from b0) e body);
      let x' := fresh "x" in
      let Hx := fresh "Hx" in
      intros x' Hx; cbv beta;
      first [ assert (made_from b0 x') by (rewrite Hx; made_steps); clear Hx | idtac ];
      made_steps
  | |- made_from ?b0 (match ?e with pair _ _ => _ end) =>
      lazymatch e with
      | disable_castle_rook ?a1 ?a2 ?a3 ?a4 ?a5 (?bd, ?d) =>
          let Hd := fresh "Hd" in
          assert (Hd : made_from b0 (fst e))
            by (apply made_disable_castle_rook; made_steps);
          destruct e; cbn [fst] in Hd; made_steps
      | (if ?cond then _ else _) => destruct cond; made_steps
      | pair _ _ => cbv beta iota; made_steps
      | _ =>
          lazymatch goal with
          | |- made_from _
                 (match (let x := ?e1 in @?inner x) with pair u v => @?K u v end) =>
              apply (let_step
                       (fun r => made_from b0 (match r with pair u v => K u v end))
                       e1 inner);
              let x' := fresh "x" in
              let Hx := fresh "Hx" in
              intros x' Hx; cbv beta;
              first [ assert (made_from b0 x') by (rewrite Hx; made_steps); clear Hx
                    | idtac ];
              made_steps
          end
      end
  | |- made_from _ (match ?e with _ => _ end) => destruct e; made_steps
  | |- made_from _ (set_square _ _ _) => apply made_set_square; made_steps
  | |- made_from _ (upd_cur _ _) => apply made_upd_cur; [tidy_tac | made_steps]
  | |- made_from _ (promote_knight_sort _ _ _ _ _ _) =>
      apply made_promote_knight_sort; made_steps
  | |- made_from _ (take_piece _ _ _) => apply made_take_piece; made_steps
  | |- made_from _ ?e =>
      let h := head_of e in cbv beta delta [h]; made_steps
  end.

(** Every move maker only writes squares and the current frame. *)
Lemma made_call_make make from to bd : made_from bd (call_make make from to bd).
Proof. destruct make; cbn [call_make]; made_steps. Qed.

Lemma same_but_frame_refl c bd : same_but_frame c bd bd.
Proof. repeat split. Qed.

Lemma same_but_frame_set_square c bd sq v b :
  same_but_frame c bd b -> same_but_frame c bd (set_square sq v b).
Proof. intros H. exact H. Qed.

Lemma same_but_frame_set_current c bd v b :
  same_but_frame c bd b -> same_but_frame c bd (set_current v b).
Proof. intros H. exact H. Qed.

Lemma same_but_frame_upd_frame c bd j f b :
  current b + j = c -> same_but_frame c bd b -> same_but_frame c bd (upd_frame j f b).
Proof.
  intros Hc (H1 & H2 & H3 & H4 & H5 & H6).
  repeat split; try assumption.
  - rewrite length_stack_upd_frame. exact H5.
  - intros k Hk. unfold upd_frame. cbn [stack set_stack].
    rewrite zget_zset_ne by lia. apply H6. exact Hk.
Qed.

Lemma made_from_same_but_frame b0 b :
  made_from b0 b -> current b = current b0 /\ same_but_frame (current b0) b0 b.
Proof.
  induction 1 as [|sq v b _ [IHc IHs]|f b _ _ [IHc IHs]].
  - split; [reflexivity | apply same_but_frame_refl].
  - split; [exact IHc | exact IHs].
  - split; [exact IHc|]. apply same_but_frame_upd_frame; [lia | exact IHs].
Qed.

Lemma prelude_state_upd_frame bd j k f b :
  j + k = 1 -> prelude_state bd j b -> prelude_state bd j (upd_frame k f b).
Proof.
  intros Hjk (Hc & Hs & Hf). split; [exact Hc|]. split; [exact Hs|].
  apply same_but_frame_upd_frame; [cbn in *; lia | exact Hf].
Qed.

Lemma prelude_state_set_current bd b :
  prelude_state bd 0 b -> prelude_state bd 1 (set_current (current b + 1) b).
Proof.
  intros (Hc & Hs & Hf). split; [cbn in *; lia|]. split; [exact Hs | exact Hf].
Qed.

Ltac prelude_step :=
  lazymatch goal with
  | |- prelude_state _ _ (upd_frame _ _ _) =>
      eapply prelude_state_upd_frame; [|eassumption]; lia
  | |- prelude_state _ _ (upd_cur _ _) =>
      unfold upd_cur; eapply prelude_state_upd_frame; [|eassumption]; lia
  | |- prelude_state _ _ (set_current _ _) =>
      eapply prelude_state_set_current; eassumption
  end.

Lemma make_prelude_state move bd : prelude_state bd 1 (make_prelude move bd).
Proof.
  assert (H0 : prelude_state bd 0 bd)
    by (split; [lia | split; [reflexivity | apply same_but_frame_refl]]).
  cbv beta delta [make_prelude].
  repeat lazymatch goal with
  | |- ?P (let y := ?e in @?body y) =>
      apply (let_step P e body);
      let x := fresh "x" in
      let Hx := fresh "Hx" in
      intros x Hx; cbv beta;
      first [ eassert (prelude_state bd _ x) by (rewrite Hx; prelude_step)
            | idtac ];
      clear Hx
  end.
  prelude_step.
Qed.

Lemma make_prelude_same_but_frame move bd :
  current (make_prelude move bd) = current bd + 1 /\
  squares (make_prelude move bd) = squares bd /\
  same_but_frame (current bd + 1) bd (make_prelude move bd).
Proof. exact (make_prelude_state move bd). Qed.

Lemma board_make_move_same_but_frame move bd :
  current (board_make_move move bd) = current bd + 1 /\
  same_but_frame (current bd + 1) bd (board_make_move move bd).
Proof.
  rewrite board_make_move_prelude.
  destruct (made_from_same_but_frame _ _
              (made_call_make (bm_make move) (MOVE_FROM (bm_move move))
                 (MOVE_TO (bm_move move)) (make_prelude move bd))) as [Hc Hs].
  destruct (make_prelude_same_but_frame move bd) as (Pc & _ & Ps).
  split; [lia|].
  rewrite Pc in Hs.
  destruct Hs as (H1 & H2 & H3 & H4 & H5 & H6).
  destruct Ps as (P1 & P2 & P3 & P4 & P5 & P6).
  repeat split; try congruence.
  intros k Hk. rewrite H6 by exact Hk. apply P6. exact Hk.
Qed.

Lemma restore_undo_from_frames fuel i len bd :
  current (restore_undo_from fuel i len bd) = current bd /\
  same_but_frame (current bd + 1) bd (restore_undo_from fuel i len bd) /\
  stack (restore_undo_from fuel i len bd) = stack bd.
Proof.
  revert i bd. induction fuel as [|fuel IH]; intros i bd; cbn [restore_undo_from].
  { repeat split. }
  destruct (i <? len); [|repeat split].
  destruct (IH (i + 1) (restore_undo i bd)) as (Hc & Hs & Hst).
  split; [exact Hc|]. split; [exact Hs | exact Hst].
Qed.

Lemma board_undo_move_frames bd :
  current (board_undo_move bd) = current bd - 1 /\
  stack (board_undo_move bd) = stack bd /\
  butterfly (board_undo_move bd) = butterfly bd /\
  extra_defenders (board_undo_move bd) = extra_defenders bd /\
  game_fullmove_number (board_undo_move bd) = game_fullmove_number bd /\
  game_halfmove_clock_offset (board_undo_move bd) = game_halfmove_clock_offset bd.
Proof.
  unfold board_undo_move. cbv zeta.
  destruct (undo_len (cur bd) >? 2).
  - destruct (restore_undo_from_frames (Z.to_nat (undo_len (cur bd) - 3)) 3
                (undo_len (cur bd)) (restore_undo 2 (restore_undo 1 (restore_undo 0 bd))))
      as (Hc & (H1 & H2 & H3 & H4 & _) & Hst).
    cbn [current set_current stack butterfly extra_defenders game_fullmove_number
         game_halfmove_clock_offset].
    rewrite Hc, Hst, H1, H2, H3, H4. repeat split.
  - repeat split.
Qed.

(** X: a move touches only its own stack frame.  After board_make_move
    and board_undo_move, for any move and any board, the stack pointer is
    back where it was, every stack frame except the one above it is
    unchanged, and so are the butterfly table, the extra_defenders array
    and the game counters. *)
Theorem make_undo_keeps_the_stack :
  forall (move : board_move) (bd : board),
    let made := board_make_move move bd in
    let undone := board_undo_move made in
    current made = current bd + 1 /\
    current undone = current bd /\
    length (stack undone) = length (stack bd) /\
    (forall k, k <> 1 -> frame_at undone k = frame_at bd k) /\
    butterfly undone = butterfly bd /\
    extra_defenders undone = extra_defenders bd /\
    game_fullmove_number undone = game_fullmove_number bd /\
    game_halfmove_clock_offset undone = game_halfmove_clock_offset bd.
Proof.
  intros move bd made undone. subst made undone.
  destruct (board_make_move_same_but_frame move bd)
    as (Hc & H1 & H2 & H3 & H4 & H5 & H6).
  destruct (board_undo_move_frames (board_make_move move bd))
    as (Uc & Ust & U1 & U2 & U3 & U4).
  assert (Hcur : current (board_undo_move (board_make_move move bd)) = current bd) by lia.
  split; [exact Hc|]. split; [exact Hcur|].
  split; [rewrite Ust; exact H5|].
  split.
  { intros k Hk. unfold frame_at. rewrite Hcur, Ust. apply H6. lia. }
  repeat split; congruence.
Qed.

(** *** The new frame *)

Lemma cur_new_frame_of bd fr : frame_in_range bd 1 -> cur (new_frame_of bd fr) = fr.
Proof.
  intros Hr. unfold frame_in_range in Hr. unfold cur, frame_at, new_frame_of.
  cbn [stack current]. rewrite Z.add_0_r. apply zget_zset_eq. lia.
Qed.

(** The frame board_make_move prepares before it calls the move maker *)
Lemma make_prelude_new_frame move bd :
  frame_in_range bd 1 ->
  exists fr,
    make_prelude move bd = new_frame_of bd fr /\
    active fr = passive (cur bd) /\
    passive fr = active (cur bd) /\
    node_counter fr = node_counter (frame_at bd 1) + 1 /\
    undo_len fr = 2 /\
    undo fr = zset (zset (undo (frame_at bd 1)) UNDO_FROM
                      (mk_undo (MOVE_FROM (bm_move move))
                         (square_at bd (MOVE_FROM (bm_move move)))))
                UNDO_TO
                (mk_undo (MOVE_TO (bm_move move))
                   (square_at bd (MOVE_TO (bm_move move)))).
Proof.
  intros Hr. unfold frame_in_range in Hr.
  eexists. split; [apply board_is_eq|].
  { cbv beta delta [make_prelude].
    let_intro frame Hframe.
    let_intro b1 H1.
    assert (E1 : b1 = mk_board (squares bd) (current bd) (butterfly bd)
                        (zset (stack bd) (current bd + 1)
                           (set_passive (active frame) (frame_at bd 1)))
                        (extra_defenders bd) (game_fullmove_number bd)
                        (game_halfmove_clock_offset bd))
      by (rewrite H1; reflexivity).
    clear H1.
    let_intro b2 H2. rewrite E1, upd_frame_on_copy in H2 by (auto; lia). clear E1 b1.
    let_intro b3 H3. rewrite H2, upd_frame_on_copy in H3 by (auto; lia). clear H2 b2.
    let_intro b4 H4. rewrite H3, upd_frame_on_copy in H4 by (auto; lia). clear H3 b3.
    let_intro b5 H5. rewrite H4, upd_frame_on_copy in H5 by (auto; lia). clear H4 b4.
    let_intro b6 H6. rewrite H5 in H6. unfold set_current in H6. cbn in H6. clear H5 b5.
    let_intro b7 H7. unfold upd_cur in H7.
    rewrite H6, upd_frame_on_copy in H7 by (auto; lia). clear H6 b6.
    let_intro from Hfrom. let_intro to Hto.
    let_intro b8 H8. unfold upd_cur in H8.
    assert (Hsq7 : forall s, square_at b7 s = square_at bd s)
      by (intros; rewrite H7; reflexivity).
    rewrite Hsq7 in H8. rewrite H7, upd_frame_on_copy in H8 by (auto; lia).
    clear Hsq7 H7 b7.
    let_intro b9 H9. unfold upd_cur in H9.
    assert (Hsq8 : forall s, square_at b8 s = square_at bd s)
      by (intros; rewrite H8; reflexivity).
    rewrite Hsq8 in H9. rewrite H8, upd_frame_on_copy in H9 by (auto; lia).
    clear Hsq8 H8 b8.
    unfold upd_cur. rewrite H9, upd_frame_on_copy by (auto; lia).
    subst from to frame. unfold board_is, new_frame_of. reflexivity. }
  cbn [active passive node_counter undo undo_len
       set_undo set_undo_len set_node_counter set_halfmove_clock set_material_key
       set_pawn_king_hash set_active set_passive].
  repeat split.
Qed.

Lemma made_from_tidy b0 b :
  frame_in_range b0 0 ->
  made_from b0 b ->
  frame_in_range b 0 /\
  color (active (cur b)) = color (active (cur b0)) /\
  color (passive (cur b)) = color (passive (cur b0)) /\
  node_counter (cur b) = node_counter (cur b0).
Proof.
  intros Hr0. induction 1 as [|sq v b _ IH|f b Hf _ (Hr & H1 & H2 & H3)].
  - repeat split; try reflexivity; apply Hr0.
  - exact IH.
  - rewrite cur_upd_cur. destruct (decide _) as [_|Hn]; [|contradiction].
    destruct (Hf (cur b)) as (F1 & F2 & F3). rewrite F1, F2, F3.
    split; [|repeat split; assumption].
    unfold frame_in_range, upd_cur in *. rewrite length_stack_upd_frame. exact Hr.
Qed.

(** X: a move hands the turn over.  After board_make_move with any move
    maker, on a board whose stack has room for the new frame, the side
    that moved is the passive side of the new frame and the other side
    the active one: the two colours are exchanged.  The node counter of
    the new frame has been incremented once. *)
Theorem make_move_swaps_the_sides :
  forall (move : board_move) (bd : board),
    frame_in_range bd 1 ->
    color (active (cur (board_make_move move bd))) = color (passive (cur bd)) /\
    color (passive (cur (board_make_move move bd))) = color (active (cur bd)) /\
    node_counter (cur (board_make_move move bd)) = node_counter (frame_at bd 1) + 1.
Proof.
  intros move bd Hr. rewrite board_make_move_prelude.
  destruct (make_prelude_new_frame move bd Hr) as (fr & E & Ha & Hp & Hn & _).
  pose proof (cur_new_frame_of bd fr Hr) as Hcur.
  assert (Hr0 : frame_in_range (make_prelude move bd) 0).
  { rewrite E. unfold frame_in_range, new_frame_of in *. cbn [stack current].
    rewrite length_zset. lia. }
  destruct (made_from_tidy _ _ Hr0
              (made_call_make (bm_make move) (MOVE_FROM (bm_move move))
                 (MOVE_TO (bm_move move)) (make_prelude move bd)))
    as (_ & H1 & H2 & H3).
  rewrite H1, H2, H3, E, Hcur, Ha, Hp, Hn. repeat split.
Qed.

Lemma make_move_swaps_the_sides_witness :
  frame_in_range start_position 1 /\
  color (active (cur (board_make_move pawn_e2e4 start_position))) = board_black.
Proof.
  assert (Hr : frame_in_range start_position 1).
  { unfold frame_in_range. vm_compute. split; [discriminate | reflexivity]. }
  split; [exact Hr|].
  destruct (make_move_swaps_the_sides pawn_e2e4 start_position Hr) as (H & _).
  rewrite H. vm_compute. reflexivity.
Defined.

(** *** The undo log of every move maker *)

Lemma undo_le_disable_castle_rook rook_sq rook_castle rook z1 z2 bd delta k :
  undo_le k bd ->
  undo_le (k + 1) (fst (disable_castle_rook rook_sq rook_castle rook z1 z2 (bd, delta))).
Proof.
  intros H. unfold disable_castle_rook.
  destruct (piece_eqb _ rook_castle); cbn [fst].
  - eapply undo_le_weaken; [undo_steps | lia].
  - eapply undo_le_weaken; [exact H | lia].
Qed.

Ltac undo_steps_all :=
  lazymatch goal with
  | |- undo_le ?k (match ?e with pair _ _ => _ end) =>
      lazymatch e with
      | disable_castle_rook ?a1 ?a2 ?a3 ?a4 ?a5 (?bd, ?d) =>
          let Hd := fresh "Hd" in
          eassert (Hd : undo_le _ (fst e))
            by (eapply undo_le_disable_castle_rook; undo_steps_all);
          destruct e; cbn [fst] in Hd; undo_steps_all
      | _ => undo_steps
      end
  | |- undo_le ?k (let x := ?e in @?body x) =>
      apply (let_step (undo_le k) e body);
      let x' := fresh "x" in
      let Hx := fresh "Hx" in
      intros x' Hx; cbv beta;
      first [ eassert (undo_le _ x') by (rewrite Hx; undo_steps_all) | idtac ];
      clear Hx; undo_steps_all
  | H : undo_le ?k0 ?bd |- undo_le _ ?bd => exact H
  | |- undo_le _ (move_white_king _ _ _) => undo_steps
  | |- undo_le _ (move_black_king _ _ _) => undo_steps
  | |- undo_le _ (capture_with_king _ _ _) => undo_steps
  | |- undo_le _ (hash_xor _ _) => undo_steps
  | |- undo_le _ (set_piece _ _ _) => undo_steps
  | |- undo_le _ ?e =>
      let h := head_of e in cbv beta delta [h]; undo_steps_all
  end.

Lemma undo_le_call_make make from to bd :
  undo_le 2 bd -> undo_le 6 (call_make make from to bd).
Proof.
  intros H. destruct make; cbn [call_make].
  all: eapply undo_le_weaken;
    [first [undo_steps | undo_steps_all]
    | lia].
Qed.

(** X: the undo log never overflows.  After board_make_move with any of
    the move makers, on any board and for any move word, the undo log of
    the new frame holds between 0 and BOARD_UNDO_LEN_MAX = 6 entries, so
    every PUSH_UNDO wrote inside the array undo[]. *)
Theorem undo_log_never_overflows :
  forall (move : board_move) (bd : board),
    0 <= undo_len (cur (board_make_move move bd)) <= BOARD_UNDO_LEN_MAX.
Proof.
  intros move bd. rewrite board_make_move_prelude.
  exact (undo_le_call_make (bm_make move) (MOVE_FROM (bm_move move))
           (MOVE_TO (bm_move move)) _ (undo_le_make_prelude move bd)).
Qed.

(** *** The null move *)

Lemma null_prelude_state bd :
  prelude_state bd 1 (board_make_null_move bd).
Proof.
  assert (H0 : prelude_state bd 0 bd)
    by (split; [lia | split; [reflexivity | apply same_but_frame_refl]]).
  cbv beta delta [board_make_null_move].
  repeat lazymatch goal with
  | |- ?P (let y := ?e in @?body y) =>
      apply (let_step P e body);
      let x := fresh "x" in
      let Hx := fresh "Hx" in
      intros x Hx; cbv beta;
      first [ eassert (prelude_state bd _ x) by (rewrite Hx; prelude_step)
            | idtac ];
      clear Hx
  end.
  prelude_step.
Qed.

(** The new frame of a null move, when the stack has room for it. *)
Lemma null_move_frame bd :
  frame_in_range bd 1 ->
  let fr := cur (board_make_null_move bd) in
  active fr = passive (cur bd) /\ passive fr = active (cur bd) /\
  halfmove_clock fr = 1 /\ undo_len fr = 0 /\
  board_hash_lazy fr = u64_not (board_hash_lazy (cur bd)) /\
  pawn_king_hash fr = pawn_king_hash (cur bd) /\
  material_key fr = material_key (cur bd).
Proof.
  intros Hr. unfold frame_in_range in Hr.
  assert (E : board_make_null_move bd =
    mk_board (squares bd) (current bd + 1) (butterfly bd)
      (zset (stack bd) (current bd + 1)
         (set_undo_len 0
            ((fun fr => set_node_counter (node_counter fr + 1) fr)
               (set_halfmove_clock 1
                  (set_material_key (material_key (cur bd))
                     (set_pawn_king_hash (pawn_king_hash (cur bd))
                        (set_board_hash_lazy (u64_not (board_hash_lazy (cur bd)))
                           (set_active (passive (cur bd))
                              (set_passive (active (cur bd)) (frame_at bd 1))))))))))
      (extra_defenders bd) (game_fullmove_number bd) (game_halfmove_clock_offset bd)).
  { apply board_is_eq. cbv beta delta [board_make_null_move].
    let_intro frame Hframe. subst frame.
    let_intro b1 H1.
    assert (E1 : b1 = mk_board (squares bd) (current bd) (butterfly bd)
                        (zset (stack bd) (current bd + 1)
                           (set_passive (active (cur bd)) (frame_at bd 1)))
                        (extra_defenders bd) (game_fullmove_number bd)
                        (game_halfmove_clock_offset bd))
      by (rewrite H1; reflexivity).
    clear H1.
    let_intro b2 H2. rewrite E1, upd_frame_on_copy in H2 by (auto; lia). clear E1 b1.
    let_intro b3 H3. rewrite H2, upd_frame_on_copy in H3 by (auto; lia). clear H2 b2.
    let_intro b4 H4. rewrite H3, upd_frame_on_copy in H4 by (auto; lia). clear H3 b3.
    let_intro b5 H5. rewrite H4, upd_frame_on_copy in H5 by (auto; lia). clear H4 b4.
    let_intro b6 H6. rewrite H5, upd_frame_on_copy in H6 by (auto; lia). clear H5 b5.
    let_intro b7 H7. rewrite H6 in H7. unfold set_current in H7. cbn in H7. clear H6 b6.
    let_intro b8 H8. unfold upd_cur in H8.
    rewrite H7, upd_frame_on_copy in H8 by (auto; lia). clear H7 b7.
    unfold upd_cur. rewrite H8, upd_frame_on_copy by (auto; lia). reflexivity. }
  match type of E with _ = mk_board _ _ _ (zset _ _ ?fr) _ _ _ =>
    assert (Hcur : cur (board_make_null_move bd) = fr)
  end.
  { rewrite E. unfold cur at 1. unfold frame_at at 1. cbn [stack current].
    rewrite Z.add_0_r. apply zget_zset_eq. lia. }
  cbv zeta. rewrite Hcur. cbn. repeat split.
Qed.

Lemma undo_null_move_after bd made :
  prelude_state bd 1 made ->
  squares (board_undo_null_move made) = squares bd /\
  current (board_undo_null_move made) = current bd /\
  (forall k, k <> 1 -> frame_at (board_undo_null_move made) k = frame_at bd k) /\
  butterfly (board_undo_null_move made) = butterfly bd /\
  extra_defenders (board_undo_null_move made) = extra_defenders bd /\
  game_fullmove_number (board_undo_null_move made) = game_fullmove_number bd /\
  game_halfmove_clock_offset (board_undo_null_move made) = game_halfmove_clock_offset bd.
Proof.
  intros (Hc & Hs & H1 & H2 & H3 & H4 & H5 & H6).
  unfold board_undo_null_move.
  split; [exact Hs|].
  split; [cbn [current set_current]; lia|].
  split.
  { intros k Hk. unfold frame_at. cbn [current set_current stack].
    rewrite Hc. replace (current bd + 1 - 1 + k) with (current bd + k) by lia.
    apply H6. lia. }
  repeat split; assumption.
Qed.

(** X: the null move and its undo.  board_make_null_move leaves the
    squares alone, swaps the two sides into a new frame with halfmove
    clock 1, an empty undo log and the complemented hash, and
    board_undo_null_move then gives back the board it started from, up to
    the contents of the stack frame above the stack pointer. *)
Theorem null_move_round_trip :
  forall (bd : board),
    frame_in_range bd 1 ->
    (squares (board_make_null_move bd) = squares bd /\
     current (board_make_null_move bd) = current bd + 1 /\
     active (cur (board_make_null_move bd)) = passive (cur bd) /\
     passive (cur (board_make_null_move bd)) = active (cur bd) /\
     halfmove_clock (cur (board_make_null_move bd)) = 1 /\
     undo_len (cur (board_make_null_move bd)) = 0 /\
     board_hash_lazy (cur (board_make_null_move bd)) = u64_not (board_hash_lazy (cur bd))) /\
    (squares (board_undo_null_move (board_make_null_move bd)) = squares bd /\
     current (board_undo_null_move (board_make_null_move bd)) = current bd /\
     (forall k, k <> 1 ->
        frame_at (board_undo_null_move (board_make_null_move bd)) k = frame_at bd k) /\
     butterfly (board_undo_null_move (board_make_null_move bd)) = butterfly bd /\
     extra_defenders (board_undo_null_move (board_make_null_move bd)) = extra_defenders bd /\
     game_fullmove_number (board_undo_null_move (board_make_null_move bd))
       = game_fullmove_number bd /\
     game_halfmove_clock_offset (board_undo_null_move (board_make_null_move bd))
       = game_halfmove_clock_offset bd).
Proof.
  intros bd Hr. split.
  - pose proof (null_prelude_state bd) as (Hc & Hs & _).
    pose proof (null_move_frame bd Hr) as (F1 & F2 & F3 & F4 & F5 & _).
    split; [exact Hs|]. split; [exact Hc|].
    split; [exact F1|]. split; [exact F2|]. split; [exact F3|]. split; [exact F4|].
    exact F5.
  - exact (undo_null_move_after bd _ (null_prelude_state bd)).
Qed.

Lemma null_move_round_trip_witness :
  frame_in_range start_position 1 /\
  squares (board_undo_null_move (board_make_null_move start_position))
  = squares start_position.
Proof.
  assert (Hr : frame_in_range start_position 1).
  { unfold frame_in_range. vm_compute. split; [discriminate | reflexivity]. }
  split; [exact Hr|].
  destruct (null_move_round_trip start_position Hr) as (_ & H & _).
  exact H.
Defined.


Lemma logged_cur_in_range bd L M b : logged bd L M b -> frame_in_range b 0.
Proof.
  intros (Hc & Hs & _ & Hr & _). unfold frame_in_range in *. rewrite Hc, Hs. lia.
Qed.

Lemma cur_upd_cur_in_range f b : frame_in_range b 0 -> cur (upd_cur f b) = f (cur b).
Proof.
  intros Hr. rewrite cur_upd_cur. destruct (decide _); [reflexivity | contradiction].
Qed.

Lemma square_at_set_square_ne sq v b sq' :
  sq' <> sq -> square_at (set_square sq v b) sq' = square_at b sq'.
Proof.
  intros H. unfold square_at, set_square. cbn [squares set_squares].
  apply zget_zset_ne. auto.
Qed.

Lemma logged_set_square bd L M b sq v :
  logged bd L M b -> In sq L -> logged bd L (sq :: M) (set_square sq v b).
Proof.
  intros (Hc & Hs & Hsl & Hr & Hu & Hn & Hl & He & Hq & Hm) Hin.
  unfold logged.
  split; [exact Hc|]. split; [exact Hs|].
  split; [unfold set_square; cbn [squares set_squares]; rewrite length_zset; exact Hsl|].
  split; [exact Hr|]. split; [exact Hu|]. split; [exact Hn|]. split; [exact Hl|].
  split; [exact He|]. split.
  - intros sq' Hsq'. rewrite square_at_set_square_ne.
    + apply Hq. intros HM. apply Hsq'. right. exact HM.
    + intros ->. apply Hsq'. left. reflexivity.
  - intros sq' [<-|HM]; [exact Hin | apply Hm; exact HM].
Qed.

Lemma logged_upd_cur bd L M b f :
  (forall fr, undo (f fr) = undo fr) ->
  (forall fr, undo_len (f fr) = undo_len fr) ->
  logged bd L M b -> logged bd L M (upd_cur f b).
Proof.
  intros Hfu Hfl H.
  pose proof (logged_cur_in_range _ _ _ _ H) as Hrange.
  destruct H as (Hc & Hs & Hsl & Hr & Hu & Hn & Hl & He & Hq & Hm).
  unfold logged. rewrite cur_upd_cur_in_range by exact Hrange.
  rewrite Hfu, Hfl.
  split; [exact Hc|].
  split; [unfold upd_cur; rewrite length_stack_upd_frame; exact Hs|].
  split; [exact Hsl|].
  split; [exact Hr|]. split; [exact Hu|]. split; [exact Hn|]. split; [exact Hl|].
  split; [exact He|]. split; [exact Hq | exact Hm].
Qed.

Lemma logged_push bd L M b sq :
  logged bd L M b -> ~ In sq M -> (length L < 6)%nat ->
  logged bd (L ++ [sq]) M (PUSH_UNDO sq b).
Proof.
  intros H Hsq Hlen.
  pose proof (logged_cur_in_range _ _ _ _ H) as Hrange.
  destruct H as (Hc & Hs & Hsl & Hr & Hu & Hn & Hl & He & Hq & Hm).
  unfold logged, PUSH_UNDO. cbv zeta. rewrite cur_upd_cur_in_range by exact Hrange.
  cbn [undo undo_len set_undo set_undo_len].
  rewrite length_zset, length_app. cbn [length].
  split; [exact Hc|].
  split; [unfold upd_cur; rewrite length_stack_upd_frame; exact Hs|].
  split; [exact Hsl|].
  split; [exact Hr|]. split; [exact Hu|].
  split; [lia|]. split; [lia|].
  split; [|split].
  - intros i sq' Hi. rewrite Hn. unfold zset.
    destruct (Z.of_nat (length L) <? 0) eqn:Hneg; [apply Z.ltb_lt in Hneg; lia|].
    rewrite Nat2Z.id.
    destruct (Nat.eq_dec i (length L)) as [->|Hne].
    + rewrite lookup_app_r in Hi by lia. rewrite Nat.sub_diag in Hi.
      cbn in Hi. injection Hi as <-.
      rewrite list_lookup_insert_eq by lia. rewrite Hq by exact Hsq. reflexivity.
    + rewrite list_lookup_insert_ne by lia.
      apply He. apply lookup_lt_Some in Hi as Hlt. rewrite length_app in Hlt.
      cbn in Hlt. rewrite lookup_app_l in Hi by lia. exact Hi.
  - exact Hq.
  - intros sq' HM. apply in_or_app. left. apply Hm. exact HM.
Qed.

(** Writing a slot at or above the end of the log, as the promotions do
    for their mark, changes nothing the undo uses. *)
Lemma logged_mark bd L M b k (v : board_stack_frame -> board_undo) :
  Z.of_nat (length L) <= k ->
  logged bd L M b ->
  logged bd L M (upd_cur (fun fr => set_undo (zset (undo fr) k (v fr)) fr) b).
Proof.
  intros Hk H.
  pose proof (logged_cur_in_range _ _ _ _ H) as Hrange.
  destruct H as (Hc & Hs & Hsl & Hr & Hu & Hn & Hl & He & Hq & Hm).
  unfold logged. rewrite cur_upd_cur_in_range by exact Hrange.
  cbn [undo undo_len set_undo]. rewrite length_zset.
  split; [exact Hc|].
  split; [unfold upd_cur; rewrite length_stack_upd_frame; exact Hs|].
  split; [exact Hsl|].
  split; [exact Hr|]. split; [exact Hu|]. split; [exact Hn|]. split; [exact Hl|].
  split; [|split; [exact Hq | exact Hm]].
  intros i sq Hi. unfold zset.
  destruct (k <? 0) eqn:Hneg; [apply He; exact Hi|].
  apply lookup_lt_Some in Hi as Hlt.
  rewrite list_lookup_insert_ne by lia. apply He. exact Hi.
Qed.

(** The promotions replace the to-square in slot 1 by the decoded one. *)
Lemma logged_relog bd from to b sq :
  logged bd [from; to] [] b ->
  logged bd [from; sq] []
    (upd_cur (fun fr => set_undo (zset (undo fr) UNDO_TO (mk_undo sq (square_at b sq))) fr) b).
Proof.
  intros H.
  pose proof (logged_cur_in_range _ _ _ _ H) as Hrange.
  destruct H as (Hc & Hs & Hsl & Hr & Hu & Hn & Hl & He & Hq & Hm).
  unfold logged. rewrite cur_upd_cur_in_range by exact Hrange.
  cbn [undo undo_len set_undo]. rewrite length_zset.
  split; [exact Hc|].
  split; [unfold upd_cur; rewrite length_stack_upd_frame; exact Hs|].
  split; [exact Hsl|].
  split; [exact Hr|]. split; [exact Hu|]. split; [exact Hn|].
  split; [cbn; lia|].
  split; [|split].
  - intros i sq' Hi. unfold UNDO_TO, zset. cbn [Z.ltb Z.compare Z.to_nat Pos.to_nat Pos.iter_op Nat.add].
    destruct i as [|[|i]]; cbn in Hi.
    + injection Hi as <-. rewrite list_lookup_insert_ne by lia.
      apply (He 0%nat). reflexivity.
    + injection Hi as <-. rewrite list_lookup_insert_eq by lia.
      rewrite Hq by (intros []). reflexivity.
    + discriminate.
  - exact Hq.
  - intros sq' [].
Qed.

(** The part of board_make_move before the call: the log holds the from-
    and the to-square, and no square has been written. *)
Lemma logged_make_prelude move bd :
  room_for_move bd ->
  logged bd [MOVE_FROM (bm_move move); MOVE_TO (bm_move move)] [] (make_prelude move bd).
Proof.
  intros [Hr Hlen]. pose proof Hr as Hr'. unfold frame_in_range in Hr.
  assert (E : exists fr,
    make_prelude move bd = new_frame_of bd fr /\
    undo_len fr = 2 /\
    undo fr = zset (zset (undo (frame_at bd 1)) UNDO_FROM
                      (mk_undo (MOVE_FROM (bm_move move))
                         (square_at bd (MOVE_FROM (bm_move move)))))
                UNDO_TO
                (mk_undo (MOVE_TO (bm_move move))
                   (square_at bd (MOVE_TO (bm_move move))))).
  { eexists. split; [apply board_is_eq|].
    { cbv beta delta [make_prelude].
      let_intro frame Hframe.
      let_intro b1 H1.
      assert (E1 : b1 = mk_board (squares bd) (current bd) (butterfly bd)
                          (zset (stack bd) (current bd + 1)
                             (set_passive (active frame) (frame_at bd 1)))
                          (extra_defenders bd) (game_fullmove_number bd)
                          (game_halfmove_clock_offset bd))
        by (rewrite H1; reflexivity).
      clear H1.
      let_intro b2 H2. rewrite E1, upd_frame_on_copy in H2 by (auto; lia). clear E1 b1.
      let_intro b3 H3. rewrite H2, upd_frame_on_copy in H3 by (auto; lia). clear H2 b2.
      let_intro b4 H4. rewrite H3, upd_frame_on_copy in H4 by (auto; lia). clear H3 b3.
      let_intro b5 H5. rewrite H4, upd_frame_on_copy in H5 by (auto; lia). clear H4 b4.
      let_intro b6 H6. rewrite H5 in H6. unfold set_current in H6. cbn in H6. clear H5 b5.
      let_intro b7 H7. unfold upd_cur in H7.
      rewrite H6, upd_frame_on_copy in H7 by (auto; lia). clear H6 b6.
      let_intro from Hfrom. let_intro to Hto.
      let_intro b8 H8. unfold upd_cur in H8.
      assert (Hsq7 : forall s, square_at b7 s = square_at bd s)
        by (intros; rewrite H7; reflexivity).
      rewrite Hsq7 in H8. rewrite H7, upd_frame_on_copy in H8 by (auto; lia).
      clear Hsq7 H7 b7.
      let_intro b9 H9. unfold upd_cur in H9.
      assert (Hsq8 : forall s, square_at b8 s = square_at bd s)
        by (intros; rewrite H8; reflexivity).
      rewrite Hsq8 in H9. rewrite H8, upd_frame_on_copy in H9 by (auto; lia).
      clear Hsq8 H8 b8.
      unfold upd_cur. rewrite H9, upd_frame_on_copy by (auto; lia).
      subst from to frame. unfold board_is, new_frame_of. reflexivity. }
    split; [reflexivity|].
    cbn [undo set_undo set_undo_len set_node_counter set_halfmove_clock set_material_key
         set_pawn_king_hash set_active set_passive]. reflexivity. }
  destruct E as (fr & E & Hfl & Hfu).
  assert (Hcur : cur (make_prelude move bd) = fr).
  { rewrite E. unfold cur, frame_at, new_frame_of. cbn [stack current].
    rewrite Z.add_0_r. apply zget_zset_eq. lia. }
  unfold logged. rewrite Hcur, Hfl, Hfu. rewrite E.
  unfold new_frame_of. cbn [current stack squares length].
  rewrite !length_zset.
  split; [reflexivity|]. split; [reflexivity|]. split; [reflexivity|].
  split; [exact Hr'|].
  split; [exact Hlen|]. split; [reflexivity|]. split; [lia|].
  split; [|split].
  - intros i sq Hi. unfold UNDO_FROM, UNDO_TO, zset.
    cbn [Z.ltb Z.compare Z.to_nat Pos.to_nat Pos.iter_op Nat.add].
    destruct i as [|[|i]]; cbn in Hi.
    + injection Hi as <-. rewrite list_lookup_insert_ne by lia.
      rewrite list_lookup_insert_eq by lia. reflexivity.
    + injection Hi as <-. rewrite list_lookup_insert_eq by (rewrite length_insert; lia).
      reflexivity.
    + discriminate.
  - intros sq _. reflexivity.
  - intros sq [].
Qed.

(** *** Undoing a logged board *)

Lemma restore_first_frames n b :
  stack (restore_first n b) = stack b /\ current (restore_first n b) = current b.
Proof. induction n as [|n [IH1 IH2]]; [split; reflexivity|]. cbn. split; assumption. Qed.

Lemma cur_restore_first n b : cur (restore_first n b) = cur b.
Proof.
  destruct (restore_first_frames n b) as [Hs Hc]. unfold cur, frame_at. rewrite Hs, Hc.
  reflexivity.
Qed.

Lemma length_squares_restore_first n b :
  length (squares (restore_first n b)) = length (squares b).
Proof.
  induction n as [|n IH]; [reflexivity|]. cbn [restore_first].
  unfold restore_undo. cbv zeta. unfold set_square. cbn [squares set_squares].
  rewrite length_zset. exact IH.
Qed.

Lemma restore_undo_from_first fuel (k : nat) len b :
  (Z.of_nat k + Z.of_nat fuel >= len) ->
  restore_undo_from fuel (Z.of_nat k) len (restore_first k b)
  = restore_first (Z.to_nat (Z.max (Z.of_nat k) len)) b.
Proof.
  revert k. induction fuel as [|fuel IH]; intros k Hk; cbn [restore_undo_from].
  - replace (Z.to_nat (Z.max (Z.of_nat k) len)) with k by lia. reflexivity.
  - destruct (Z.ltb_spec (Z.of_nat k) len) as [Hlt|Hge].
    + replace (Z.of_nat k + 1) with (Z.of_nat (S k)) by lia.
      change (restore_undo (Z.of_nat k) (restore_first k b)) with (restore_first (S k) b).
      rewrite IH by lia. f_equal. lia.
    + replace (Z.to_nat (Z.max (Z.of_nat k) len)) with k by lia. reflexivity.
Qed.

(** board_undo_move restores the slots of the log in order and pops the
    frame. *)
Lemma board_undo_move_restore_first b :
  2 <= undo_len (cur b) ->
  board_undo_move b
  = set_current (current b - 1) (restore_first (Z.to_nat (undo_len (cur b))) b).
Proof.
  intros Hlen. unfold board_undo_move. cbv zeta.
  destruct (Z.gtb_spec (undo_len (cur b)) 2) as [Hgt|Hle].
  - change (restore_undo 2 (restore_undo 1 (restore_undo 0 b)))
      with (restore_first 3 b).
    rewrite (restore_undo_from_first _ 3) by lia.
    destruct (restore_first_frames (Z.to_nat (Z.max (Z.of_nat 3) (undo_len (cur b)))) b)
      as [_ Hc].
    rewrite Hc. do 2 f_equal. lia.
  - assert (E : undo_len (cur b) = 2) by lia. rewrite E.
    reflexivity.
Qed.

Lemma square_at_restore_undo i b sq :
  square_at (restore_undo i b) sq =
  if decide (sq = undo_square (zget zero_undo (undo (cur b)) i)
             /\ 0 <= sq < Z.of_nat (length (squares b)))
  then undo_piece (zget zero_undo (undo (cur b)) i)
  else square_at b sq.
Proof.
  unfold restore_undo. cbv zeta. unfold square_at, set_square. cbn [squares set_squares].
  destruct (decide _) as [[-> Hr]|Hn].
  - apply zget_zset_eq. exact Hr.
  - destruct (Z.eq_dec sq (undo_square (zget zero_undo (undo (cur b)) i))) as [->|Hne].
    + rewrite zset_oob; [reflexivity|]. intros Hr. apply Hn. split; [reflexivity | exact Hr].
    + apply zget_zset_ne. auto.
Qed.

Lemma logged_restore_first bd L M b :
  logged bd L M b ->
  forall n, (n <= length L)%nat ->
  forall sq, (In sq (take n L) \/ ~ In sq M) ->
    square_at (restore_first n b) sq = square_at bd sq.
Proof.
  intros (Hc & Hs & Hsl & Hr & Hu & Hn & Hl & He & Hq & Hm).
  induction n as [|n IH]; intros Hle sq Hsq.
  { cbn in *. destruct Hsq as [[]|Hsq]. apply Hq. exact Hsq. }
  destruct (decide (0 <= sq < Z.of_nat (length (squares bd)))) as [Hin|Hout].
  2: { unfold square_at. rewrite !zget_oob; [reflexivity | exact Hout |].
       rewrite length_squares_restore_first, Hsl. exact Hout. }
  cbn [restore_first]. rewrite square_at_restore_undo, cur_restore_first.
  rewrite length_squares_restore_first.
  destruct (lookup_lt_is_Some_2 L n ltac:(lia)) as [sqn Hsqn].
  pose proof (He n sqn Hsqn) as Hentry.
  assert (Hz : zget zero_undo (undo (cur b)) (Z.of_nat n)
               = mk_undo sqn (square_at bd sqn)).
  { unfold zget. destruct (Z.of_nat n <? 0) eqn:Hneg; [apply Z.ltb_lt in Hneg; lia|].
    rewrite Nat2Z.id, Hentry. reflexivity. }
  rewrite Hz. cbn [undo_square undo_piece].
  destruct (decide _) as [[-> _]|Hno]; [reflexivity|].
  assert (Hne : sq <> sqn) by (intros ->; apply Hno; split; [reflexivity | lia]).
  apply IH; [lia|]. destruct Hsq as [Hi|HM]; [|right; exact HM].
  left. rewrite (take_S_r L n sqn Hsqn) in Hi.
  apply in_app_or in Hi. destruct Hi as [Hi|[Heq|[]]]; [exact Hi | congruence].
Qed.

(** Undoing a board whose log is sound gives back the squares. *)
Lemma logged_undo_squares bd L M b :
  logged bd L M b -> squares (board_undo_move b) = squares bd.
Proof.
  intros H. pose proof H as (Hc & Hs & Hsl & Hr & Hu & Hn & Hl & He & Hq & Hm).
  rewrite board_undo_move_restore_first by lia.
  cbn [squares set_current]. rewrite Hn, Nat2Z.id.
  assert (Hall : forall sq, square_at (restore_first (length L) b) sq = square_at bd sq).
  { intros sq. apply (logged_restore_first _ _ _ _ H); [lia|].
    rewrite firstn_all.
    destruct (In_dec Z.eq_dec sq L) as [Hi|Hi]; [left; exact Hi|].
    right. intros HM. apply Hi, Hm. exact HM. }
  pose proof (length_squares_restore_first (length L) b) as Hlen.
  rewrite Hsl in Hlen.
  apply list_eq. intros i.
  destruct (decide (i < length (squares bd))%nat) as [Hi|Hi].
  - destruct (lookup_lt_is_Some_2 (squares bd) i Hi) as [x Hx].
    destruct (lookup_lt_is_Some_2 (squares (restore_first (length L) b)) i
                ltac:(lia)) as [y Hy].
    specialize (Hall (Z.of_nat i)). unfold square_at, zget in Hall.
    destruct (Z.of_nat i <? 0) eqn:Hneg; [apply Z.ltb_lt in Hneg; lia|].
    rewrite Nat2Z.id, Hx, Hy in Hall. cbn in Hall. rewrite Hy, Hx, Hall. reflexivity.
  - rewrite !lookup_ge_None_2 by lia. reflexivity.
Qed.

(** *** Walking through a move maker *)

Lemma logged_upd_passive bd L M b f :
  logged bd L M b -> logged bd L M (upd_passive f b).
Proof. intros H. unfold upd_passive. apply logged_upd_cur; [reflexivity | reflexivity | exact H]. Qed.

Lemma logged_upd_active bd L M b f :
  logged bd L M b -> logged bd L M (upd_active f b).
Proof. intros H. unfold upd_active. apply logged_upd_cur; [reflexivity | reflexivity | exact H]. Qed.

Lemma logged_hash_from_parent bd L M b d :
  logged bd L M b -> logged bd L M (hash_from_parent d b).
Proof. intros H. unfold hash_from_parent. apply logged_upd_cur; [reflexivity | reflexivity | exact H]. Qed.

Lemma logged_hash_xor bd L M b d :
  logged bd L M b -> logged bd L M (hash_xor d b).
Proof. intros H. unfold hash_xor. apply logged_upd_cur; [reflexivity | reflexivity | exact H]. Qed.

Lemma logged_pawn_king_xor bd L M b d :
  logged bd L M b -> logged bd L M (pawn_king_xor d b).
Proof. intros H. unfold pawn_king_xor. apply logged_upd_cur; [reflexivity | reflexivity | exact H]. Qed.

Lemma logged_material_add bd L M b d :
  logged bd L M b -> logged bd L M (material_add d b).
Proof. intros H. unfold material_add. apply logged_upd_cur; [reflexivity | reflexivity | exact H]. Qed.

Lemma logged_bump_halfmove_clock bd L M b :
  logged bd L M b -> logged bd L M (bump_halfmove_clock b).
Proof.
  intros H. unfold bump_halfmove_clock.
  apply logged_upd_cur; [reflexivity | reflexivity | exact H].
Qed.

Lemma logged_passive_toggle_last_rank bd L M b sq :
  logged bd L M b -> logged bd L M (passive_toggle_last_rank sq b).
Proof. intros H. apply logged_upd_passive. exact H. Qed.

Lemma logged_active_toggle_last_rank bd L M b sq :
  logged bd L M b -> logged bd L M (active_toggle_last_rank sq b).
Proof. intros H. apply logged_upd_active. exact H. Qed.

Lemma logged_passive_xor_rays bd L M b sq rays :
  logged bd L M b -> logged bd L M (passive_xor_rays sq rays b).
Proof.
  intros H. unfold passive_xor_rays. destruct (negb _); [|exact H].
  apply logged_upd_passive. exact H.
Qed.

Lemma logged_active_xor_rays bd L M b sq rays :
  logged bd L M b -> logged bd L M (active_xor_rays sq rays b).
Proof.
  intros H. unfold active_xor_rays. destruct (negb _); [|exact H].
  apply logged_upd_active. exact H.
Qed.

Lemma logged_slider_withdraw_target bd L M b own to :
  logged bd L M b -> logged bd L M (slider_withdraw_target own to b).
Proof.
  intros H. unfold slider_withdraw_target. cbv zeta.
  apply logged_active_xor_rays, logged_passive_xor_rays. exact H.
Qed.

Lemma logged_slider_extend_origin bd L M b own from :
  logged bd L M b -> logged bd L M (slider_extend_origin own from b).
Proof.
  intros H. unfold slider_extend_origin. cbv zeta.
  apply logged_active_xor_rays, logged_passive_xor_rays. exact H.
Qed.

(** A frame update that leaves the undo log alone *)
Lemma logged_upd_cur_neutral bd L M b f :
  logged bd L M b ->
  (forall fr, undo (f fr) = undo fr) ->
  (forall fr, undo_len (f fr) = undo_len fr) ->
  logged bd L M (upd_cur f b).
Proof. intros H H1 H2. apply logged_upd_cur; assumption. Qed.

Lemma logged_piece_at bd L M b sq :
  logged bd L M b -> ~ In sq M -> piece_at b sq = piece_at bd sq.
Proof.
  intros (_ & _ & _ & _ & _ & _ & _ & _ & Hq & _) H. unfold piece_at. rewrite Hq by exact H.
  reflexivity.
Qed.

Ltac in_tac := solve [ repeat rewrite in_app_iff; cbn [In]; auto 12 ].

Ltac len_tac := solve [ repeat rewrite length_app; cbn [length] in *; lia ].

Ltac notin_tac :=
  solve [ cbn [In]; unfold A1, E1, H1, A8, E8, H8, C1, D1, F1, G1, C8, D8, F8, G8,
            BOARD_VECTOR_SOUTH, BOARD_VECTOR_NORTH, E3, E4, E5 in *;
          intuition (try discriminate; try lia; try congruence) ].

(** Stripping the castling tag from a rook pushes its square first. *)
Lemma logged_disable_castle_rook bd L M b rook_sq rook_castle rook z1 z2 delta :
  logged bd L M b -> ~ In rook_sq M -> (length L < 6)%nat ->
  logged bd L M (fst (disable_castle_rook rook_sq rook_castle rook z1 z2 (b, delta))) \/
  logged bd (L ++ [rook_sq]) (rook_sq :: M)
    (fst (disable_castle_rook rook_sq rook_castle rook z1 z2 (b, delta))).
Proof.
  intros H Hn Hl. unfold disable_castle_rook.
  destruct (piece_eqb _ rook_castle); cbn [fst]; [right | left; exact H].
  apply logged_pawn_king_xor. unfold set_piece.
  apply logged_set_square; [|in_tac].
  apply logged_push; assumption.
Qed.

(** The lemma for a step whose result has the same log *)
Ltac neutral_lemma e :=
  lazymatch e with
  | upd_passive _ _ => constr:(logged_upd_passive)
  | upd_active _ _ => constr:(logged_upd_active)
  | hash_from_parent _ _ => constr:(logged_hash_from_parent)
  | hash_xor _ _ => constr:(logged_hash_xor)
  | pawn_king_xor _ _ => constr:(logged_pawn_king_xor)
  | material_add _ _ => constr:(logged_material_add)
  | bump_halfmove_clock _ => constr:(logged_bump_halfmove_clock)
  | passive_toggle_last_rank _ _ => constr:(logged_passive_toggle_last_rank)
  | active_toggle_last_rank _ _ => constr:(logged_active_toggle_last_rank)
  | passive_xor_rays _ _ _ => constr:(logged_passive_xor_rays)
  | active_xor_rays _ _ _ => constr:(logged_active_xor_rays)
  | slider_withdraw_target _ _ _ => constr:(logged_slider_withdraw_target)
  | slider_extend_origin _ _ _ => constr:(logged_slider_extend_origin)
  end.

Ltac last_arg e :=
  lazymatch e with
  | _ ?x => x
  end.

(** The log [L] of the final board extends the log [L0] one started with. *)
Ltac log_finish bd L0 L M H :=
  unfold undoable_from;
  first [ exists (@nil Z), M; rewrite app_nil_r; exact H
        | lazymatch L with
          | L0 ++ ?L' => exists L', M; exact H
          | (L0 ++ ?L1) ++ ?L2 => exists (L1 ++ L2), M; rewrite app_assoc; exact H
          end
        | let n := eval cbv in (length L0) in
          exists (skipn n L), M; exact H ].

(** A step the walk does not know by itself; set further down. *)
Ltac log_step_hook bd L0 e body := fail.

(** The walk pauses before the step [e] when asked to by a marker in the
    context. *)
Ltac log_pause e :=
  lazymatch e with
  | PUSH_UNDO _ _ => lazymatch goal with _ : pause_at_push |- _ => idtac end
  | set_index _ _ _ => lazymatch goal with _ : pause_at_index_write |- _ => idtac end
  end.

Ltac log_walk :=
  lazymatch goal with
  | H : logged ?bd ?L ?M ?x |- undoable_from ?bd ?L0 ?x => log_finish bd L0 L M H
  | |- undoable_from ?bd ?L0 (let x := ?e in @?body x) =>
      lazymatch type of e with
      | board =>
          first [ log_pause e |
          lazymatch e with
          | (let y := ?e1 in @?e2 y) =>
              change (undoable_from bd L0 (let y := e1 in let x := e2 y in body x));
              cbv beta; log_walk
          | (match disable_castle_rook ?a1 ?a2 ?a3 ?a4 ?a5 (?x0, ?d) with pair _ _ => _ end) =>
              lazymatch goal with
              | H0 : logged bd ?L ?M x0 |- _ =>
                  let Hd := fresh "Hd" in
                  assert (Hd : logged bd L M
                                 (fst (disable_castle_rook a1 a2 a3 a4 a5 (x0, d))) \/
                               logged bd (L ++ [a1]) (a1 :: M)
                                 (fst (disable_castle_rook a1 a2 a3 a4 a5 (x0, d))))
                    by (apply (logged_disable_castle_rook bd L M x0 a1 a2 a3 a4 a5 d H0);
                        [notin_tac | len_tac]);
                  destruct (disable_castle_rook a1 a2 a3 a4 a5 (x0, d));
                  cbn [fst app] in Hd; destruct Hd as [Hd|Hd]; cbv beta iota; log_walk
              end
          | (match ?c with _ => _ end) =>
              first [ progress cbv beta iota | destruct c ]; log_walk
          | set_square ?sq ?v ?x0 =>
              lazymatch goal with
              | H0 : logged bd ?L ?M x0 |- _ =>
                  apply (let_step (undoable_from bd L0) e body);
                  let x' := fresh "x" in
                  let Hx := fresh "Hx" in
                  intros x' Hx; cbv beta;
                  assert (logged bd L (sq :: M) x')
                    by (rewrite Hx; apply logged_set_square; [exact H0 | in_tac]);
                  log_walk
              end
          | PUSH_UNDO ?sq ?x0 =>
              lazymatch goal with
              | H0 : logged bd ?L ?M x0 |- _ =>
                  apply (let_step (undoable_from bd L0) e body);
                  let x' := fresh "x" in
                  let Hx := fresh "Hx" in
                  let L' := eval cbn [app] in (L ++ [sq]) in
                  intros x' Hx; cbv beta;
                  assert (logged bd L' M x')
                    by (rewrite Hx; apply (logged_push bd L M x0 sq H0);
                        [notin_tac | len_tac]);
                  log_walk
              end
          | upd_cur ?f ?x0 =>
              lazymatch goal with
              | H0 : logged bd ?L ?M x0 |- _ =>
                  apply (let_step (undoable_from bd L0) e body);
                  let x' := fresh "x" in
                  let Hx := fresh "Hx" in
                  intros x' Hx; cbv beta;
                  first
                    [ assert (logged bd L M x')
                        by (rewrite Hx; apply (logged_upd_cur_neutral bd L M x0 f H0);
                            intros; reflexivity)
                    | lazymatch L with
                      | [?from; ?to] =>
                          lazymatch f with
                          | (fun fr => set_undo (zset (undo fr) UNDO_TO (mk_undo ?sq _)) fr) =>
                              assert (logged bd [from; sq] [] x')
                                by (rewrite Hx; apply (logged_relog bd from to x0 sq H0))
                          end
                      end
                    | assert (logged bd L M x')
                        by (rewrite Hx; cbv zeta; apply logged_mark; [|exact H0];
                            pose proof H0 as (_ & _ & _ & _ & _ & ? & _); lia) ];
                  log_walk
              end
          | _ =>
              first
                [ is_var e;
                  apply (let_step (undoable_from bd L0) e body);
                  let x' := fresh "x" in
                  let Hx := fresh "Hx" in
                  intros x' Hx; cbv beta; subst x'; log_walk
                | let lem := neutral_lemma e in
                  let x0 := last_arg e in
                  lazymatch goal with
                  | H0 : logged bd ?L ?M x0 |- _ =>
                      apply (let_step (undoable_from bd L0) e body);
                      let x' := fresh "x" in
                      let Hx := fresh "Hx" in
                      intros x' Hx; cbv beta;
                      assert (logged bd L M x')
                        by (rewrite Hx; apply lem; exact H0);
                      log_walk
                  end
                | log_step_hook bd L0 e body
                | let h := head_of e in
                  let e' := eval cbv beta delta [h] in e in
                  change (undoable_from bd L0 (let x := e' in body x)); cbv beta; log_walk ]
          end ]
      | _ =>
          apply (let_step (undoable_from bd L0) e body);
          let x' := fresh "v" in
          let Hx := fresh "Hv" in
          intros x' Hx; cbv beta;
          try match goal with
              | Hp : plain_victim _ = true |- _ => rewrite <- Hx in Hp
              end;
          log_walk
      end
  | |- undoable_from ?bd ?L0 (match ?c with _ => _ end) =>
      lazymatch goal with
      | |- undoable_from _ _ ?e =>
          change (undoable_from bd L0 (let x := e in x)); log_walk
      end
  | |- undoable_from ?bd ?L0 ?e =>
      first [ is_var e; fail 1
            | change (undoable_from bd L0 (let x := e in x)); log_walk ]
  end.

Lemma undoable_take_piece bd L b pc sq :
  logged bd L [] b -> plain_victim pc = true -> (length L < 6)%nat ->
  undoable_from bd L (take_piece pc sq b).
Proof.
  intros H Hpv Hlen. destruct pc; try discriminate Hpv; cbn [take_piece].
  all: log_walk.
Qed.

Ltac log_step_hook bd L0 e body ::=
  lazymatch e with
  | take_piece (piece_at ?x0 ?sq) ?sq ?x0 =>
      lazymatch goal with
      | H0 : logged bd ?L [] x0, Hpv : plain_victim (piece_at bd sq) = true |- _ =>
          let E := fresh "E" in
          let x' := fresh "x" in
          let Hx := fresh "Hx" in
          let L' := fresh "L" in
          let M' := fresh "M" in
          let H' := fresh "H" in
          assert (E : piece_at x0 sq = piece_at bd sq)
            by (apply (logged_piece_at bd L [] x0 sq H0); intros []);
          apply (let_step (undoable_from bd L0) e body);
          intros x' Hx; cbv beta;
          rewrite E in Hx;
          destruct (undoable_take_piece bd L x0 (piece_at bd sq) sq H0 Hpv ltac:(len_tac))
            as (L' & M' & H');
          rewrite <- Hx in H'; clear Hx E; log_walk
      end
  end.



Lemma undoable_quiet bd make from to b :
  quiet_maker make = true ->
  logged bd [from; to] [] b -> undoable_from bd [] (call_make make from to b).
Proof.
  intros Hq H. destruct make; try discriminate Hq; cbn [call_make].
  all: log_walk.
Qed.

Lemma undoable_castling bd make from to b :
  castling_squares_ok make from to = true ->
  logged bd [from; to] [] b -> undoable_from bd [] (call_make make from to b).
Proof.
  intros Hq H. destruct make; try discriminate Hq; cbn [call_make castling_squares_ok] in *.
  all: repeat match goal with
       | Hq : (_ && _) = true |- _ => apply andb_true_iff in Hq; destruct Hq
       | Hq : (_ || _) = true |- _ => apply orb_true_iff in Hq; destruct Hq
       | Hq : (_ =? _) = true |- _ => apply Z.eqb_eq in Hq; subst
       end.
  all: log_walk.
Qed.

Lemma undoable_capture bd make from to b :
  capture_maker make = true ->
  plain_victim (piece_at bd to) = true ->
  logged bd [from; to] [] b -> undoable_from bd [] (call_make make from to b).
Proof.
  intros Hq Hpv H. destruct make; try discriminate Hq; cbn [call_make].
  all: log_walk.
Qed.

Lemma undoable_promote bd white kind from to b :
  kind <> prom_knight ->
  plain_victim (piece_at bd (Z.lxor to (xor_prom kind))) = true ->
  logged bd [from; to] [] b -> undoable_from bd [] (promote_generic white kind from to b).
Proof.
  intros Hk Hpv H. destruct kind; try congruence.
  all: cbv beta delta [promote_generic].
  all: log_walk.
Qed.

Lemma round_trip_of_undoable move bd :
  room_for_move bd ->
  (forall b,
     logged bd [MOVE_FROM (bm_move move); MOVE_TO (bm_move move)] [] b ->
     undoable_from bd []
       (call_make (bm_make move) (MOVE_FROM (bm_move move)) (MOVE_TO (bm_move move)) b)) ->
  squares (board_undo_move (board_make_move move bd)) = squares bd.
Proof.
  intros Hroom Hmake. rewrite board_make_move_prelude.
  destruct (Hmake _ (logged_make_prelude move bd Hroom)) as (L & M & H).
  exact (logged_undo_squares _ _ _ _ H).
Qed.

(** X: a quiet move is taken back exactly.  For every move made by one of
    the sixteen makers of plain king, queen, rook, bishop, knight and pawn
    moves, on any board whose stack has room for the new frame,
    board_undo_move after board_make_move gives back the squares of the
    board, piece and list index of every square. *)
Theorem quiet_move_round_trip :
  forall (move : board_move) (bd : board),
    room_for_move bd ->
    quiet_maker (bm_make move) = true ->
    squares (board_undo_move (board_make_move move bd)) = squares bd.
Proof.
  intros move bd Hroom Hq. apply round_trip_of_undoable; [exact Hroom|].
  intros b Hb. apply undoable_quiet; assumption.
Qed.

Lemma quiet_move_round_trip_witness :
  room_for_move start_position /\
  quiet_maker (bm_make pawn_e2e4) = true /\
  squares (board_undo_move (board_make_move pawn_e2e4 start_position))
  = squares start_position.
Proof.
  assert (Hr : room_for_move start_position)
    by (split; [unfold frame_in_range; vm_compute; split; [discriminate | reflexivity]
              | vm_compute; reflexivity]).
  split; [exact Hr|]. split; [reflexivity|].
  exact (quiet_move_round_trip pawn_e2e4 start_position Hr eq_refl).
Defined.

(** X: castling and the moves that give up a castling right are taken
    back exactly.  For the four castling makers called with the king's
    home and castling squares, for a king with castling rights moving from
    its home square and for a rook with castling rights moving from its
    corner, board_undo_move after board_make_move gives back the squares
    of the board, the rook, the king and the castling tags included. *)
Theorem castling_round_trip :
  forall (move : board_move) (bd : board),
    room_for_move bd ->
    castling_squares_ok (bm_make move)
      (MOVE_FROM (bm_move move)) (MOVE_TO (bm_move move)) = true ->
    squares (board_undo_move (board_make_move move bd)) = squares bd.
Proof.
  intros move bd Hroom Hq. apply round_trip_of_undoable; [exact Hroom|].
  intros b Hb. apply undoable_castling; assumption.
Qed.

Lemma castling_round_trip_witness :
  room_for_move castling_position /\
  castling_squares_ok (bm_make castle_king_side)
    (MOVE_FROM (bm_move castle_king_side)) (MOVE_TO (bm_move castle_king_side)) = true /\
  squares (board_undo_move (board_make_move castle_king_side castling_position))
  = squares castling_position.
Proof.
  assert (Hr : room_for_move castling_position)
    by (split; [unfold frame_in_range; vm_compute; split; [discriminate | reflexivity]
              | vm_compute; reflexivity]).
  split; [exact Hr|]. split; [reflexivity|].
  exact (castling_round_trip castle_king_side castling_position Hr eq_refl).
Defined.

(** X: a capture is taken back exactly.  For the makers of captures by
    king, queen, rook, bishop, knight and pawn, when the piece on the
    to-square is neither a knight nor a rook with a castling right,
    board_undo_move after board_make_move gives back the squares of the
    board: the captured piece returns with its list index, and so does the
    piece that had taken over its slot in the piece list. *)
Theorem capture_round_trip :
  forall (move : board_move) (bd : board),
    room_for_move bd ->
    capture_maker (bm_make move) = true ->
    plain_victim (piece_at bd (MOVE_TO (bm_move move))) = true ->
    squares (board_undo_move (board_make_move move bd)) = squares bd.
Proof.
  intros move bd Hroom Hq Hpv. apply round_trip_of_undoable; [exact Hroom|].
  intros b Hb. apply undoable_capture; assumption.
Qed.

Lemma capture_round_trip_witness :
  room_for_move capture_position /\
  capture_maker (bm_make pawn_e4xd5) = true /\
  plain_victim (piece_at capture_position (MOVE_TO (bm_move pawn_e4xd5))) = true /\
  squares (board_make_move pawn_e4xd5 capture_position) <> squares capture_position /\
  squares (board_undo_move (board_make_move pawn_e4xd5 capture_position))
  = squares capture_position.
Proof.
  assert (Hr : room_for_move capture_position)
    by (split; [unfold frame_in_range; vm_compute; split; [discriminate | reflexivity]
              | vm_compute; reflexivity]).
  assert (Hpv : plain_victim (piece_at capture_position (MOVE_TO (bm_move pawn_e4xd5))) = true)
    by (vm_compute; reflexivity).
  split; [exact Hr|]. split; [reflexivity|]. split; [exact Hpv|].
  split; [vm_compute; discriminate|].
  exact (capture_round_trip pawn_e4xd5 capture_position Hr eq_refl Hpv).
Defined.

(** X: a promotion to queen, rook or bishop is taken back exactly.  The
    to-square of the move word is encoded; the maker decodes it and
    repairs the undo log.  When the piece on the decoded square is neither
    a knight nor a rook with a castling right (the square is empty when
    the pawn does not capture), board_undo_move after board_make_move
    gives back the squares of the board. *)
Theorem promotion_round_trip :
  forall (white : bool) (kind : prom_kind) (move prescore : Z) (bd : board),
    room_for_move bd ->
    kind <> prom_knight ->
    plain_victim (piece_at bd (Z.lxor (MOVE_TO move) (xor_prom kind))) = true ->
    squares (board_undo_move
               (board_make_move (mk_move move prescore (promote_fn white kind)) bd))
    = squares bd.
Proof.
  intros white kind move prescore bd Hroom Hk Hpv.
  apply round_trip_of_undoable; [exact Hroom|].
  cbn [bm_make bm_move]. intros b Hb. rewrite call_make_promote.
  apply undoable_promote; assumption.
Qed.

Lemma promotion_round_trip_witness :
  room_for_move promotion_position /\
  prom_queen <> prom_knight /\
  plain_victim (piece_at promotion_position
                  (Z.lxor (MOVE_TO promote_a7a8_queen) (xor_prom prom_queen))) = true /\
  piece_at (board_make_move (mk_move promote_a7a8_queen 0 (promote_fn true prom_queen))
              promotion_position) A8 = board_white_queen /\
  squares (board_undo_move
             (board_make_move (mk_move promote_a7a8_queen 0 (promote_fn true prom_queen))
                promotion_position))
  = squares promotion_position.
Proof.
  assert (Hr : room_for_move promotion_position)
    by (split; [unfold frame_in_range; vm_compute; split; [discriminate | reflexivity]
              | vm_compute; reflexivity]).
  assert (Hk : prom_queen <> prom_knight) by discriminate.
  assert (Hpv : plain_victim (piece_at promotion_position
                  (Z.lxor (MOVE_TO promote_a7a8_queen) (xor_prom prom_queen))) = true)
    by (vm_compute; reflexivity).
  split; [exact Hr|]. split; [exact Hk|]. split; [exact Hpv|].
  split; [vm_compute; reflexivity|].
  exact (promotion_round_trip true prom_queen promote_a7a8_queen 0 promotion_position
           Hr Hk Hpv).
Defined.


Lemma zset_zget_id {A} (d : A) (l : list A) i : zset l i (zget d l i) = l.
Proof.
  destruct (Z_lt_dec i 0) as [Hn|Hn]; [apply zset_oob; lia|].
  destruct (Z_lt_dec i (Z.of_nat (length l))) as [Hl|Hl]; [|apply zset_oob; lia].
  unfold zset, zget.
  destruct (i <? 0) eqn:Hi; [apply Z.ltb_lt in Hi; lia|].
  destruct (l !! Z.to_nat i) eqn:Hlk.
  - simpl. apply list_insert_id. exact Hlk.
  - apply lookup_ge_None_1 in Hlk. lia.
Qed.

(** Writing to a square the index it has changes nothing. *)
Lemma set_index_same sq b : set_index sq (index_at b sq) b = b.
Proof.
  unfold set_index, index_at, piece_at, set_square.
  destruct (square_at b sq) as [pc ix] eqn:E. cbn [sq_piece sq_index].
  rewrite <- E. unfold square_at. rewrite zset_zget_id. destruct b; reflexivity.
Qed.

Lemma pieces_toggles l s :
  pieces (toggles l s) = pieces s /\ nr_pieces (toggles l s) = nr_pieces s.
Proof.
  revert s. induction l as [|p l IH]; intros s; [split; reflexivity|].
  change (toggles (p :: l) s) with (toggles l (toggle p s)).
  destruct (IH (toggle p s)) as [H1 H2]. rewrite H1, H2. split; reflexivity.
Qed.

Lemma pieces_attack_xor_rays bd sq dirs s :
  pieces (attack_xor_rays bd sq dirs s) = pieces s /\
  nr_pieces (attack_xor_rays bd sq dirs s) = nr_pieces s.
Proof. rewrite attack_xor_rays_toggles. apply pieces_toggles. Qed.

Lemma pieces_attack_xor_white_pawn sq s :
  pieces (attack_xor_white_pawn sq s) = pieces s /\
  nr_pieces (attack_xor_white_pawn sq s) = nr_pieces s.
Proof. rewrite attack_xor_white_pawn_toggles. apply pieces_toggles. Qed.

Lemma pieces_attack_xor_black_pawn sq s :
  pieces (attack_xor_black_pawn sq s) = pieces s /\
  nr_pieces (attack_xor_black_pawn sq s) = nr_pieces s.
Proof. rewrite attack_xor_black_pawn_toggles. apply pieces_toggles. Qed.

Lemma kept_set_square bd b sq v :
  victims_kept bd b -> victims_kept bd (set_square sq v b).
Proof. intros H. exact H. Qed.

Lemma kept_upd_cur bd b f :
  (forall fr, pieces (active (f fr)) = pieces (active fr) /\
              nr_pieces (active (f fr)) = nr_pieces (active fr)) ->
  victims_kept bd b -> victims_kept bd (upd_cur f b).
Proof.
  intros Hf (Hr & Hp & Hn). unfold victims_kept.
  rewrite cur_upd_cur_in_range by exact Hr.
  destruct (Hf (cur b)) as [H1 H2]. rewrite H1, H2.
  split; [|split; assumption].
  unfold frame_in_range, upd_cur in *. rewrite length_stack_upd_frame. exact Hr.
Qed.

Lemma kept_upd_passive bd b g :
  victims_kept bd b -> victims_kept bd (upd_passive g b).
Proof. intros H. unfold upd_passive. apply kept_upd_cur; [intros; split; reflexivity | exact H]. Qed.

Lemma kept_upd_active bd b g :
  (forall s, pieces (g s) = pieces s /\ nr_pieces (g s) = nr_pieces s) ->
  victims_kept bd b -> victims_kept bd (upd_active g b).
Proof.
  intros Hg H. unfold upd_active. apply kept_upd_cur; [|exact H].
  intros fr. cbn [active set_active]. apply Hg.
Qed.

Lemma kept_passive_xor_rays bd b sq rays :
  victims_kept bd b -> victims_kept bd (passive_xor_rays sq rays b).
Proof.
  intros H. unfold passive_xor_rays. destruct (negb _); [|exact H].
  apply kept_upd_passive. exact H.
Qed.

Lemma kept_active_xor_rays bd b sq rays :
  victims_kept bd b -> victims_kept bd (active_xor_rays sq rays b).
Proof.
  intros H. unfold active_xor_rays. destruct (negb _); [|exact H].
  apply kept_upd_active; [|exact H]. intros s. apply pieces_attack_xor_rays.
Qed.

Lemma kept_make_prelude move bd :
  room_for_move bd -> victims_kept bd (make_prelude move bd).
Proof.
  intros [Hr _]. destruct (make_prelude_frames move bd Hr) as (fr & _ & _ & Ha & _ & ->).
  unfold frame_in_range in Hr.
  assert (Hcur : cur (new_frame_of bd fr) = fr).
  { unfold cur, frame_at, new_frame_of. cbn [stack current].
    rewrite Z.add_0_r. apply zget_zset_eq. lia. }
  unfold victims_kept. rewrite Hcur, Ha.
  split; [|split; reflexivity].
  unfold frame_in_range, new_frame_of. cbn [stack current]. rewrite length_zset. lia.
Qed.

(** Carries [victims_kept] along the equations the walk has left. *)
Ltac kept_step :=
  match goal with
  | K : victims_kept ?bd ?x0, Hx : ?x' = ?e |- _ =>
      lazymatch e with
      | context [x0] => idtac
      end;
      lazymatch goal with
      | _ : victims_kept bd x' |- _ => fail
      | _ => idtac
      end;
      assert (victims_kept bd x')
        by (rewrite Hx;
            first [ apply kept_set_square; exact K
                  | apply kept_passive_xor_rays; exact K
                  | apply kept_active_xor_rays; exact K
                  | apply kept_upd_passive; exact K
                  | apply kept_upd_active;
                    [intros;
                     repeat match goal with
                            | Hv : ?g = _ |- context [?g] => is_var g; rewrite Hv
                            end;
                     cbv beta iota;
                     first [ apply pieces_attack_xor_white_pawn
                                   | apply pieces_attack_xor_black_pawn
                                   | apply pieces_attack_xor_rays ]
                    | exact K]
                  | unfold hash_from_parent, pawn_king_xor, material_add;
                    apply kept_upd_cur; [intros; split; reflexivity | exact K] ])
  end.

(** The last piece of the list is about to be pushed: it is not on the
    to-square. *)
Ltac ep_last_piece bd to Hlast :=
  lazymatch goal with
  | |- undoable_from _ _ (let x := PUSH_UNDO ?other ?x0 in _) =>
      lazymatch goal with
      | Ho : other = active_pieces x0 ?nr,
        Hn : ?nr = nr_pieces (active (cur x0)) - 1,
        K' : victims_kept bd x0 |- _ =>
          let Kp := fresh "Kp" in
          let Kn := fresh "Kn" in
          assert (other <> to)
            by (rewrite Ho, Hn; unfold active_pieces, piece_sq;
                destruct K' as (_ & Kp & Kn); rewrite Kp, Kn; exact Hlast)
      end
  end.

(** The index of the captured pawn is written to the square of the last
    piece: nothing changes when that piece is the captured pawn. *)
Ltac ep_index_write bd :=
  lazymatch goal with
  | |- undoable_from _ ?L0 (let x := set_index ?other ?index ?x1 in @?body x) =>
      lazymatch goal with
      | Hi : index = index_at ?xa ?victim, H1 : logged bd ?L ?M x1,
        Hx1 : x1 = PUSH_UNDO other ?xa |- _ =>
          destruct (Z.eq_dec other victim) as [Hsame|Hdiff];
          [ let E := fresh "E" in
            assert (E : set_index other index x1 = x1)
              by (rewrite Hi, <- Hsame;
                  replace (index_at xa other) with (index_at x1 other)
                    by (rewrite Hx1; reflexivity);
                  apply set_index_same);
            apply (let_step (undoable_from bd L0) (set_index other index x1) body);
            let x' := fresh "x" in
            let Hx := fresh "Hx" in
            intros x' Hx; cbv beta;
            assert (logged bd L M x') by (rewrite Hx, E; exact H1)
          | idtac ]
      end
  end.

Lemma undoable_enpassant bd white from to b :
  piece_sq (passive (cur bd)) (nr_pieces (passive (cur bd)) - 1) <> to ->
  victims_kept bd b ->
  logged bd [from; to] [] b ->
  undoable_from bd [] (enpassant_generic white from to b).
Proof.
  intros Hlast K H.
  pose proof I as Hpp. change True with pause_at_push in Hpp.
  pose proof I as Hpi. change True with pause_at_index_write in Hpi.
  destruct white; cbv beta delta [enpassant_generic].
  all: log_walk.
  all: repeat kept_step.
  all: ep_last_piece bd to Hlast.
  all: clear Hpp; log_walk.
  all: ep_index_write bd.
  all: clear Hpi.
  all: log_walk.
Qed.

(** X: an en-passant capture is taken back exactly.  For the two
    en-passant makers, on a board where the last piece of the list of the
    side that loses the pawn does not stand on the to-square,
    board_undo_move after board_make_move gives back the squares of the
    board: the capturing pawn, the captured pawn beside the to-square and
    the index of the piece that took over its slot in the list. *)
Theorem en_passant_round_trip :
  forall (move : board_move) (bd : board),
    room_for_move bd ->
    bm_make move = fn_enpassant_with_white_pawn \/
    bm_make move = fn_enpassant_with_black_pawn ->
    passive_pieces bd (nr_pieces (passive (cur bd)) - 1) <> MOVE_TO (bm_move move) ->
    squares (board_undo_move (board_make_move move bd)) = squares bd.
Proof.
  intros move bd Hroom Hmake Hlast.
  rewrite board_make_move_prelude.
  pose proof (logged_make_prelude move bd Hroom) as H.
  pose proof (kept_make_prelude move bd Hroom) as K.
  assert (Hu : undoable_from bd []
                 (call_make (bm_make move) (MOVE_FROM (bm_move move))
                    (MOVE_TO (bm_move move)) (make_prelude move bd))).
  { destruct Hmake as [-> | ->]; cbn [call_make];
      unfold enpassant_with_white_pawn, enpassant_with_black_pawn;
      apply undoable_enpassant; assumption. }
  destruct Hu as (L & M & HL).
  exact (logged_undo_squares _ _ _ _ HL).
Qed.

Lemma en_passant_round_trip_witness :
  room_for_move pawn_check_position /\
  (bm_make en_passant_d4e3 = fn_enpassant_with_white_pawn \/
   bm_make en_passant_d4e3 = fn_enpassant_with_black_pawn) /\
  passive_pieces pawn_check_position
    (nr_pieces (passive (cur pawn_check_position)) - 1)
    <> MOVE_TO (bm_move en_passant_d4e3) /\
  piece_at (board_make_move en_passant_d4e3 pawn_check_position) E4 = board_empty /\
  squares (board_undo_move (board_make_move en_passant_d4e3 pawn_check_position))
  = squares pawn_check_position.
Proof.
  assert (Hr : room_for_move pawn_check_position)
    by (split; [unfold frame_in_range; vm_compute; split; [discriminate | reflexivity]
              | vm_compute; reflexivity]).
  assert (Hm : bm_make en_passant_d4e3 = fn_enpassant_with_white_pawn \/
               bm_make en_passant_d4e3 = fn_enpassant_with_black_pawn)
    by (right; reflexivity).
  assert (Hl : passive_pieces pawn_check_position
                 (nr_pieces (passive (cur pawn_check_position)) - 1)
               <> MOVE_TO (bm_move en_passant_d4e3))
    by (vm_compute; discriminate).
  split; [exact Hr|]. split; [exact Hm|]. split; [exact Hl|].
  split; [vm_compute; reflexivity|].
  exact (en_passant_round_trip en_passant_d4e3 pawn_check_position Hr Hm Hl).
Defined.
